(** * PeerConnection core of the WebRTC endpoint (peerconnection.go)

    A shallow embedding of the signaling state machine, the SDP builder
    and reader, the transceiver "satisfy" procedure, the data-channel id
    allocator and the close path of [PeerConnection], with the properties
    the specification states about them.

    Conventions.
    - A Go method [func (pc *PeerConnection) f(args) (r, error)] is a
      function from the connection and the arguments to the new
      connection and the result.  [error] is a value, a nil error is
      [None].
    - Collaborators outside peerconnection.go (the SDP parser, the ICE,
      DTLS and SCTP transports, the media engine, helpers of sibling
      files) are fields of an environment record [Env]; a theorem holds
      for every environment unless it names one.
    - Calls on collaborators and handler dispatches are appended to the
      connection's [calls] log, so that "nothing was stopped" or "the
      callback did not fire" are statements about that log.
    - uint16 values are [Z] with the wrap-around written out. *)

From Stdlib Require Import ZArith String Ascii List Bool Lia.
From stdpp Require Import base decidable option list gmap strings pretty.

Local Open Scope Z_scope.
Local Open Scope string_scope.
Local Open Scope list_scope.

(** ** Enumerations *)

Inductive SDPType :=
| SDPTypeUnknown
| SDPTypeOffer
| SDPTypePranswer
| SDPTypeAnswer
| SDPTypeRollback.

Inductive SignalingState :=
| SignalingStateStable
| SignalingStateHaveLocalOffer
| SignalingStateHaveRemoteOffer
| SignalingStateHaveLocalPranswer
| SignalingStateHaveRemotePranswer
| SignalingStateClosed.

(** [stateChangeOp] is an integer type in Go; [stateChangeOpInvalid]
    stands for every value that is neither of the two named ones. *)
Inductive stateChangeOp :=
| stateChangeOpInvalid
| stateChangeOpSetLocal
| stateChangeOpSetRemote.

Inductive PeerConnectionState :=
| PeerConnectionStateNew
| PeerConnectionStateClosed.

Inductive SDPSemantics :=
| SDPSemanticsUnifiedPlan
| SDPSemanticsPlanB
| SDPSemanticsUnifiedPlanWithFallback.

(** The zero value of [RTPCodecType] is what [NewRTPCodecType] returns for
    a medium that is neither audio nor video. *)
Inductive RTPCodecType :=
| RTPCodecTypeZero
| RTPCodecTypeAudio
| RTPCodecTypeVideo.

Inductive RTPTransceiverDirection :=
| RTPTransceiverDirectionUnknown
| RTPTransceiverDirectionSendrecv
| RTPTransceiverDirectionSendonly
| RTPTransceiverDirectionRecvonly
| RTPTransceiverDirectionInactive.

#[global] Instance SDPType_eq_dec : EqDecision SDPType.
Proof. solve_decision. Defined.
#[global] Instance SignalingState_eq_dec : EqDecision SignalingState.
Proof. solve_decision. Defined.
#[global] Instance stateChangeOp_eq_dec : EqDecision stateChangeOp.
Proof. solve_decision. Defined.
#[global] Instance SDPSemantics_eq_dec : EqDecision SDPSemantics.
Proof. solve_decision. Defined.
#[global] Instance RTPCodecType_eq_dec : EqDecision RTPCodecType.
Proof. solve_decision. Defined.
#[global] Instance RTPTransceiverDirection_eq_dec : EqDecision RTPTransceiverDirection.
Proof. solve_decision. Defined.

(** ** Errors

    [rtcerr] wraps an underlying error in a kind; [fmt.Errorf] values are
    [Errorf] with their text.  The two "invalid state change op" messages
    are formatted from the operation and the type, whose [String] methods
    are outside this file, so they keep their arguments instead of a
    text. *)

Inductive base_error :=
| ErrConnectionClosed
| ErrNoRemoteDescription
| ErrIncorrectSDPSemantics
| ErrMaxDataChannelID
| ErrRetransmitsOrPacketLifeTime
| ErrCertificateExpired
| ErrModifyingPeerIdentity
| ErrModifyingCertificates
| ErrModifyingBundlePolicy
| ErrModifyingRTCPMuxPolicy
| ErrModifyingICECandidatePoolSize
| ErrInvalidStateChangeOp (op : stateChangeOp) (ty : SDPType)
| ErrUnhandledStateChangeOp (op : stateChangeOp)
| ErrInvalidTransition (cur : SignalingState) (op : stateChangeOp)
    (ty : SDPType) (next : SignalingState)
| ErrInvalidSDPType (ty : SDPType)
| Errorf (msg : string)
| ErrCollaborator (msg : string).

Inductive error :=
| InvalidStateError (Err : base_error)
| InvalidModificationError (Err : base_error)
| InvalidAccessError (Err : base_error)
| TypeError (Err : base_error)
| OperationError (Err : base_error)
| UnknownError (Err : base_error)
| PlainError (Err : base_error)
| WrappedError (msg : string) (cause : error)
| RuntimePanic (msg : string).

(** ** The SDP document abstraction (github.com/pion/sdp)

    Only what peerconnection.go reads and writes: session-level and
    media-level attributes and the media name.  The builder methods
    append to the attribute lists. *)

Module sdp.

Record Attribute := { Key : string; Value : string }.

Record MediaName := {
  Media : string;
  Port : Z;
  Protos : list string;
  Formats : list string }.

Record ConnectionInformation := {
  NetworkType : string;
  AddressType : string;
  Address : string }.

Record MediaDescription := {
  mediaName : MediaName;
  connectionInformation : option ConnectionInformation;
  mediaAttributes : list Attribute }.

Record SessionDescription := {
  Attributes : list Attribute;
  MediaDescriptions : list MediaDescription }.

Definition AttrKeyGroup := "group".
Definition AttrKeyMID := "mid".
Definition AttrKeyConnectionSetup := "setup".
Definition AttrKeyRTCPMux := "rtcp-mux".
Definition AttrKeyRTCPRsize := "rtcp-rsize".
Definition AttrKeySSRC := "ssrc".

Definition NewJSEPSessionDescription : SessionDescription :=
  {| Attributes := []; MediaDescriptions := [] |}.

Definition WithValueAttribute (key value : string) (d : SessionDescription)
  : SessionDescription :=
  {| Attributes := Attributes d ++ [ {| Key := key; Value := value |} ];
     MediaDescriptions := MediaDescriptions d |}.

Definition WithFingerprint (algorithm value : string) (d : SessionDescription)
  : SessionDescription :=
  WithValueAttribute "fingerprint" (algorithm +:+ " " +:+ value) d.

Definition WithMedia (m : MediaDescription) (d : SessionDescription)
  : SessionDescription :=
  {| Attributes := Attributes d;
     MediaDescriptions := MediaDescriptions d ++ [m] |}.

Definition mediaWithAttributes (attrs : list Attribute) (m : MediaDescription)
  : MediaDescription :=
  {| mediaName := mediaName m;
     connectionInformation := connectionInformation m;
     mediaAttributes := mediaAttributes m ++ attrs |}.

Definition mediaWithValueAttribute (key value : string) :=
  mediaWithAttributes [ {| Key := key; Value := value |} ].

Definition mediaWithPropertyAttribute (key : string) :=
  mediaWithAttributes [ {| Key := key; Value := "" |} ].

Definition mediaWithICECredentials (ufrag pwd : string) (m : MediaDescription) :=
  mediaWithValueAttribute "ice-pwd" pwd (mediaWithValueAttribute "ice-ufrag" ufrag m).

Definition mediaWithFormat (f : string) (m : MediaDescription) : MediaDescription :=
  {| mediaName :=
       {| Media := Media (mediaName m); Port := Port (mediaName m);
          Protos := Protos (mediaName m);
          Formats := Formats (mediaName m) ++ [f] |};
     connectionInformation := connectionInformation m;
     mediaAttributes := mediaAttributes m |}.

Definition NewJSEPMediaDescription (codecType : string) : MediaDescription :=
  {| mediaName := {| Media := codecType; Port := 9;
                     Protos := ["UDP"; "TLS"; "RTP"; "SAVPF"]; Formats := [] |};
     connectionInformation :=
       Some {| NetworkType := "IN"; AddressType := "IP4"; Address := "0.0.0.0" |};
     mediaAttributes := [] |}.

(** [Attribute(key)] of a session or a media section: the value of the
    first attribute with that key. *)
Fixpoint lookupAttribute (key : string) (attrs : list Attribute) : option string :=
  match attrs with
  | [] => None
  | a :: rest => if String.eqb (Key a) key then Some (Value a)
                 else lookupAttribute key rest
  end.

(** [a.String()]: the key alone for a property attribute, key, colon and
    value otherwise. *)
Definition attributeString (a : Attribute) : string :=
  if String.eqb (Value a) "" then Key a else Key a +:+ ":" +:+ Value a.

Definition IsICECandidate (a : Attribute) : bool := String.eqb (Key a) "candidate".

End sdp.

(** ** Session descriptions and the signaling state machine *)

Record SessionDescription := {
  desc_Type : SDPType;
  desc_SDP : string;
  desc_parsed : option sdp.SessionDescription }.

(** Calls that leave the connection: handler dispatches and calls on the
    transports, in the order they are made. *)
Inductive Call :=
| CallSignalingStateHandler (s : SignalingState)
| CallICETransportStop
| CallDTLSTransportStop
| CallSCTPTransportStop
| CallTransceiverStop (i : nat)
| CallAddRemoteCandidate (candidate : string)
| CallSignalCandidates
| CallGather
| CallDataChannelOpen (id : Z)
| CallWriteRTCP (raw : string).

(** ** Transceivers, tracks, data channels, configuration *)

Record Track := {
  track_kind : RTPCodecType;
  track_ssrc : Z;
  track_id : string;
  track_label : string;
  track_payloadType : Z }.

Record RTPSender := { sender_track : option Track; sender_hasSent : bool }.

Record RTPReceiver := { receiver_Track : option Track }.

Record RTPTransceiver := {
  Sender : option RTPSender;
  Receiver : option RTPReceiver;
  Direction : RTPTransceiverDirection;
  kind : RTPCodecType;
  stopped : bool }.

Record RTPCodec := {
  codec_PayloadType : Z;
  codec_Name : string;
  codec_ClockRate : Z;
  codec_Channels : Z;
  codec_SDPFmtpLine : string;
  codec_RTCPFeedback : list (string * string) }.

Record ICEParameters := { UsernameFragment : string; Password : string }.

(** A local or remote ICE candidate, opaque to this file. *)
Definition ICECandidate := string.

Record DataChannelParameters := {
  param_Label : string;
  param_ID : Z;
  param_Ordered : bool;
  param_MaxPacketLifeTime : option Z;
  param_MaxRetransmits : option Z }.

Record DataChannelInit := {
  init_Ordered : option bool;
  init_MaxPacketLifeTime : option Z;
  init_MaxRetransmits : option Z;
  init_ID : option Z }.

Record DataChannel := {
  dc_label : string;
  dc_id : Z;
  dc_ordered : bool;
  dc_maxPacketLifeTime : option Z;
  dc_maxRetransmits : option Z }.

Record SCTPTransport := { MaxChannels : Z; association : bool }.

Definition ICEServer := list string.
Definition Certificate := string.

(** The policies are integer enumerations whose zero value is [Unknown]. *)
Definition Unknown : Z := 0.

Record Configuration := {
  ICEServers : list ICEServer;
  ICETransportPolicy : Z;
  BundlePolicy : Z;
  RTCPMuxPolicy : Z;
  PeerIdentity : string;
  Certificates : list Certificate;
  ICECandidatePoolSize : Z;
  SDPSemantics_ : SDPSemantics }.

Record PeerConnection := {
  configuration : Configuration;
  currentLocalDescription : option SessionDescription;
  pendingLocalDescription : option SessionDescription;
  currentRemoteDescription : option SessionDescription;
  pendingRemoteDescription : option SessionDescription;
  signalingState : SignalingState;
  connectionState : PeerConnectionState;
  idpLoginURL : option string;
  isClosed : bool;
  lastOffer : string;
  lastAnswer : string;
  rtpTransceivers : list RTPTransceiver;
  dataChannels : gmap Z DataChannel;
  dataChannelsRequested : Z;
  onSignalingStateChangeHandler : bool;
  iceTransport : bool;
  sctpTransport : option SCTPTransport;
  calls : list Call }.

(** Field assignments [pc.f = v]. *)

Definition set_configuration (v : Configuration) (pc : PeerConnection)
  : PeerConnection :=
  {| configuration := v; currentLocalDescription := currentLocalDescription pc;
     pendingLocalDescription := pendingLocalDescription pc;
     currentRemoteDescription := currentRemoteDescription pc;
     pendingRemoteDescription := pendingRemoteDescription pc;
     signalingState := signalingState pc; connectionState := connectionState pc;
     idpLoginURL := idpLoginURL pc; isClosed := isClosed pc; lastOffer := lastOffer pc;
     lastAnswer := lastAnswer pc; rtpTransceivers := rtpTransceivers pc;
     dataChannels := dataChannels pc; dataChannelsRequested := dataChannelsRequested pc;
     onSignalingStateChangeHandler := onSignalingStateChangeHandler pc;
     iceTransport := iceTransport pc; sctpTransport := sctpTransport pc;
     calls := calls pc |}.

Definition set_currentLocalDescription (v : option SessionDescription) (pc : PeerConnection)
  : PeerConnection :=
  {| configuration := configuration pc; currentLocalDescription := v;
     pendingLocalDescription := pendingLocalDescription pc;
     currentRemoteDescription := currentRemoteDescription pc;
     pendingRemoteDescription := pendingRemoteDescription pc;
     signalingState := signalingState pc; connectionState := connectionState pc;
     idpLoginURL := idpLoginURL pc; isClosed := isClosed pc; lastOffer := lastOffer pc;
     lastAnswer := lastAnswer pc; rtpTransceivers := rtpTransceivers pc;
     dataChannels := dataChannels pc; dataChannelsRequested := dataChannelsRequested pc;
     onSignalingStateChangeHandler := onSignalingStateChangeHandler pc;
     iceTransport := iceTransport pc; sctpTransport := sctpTransport pc;
     calls := calls pc |}.

Definition set_pendingLocalDescription (v : option SessionDescription) (pc : PeerConnection)
  : PeerConnection :=
  {| configuration := configuration pc;
     currentLocalDescription := currentLocalDescription pc;
     pendingLocalDescription := v;
     currentRemoteDescription := currentRemoteDescription pc;
     pendingRemoteDescription := pendingRemoteDescription pc;
     signalingState := signalingState pc; connectionState := connectionState pc;
     idpLoginURL := idpLoginURL pc; isClosed := isClosed pc; lastOffer := lastOffer pc;
     lastAnswer := lastAnswer pc; rtpTransceivers := rtpTransceivers pc;
     dataChannels := dataChannels pc; dataChannelsRequested := dataChannelsRequested pc;
     onSignalingStateChangeHandler := onSignalingStateChangeHandler pc;
     iceTransport := iceTransport pc; sctpTransport := sctpTransport pc;
     calls := calls pc |}.

Definition set_currentRemoteDescription (v : option SessionDescription) (pc : PeerConnection)
  : PeerConnection :=
  {| configuration := configuration pc;
     currentLocalDescription := currentLocalDescription pc;
     pendingLocalDescription := pendingLocalDescription pc;
     currentRemoteDescription := v;
     pendingRemoteDescription := pendingRemoteDescription pc;
     signalingState := signalingState pc; connectionState := connectionState pc;
     idpLoginURL := idpLoginURL pc; isClosed := isClosed pc; lastOffer := lastOffer pc;
     lastAnswer := lastAnswer pc; rtpTransceivers := rtpTransceivers pc;
     dataChannels := dataChannels pc; dataChannelsRequested := dataChannelsRequested pc;
     onSignalingStateChangeHandler := onSignalingStateChangeHandler pc;
     iceTransport := iceTransport pc; sctpTransport := sctpTransport pc;
     calls := calls pc |}.

Definition set_pendingRemoteDescription (v : option SessionDescription) (pc : PeerConnection)
  : PeerConnection :=
  {| configuration := configuration pc;
     currentLocalDescription := currentLocalDescription pc;
     pendingLocalDescription := pendingLocalDescription pc;
     currentRemoteDescription := currentRemoteDescription pc;
     pendingRemoteDescription := v; signalingState := signalingState pc;
     connectionState := connectionState pc; idpLoginURL := idpLoginURL pc;
     isClosed := isClosed pc; lastOffer := lastOffer pc; lastAnswer := lastAnswer pc;
     rtpTransceivers := rtpTransceivers pc; dataChannels := dataChannels pc;
     dataChannelsRequested := dataChannelsRequested pc;
     onSignalingStateChangeHandler := onSignalingStateChangeHandler pc;
     iceTransport := iceTransport pc; sctpTransport := sctpTransport pc;
     calls := calls pc |}.

Definition set_signalingState (v : SignalingState) (pc : PeerConnection)
  : PeerConnection :=
  {| configuration := configuration pc;
     currentLocalDescription := currentLocalDescription pc;
     pendingLocalDescription := pendingLocalDescription pc;
     currentRemoteDescription := currentRemoteDescription pc;
     pendingRemoteDescription := pendingRemoteDescription pc; signalingState := v;
     connectionState := connectionState pc; idpLoginURL := idpLoginURL pc;
     isClosed := isClosed pc; lastOffer := lastOffer pc; lastAnswer := lastAnswer pc;
     rtpTransceivers := rtpTransceivers pc; dataChannels := dataChannels pc;
     dataChannelsRequested := dataChannelsRequested pc;
     onSignalingStateChangeHandler := onSignalingStateChangeHandler pc;
     iceTransport := iceTransport pc; sctpTransport := sctpTransport pc;
     calls := calls pc |}.

Definition set_connectionState (v : PeerConnectionState) (pc : PeerConnection)
  : PeerConnection :=
  {| configuration := configuration pc;
     currentLocalDescription := currentLocalDescription pc;
     pendingLocalDescription := pendingLocalDescription pc;
     currentRemoteDescription := currentRemoteDescription pc;
     pendingRemoteDescription := pendingRemoteDescription pc;
     signalingState := signalingState pc; connectionState := v;
     idpLoginURL := idpLoginURL pc; isClosed := isClosed pc; lastOffer := lastOffer pc;
     lastAnswer := lastAnswer pc; rtpTransceivers := rtpTransceivers pc;
     dataChannels := dataChannels pc; dataChannelsRequested := dataChannelsRequested pc;
     onSignalingStateChangeHandler := onSignalingStateChangeHandler pc;
     iceTransport := iceTransport pc; sctpTransport := sctpTransport pc;
     calls := calls pc |}.

Definition set_isClosed (v : bool) (pc : PeerConnection)
  : PeerConnection :=
  {| configuration := configuration pc;
     currentLocalDescription := currentLocalDescription pc;
     pendingLocalDescription := pendingLocalDescription pc;
     currentRemoteDescription := currentRemoteDescription pc;
     pendingRemoteDescription := pendingRemoteDescription pc;
     signalingState := signalingState pc; connectionState := connectionState pc;
     idpLoginURL := idpLoginURL pc; isClosed := v; lastOffer := lastOffer pc;
     lastAnswer := lastAnswer pc; rtpTransceivers := rtpTransceivers pc;
     dataChannels := dataChannels pc; dataChannelsRequested := dataChannelsRequested pc;
     onSignalingStateChangeHandler := onSignalingStateChangeHandler pc;
     iceTransport := iceTransport pc; sctpTransport := sctpTransport pc;
     calls := calls pc |}.

Definition set_lastOffer (v : string) (pc : PeerConnection)
  : PeerConnection :=
  {| configuration := configuration pc;
     currentLocalDescription := currentLocalDescription pc;
     pendingLocalDescription := pendingLocalDescription pc;
     currentRemoteDescription := currentRemoteDescription pc;
     pendingRemoteDescription := pendingRemoteDescription pc;
     signalingState := signalingState pc; connectionState := connectionState pc;
     idpLoginURL := idpLoginURL pc; isClosed := isClosed pc; lastOffer := v;
     lastAnswer := lastAnswer pc; rtpTransceivers := rtpTransceivers pc;
     dataChannels := dataChannels pc; dataChannelsRequested := dataChannelsRequested pc;
     onSignalingStateChangeHandler := onSignalingStateChangeHandler pc;
     iceTransport := iceTransport pc; sctpTransport := sctpTransport pc;
     calls := calls pc |}.

Definition set_lastAnswer (v : string) (pc : PeerConnection)
  : PeerConnection :=
  {| configuration := configuration pc;
     currentLocalDescription := currentLocalDescription pc;
     pendingLocalDescription := pendingLocalDescription pc;
     currentRemoteDescription := currentRemoteDescription pc;
     pendingRemoteDescription := pendingRemoteDescription pc;
     signalingState := signalingState pc; connectionState := connectionState pc;
     idpLoginURL := idpLoginURL pc; isClosed := isClosed pc; lastOffer := lastOffer pc;
     lastAnswer := v; rtpTransceivers := rtpTransceivers pc;
     dataChannels := dataChannels pc; dataChannelsRequested := dataChannelsRequested pc;
     onSignalingStateChangeHandler := onSignalingStateChangeHandler pc;
     iceTransport := iceTransport pc; sctpTransport := sctpTransport pc;
     calls := calls pc |}.

Definition set_rtpTransceivers (v : list RTPTransceiver) (pc : PeerConnection)
  : PeerConnection :=
  {| configuration := configuration pc;
     currentLocalDescription := currentLocalDescription pc;
     pendingLocalDescription := pendingLocalDescription pc;
     currentRemoteDescription := currentRemoteDescription pc;
     pendingRemoteDescription := pendingRemoteDescription pc;
     signalingState := signalingState pc; connectionState := connectionState pc;
     idpLoginURL := idpLoginURL pc; isClosed := isClosed pc; lastOffer := lastOffer pc;
     lastAnswer := lastAnswer pc; rtpTransceivers := v; dataChannels := dataChannels pc;
     dataChannelsRequested := dataChannelsRequested pc;
     onSignalingStateChangeHandler := onSignalingStateChangeHandler pc;
     iceTransport := iceTransport pc; sctpTransport := sctpTransport pc;
     calls := calls pc |}.

Definition set_dataChannels (v : gmap Z DataChannel) (pc : PeerConnection)
  : PeerConnection :=
  {| configuration := configuration pc;
     currentLocalDescription := currentLocalDescription pc;
     pendingLocalDescription := pendingLocalDescription pc;
     currentRemoteDescription := currentRemoteDescription pc;
     pendingRemoteDescription := pendingRemoteDescription pc;
     signalingState := signalingState pc; connectionState := connectionState pc;
     idpLoginURL := idpLoginURL pc; isClosed := isClosed pc; lastOffer := lastOffer pc;
     lastAnswer := lastAnswer pc; rtpTransceivers := rtpTransceivers pc;
     dataChannels := v; dataChannelsRequested := dataChannelsRequested pc;
     onSignalingStateChangeHandler := onSignalingStateChangeHandler pc;
     iceTransport := iceTransport pc; sctpTransport := sctpTransport pc;
     calls := calls pc |}.

Definition set_dataChannelsRequested (v : Z) (pc : PeerConnection)
  : PeerConnection :=
  {| configuration := configuration pc;
     currentLocalDescription := currentLocalDescription pc;
     pendingLocalDescription := pendingLocalDescription pc;
     currentRemoteDescription := currentRemoteDescription pc;
     pendingRemoteDescription := pendingRemoteDescription pc;
     signalingState := signalingState pc; connectionState := connectionState pc;
     idpLoginURL := idpLoginURL pc; isClosed := isClosed pc; lastOffer := lastOffer pc;
     lastAnswer := lastAnswer pc; rtpTransceivers := rtpTransceivers pc;
     dataChannels := dataChannels pc; dataChannelsRequested := v;
     onSignalingStateChangeHandler := onSignalingStateChangeHandler pc;
     iceTransport := iceTransport pc; sctpTransport := sctpTransport pc;
     calls := calls pc |}.

Definition set_sctpTransport (v : option SCTPTransport) (pc : PeerConnection)
  : PeerConnection :=
  {| configuration := configuration pc;
     currentLocalDescription := currentLocalDescription pc;
     pendingLocalDescription := pendingLocalDescription pc;
     currentRemoteDescription := currentRemoteDescription pc;
     pendingRemoteDescription := pendingRemoteDescription pc;
     signalingState := signalingState pc; connectionState := connectionState pc;
     idpLoginURL := idpLoginURL pc; isClosed := isClosed pc; lastOffer := lastOffer pc;
     lastAnswer := lastAnswer pc; rtpTransceivers := rtpTransceivers pc;
     dataChannels := dataChannels pc; dataChannelsRequested := dataChannelsRequested pc;
     onSignalingStateChangeHandler := onSignalingStateChangeHandler pc;
     iceTransport := iceTransport pc; sctpTransport := v; calls := calls pc |}.

Definition set_calls (v : list Call) (pc : PeerConnection)
  : PeerConnection :=
  {| configuration := configuration pc;
     currentLocalDescription := currentLocalDescription pc;
     pendingLocalDescription := pendingLocalDescription pc;
     currentRemoteDescription := currentRemoteDescription pc;
     pendingRemoteDescription := pendingRemoteDescription pc;
     signalingState := signalingState pc; connectionState := connectionState pc;
     idpLoginURL := idpLoginURL pc; isClosed := isClosed pc; lastOffer := lastOffer pc;
     lastAnswer := lastAnswer pc; rtpTransceivers := rtpTransceivers pc;
     dataChannels := dataChannels pc; dataChannelsRequested := dataChannelsRequested pc;
     onSignalingStateChangeHandler := onSignalingStateChangeHandler pc;
     iceTransport := iceTransport pc; sctpTransport := sctpTransport pc; calls := v |}.

(** ** Collaborators

    What peerconnection.go calls but does not define.  Every field is the
    observable answer of the collaborator; the calls themselves are
    recorded in [calls]. *)

Record Env := {
  (* github.com/pion/sdp: parser and serializer *)
  Unmarshal : string -> error + sdp.SessionDescription;
  Marshal : sdp.SessionDescription -> error + string;
  (* sibling files of package webrtc *)
  NewRTPCodecType : string -> RTPCodecType;
  NewRTPTransceiverDirection : string -> RTPTransceiverDirection;
  kindString : RTPCodecType -> string;
  directionString : RTPTransceiverDirection -> string;
  sctpMaxChannels : Z;
  GetFingerprints : Certificate -> error + list (string * string);
  certificateEquals : Certificate -> Certificate -> bool;
  validate : ICEServer -> option error;
  setSendingTrack : RTPTransceiver -> Track -> RTPTransceiver * option error;
  transceiverStop : RTPTransceiver -> RTPTransceiver * option error;
  newDataChannel : DataChannelParameters -> error + DataChannel;
  dataChannelOpen : DataChannel -> option error;
  NewRTPReceiver : RTPCodecType -> error + RTPReceiver;
  NewRTPSender : Track -> error + RTPSender;
  NewSCTPTransport : SCTPTransport;
  FlattenErrs : list error -> option error;
  ToUpper : string -> string;
  TrimPrefix : string -> string -> string;
  (* the ICE gatherer and transport *)
  agentIsTrickle : bool;
  GetLocalParameters : error + ICEParameters;
  GetLocalCandidates : error + list ICECandidate;
  SignalCandidates : option error;
  Gather : option error;
  candidateValue : ICECandidate -> Z -> string;
  parseCandidate : sdp.Attribute -> error + ICECandidate;
  AddRemoteCandidate : ICECandidate -> option error;
  iceTransportStop : option error;
  (* DTLS, SRTCP, SCTP, media engine, rtcp *)
  dtlsTransportStop : option error;
  sctpTransportStop : option error;
  getSRTCPSession : option error;
  OpenWriteStream : option error;
  writeStreamWrite : string -> option error;
  rtcpMarshal : list string -> error + string;
  GetCodecsByKind : RTPCodecType -> list RTPCodec }.

(** ** 4.3 The signaling state machine *)

(** Modelled from the spec: [checkNextSignalingState] is defined in
    signalingstate.go, which is not among the sources.  The table of
    section 4.3 lists the permitted transitions; every other combination
    raises [InvalidModificationError].  The function is asked for a proposed
    next state and accepts it when the table has that very row. *)
Definition permittedTransition (cur : SignalingState) (op : stateChangeOp)
    (ty : SDPType) : option SignalingState :=
  match op, ty, cur with
  | stateChangeOpInvalid, _, _ => None
  | _, SDPTypeRollback, SignalingStateClosed => None
  | _, SDPTypeRollback, _ => Some SignalingStateStable
  | stateChangeOpSetLocal, SDPTypeOffer, SignalingStateStable =>
      Some SignalingStateHaveLocalOffer
  | stateChangeOpSetLocal, SDPTypeOffer, SignalingStateHaveLocalOffer =>
      Some SignalingStateHaveLocalOffer
  | stateChangeOpSetLocal, SDPTypeAnswer, SignalingStateHaveRemoteOffer =>
      Some SignalingStateStable
  | stateChangeOpSetLocal, SDPTypePranswer, SignalingStateHaveRemoteOffer =>
      Some SignalingStateHaveLocalPranswer
  | stateChangeOpSetLocal, SDPTypeAnswer, SignalingStateHaveLocalPranswer =>
      Some SignalingStateStable
  | stateChangeOpSetRemote, SDPTypeOffer, SignalingStateStable =>
      Some SignalingStateHaveRemoteOffer
  | stateChangeOpSetRemote, SDPTypeAnswer, SignalingStateHaveLocalOffer =>
      Some SignalingStateStable
  | stateChangeOpSetRemote, SDPTypePranswer, SignalingStateHaveLocalOffer =>
      Some SignalingStateHaveRemotePranswer
  | stateChangeOpSetRemote, SDPTypeAnswer, SignalingStateHaveRemotePranswer =>
      Some SignalingStateStable
  | _, _, _ => None
  end.

Definition checkNextSignalingState (cur next : SignalingState) (op : stateChangeOp)
    (sdpType : SDPType) : SignalingState * option error :=
  match permittedTransition cur op sdpType with
  | Some to =>
      if decide (to = next) then (next, None)
      else (cur, Some (InvalidModificationError (ErrInvalidTransition cur op sdpType next)))
  | None => (cur, Some (InvalidModificationError (ErrInvalidTransition cur op sdpType next)))
  end.

(** [onSignalingStateChange]: the handler, when one is registered, is
    started on a task of its own; the dispatch is what the log records. *)
Definition onSignalingStateChange (newState : SignalingState) (pc : PeerConnection)
  : PeerConnection :=
  if onSignalingStateChangeHandler pc
  then set_calls (calls pc ++ [CallSignalingStateHandler newState]) pc
  else pc.

Definition newSDPDoesNotMatchOffer : error :=
  InvalidModificationError (Errorf "new sdp does not match previous offer").
Definition newSDPDoesNotMatchAnswer : error :=
  InvalidModificationError (Errorf "new sdp does not match previous answer").

(** The tail of [setDescription]: [if err == nil] the state is written and
    the callback dispatched; [err] is returned either way. *)
Definition commitSignalingState (pc : PeerConnection) (nextState : SignalingState)
    (err : option error) : PeerConnection * option error :=
  match err with
  | None => (onSignalingStateChange nextState (set_signalingState nextState pc), None)
  | Some e => (pc, Some e)
  end.

(** 4.4.1.6 Set the SessionDescription. *)
Definition setDescription (pc : PeerConnection) (sd : SessionDescription)
    (op : stateChangeOp) : PeerConnection * option error :=
  if isClosed pc then (pc, Some (InvalidStateError ErrConnectionClosed)) else
  let cur := signalingState pc in
  match op with
  | stateChangeOpSetLocal =>
      match desc_Type sd with
      | SDPTypeOffer =>
          if negb (String.eqb (desc_SDP sd) (lastOffer pc))
          then (pc, Some newSDPDoesNotMatchOffer)
          else
            let '(nextState, err) :=
              checkNextSignalingState cur SignalingStateHaveLocalOffer op (desc_Type sd) in
            let pc1 := if err is None then set_pendingLocalDescription (Some sd) pc
                       else pc in
            commitSignalingState pc1 nextState err
      | SDPTypeAnswer =>
          if negb (String.eqb (desc_SDP sd) (lastAnswer pc))
          then (pc, Some newSDPDoesNotMatchAnswer)
          else
            let '(nextState, err) :=
              checkNextSignalingState cur SignalingStateStable op (desc_Type sd) in
            let pc1 :=
              if err is None then
                set_pendingLocalDescription None
                  (set_pendingRemoteDescription None
                     (set_currentRemoteDescription (pendingRemoteDescription pc)
                        (set_currentLocalDescription (Some sd) pc)))
              else pc in
            commitSignalingState pc1 nextState err
      | SDPTypeRollback =>
          let '(nextState, err) :=
            checkNextSignalingState cur SignalingStateStable op (desc_Type sd) in
          let pc1 := if err is None then set_pendingLocalDescription None pc else pc in
          commitSignalingState pc1 nextState err
      | SDPTypePranswer =>
          if negb (String.eqb (desc_SDP sd) (lastAnswer pc))
          then (pc, Some newSDPDoesNotMatchAnswer)
          else
            let '(nextState, err) :=
              checkNextSignalingState cur SignalingStateHaveLocalPranswer op (desc_Type sd) in
            let pc1 := if err is None then set_pendingLocalDescription (Some sd) pc
                       else pc in
            commitSignalingState pc1 nextState err
      | SDPTypeUnknown =>
          (pc, Some (OperationError (ErrInvalidStateChangeOp op (desc_Type sd))))
      end
  | stateChangeOpSetRemote =>
      match desc_Type sd with
      | SDPTypeOffer =>
          let '(nextState, err) :=
            checkNextSignalingState cur SignalingStateHaveRemoteOffer op (desc_Type sd) in
          let pc1 := if err is None then set_pendingRemoteDescription (Some sd) pc
                     else pc in
          commitSignalingState pc1 nextState err
      | SDPTypeAnswer =>
          let '(nextState, err) :=
            checkNextSignalingState cur SignalingStateStable op (desc_Type sd) in
          let pc1 :=
            if err is None then
              set_pendingLocalDescription None
                (set_pendingRemoteDescription None
                   (set_currentLocalDescription (pendingLocalDescription pc)
                      (set_currentRemoteDescription (Some sd) pc)))
            else pc in
          commitSignalingState pc1 nextState err
      | SDPTypeRollback =>
          let '(nextState, err) :=
            checkNextSignalingState cur SignalingStateStable op (desc_Type sd) in
          let pc1 := if err is None then set_pendingRemoteDescription None pc else pc in
          commitSignalingState pc1 nextState err
      | SDPTypePranswer =>
          let '(nextState, err) :=
            checkNextSignalingState cur SignalingStateHaveRemotePranswer op (desc_Type sd) in
          let pc1 := if err is None then set_pendingRemoteDescription (Some sd) pc
                     else pc in
          commitSignalingState pc1 nextState err
      | SDPTypeUnknown =>
          (pc, Some (OperationError (ErrInvalidStateChangeOp op (desc_Type sd))))
      end
  | stateChangeOpInvalid => (pc, Some (OperationError (ErrUnhandledStateChangeOp op)))
  end.

(** ** Description getters *)

(** [RemoteDescription]: the pending remote description when there is
    one, the current one otherwise. *)
Definition RemoteDescription (pc : PeerConnection) : option SessionDescription :=
  match pendingRemoteDescription pc with
  | Some d => Some d
  | None => currentRemoteDescription pc
  end.

Definition candidateAttributes (E : Env) (c : ICECandidate) : list sdp.Attribute :=
  [ {| sdp.Key := "candidate"; sdp.Value := candidateValue E c 1 |};
    {| sdp.Key := "candidate"; sdp.Value := candidateValue E c 2 |} ].

(** Every candidate once as component 1 and once as component 2, then
    [end-of-candidates] when there was at least one. *)
Definition addCandidatesToMediaDescriptions (E : Env) (candidates : list ICECandidate)
    (m : sdp.MediaDescription) : sdp.MediaDescription :=
  let m1 := fold_left (fun m c => sdp.mediaWithAttributes (candidateAttributes E c) m)
              candidates m in
  if decide (length candidates <> 0%nat)
  then sdp.mediaWithPropertyAttribute "end-of-candidates" m1
  else m1.

Definition withParsed (parsed : option sdp.SessionDescription) (sd : SessionDescription)
  : SessionDescription :=
  {| desc_Type := desc_Type sd; desc_SDP := desc_SDP sd; desc_parsed := parsed |}.

(** [PendingLocalDescription], that is [populateLocalCandidates] applied
    to the pending local description.  The candidates are written into
    the parsed document of the pending description itself, which stays
    changed whatever is returned.  The gatherer is never nil on a
    constructed connection, so that branch is left out. *)
Definition PendingLocalDescription (E : Env) (pc : PeerConnection)
  : PeerConnection * (error + option SessionDescription) :=
  match pendingLocalDescription pc with
  | None => (pc, inr None)
  | Some orig =>
      match GetLocalCandidates E with
      | inl _ => (pc, inr (Some orig))
      | inr candidates =>
          match desc_parsed orig with
          | None => (pc, inl (RuntimePanic "nil pointer dereference"))
          | Some parsed =>
              let parsed' :=
                {| sdp.Attributes := sdp.Attributes parsed;
                   sdp.MediaDescriptions :=
                     map (addCandidatesToMediaDescriptions E candidates)
                         (sdp.MediaDescriptions parsed) |} in
              let orig' := withParsed (Some parsed') orig in
              let pc' := set_pendingLocalDescription (Some orig') pc in
              match Marshal E parsed' with
              | inl _ => (pc', inr (Some orig'))
              | inr text =>
                  (pc', inr (Some {| desc_Type := desc_Type orig; desc_SDP := text;
                                     desc_parsed := None |}))
              end
          end
      end
  end.

Definition LocalDescription (E : Env) (pc : PeerConnection)
  : PeerConnection * (error + option SessionDescription) :=
  match PendingLocalDescription E pc with
  | (pc', inl e) => (pc', inl e)
  | (pc', inr (Some localDescription)) => (pc', inr (Some localDescription))
  | (pc', inr None) => (pc', inr (currentLocalDescription pc'))
  end.

(** ** SetLocalDescription *)

Definition SetLocalDescription (E : Env) (pc : PeerConnection) (desc : SessionDescription)
  : PeerConnection * option error :=
  if isClosed pc then (pc, Some (InvalidStateError ErrConnectionClosed)) else
  (* JSEP 5.4 *)
  let substituted : error + string :=
    if String.eqb (desc_SDP desc) "" then
      match desc_Type desc with
      | SDPTypeAnswer | SDPTypePranswer => inr (lastAnswer pc)
      | SDPTypeOffer => inr (lastOffer pc)
      | _ => inl (InvalidModificationError (ErrInvalidSDPType (desc_Type desc)))
      end
    else inr (desc_SDP desc) in
  match substituted with
  | inl e => (pc, Some e)
  | inr text =>
      match Unmarshal E text with
      | inl e => (pc, Some e)
      | inr parsed =>
          let desc' := {| desc_Type := desc_Type desc; desc_SDP := text;
                          desc_parsed := Some parsed |} in
          match setDescription pc desc' stateChangeOpSetLocal with
          | (pc1, Some e) => (pc1, Some e)
          | (pc1, None) =>
              if negb (agentIsTrickle E)
              then (set_calls (calls pc1 ++ [CallSignalCandidates]) pc1, SignalCandidates E)
              else if decide (desc_Type desc' = SDPTypeAnswer)
                   then (set_calls (calls pc1 ++ [CallGather]) pc1, Gather E)
                   else (pc1, None)
          end
      end
  end.

(** ** SetRemoteDescription *)

Fixpoint countSpaces (s : string) : nat :=
  match s with
  | EmptyString => 0%nat
  | String c s' => ((if Ascii.eqb c " "%char then 1 else 0) + countSpaces s')%nat
  end.

(** [len(strings.Split(s, " "))], one more than the number of spaces. *)
Definition splitLength (s : string) : nat := S (countSpaces s).

(** The [switch] over one attribute of a remote media section.  A
    candidate is parsed and handed to the ICE transport; for the ICE
    credentials the slice [a.String()[len("ice-ufrag:"):]] panics when the
    attribute text is shorter than the prefix and its colon. *)
Definition deliverAttribute (E : Env) (pc : PeerConnection) (a : sdp.Attribute)
  : PeerConnection * option error :=
  if sdp.IsICECandidate a then
    match parseCandidate E a with
    | inl e => (pc, Some e)
    | inr candidate =>
        (set_calls (calls pc ++ [CallAddRemoteCandidate candidate]) pc,
         AddRemoteCandidate E candidate)
    end
  else if String.prefix "ice-ufrag" (sdp.attributeString a) then
    if decide (String.length (sdp.attributeString a) < String.length "ice-ufrag:")%nat
    then (pc, Some (RuntimePanic "slice bounds out of range")) else (pc, None)
  else if String.prefix "ice-pwd" (sdp.attributeString a) then
    if decide (String.length (sdp.attributeString a) < String.length "ice-pwd:")%nat
    then (pc, Some (RuntimePanic "slice bounds out of range")) else (pc, None)
  else (pc, None).

Fixpoint deliverAttributes (E : Env) (pc : PeerConnection) (attrs : list sdp.Attribute)
  : PeerConnection * option error :=
  match attrs with
  | [] => (pc, None)
  | a :: rest =>
      match deliverAttribute E pc a with
      | (pc1, Some e) => (pc1, Some e)
      | (pc1, None) => deliverAttributes E pc1 rest
      end
  end.

(** The walk over the remote media sections: the fingerprint is taken
    from the first section that has one when the session has none. *)
Fixpoint deliverMedia (E : Env) (pc : PeerConnection) (fingerprint : option string)
    (medias : list sdp.MediaDescription)
  : PeerConnection * (error + option string) :=
  match medias with
  | [] => (pc, inr fingerprint)
  | m :: rest =>
      let fingerprint' :=
        match fingerprint with
        | Some f => Some f
        | None => sdp.lookupAttribute "fingerprint" (sdp.mediaAttributes m)
        end in
      match deliverAttributes E pc (sdp.mediaAttributes m) with
      | (pc1, Some e) => (pc1, inl e)
      | (pc1, None) => deliverMedia E pc1 fingerprint' rest
      end
  end.

Definition alreadyDefined : error :=
  PlainError (Errorf
    "remoteDescription is already defined, SetRemoteDescription can only be called once").

(** The transport lifecycle task that the function starts before it
    returns runs concurrently with the caller; it is not part of the
    model. *)
Definition SetRemoteDescription (E : Env) (pc : PeerConnection) (desc : SessionDescription)
  : PeerConnection * option error :=
  if decide (currentRemoteDescription pc <> None) (* pion/webrtc#207 *)
  then (pc, Some alreadyDefined) else
  if isClosed pc then (pc, Some (InvalidStateError ErrConnectionClosed)) else
  match Unmarshal E (desc_SDP desc) with
  | inl e => (pc, Some e)
  | inr parsed =>
      let desc' := withParsed (Some parsed) desc in
      match setDescription pc desc' stateChangeOpSetRemote with
      | (pc1, Some e) => (pc1, Some e)
      | (pc1, None) =>
          match RemoteDescription pc1 with
          | None => (pc1, Some (RuntimePanic "nil pointer dereference"))
          | Some remote =>
              match desc_parsed remote with
              | None => (pc1, Some (RuntimePanic "nil pointer dereference"))
              | Some remoteParsed =>
                  match deliverMedia E pc1
                          (sdp.lookupAttribute "fingerprint" (sdp.Attributes parsed))
                          (sdp.MediaDescriptions remoteParsed) with
                  | (pc2, inl e) => (pc2, Some e)
                  | (pc2, inr None) =>
                      (pc2, Some (PlainError (Errorf "could not find fingerprint")))
                  | (pc2, inr (Some fingerprint)) =>
                      if decide (splitLength fingerprint <> 2%nat)
                      then (pc2, Some (PlainError (Errorf "invalid fingerprint")))
                      else
                        (* Create the SCTP transport *)
                        let pc3 := set_sctpTransport (Some (NewSCTPTransport E)) pc2 in
                        if (bool_decide (desc_Type desc = SDPTypeAnswer)
                            || bool_decide (desc_Type desc = SDPTypePranswer))
                           && agentIsTrickle E
                        then (set_calls (calls pc3 ++ [CallGather]) pc3, Gather E)
                        else (pc3, None)
                  end
              end
          end
      end
  end.

(** ** Reading a remote media section *)

(** The direction of the first attribute whose key names one. *)
Fixpoint getPeerDirection (E : Env) (attrs : list sdp.Attribute)
  : RTPTransceiverDirection :=
  match attrs with
  | [] => RTPTransceiverDirectionUnknown
  | a :: rest =>
      let direction := NewRTPTransceiverDirection E (sdp.Key a) in
      if decide (direction <> RTPTransceiverDirectionUnknown) then direction
      else getPeerDirection E rest
  end.

Fixpoint midOfAttributes (attrs : list sdp.Attribute) : string :=
  match attrs with
  | [] => ""
  | attr :: rest => if String.eqb (sdp.Key attr) "mid" then sdp.Value attr
                    else midOfAttributes rest
  end.

(** The value of the first [mid] attribute, the empty string when the
    section has none. *)
Definition getMidValue (media : sdp.MediaDescription) : string :=
  midOfAttributes (sdp.mediaAttributes media).

(** ** 4.4 The "satisfy" procedure *)

(** Direction order from most preferred to least. *)
Definition getPreferredDirections (remoteDirection : RTPTransceiverDirection)
  : list RTPTransceiverDirection :=
  match remoteDirection with
  | RTPTransceiverDirectionSendrecv =>
      [RTPTransceiverDirectionRecvonly; RTPTransceiverDirectionSendrecv]
  | RTPTransceiverDirectionSendonly =>
      [RTPTransceiverDirectionRecvonly; RTPTransceiverDirectionSendrecv]
  | RTPTransceiverDirectionRecvonly =>
      [RTPTransceiverDirectionSendonly; RTPTransceiverDirectionSendrecv]
  | _ => []
  end.

(** The test of the inner loop: [continue] unless kind and direction both
    agree. *)
Definition satisfies (remoteKind : RTPCodecType)
    (possibleDirection : RTPTransceiverDirection) (t : RTPTransceiver) : bool :=
  negb (bool_decide (kind t <> remoteKind)
        || bool_decide (possibleDirection <> Direction t)).

(** The inner loop [for i := range localTransceivers], started at index
    [i]: the index of the first transceiver that satisfies. *)
Fixpoint scanTransceivers (remoteKind : RTPCodecType)
    (possibleDirection : RTPTransceiverDirection)
    (rest : list RTPTransceiver) (i : nat) : option nat :=
  match rest with
  | [] => None
  | t :: rest' =>
      if satisfies remoteKind possibleDirection t then Some i
      else scanTransceivers remoteKind possibleDirection rest' (S i)
  end.

(** The outer loop over the preferred directions.  A hit at index [i]
    returns [localTransceivers[i]] and
    [append(localTransceivers[:i], localTransceivers[i+1:]...)]. *)
Fixpoint pluckTransceiver (remoteKind : RTPCodecType)
    (directions : list RTPTransceiverDirection)
    (localTransceivers : list RTPTransceiver)
  : option (RTPTransceiver * list RTPTransceiver) :=
  match directions with
  | [] => None
  | possibleDirection :: directions' =>
      match scanTransceivers remoteKind possibleDirection localTransceivers 0 with
      | Some i =>
          match localTransceivers !! i with
          | Some t => Some (t, take i localTransceivers ++ drop (S i) localTransceivers)
          | None => pluckTransceiver remoteKind directions' localTransceivers
          end
      | None => pluckTransceiver remoteKind directions' localTransceivers
      end
  end.

(** The transceiver returned when nothing satisfies: built in place, never
    registered with a connection. *)
Definition inactiveTransceiver (remoteKind : RTPCodecType) : RTPTransceiver :=
  {| Sender := None; Receiver := None;
     Direction := RTPTransceiverDirectionInactive;
     kind := remoteKind; stopped := false |}.

(** Given a direction+type pluck a transceiver from the passed list; if no
    entry satisfies the requested type+direction return an inactive
    transceiver. *)
Definition satisfyTypeAndDirection (remoteKind : RTPCodecType)
    (remoteDirection : RTPTransceiverDirection)
    (localTransceivers : list RTPTransceiver)
  : RTPTransceiver * list RTPTransceiver :=
  match pluckTransceiver remoteKind (getPreferredDirections remoteDirection)
          localTransceivers with
  | Some r => r
  | None => (inactiveTransceiver remoteKind, localTransceivers)
  end.

(** ** Plan-B detection *)

Definition lowerASCII (c : ascii) : ascii :=
  let n := N_of_ascii c in
  if ((65 <=? n) && (n <=? 90))%N then ascii_of_N (n + 32) else c.

Fixpoint equalFold (s w : string) : bool :=
  match s, w with
  | EmptyString, EmptyString => true
  | String a s', String b w' => Ascii.eqb (lowerASCII a) (lowerASCII b) && equalFold s' w'
  | _, _ => false
  end.

(** [detectionRegex.FindStringSubmatch] for the pattern
    [(?i)^(audio|video|data)$]: the whole match and the one group when the
    text is one of the three words in any letter case, nothing otherwise.
    None of the letters involved has a case variant outside ASCII. *)
Definition FindStringSubmatch (s : string) : list string :=
  if existsb (equalFold s) ["audio"; "video"; "data"] then [s; s] else [].

Definition descriptionIsPlanB (desc : option SessionDescription) : bool :=
  match desc with
  | None => false
  | Some d =>
      match desc_parsed d with
      | None => false
      | Some parsed =>
          existsb (fun media =>
                     bool_decide (length (FindStringSubmatch (getMidValue media)) = 2%nat))
                  (sdp.MediaDescriptions parsed)
      end
  end.

(** ** 4.2 The SDP builder *)

(** [strconv.Itoa]. *)
Definition Itoa (i : Z) : string := pretty i.

Inductive ConnectionRole :=
| ConnectionRoleActive
| ConnectionRoleActpass.

Definition ConnectionRole_String (r : ConnectionRole) : string :=
  match r with
  | ConnectionRoleActive => "active"
  | ConnectionRoleActpass => "actpass"
  end.

(** [addFingerprint]: the fingerprints of the first certificate, in upper
    case.  Indexing an empty certificate list panics. *)
Definition addFingerprint (E : Env) (pc : PeerConnection) (d : sdp.SessionDescription)
  : error + sdp.SessionDescription :=
  match Certificates (configuration pc) with
  | [] => inl (RuntimePanic "index out of range")
  | certificate :: _ =>
      match GetFingerprints E certificate with
      | inl e => inl e
      | inr fingerprints =>
          inr (fold_left (fun d fp => sdp.WithFingerprint (fst fp) (ToUpper E (snd fp)) d)
                         fingerprints d)
      end
  end.

(** [media.WithCodec] followed by one [rtcp-fb] attribute per feedback. *)
Definition withCodec (codec : RTPCodec) (media : sdp.MediaDescription)
  : sdp.MediaDescription :=
  let rtpmap := Itoa (codec_PayloadType codec) +:+ " " +:+ codec_Name codec +:+ "/"
                +:+ Itoa (codec_ClockRate codec) in
  let rtpmap := if Z.ltb 0 (codec_Channels codec)
                then rtpmap +:+ "/" +:+ Itoa (codec_Channels codec) else rtpmap in
  let m1 := sdp.mediaWithValueAttribute "rtpmap" rtpmap
              (sdp.mediaWithFormat (Itoa (codec_PayloadType codec)) media) in
  let m2 := if String.eqb (codec_SDPFmtpLine codec) "" then m1
            else sdp.mediaWithValueAttribute "fmtp"
                   (Itoa (codec_PayloadType codec) +:+ " " +:+ codec_SDPFmtpLine codec) m1 in
  fold_left (fun m feedback =>
               sdp.mediaWithValueAttribute "rtcp-fb"
                 (Itoa (codec_PayloadType codec) +:+ " " +:+ fst feedback +:+ " "
                  +:+ snd feedback) m)
            (codec_RTCPFeedback codec) m2.

(** [media.WithMediaSource(ssrc, cname, streamLabel, label)]. *)
Definition withMediaSource (ssrc : Z) (cname streamLabel label : string)
    (media : sdp.MediaDescription) : sdp.MediaDescription :=
  sdp.mediaWithAttributes
    [ {| sdp.Key := "ssrc"; sdp.Value := Itoa ssrc +:+ " cname:" +:+ cname |};
      {| sdp.Key := "ssrc";
         sdp.Value := Itoa ssrc +:+ " msid:" +:+ streamLabel +:+ " " +:+ label |};
      {| sdp.Key := "ssrc"; sdp.Value := Itoa ssrc +:+ " mslabel:" +:+ streamLabel |};
      {| sdp.Key := "ssrc"; sdp.Value := Itoa ssrc +:+ " label:" +:+ label |} ]
    media.

(** The loop over the transceivers of one section: a source line per
    sending track; under Unified Plan an [msid] attribute follows the first
    one and the loop stops. *)
Fixpoint addMediaSources (semantics : SDPSemantics) (transceivers : list RTPTransceiver)
    (media : sdp.MediaDescription) : sdp.MediaDescription :=
  match transceivers with
  | [] => media
  | mt :: rest =>
      match Sender mt with
      | Some sender =>
          match sender_track sender with
          | Some track =>
              let media1 := withMediaSource (track_ssrc track) (track_label track)
                              (track_label track) (track_id track) media in
              if decide (semantics = SDPSemanticsUnifiedPlan)
              then sdp.mediaWithPropertyAttribute
                     ("msid:" +:+ track_label track +:+ " " +:+ track_id track) media1
              else addMediaSources semantics rest media1
          | None => addMediaSources semantics rest media
          end
      | None => addMediaSources semantics rest media
      end
  end.

(** The section emitted for a kind the media engine has no codec for:
    port 0 and no attribute at all. *)
Definition rejectedMedia (E : Env) (t : RTPTransceiver) : sdp.MediaDescription :=
  {| sdp.mediaName := {| sdp.Media := kindString E (kind t); sdp.Port := 0;
                         sdp.Protos := ["UDP"; "TLS"; "RTP"; "SAVPF"];
                         sdp.Formats := ["0"] |};
     sdp.connectionInformation := None;
     sdp.mediaAttributes := [] |}.

Definition addTransceiverSDP (E : Env) (pc : PeerConnection) (d : sdp.SessionDescription)
    (midValue : string) (iceParams : ICEParameters) (candidates : list ICECandidate)
    (dtlsRole : ConnectionRole) (transceivers : list RTPTransceiver)
  : error + sdp.SessionDescription :=
  match transceivers with
  | [] => inl (PlainError (Errorf "addTransceiverSDP() called with 0 transceivers"))
  | t :: _ =>
      (* Use the first transceiver to generate the section attributes *)
      let media :=
        sdp.mediaWithPropertyAttribute sdp.AttrKeyRTCPRsize
          (sdp.mediaWithPropertyAttribute sdp.AttrKeyRTCPMux
             (sdp.mediaWithICECredentials (UsernameFragment iceParams) (Password iceParams)
                (sdp.mediaWithValueAttribute sdp.AttrKeyMID midValue
                   (sdp.mediaWithValueAttribute sdp.AttrKeyConnectionSetup
                      (ConnectionRole_String dtlsRole)
                      (sdp.NewJSEPMediaDescription (kindString E (kind t))))))) in
      let codecs := GetCodecsByKind E (kind t) in
      let media := fold_left (fun m codec => withCodec codec m) codecs media in
      if decide (length codecs = 0%nat) then
        (* Explicitly reject track if we don't have the codec *)
        inr (sdp.WithMedia (rejectedMedia E t) d)
      else
        let media := addMediaSources (SDPSemantics_ (configuration pc)) transceivers media in
        let media := sdp.mediaWithPropertyAttribute (directionString E (Direction t)) media in
        inr (sdp.WithMedia (addCandidatesToMediaDescriptions E candidates media) d)
  end.

Definition addDataMediaSection (E : Env) (d : sdp.SessionDescription) (midValue : string)
    (iceParams : ICEParameters) (candidates : list ICECandidate)
    (dtlsRole : ConnectionRole) : sdp.SessionDescription :=
  let media :=
    sdp.mediaWithICECredentials (UsernameFragment iceParams) (Password iceParams)
      (sdp.mediaWithPropertyAttribute "sctpmap:5000 webrtc-datachannel 1024"
         (sdp.mediaWithPropertyAttribute
            (directionString E RTPTransceiverDirectionSendrecv)
            (sdp.mediaWithValueAttribute sdp.AttrKeyMID midValue
               (sdp.mediaWithValueAttribute sdp.AttrKeyConnectionSetup
                  (ConnectionRole_String dtlsRole)
                  {| sdp.mediaName :=
                       {| sdp.Media := "application"; sdp.Port := 9;
                          sdp.Protos := ["DTLS"; "SCTP"]; sdp.Formats := ["5000"] |};
                     sdp.connectionInformation :=
                       Some {| sdp.NetworkType := "IN"; sdp.AddressType := "IP4";
                               sdp.Address := "0.0.0.0" |};
                     sdp.mediaAttributes := [] |})))) in
  sdp.WithMedia (addCandidatesToMediaDescriptions E candidates media) d.

(** ** 4.6 CreateOffer *)

(** Sequencing of fallible steps ([if err != nil { return ..., err }]). *)
Definition bindE {A B : Type} (r : error + A) (k : A -> error + B) : error + B :=
  match r with
  | inl e => inl e
  | inr a => k a
  end.

Notation "'try' x <- r ; k" := (bindE r (fun x => k))
  (at level 10, x pattern, r at level 100, k at level 200).

(** The document under construction together with the two variables the
    closure [appendBundle] captures. *)
Record OfferState := {
  offer_d : sdp.SessionDescription;
  bundleValue : string;
  bundleCount : Z }.

Definition appendBundle (midValue : string) (d : sdp.SessionDescription) (st : OfferState)
  : OfferState :=
  {| offer_d := d;
     bundleValue := bundleValue st +:+ " " +:+ midValue;
     bundleCount := bundleCount st + 1 |}.

(** The Unified Plan branch: one section per transceiver, named by the
    running count. *)
Fixpoint offerTransceivers (E : Env) (pc : PeerConnection) (iceParams : ICEParameters)
    (candidates : list ICECandidate) (transceivers : list RTPTransceiver)
    (st : OfferState) : error + OfferState :=
  match transceivers with
  | [] => inr st
  | t :: rest =>
      let midValue := Itoa (bundleCount st) in
      try d <- addTransceiverSDP E pc (offer_d st) midValue iceParams candidates
                 ConnectionRoleActpass [t];
      offerTransceivers E pc iceParams candidates rest (appendBundle midValue d st)
  end.

(** The Plan-B branch: the video transceivers share one section, the audio
    transceivers another; a kind without transceivers gets none. *)
Definition offerPlanBKind (E : Env) (pc : PeerConnection) (iceParams : ICEParameters)
    (candidates : list ICECandidate) (midValue : string)
    (transceivers : list RTPTransceiver) (st : OfferState) : error + OfferState :=
  if decide (0 < length transceivers)%nat then
    try d <- addTransceiverSDP E pc (offer_d st) midValue iceParams candidates
               ConnectionRoleActpass transceivers;
    inr (appendBundle midValue d st)
  else inr st.

Definition ofKind (k : RTPCodecType) (transceivers : list RTPTransceiver)
  : list RTPTransceiver :=
  filter (fun t => kind t = k) transceivers.

Definition OfferOptions := unit.
Definition AnswerOptions := unit.

Definition buildOffer (E : Env) (pc : PeerConnection) : error + SessionDescription :=
  try d <- addFingerprint E pc sdp.NewJSEPSessionDescription;
  try iceParams <- GetLocalParameters E;
  try candidates <- GetLocalCandidates E;
  let st0 := {| offer_d := d; bundleValue := "BUNDLE"; bundleCount := 0 |} in
  try st1 <-
    (if decide (SDPSemantics_ (configuration pc) = SDPSemanticsPlanB) then
       try st <- offerPlanBKind E pc iceParams candidates "video"
                   (ofKind RTPCodecTypeVideo (rtpTransceivers pc)) st0;
       offerPlanBKind E pc iceParams candidates "audio"
         (ofKind RTPCodecTypeAudio (rtpTransceivers pc)) st
     else offerTransceivers E pc iceParams candidates (rtpTransceivers pc) st0);
  let midValue :=
    if decide (SDPSemantics_ (configuration pc) = SDPSemanticsPlanB) then "data"
    else Itoa (bundleCount st1) in
  let st2 := appendBundle midValue
               (addDataMediaSection E (offer_d st1) midValue iceParams candidates
                  ConnectionRoleActpass) st1 in
  let d := sdp.WithValueAttribute sdp.AttrKeyGroup (bundleValue st2) (offer_d st2) in
  try sdpBytes <- Marshal E d;
  inr {| desc_Type := SDPTypeOffer; desc_SDP := sdpBytes; desc_parsed := Some d |}.

(** CreateOffer starts the PeerConnection and generates the
    localDescription.  The text is remembered as [lastOffer]. *)
Definition CreateOffer (E : Env) (pc : PeerConnection) (options : option OfferOptions)
  : PeerConnection * (error + SessionDescription) :=
  let useIdentity := bool_decide (idpLoginURL pc <> None) in
  if bool_decide (options <> None)
  then (pc, inl (PlainError (Errorf "TODO handle options")))
  else if useIdentity
  then (pc, inl (PlainError (Errorf "TODO handle identity provider")))
  else if isClosed pc
  then (pc, inl (InvalidStateError ErrConnectionClosed))
  else
    match buildOffer E pc with
    | inl e => (pc, inl e)
    | inr desc => (set_lastOffer (desc_SDP desc) pc, inr desc)
    end.

(** ** 4.6 CreateAnswer *)

(** The loop that fills a Plan-B section with every further transceiver
    that satisfies.  Each round removes one transceiver from the pool, so
    [S (length localTransceivers)] rounds are always enough; [fuel] only
    makes the recursion structural. *)
Fixpoint fillPlanBSection (fuel : nat) (remoteKind : RTPCodecType)
    (direction : RTPTransceiverDirection) (localTransceivers : list RTPTransceiver)
    (mediaTransceivers : list RTPTransceiver)
  : list RTPTransceiver * list RTPTransceiver :=
  match fuel with
  | O => (mediaTransceivers, localTransceivers)
  | S fuel' =>
      let '(t, localTransceivers') :=
        satisfyTypeAndDirection remoteKind direction localTransceivers in
      if decide (Direction t = RTPTransceiverDirectionInactive)
      then (mediaTransceivers, localTransceivers')
      else fillPlanBSection fuel' remoteKind direction localTransceivers'
             (mediaTransceivers ++ [t])
  end.

Record AnswerState := {
  answer_d : sdp.SessionDescription;
  answer_bundleValue : string;
  answer_localTransceivers : list RTPTransceiver }.

(** The [switch] on the configured semantics for one RTP section: the
    transceivers that go into the section and the remaining pool, or the
    semantics error. *)
Definition selectMediaTransceivers (semantics : SDPSemantics) (detectedPlanB : bool)
    (remoteKind : RTPCodecType) (direction : RTPTransceiverDirection)
    (t : RTPTransceiver) (localTransceivers : list RTPTransceiver)
  : error + (list RTPTransceiver * list RTPTransceiver) :=
  let planB :=
    if negb detectedPlanB then inl (TypeError ErrIncorrectSDPSemantics)
    else inr (fillPlanBSection (S (length localTransceivers)) remoteKind direction
                localTransceivers [t]) in
  match semantics with
  | SDPSemanticsUnifiedPlanWithFallback =>
      (* If no match, process as unified-plan *)
      if negb detectedPlanB then inr ([t], localTransceivers)
      else planB
  | SDPSemanticsPlanB => planB
  | SDPSemanticsUnifiedPlan =>
      if detectedPlanB then inl (TypeError ErrIncorrectSDPSemantics)
      else inr ([t], localTransceivers)
  end.

Definition answerMedia (E : Env) (pc : PeerConnection) (iceParams : ICEParameters)
    (candidates : list ICECandidate) (detectedPlanB : bool)
    (media : sdp.MediaDescription) (st : AnswerState) : error + AnswerState :=
  let midValue := getMidValue media in
  if String.eqb midValue "" then
    inl (PlainError (Errorf "RemoteDescription contained media section without mid value"))
  else if String.eqb (sdp.Media (sdp.mediaName media)) "application" then
    inr {| answer_d := addDataMediaSection E (answer_d st) midValue iceParams candidates
                         ConnectionRoleActive;
           answer_bundleValue := answer_bundleValue st +:+ " " +:+ midValue;
           answer_localTransceivers := answer_localTransceivers st |}
  else
    let kind := NewRTPCodecType E (sdp.Media (sdp.mediaName media)) in
    let direction := getPeerDirection E (sdp.mediaAttributes media) in
    if bool_decide (kind = RTPCodecTypeZero)
       || bool_decide (direction = RTPTransceiverDirectionUnknown)
    then inr st
    else
      let '(t, localTransceivers) :=
        satisfyTypeAndDirection kind direction (answer_localTransceivers st) in
      try selected <- selectMediaTransceivers (SDPSemantics_ (configuration pc))
                        detectedPlanB kind direction t localTransceivers;
      try d <- addTransceiverSDP E pc (answer_d st) midValue iceParams candidates
                 ConnectionRoleActive (fst selected);
      inr {| answer_d := d;
             answer_bundleValue := answer_bundleValue st +:+ " " +:+ midValue;
             answer_localTransceivers := snd selected |}.

Fixpoint answerMedias (E : Env) (pc : PeerConnection) (iceParams : ICEParameters)
    (candidates : list ICECandidate) (detectedPlanB : bool)
    (medias : list sdp.MediaDescription) (st : AnswerState) : error + AnswerState :=
  match medias with
  | [] => inr st
  | media :: rest =>
      try st' <- answerMedia E pc iceParams candidates detectedPlanB media st;
      answerMedias E pc iceParams candidates detectedPlanB rest st'
  end.

Definition addAnswerMediaTransceivers (E : Env) (pc : PeerConnection)
    (d : sdp.SessionDescription) : error + sdp.SessionDescription :=
  try iceParams <- GetLocalParameters E;
  try candidates <- GetLocalCandidates E;
  let detectedPlanB := descriptionIsPlanB (RemoteDescription pc) in
  match RemoteDescription pc with
  | None => inl (RuntimePanic "nil pointer dereference")
  | Some remote =>
      match desc_parsed remote with
      | None => inl (RuntimePanic "nil pointer dereference")
      | Some parsed =>
          try st <- answerMedias E pc iceParams candidates detectedPlanB
                      (sdp.MediaDescriptions parsed)
                      {| answer_d := d; answer_bundleValue := "BUNDLE";
                         answer_localTransceivers := rtpTransceivers pc |};
          inr (sdp.WithValueAttribute sdp.AttrKeyGroup (answer_bundleValue st) (answer_d st))
      end
  end.

Definition buildAnswer (E : Env) (pc : PeerConnection) : error + SessionDescription :=
  try d <- addFingerprint E pc sdp.NewJSEPSessionDescription;
  try d <- addAnswerMediaTransceivers E pc d;
  try sdpBytes <- Marshal E d;
  inr {| desc_Type := SDPTypeAnswer; desc_SDP := sdpBytes; desc_parsed := Some d |}.

(** CreateAnswer starts the PeerConnection and generates the
    localDescription.  The text is remembered as [lastAnswer]. *)
Definition CreateAnswer (E : Env) (pc : PeerConnection) (options : option AnswerOptions)
  : PeerConnection * (error + SessionDescription) :=
  let useIdentity := bool_decide (idpLoginURL pc <> None) in
  if bool_decide (options <> None)
  then (pc, inl (PlainError (Errorf "TODO handle options")))
  else if bool_decide (RemoteDescription pc = None)
  then (pc, inl (InvalidStateError ErrNoRemoteDescription))
  else if useIdentity
  then (pc, inl (PlainError (Errorf "TODO handle identity provider")))
  else if isClosed pc
  then (pc, inl (InvalidStateError ErrConnectionClosed))
  else
    match buildAnswer E pc with
    | inl e => (pc, inl e)
    | inr desc => (set_lastAnswer (desc_SDP desc) pc, inr desc)
    end.

(** ** 4.5 Data channels *)

(** uint16 and uint32 arithmetic. *)
Definition wrap16 (z : Z) : Z := z mod 65536.
Definition wrap32 (z : Z) : Z := z mod 4294967296.

(** The loop [for ; id < max-1; id += 2] on uint16 values.  [None] is a
    loop that has used up its rounds. *)
Fixpoint scanDataChannelIDs (rounds : nat) (dataChannels : gmap Z DataChannel)
    (max id : Z) : option (error + Z) :=
  match rounds with
  | O => None
  | S rounds' =>
      if Z.ltb id (wrap16 (max - 1)) then
        match dataChannels !! id with
        | None => Some (inr id)
        | Some _ => scanDataChannelIDs rounds' dataChannels max (wrap16 (id + 2))
        end
      else Some (inl (OperationError ErrMaxDataChannelID))
  end.

(** There are 32768 ids of either parity, so a loop that has not left
    after that many rounds is back at its first id with the same map and
    never leaves. *)
Definition idRounds : nat := Z.to_nat 32769.

Definition maxChannels (E : Env) (pc : PeerConnection) : Z :=
  match sctpTransport pc with
  | Some t => MaxChannels t
  | None => sctpMaxChannels E
  end.

Definition generateDataChannelID (E : Env) (pc : PeerConnection) (client : bool)
  : option (error + Z) :=
  let id := if negb client then 1 else 0 in
  scanDataChannelIDs idRounds (dataChannels pc) (maxChannels E pc) id.

(** The parameters after the options have been applied; the id is filled
    in by the caller. *)
Definition dataChannelParameters (label : string) (id : Z)
    (options : option DataChannelInit) : DataChannelParameters :=
  match options with
  | None => {| param_Label := label; param_ID := id; param_Ordered := true;
               param_MaxPacketLifeTime := None; param_MaxRetransmits := None |}
  | Some o =>
      {| param_Label := label; param_ID := id;
         param_Ordered := match init_Ordered o with Some b => b | None => true end;
         param_MaxPacketLifeTime := init_MaxPacketLifeTime o;
         param_MaxRetransmits := init_MaxRetransmits o |}
  end.

Definition requestedID (options : option DataChannelInit) : option Z :=
  match options with
  | None => None
  | Some o => init_ID o
  end.

(** CreateDataChannel.  [None] is the call that never returns because the
    id scan does not. *)
Definition CreateDataChannel (E : Env) (pc : PeerConnection) (label : string)
    (options : option DataChannelInit)
  : option (PeerConnection * (error + DataChannel)) :=
  if isClosed pc then Some (pc, inl (InvalidStateError ErrConnectionClosed)) else
  let chosen : option (error + Z) :=
    match requestedID options with
    | None => generateDataChannelID E pc true
    | Some id => Some (inr id)
    end in
  match chosen with
  | None => None
  | Some (inl e) => Some (pc, inl e)
  | Some (inr id) =>
      let params := dataChannelParameters label id options in
      match newDataChannel E params with
      | inl e => Some (pc, inl e)
      | inr d =>
          if bool_decide (dc_maxPacketLifeTime d <> None)
             && bool_decide (dc_maxRetransmits d <> None)
          then Some (pc, inl (TypeError ErrRetransmitsOrPacketLifeTime))
          else
            (* Remember datachannel *)
            let pc1 := set_dataChannels (<[param_ID params := d]> (dataChannels pc)) pc in
            let sctpReady := match sctpTransport pc1 with
                             | Some t => association t
                             | None => false
                             end in
            let pc2 := set_dataChannelsRequested
                         (wrap32 (dataChannelsRequested pc1 + 1)) pc1 in
            (* Open if networking already started *)
            if sctpReady then
              let pc3 := set_calls (calls pc2 ++ [CallDataChannelOpen (param_ID params)])
                           pc2 in
              match dataChannelOpen E d with
              | Some e => Some (pc3, inl e)
              | None => Some (pc3, inr d)
              end
            else Some (pc2, inr d)
      end
  end.

(** ** Close *)

Definition errorList (r : option error) : list error :=
  match r with
  | Some e => [e]
  | None => []
  end.

(** [for _, t := range pc.rtpTransceivers { t.Stop() }], from index [i]. *)
Fixpoint stopTransceivers (E : Env) (transceivers : list RTPTransceiver) (i : nat)
  : list RTPTransceiver * list Call * list error :=
  match transceivers with
  | [] => ([], [], [])
  | t :: rest =>
      let '(t', err) := transceiverStop E t in
      let '(rest', stops, errs) := stopTransceivers E rest (S i) in
      (t' :: rest', CallTransceiverStop i :: stops, errorList err ++ errs)
  end.

(** Close ends the PeerConnection. *)
Definition Close (E : Env) (pc : PeerConnection) : PeerConnection * option error :=
  (* step #2 *)
  if isClosed pc then (pc, None) else
  (* steps #3 and #4 *)
  let pc := set_signalingState SignalingStateClosed (set_isClosed true pc) in
  (* step #11 *)
  let '(pc, closeErrs) :=
    if iceTransport pc
    then (set_calls (calls pc ++ [CallICETransportStop]) pc, errorList (iceTransportStop E))
    else (pc, []) in
  (* step #12 *)
  let pc := set_connectionState PeerConnectionStateClosed pc in
  let pc := set_calls (calls pc ++ [CallDTLSTransportStop]) pc in
  let closeErrs := closeErrs ++ errorList (dtlsTransportStop E) in
  let '(pc, closeErrs) :=
    match sctpTransport pc with
    | Some _ => (set_calls (calls pc ++ [CallSCTPTransportStop]) pc,
                 closeErrs ++ errorList (sctpTransportStop E))
    | None => (pc, closeErrs)
    end in
  let '(transceivers, stops, errs) := stopTransceivers E (rtpTransceivers pc) 0 in
  let pc := set_calls (calls pc ++ stops) (set_rtpTransceivers transceivers pc) in
  (pc, FlattenErrs E (closeErrs ++ errs)).

(** ** SetConfiguration *)

Fixpoint firstInvalidServer (E : Env) (servers : list ICEServer) : option error :=
  match servers with
  | [] => None
  | server :: rest =>
      match validate E server with
      | Some e => Some e
      | None => firstInvalidServer E rest
      end
  end.

Fixpoint certificatesEqual (E : Env) (ours theirs : list Certificate) : bool :=
  match ours, theirs with
  | c :: ours', certificate :: theirs' =>
      certificateEquals E c certificate && certificatesEqual E ours' theirs'
  | _, _ => true
  end.

Definition set_PeerIdentity (v : string) (c : Configuration) : Configuration :=
  {| ICEServers := ICEServers c; ICETransportPolicy := ICETransportPolicy c;
     BundlePolicy := BundlePolicy c; RTCPMuxPolicy := RTCPMuxPolicy c;
     PeerIdentity := v; Certificates := Certificates c;
     ICECandidatePoolSize := ICECandidatePoolSize c; SDPSemantics_ := SDPSemantics_ c |}.

Definition set_Certificates (v : list Certificate) (c : Configuration) : Configuration :=
  {| ICEServers := ICEServers c; ICETransportPolicy := ICETransportPolicy c;
     BundlePolicy := BundlePolicy c; RTCPMuxPolicy := RTCPMuxPolicy c;
     PeerIdentity := PeerIdentity c; Certificates := v;
     ICECandidatePoolSize := ICECandidatePoolSize c; SDPSemantics_ := SDPSemantics_ c |}.

Definition set_ICECandidatePoolSize (v : Z) (c : Configuration) : Configuration :=
  {| ICEServers := ICEServers c; ICETransportPolicy := ICETransportPolicy c;
     BundlePolicy := BundlePolicy c; RTCPMuxPolicy := RTCPMuxPolicy c;
     PeerIdentity := PeerIdentity c; Certificates := Certificates c;
     ICECandidatePoolSize := v; SDPSemantics_ := SDPSemantics_ c |}.

Definition set_ICETransportPolicy (v : Z) (c : Configuration) : Configuration :=
  {| ICEServers := ICEServers c; ICETransportPolicy := v;
     BundlePolicy := BundlePolicy c; RTCPMuxPolicy := RTCPMuxPolicy c;
     PeerIdentity := PeerIdentity c; Certificates := Certificates c;
     ICECandidatePoolSize := ICECandidatePoolSize c; SDPSemantics_ := SDPSemantics_ c |}.

Definition set_ICEServers (v : list ICEServer) (c : Configuration) : Configuration :=
  {| ICEServers := v; ICETransportPolicy := ICETransportPolicy c;
     BundlePolicy := BundlePolicy c; RTCPMuxPolicy := RTCPMuxPolicy c;
     PeerIdentity := PeerIdentity c; Certificates := Certificates c;
     ICECandidatePoolSize := ICECandidatePoolSize c; SDPSemantics_ := SDPSemantics_ c |}.

(** One step of [SetConfiguration] on the connection's configuration:
    the configuration as far as it has been written, and the error that
    ended the call, if any. *)
Definition andThen {S : Type} (r : S * option error) (k : S -> S * option error)
  : S * option error :=
  match r with
  | (s, Some e) => (s, Some e)
  | (s, None) => k s
  end.

(** Steps #3 to #6: identity, certificates, bundle and RTCP-mux policy
    must repeat what the connection has. *)
Definition checkImmutable (E : Env) (ours requested : Configuration)
  : Configuration * option error :=
  andThen
    (if negb (String.eqb (PeerIdentity requested) "") then
       if negb (String.eqb (PeerIdentity requested) (PeerIdentity ours))
       then (ours, Some (InvalidModificationError ErrModifyingPeerIdentity))
       else (set_PeerIdentity (PeerIdentity requested) ours, None)
     else (ours, None))
    (fun c1 =>
  andThen
    (if decide (0 < length (Certificates requested))%nat then
       if decide (length (Certificates requested) <> length (Certificates c1))
       then (c1, Some (InvalidModificationError ErrModifyingCertificates))
       else if negb (certificatesEqual E (Certificates c1) (Certificates requested))
       then (c1, Some (InvalidModificationError ErrModifyingCertificates))
       else (set_Certificates (Certificates requested) c1, None)
     else (c1, None))
    (fun c2 =>
  andThen
    (if decide (BundlePolicy requested <> Unknown) then
       if decide (BundlePolicy requested <> BundlePolicy c2)
       then (c2, Some (InvalidModificationError ErrModifyingBundlePolicy))
       else (c2, None)
     else (c2, None))
    (fun c3 =>
  if decide (RTCPMuxPolicy requested <> Unknown) then
    if decide (RTCPMuxPolicy requested <> RTCPMuxPolicy c3)
    then (c3, Some (InvalidModificationError ErrModifyingRTCPMuxPolicy))
    else (c3, None)
  else (c3, None)))).

(** Step #7: the candidate pool size may change until a local description
    exists.  Asking for the local description writes the gathered
    candidates into the pending one. *)
Definition checkPoolSize (E : Env) (pc : PeerConnection) (requested : Configuration)
  : PeerConnection * option error :=
  if decide (ICECandidatePoolSize requested <> 0) then
    let assign pc :=
      set_configuration
        (set_ICECandidatePoolSize (ICECandidatePoolSize requested) (configuration pc)) pc in
    if decide (ICECandidatePoolSize (configuration pc) <> ICECandidatePoolSize requested)
    then
      match LocalDescription E pc with
      | (pc', inl e) => (pc', Some e)
      | (pc', inr (Some _)) =>
          (pc', Some (InvalidModificationError ErrModifyingICECandidatePoolSize))
      | (pc', inr None) => (assign pc', None)
      end
    else (assign pc, None)
  else (pc, None).

(** Steps #8 and #11: transport policy and servers are taken over. *)
Definition applyMutable (E : Env) (ours requested : Configuration)
  : Configuration * option error :=
  let c1 := if decide (ICETransportPolicy requested <> Unknown)
            then set_ICETransportPolicy (ICETransportPolicy requested) ours
            else ours in
  if decide (0 < length (ICEServers requested))%nat then
    match firstInvalidServer E (ICEServers requested) with
    | Some e => (c1, Some e)
    | None => (set_ICEServers (ICEServers requested) c1, None)
    end
  else (c1, None).

Definition onConfiguration (f : Configuration -> Configuration * option error)
    (pc : PeerConnection) : PeerConnection * option error :=
  let '(c, err) := f (configuration pc) in (set_configuration c pc, err).

(** SetConfiguration updates the configuration of this PeerConnection
    object. *)
Definition SetConfiguration (E : Env) (pc : PeerConnection) (requested : Configuration)
  : PeerConnection * option error :=
  (* step #2 *)
  if isClosed pc then (pc, Some (InvalidStateError ErrConnectionClosed)) else
  andThen (onConfiguration (fun ours => checkImmutable E ours requested) pc) (fun pc =>
  andThen (checkPoolSize E pc requested) (fun pc =>
  onConfiguration (fun ours => applyMutable E ours requested) pc)).

(** ** Tracks and transceivers *)

Definition newRTPTransceiver (pc : PeerConnection) (receiver : option RTPReceiver)
    (sender : option RTPSender) (direction : RTPTransceiverDirection)
    (kind : RTPCodecType) : PeerConnection * RTPTransceiver :=
  let t := {| Sender := sender; Receiver := receiver; Direction := direction;
              kind := kind; stopped := false |} in
  (set_rtpTransceivers (rtpTransceivers pc ++ [t]) pc, t).

(** The transceiver [AddTrack] may reuse: not stopped, with a sender that
    has not sent and a receiver whose track has the kind of the new
    track. *)
Definition reusable (track : Track) (t : RTPTransceiver) : bool :=
  negb (stopped t) &&
  match Sender t, Receiver t with
  | Some sender, Some receiver =>
      negb (sender_hasSent sender) &&
      match receiver_Track receiver with
      | Some rt => bool_decide (track_kind rt = track_kind track)
      | None => false
      end
  | _, _ => false
  end.

Fixpoint findReusable (track : Track) (transceivers : list RTPTransceiver) (i : nat)
  : option nat :=
  match transceivers with
  | [] => None
  | t :: rest => if reusable track t then Some i else findReusable track rest (S i)
  end.

(** AddTrack adds a Track to the PeerConnection. *)
Definition AddTrack (E : Env) (pc : PeerConnection) (track : Track)
  : PeerConnection * (error + option RTPSender) :=
  if isClosed pc then (pc, inl (InvalidStateError ErrConnectionClosed)) else
  let found :=
    match findReusable track (rtpTransceivers pc) 0 with
    | Some i => match rtpTransceivers pc !! i with
                | Some t => Some (i, t)
                | None => None
                end
    | None => None
    end in
  match found with
  | Some (i, t) =>
      let '(t', err) := setSendingTrack E t track in
      let pc' := set_rtpTransceivers (<[i := t']> (rtpTransceivers pc)) pc in
      match err with
      | Some e => (pc', inl e)
      | None => (pc', inr (Sender t'))
      end
  | None =>
      match NewRTPReceiver E (track_kind track) with
      | inl e => (pc, inl e)
      | inr receiver =>
          match NewRTPSender E track with
          | inl e => (pc, inl e)
          | inr sender =>
              let '(pc', t) :=
                newRTPTransceiver pc (Some receiver) (Some sender)
                  RTPTransceiverDirectionSendrecv (track_kind track) in
              (pc', inr (Sender t))
          end
      end
  end.

(** ** Remote candidates and RTCP *)

(** AddICECandidate accepts an ICE candidate string and adds it to the
    existing set of candidates. *)
Definition AddICECandidate (E : Env) (pc : PeerConnection) (candidate : string)
  : PeerConnection * option error :=
  if bool_decide (RemoteDescription pc = None)
  then (pc, Some (InvalidStateError ErrNoRemoteDescription))
  else
    let candidateValue := TrimPrefix E candidate "candidate:" in
    match parseCandidate E {| sdp.Key := "candidate"; sdp.Value := candidateValue |} with
    | inl e => (pc, Some e)
    | inr iceCandidate =>
        (set_calls (calls pc ++ [CallAddRemoteCandidate iceCandidate]) pc,
         AddRemoteCandidate E iceCandidate)
    end.

(** WriteRTCP sends a user provided RTCP packet to the connected peer.  If
    no peer is connected the packet is discarded. *)
Definition WriteRTCP (E : Env) (pc : PeerConnection) (pkts : list string)
  : PeerConnection * option error :=
  match rtcpMarshal E pkts with
  | inl e => (pc, Some e)
  | inr raw =>
      match getSRTCPSession E with
      | Some _ => (pc, None)
      | None =>
          match OpenWriteStream E with
          | Some e => (pc, Some (WrappedError "WriteRTCP failed to open WriteStream" e))
          | None => (set_calls (calls pc ++ [CallWriteRTCP raw]) pc, writeStreamWrite E raw)
          end
      end
  end.

(** ** The connection the constructor builds

    The struct literal of [API.NewPeerConnection] with the ICE transport
    attached, for a configuration that has passed [initConfiguration]. *)
Definition newPeerConnection (configuration : Configuration) : PeerConnection :=
  {| configuration := configuration;
     currentLocalDescription := None; pendingLocalDescription := None;
     currentRemoteDescription := None; pendingRemoteDescription := None;
     signalingState := SignalingStateStable;
     connectionState := PeerConnectionStateNew;
     idpLoginURL := None; isClosed := false;
     lastOffer := ""; lastAnswer := "";
     rtpTransceivers := []; dataChannels := ∅; dataChannelsRequested := 0;
     onSignalingStateChangeHandler := false;
     iceTransport := true; sctpTransport := None; calls := [] |}.

(** ** Example collaborators and inputs

    A concrete environment for the examples: a serializer that writes one
    line per attribute and per media name, a parser that reads back the
    documents of a given table and rejects every other text, the usual
    names of kinds and directions, and transports that never fail. *)

Definition crlf : string := String "013"%char (String "010"%char "").

Fixpoint join (sep : string) (l : list string) : string :=
  match l with
  | [] => ""
  | [x] => x
  | x :: rest => x +:+ sep +:+ join sep rest
  end.

Definition renderAttributes (attrs : list sdp.Attribute) : string :=
  fold_right (fun a acc => "a=" +:+ sdp.attributeString a +:+ crlf +:+ acc) "" attrs.

Definition renderMedia (m : sdp.MediaDescription) : string :=
  "m=" +:+ sdp.Media (sdp.mediaName m) +:+ " " +:+ Itoa (sdp.Port (sdp.mediaName m))
  +:+ " " +:+ join "/" (sdp.Protos (sdp.mediaName m))
  +:+ " " +:+ join " " (sdp.Formats (sdp.mediaName m)) +:+ crlf
  +:+ renderAttributes (sdp.mediaAttributes m).

Definition exampleMarshal (d : sdp.SessionDescription) : string :=
  "v=0" +:+ crlf +:+ renderAttributes (sdp.Attributes d)
  +:+ fold_right (fun m acc => renderMedia m +:+ acc) "" (sdp.MediaDescriptions d).

Fixpoint tableUnmarshal (table : list sdp.SessionDescription) (text : string)
  : error + sdp.SessionDescription :=
  match table with
  | [] => inl (PlainError (ErrCollaborator "sdp: invalid syntax"))
  | d :: rest => if String.eqb (exampleMarshal d) text then inr d
                 else tableUnmarshal rest text
  end.

Definition exampleNewRTPCodecType (r : string) : RTPCodecType :=
  if String.eqb r "audio" then RTPCodecTypeAudio
  else if String.eqb r "video" then RTPCodecTypeVideo
  else RTPCodecTypeZero.

Definition exampleKindString (k : RTPCodecType) : string :=
  match k with
  | RTPCodecTypeAudio => "audio"
  | RTPCodecTypeVideo => "video"
  | RTPCodecTypeZero => "Unknown"
  end.

Definition exampleDirectionString (d : RTPTransceiverDirection) : string :=
  match d with
  | RTPTransceiverDirectionSendrecv => "sendrecv"
  | RTPTransceiverDirectionSendonly => "sendonly"
  | RTPTransceiverDirectionRecvonly => "recvonly"
  | RTPTransceiverDirectionInactive => "inactive"
  | RTPTransceiverDirectionUnknown => "Unknown"
  end.

Definition exampleNewRTPTransceiverDirection (raw : string) : RTPTransceiverDirection :=
  if String.eqb raw "sendrecv" then RTPTransceiverDirectionSendrecv
  else if String.eqb raw "sendonly" then RTPTransceiverDirectionSendonly
  else if String.eqb raw "recvonly" then RTPTransceiverDirectionRecvonly
  else if String.eqb raw "inactive" then RTPTransceiverDirectionInactive
  else RTPTransceiverDirectionUnknown.

Definition exampleTrimPrefix (s prefix : string) : string :=
  if String.prefix prefix s
  then String.substring (String.length prefix) (String.length s - String.length prefix) s
  else s.

Definition exampleDataChannel (p : DataChannelParameters) : DataChannel :=
  {| dc_label := param_Label p; dc_id := param_ID p; dc_ordered := param_Ordered p;
     dc_maxPacketLifeTime := param_MaxPacketLifeTime p;
     dc_maxRetransmits := param_MaxRetransmits p |}.

(** The example environment over a media engine and a parser table. *)
Definition exampleEnv (codecs : RTPCodecType -> list RTPCodec)
    (table : list sdp.SessionDescription) : Env :=
  {| Unmarshal := tableUnmarshal table;
     Marshal := fun d => inr (exampleMarshal d);
     NewRTPCodecType := exampleNewRTPCodecType;
     NewRTPTransceiverDirection := exampleNewRTPTransceiverDirection;
     kindString := exampleKindString;
     directionString := exampleDirectionString;
     sctpMaxChannels := 65535;
     GetFingerprints := fun c => inr [("sha-256", c)];
     certificateEquals := String.eqb;
     validate := fun _ => None;
     setSendingTrack := fun t _ => (t, None);
     transceiverStop := fun t => (t, None);
     newDataChannel := fun p => inr (exampleDataChannel p);
     dataChannelOpen := fun _ => None;
     NewRTPReceiver := fun _ => inr {| receiver_Track := None |};
     NewRTPSender := fun track => inr {| sender_track := Some track;
                                         sender_hasSent := false |};
     NewSCTPTransport := {| MaxChannels := 65535; association := false |};
     FlattenErrs := fun errs => match errs with [] => None | e :: _ => Some e end;
     ToUpper := fun s => s;
     TrimPrefix := exampleTrimPrefix;
     agentIsTrickle := false;
     GetLocalParameters := inr {| UsernameFragment := "ufrag"; Password := "pwd" |};
     GetLocalCandidates := inr [];
     SignalCandidates := None;
     Gather := None;
     candidateValue := fun c component => c +:+ " " +:+ Itoa component;
     parseCandidate := fun a => inr (sdp.Value a);
     AddRemoteCandidate := fun _ => None;
     iceTransportStop := None;
     dtlsTransportStop := None;
     sctpTransportStop := None;
     getSRTCPSession := Some (PlainError (ErrCollaborator "srtcp session not started"));
     OpenWriteStream := None;
     writeStreamWrite := fun _ => None;
     rtcpMarshal := fun pkts => inr (join "" pkts);
     GetCodecsByKind := codecs |}.

Definition noCodecs (k : RTPCodecType) : list RTPCodec := [].

Definition vp8 : RTPCodec :=
  {| codec_PayloadType := 96; codec_Name := "VP8"; codec_ClockRate := 90000;
     codec_Channels := 0; codec_SDPFmtpLine := ""; codec_RTCPFeedback := [] |}.

Definition opus : RTPCodec :=
  {| codec_PayloadType := 111; codec_Name := "opus"; codec_ClockRate := 48000;
     codec_Channels := 2; codec_SDPFmtpLine := "minptime=10;useinbandfec=1";
     codec_RTCPFeedback := [] |}.

Definition defaultCodecs (k : RTPCodecType) : list RTPCodec :=
  match k with
  | RTPCodecTypeAudio => [opus]
  | RTPCodecTypeVideo => [vp8]
  | RTPCodecTypeZero => []
  end.

Definition exampleConfiguration (semantics : SDPSemantics) : Configuration :=
  {| ICEServers := []; ICETransportPolicy := 1; BundlePolicy := 1; RTCPMuxPolicy := 2;
     PeerIdentity := ""; Certificates := ["AB:CD"]; ICECandidatePoolSize := 0;
     SDPSemantics_ := semantics |}.

Definition recvonlyTransceiver (k : RTPCodecType) : RTPTransceiver :=
  {| Sender := None; Receiver := Some {| receiver_Track := None |};
     Direction := RTPTransceiverDirectionRecvonly; kind := k; stopped := false |}.

Definition sendrecvTransceiver (k : RTPCodecType) : RTPTransceiver :=
  {| Sender := Some {| sender_track := None; sender_hasSent := false |};
     Receiver := Some {| receiver_Track := None |};
     Direction := RTPTransceiverDirectionSendrecv; kind := k; stopped := false |}.

Definition fingerprintAttribute : sdp.Attribute :=
  {| sdp.Key := "fingerprint"; sdp.Value := "sha-256 12:34" |}.

(** A remote document with one data section whose mid is [data], as a
    Plan-B endpoint offers a data channel alone. *)
Definition planBDataOffer : sdp.SessionDescription :=
  {| sdp.Attributes := [fingerprintAttribute];
     sdp.MediaDescriptions :=
       [ {| sdp.mediaName := {| sdp.Media := "application"; sdp.Port := 9;
                                sdp.Protos := ["DTLS"; "SCTP"]; sdp.Formats := ["5000"] |};
            sdp.connectionInformation := None;
            sdp.mediaAttributes := [ {| sdp.Key := "mid"; sdp.Value := "data" |} ] |} ] |}.

Definition remoteVideoMedia (mid : string) : sdp.MediaDescription :=
  {| sdp.mediaName := {| sdp.Media := "video"; sdp.Port := 9;
                         sdp.Protos := ["UDP"; "TLS"; "RTP"; "SAVPF"];
                         sdp.Formats := ["96"] |};
     sdp.connectionInformation := None;
     sdp.mediaAttributes := [ {| sdp.Key := "mid"; sdp.Value := mid |};
                              {| sdp.Key := "sendrecv"; sdp.Value := "" |} ] |}.

(** A remote document with one video section under the given mid. *)
Definition remoteVideoDocument (mid : string) : sdp.SessionDescription :=
  {| sdp.Attributes := [fingerprintAttribute];
     sdp.MediaDescriptions := [remoteVideoMedia mid] |}.

Definition describe (ty : SDPType) (d : sdp.SessionDescription) : SessionDescription :=
  {| desc_Type := ty; desc_SDP := exampleMarshal d; desc_parsed := None |}.

(** ** Vocabulary of the statements *)

(** A transceiver suits a remote kind and a local direction. *)
Definition suits (remoteKind : RTPCodecType) (d : RTPTransceiverDirection)
    (t : RTPTransceiver) : Prop :=
  kind t = remoteKind /\ Direction t = d.

(** ** An offer/answer exchange for the examples

    The offering side has one sendrecv video transceiver.  Its offer is
    created first, so that the parser table of the example environment can
    contain the created document next to the remote ones. *)

Definition offerer : PeerConnection :=
  set_rtpTransceivers [sendrecvTransceiver RTPCodecTypeVideo]
    (newPeerConnection (exampleConfiguration SDPSemanticsUnifiedPlan)).

Definition emptyDescription : SessionDescription :=
  {| desc_Type := SDPTypeUnknown; desc_SDP := ""; desc_parsed := None |}.

Definition created (r : PeerConnection * (error + SessionDescription))
  : SessionDescription :=
  match snd r with
  | inr desc => desc
  | inl _ => emptyDescription
  end.

Definition parsedOf (desc : SessionDescription) : sdp.SessionDescription :=
  match desc_parsed desc with
  | Some d => d
  | None => sdp.NewJSEPSessionDescription
  end.

Definition offererOffer : SessionDescription :=
  created (CreateOffer (exampleEnv defaultCodecs []) offerer None).

Definition remoteDataDocument (mid : string) : sdp.SessionDescription :=
  {| sdp.Attributes := [fingerprintAttribute];
     sdp.MediaDescriptions :=
       [ {| sdp.mediaName := {| sdp.Media := "application"; sdp.Port := 9;
                                sdp.Protos := ["DTLS"; "SCTP"]; sdp.Formats := ["5000"] |};
            sdp.connectionInformation := None;
            sdp.mediaAttributes := [ {| sdp.Key := "mid"; sdp.Value := mid |} ] |} ] |}.

Definition scenarioEnv : Env :=
  exampleEnv defaultCodecs
    [parsedOf offererOffer; remoteVideoDocument "0"; remoteVideoDocument "video";
     planBDataOffer; remoteDataDocument "0"].

(** The offering side after CreateOffer and SetLocalDescription. *)
Definition offererWithLocalOffer : PeerConnection :=
  let pc1 := fst (CreateOffer scenarioEnv offerer None) in
  fst (SetLocalDescription scenarioEnv pc1 offererOffer).

(** The text of the offer with one more character, which the parser of
    the example environment does not read. *)
Definition garbledOffer : SessionDescription :=
  {| desc_Type := SDPTypeOffer; desc_SDP := desc_SDP offererOffer +:+ "x";
     desc_parsed := None |}.

Fixpoint lowerString (s : string) : string :=
  match s with
  | EmptyString => EmptyString
  | String c s' => String (lowerASCII c) (lowerString s')
  end.

(** A mid is a Plan-B mid when it is one of the three words in any letter
    case. *)
Definition planBMid (mid : string) : Prop :=
  lowerString mid = "audio" \/ lowerString mid = "video" \/ lowerString mid = "data".

(** A remote section that is answered with an RTP section: not the data
    section, of a known kind and with a direction attribute. *)
Definition rtpSection (E : Env) (media : sdp.MediaDescription) : Prop :=
  sdp.Media (sdp.mediaName media) <> "application" /\
  NewRTPCodecType E (sdp.Media (sdp.mediaName media)) <> RTPCodecTypeZero /\
  getPeerDirection E (sdp.mediaAttributes media) <> RTPTransceiverDirectionUnknown.

(** The walk of CreateAnswer arrives at an RTP section: every section
    before it carries a mid and is a data section or is skipped. *)
Definition reachesRTPSection (E : Env) (medias : list sdp.MediaDescription) : Prop :=
  exists before media after,
    medias = before ++ media :: after /\
    Forall (fun m => getMidValue m <> "" /\ ~ rtpSection E m) before /\
    getMidValue media <> "" /\ rtpSection E media.

(** What CreateAnswer needs from the connection and its collaborators
    before it looks at the remote sections. *)
Definition readyToAnswer (E : Env) (pc : PeerConnection) : Prop :=
  isClosed pc = false /\ idpLoginURL pc = None /\
  (exists d, addFingerprint E pc sdp.NewJSEPSessionDescription = inr d) /\
  (exists iceParams, GetLocalParameters E = inr iceParams) /\
  (exists candidates, GetLocalCandidates E = inr candidates).

(** The mids of a Unified Plan offer with [n] sections, and the value of
    the group attribute that lists given mids in order. *)
Definition unifiedMids (n : nat) : list string :=
  map (fun i => Itoa (Z.of_nat i)) (seq 0 n).

Definition bundleOf (mids : list string) : string :=
  fold_left (fun acc mid => acc +:+ " " +:+ mid) mids "BUNDLE".

(** A builder step keeps the medium and only appends attributes. *)
Definition extends (m m' : sdp.MediaDescription) : Prop :=
  sdp.Media (sdp.mediaName m') = sdp.Media (sdp.mediaName m) /\
  exists extra, sdp.mediaAttributes m' = sdp.mediaAttributes m ++ extra.

(** The section an offer or answer emits for a transceiver under a mid:
    of the transceiver's kind; with that mid when the media engine has a
    codec for the kind, the attribute-less rejected section otherwise. *)
Definition sectionFor (E : Env) (t : RTPTransceiver) (mid : string)
    (m : sdp.MediaDescription) : Prop :=
  sdp.Media (sdp.mediaName m) = kindString E (kind t) /\
  (GetCodecsByKind E (kind t) <> [] -> getMidValue m = mid) /\
  (GetCodecsByKind E (kind t) = [] -> m = rejectedMedia E t).

Definition dataSection (mid : string) (m : sdp.MediaDescription) : Prop :=
  sdp.Media (sdp.mediaName m) = "application" /\ getMidValue m = mid.

(** The sections of a Plan-B offer for one kind: none without a
    transceiver of the kind, one named after the kind otherwise. *)
Definition planBSections (E : Env) (transceivers : list RTPTransceiver) (mid : string)
    (ms : list sdp.MediaDescription) : Prop :=
  match transceivers with
  | [] => ms = []
  | t :: _ => exists m, ms = [m] /\ sectionFor E t mid m
  end.

Definition planBMids (transceivers : list RTPTransceiver) : list string :=
  (if decide (ofKind RTPCodecTypeVideo transceivers = []) then [] else ["video"])
  ++ (if decide (ofKind RTPCodecTypeAudio transceivers = []) then [] else ["audio"])
  ++ ["data"].

(** ** Successive data channels

    [n] calls of CreateDataChannel without options, each on the connection
    the call before has left; [None] when one of them fails or does not
    return. *)
Fixpoint createChannels (E : Env) (label : string) (n : nat) (pc : PeerConnection)
  : option PeerConnection :=
  match n with
  | O => Some pc
  | S k =>
      match createChannels E label k pc with
      | Some pc1 =>
          match CreateDataChannel E pc1 label None with
          | Some (pc2, inr _) => Some pc2
          | _ => None
          end
      | None => None
      end
  end.

(** The channels with the ids 0, 2, ..., 2(n-1), as the example
    environment makes them. *)
Fixpoint channelsUpTo (label : string) (n : nat) : gmap Z DataChannel :=
  match n with
  | O => ∅
  | S k =>
      <[2 * Z.of_nat k :=
          exampleDataChannel (dataChannelParameters label (2 * Z.of_nat k) None)]>
        (channelsUpTo label k)
  end.

(** * The rest of peerconnection.go

    The functions below complete the embedding: the remaining getters, the
    transceiver constructors and the configuration set up by the
    constructor, with the vocabulary of the statements about them. *)

(** ** The state machine, seen from its callers *)

(** The state [setDescription] proposes to [checkNextSignalingState] for
    an operation and a type. *)
Definition proposedState (op : stateChangeOp) (ty : SDPType) : SignalingState :=
  match op, ty with
  | stateChangeOpSetLocal, SDPTypeOffer => SignalingStateHaveLocalOffer
  | stateChangeOpSetLocal, SDPTypePranswer => SignalingStateHaveLocalPranswer
  | stateChangeOpSetRemote, SDPTypeOffer => SignalingStateHaveRemoteOffer
  | stateChangeOpSetRemote, SDPTypePranswer => SignalingStateHaveRemotePranswer
  | _, _ => SignalingStateStable
  end.

(** What a dispatch of the signaling handler adds to the log. *)
Definition signalingDispatch (pc : PeerConnection) (s : SignalingState) : list Call :=
  if onSignalingStateChangeHandler pc then [CallSignalingStateHandler s] else [].

Definition withSDP (text : string) (sd : SessionDescription) : SessionDescription :=
  {| desc_Type := desc_Type sd; desc_SDP := text; desc_parsed := desc_parsed sd |}.

(** What SetLocalDescription returns once the description is installed:
    the answer of the gatherer that is asked. *)
Definition gathererVerdict (E : Env) (ty : SDPType) : option error :=
  if negb (agentIsTrickle E) then SignalCandidates E
  else if decide (ty = SDPTypeAnswer) then Gather E
  else None.

Definition gathererCalls (E : Env) (ty : SDPType) : list Call :=
  if negb (agentIsTrickle E) then [CallSignalCandidates]
  else if decide (ty = SDPTypeAnswer) then [CallGather]
  else [].

(** ** The answering side of the example exchange

    It has one sendrecv video transceiver and receives the offer with one
    video section.  Its answer is created first, so that the parser table
    can contain the created document. *)

Definition answerer : PeerConnection :=
  set_rtpTransceivers [sendrecvTransceiver RTPCodecTypeVideo]
    (newPeerConnection (exampleConfiguration SDPSemanticsUnifiedPlan)).

Definition remoteOffer : SessionDescription :=
  describe SDPTypeOffer (remoteVideoDocument "0").

Definition answererWithRemoteOffer : PeerConnection :=
  fst (SetRemoteDescription (exampleEnv defaultCodecs [remoteVideoDocument "0"])
         answerer remoteOffer).

Definition answererAnswer : SessionDescription :=
  created (CreateAnswer (exampleEnv defaultCodecs [remoteVideoDocument "0"])
             answererWithRemoteOffer None).

Definition answererEnv : Env :=
  exampleEnv defaultCodecs [parsedOf answererAnswer; remoteVideoDocument "0"].

(** ** What SetRemoteDescription reads from the remote document *)

(** The candidate an attribute carries, when it is a candidate attribute
    that parses. *)
Definition candidateOf (E : Env) (a : sdp.Attribute) : option ICECandidate :=
  if sdp.IsICECandidate a then
    match parseCandidate E a with
    | inr candidate => Some candidate
    | inl _ => None
    end
  else None.

(** The candidates of the media sections, in document order. *)
Definition remoteCandidates (E : Env) (medias : list sdp.MediaDescription)
  : list ICECandidate :=
  omap (candidateOf E) (concat (map sdp.mediaAttributes medias)).

(** The fingerprint of the first media section that has one. *)
Fixpoint mediaFingerprint (medias : list sdp.MediaDescription) : option string :=
  match medias with
  | [] => None
  | m :: rest =>
      match sdp.lookupAttribute "fingerprint" (sdp.mediaAttributes m) with
      | Some f => Some f
      | None => mediaFingerprint rest
      end
  end.

(** The fingerprint of a document: the session's, else the first media
    section's. *)
Definition documentFingerprint (d : sdp.SessionDescription) : option string :=
  match sdp.lookupAttribute "fingerprint" (sdp.Attributes d) with
  | Some f => Some f
  | None => mediaFingerprint (sdp.MediaDescriptions d)
  end.

(** Two connections that differ in the call log at most. *)
Definition sameButCalls (pc pc' : PeerConnection) : Prop :=
  pc' = set_calls (calls pc') pc.

Definition remoteGatherCalls (E : Env) (ty : SDPType) : list Call :=
  if (bool_decide (ty = SDPTypeAnswer) || bool_decide (ty = SDPTypePranswer))
     && agentIsTrickle E
  then [CallGather] else [].

(** A remote offer whose document has no fingerprint at all. *)
Definition bareDocument : sdp.SessionDescription :=
  {| sdp.Attributes := [];
     sdp.MediaDescriptions :=
       [ {| sdp.mediaName := {| sdp.Media := "video"; sdp.Port := 9;
                                sdp.Protos := ["UDP"; "TLS"; "RTP"; "SAVPF"];
                                sdp.Formats := ["96"] |};
            sdp.connectionInformation := None;
            sdp.mediaAttributes :=
              [ {| sdp.Key := "mid"; sdp.Value := "0" |};
                {| sdp.Key := "candidate";
                   sdp.Value := "1 1 udp 2130706431 192.0.2.1 50000 typ host" |};
                {| sdp.Key := "sendrecv"; sdp.Value := "" |} ] |} ] |}.

(** The same section with the fingerprint at media level and two
    candidates. *)
Definition mediaLevelDocument : sdp.SessionDescription :=
  {| sdp.Attributes := [];
     sdp.MediaDescriptions :=
       [ {| sdp.mediaName := {| sdp.Media := "video"; sdp.Port := 9;
                                sdp.Protos := ["UDP"; "TLS"; "RTP"; "SAVPF"];
                                sdp.Formats := ["96"] |};
            sdp.connectionInformation := None;
            sdp.mediaAttributes :=
              [ {| sdp.Key := "mid"; sdp.Value := "0" |};
                {| sdp.Key := "ice-ufrag"; sdp.Value := "abcd" |};
                {| sdp.Key := "candidate";
                   sdp.Value := "1 1 udp 2130706431 192.0.2.1 50000 typ host" |};
                fingerprintAttribute;
                {| sdp.Key := "candidate";
                   sdp.Value := "2 1 udp 2130706430 192.0.2.2 50001 typ host" |};
                {| sdp.Key := "sendrecv"; sdp.Value := "" |} ] |} ] |}.

Definition remoteEnv : Env :=
  exampleEnv defaultCodecs [bareDocument; mediaLevelDocument].

(** ** The remaining description getters *)

(** Which local description a getter asks [populateLocalCandidates] for.
    The argument of the Go function is a pointer; it is the pending
    description itself when the pending one is asked for, and that matters
    because the function writes into the pending description. *)
Inductive LocalSlot := CurrentSlot | PendingSlot.

Definition localSlot (pc : PeerConnection) (slot : LocalSlot) : option SessionDescription :=
  match slot with
  | CurrentSlot => currentLocalDescription pc
  | PendingSlot => pendingLocalDescription pc
  end.

(** [populateLocalCandidates]: for a description that is not nil, the
    gathered candidates are written into the parsed document of the
    pending local description, whichever description was asked for, and
    that document is serialized.  When there are no candidates to be had or
    the serializer fails, the description asked for is returned.  The
    gatherer is never nil on a constructed connection. *)
Definition populateLocalCandidates (E : Env) (pc : PeerConnection) (slot : LocalSlot)
  : PeerConnection * (error + option SessionDescription) :=
  match localSlot pc slot with
  | None => (pc, inr None)
  | Some orig =>
      match GetLocalCandidates E with
      | inl _ => (pc, inr (Some orig))
      | inr candidates =>
          match pendingLocalDescription pc with
          | None => (pc, inl (RuntimePanic "nil pointer dereference"))
          | Some pending =>
              match desc_parsed pending with
              | None => (pc, inl (RuntimePanic "nil pointer dereference"))
              | Some parsed =>
                  let parsed' :=
                    {| sdp.Attributes := sdp.Attributes parsed;
                       sdp.MediaDescriptions :=
                         map (addCandidatesToMediaDescriptions E candidates)
                             (sdp.MediaDescriptions parsed) |} in
                  let pc' := set_pendingLocalDescription
                               (Some (withParsed (Some parsed') pending)) pc in
                  match Marshal E parsed' with
                  | inl _ => (pc', inr (localSlot pc' slot))
                  | inr text =>
                      (pc', inr (Some {| desc_Type := desc_Type pending; desc_SDP := text;
                                         desc_parsed := None |}))
                  end
              end
          end
      end
  end.

Definition CurrentLocalDescription (E : Env) (pc : PeerConnection)
  : PeerConnection * (error + option SessionDescription) :=
  populateLocalCandidates E pc CurrentSlot.

Definition CurrentRemoteDescription (pc : PeerConnection) : option SessionDescription :=
  currentRemoteDescription pc.

Definition PendingRemoteDescription (pc : PeerConnection) : option SessionDescription :=
  pendingRemoteDescription pc.

(** [GetSenders], [GetReceivers], [GetTransceivers]. *)
Definition GetTransceivers (pc : PeerConnection) : list RTPTransceiver :=
  rtpTransceivers pc.

Definition GetSenders (pc : PeerConnection) : list RTPSender :=
  omap Sender (rtpTransceivers pc).

Definition GetReceivers (pc : PeerConnection) : list RTPReceiver :=
  omap Receiver (rtpTransceivers pc).

(** [n] successive calls of PendingLocalDescription. *)
Fixpoint pendingLocalDescriptionTimes (E : Env) (n : nat) (pc : PeerConnection)
  : PeerConnection :=
  match n with
  | O => pc
  | S k => fst (PendingLocalDescription E (pendingLocalDescriptionTimes E k pc))
  end.

(** The numbers of attributes of the media sections of a description. *)
Definition attributeCounts (sd : option SessionDescription) : list nat :=
  match sd with
  | Some d =>
      match desc_parsed d with
      | Some parsed => map (fun m => length (sdp.mediaAttributes m))
                           (sdp.MediaDescriptions parsed)
      | None => []
      end
  | None => []
  end.

(** The number of attributes one pass of
    [addCandidatesToMediaDescriptions] appends: two per candidate and the
    end marker, nothing without candidates. *)
Definition candidateLines (candidates : list ICECandidate) : nat :=
  match candidates with
  | [] => 0
  | _ => 2 * length candidates + 1
  end.

(** ** Variations of an environment *)

(** The environment with another value for the gatherer's candidate list. *)
Definition with_GetLocalCandidates (v : error + list ICECandidate) (E : Env) : Env :=
  {| Unmarshal := Unmarshal E; Marshal := Marshal E;
     NewRTPCodecType := NewRTPCodecType E;
     NewRTPTransceiverDirection := NewRTPTransceiverDirection E;
     kindString := kindString E; directionString := directionString E;
     sctpMaxChannels := sctpMaxChannels E; GetFingerprints := GetFingerprints E;
     certificateEquals := certificateEquals E; validate := validate E;
     setSendingTrack := setSendingTrack E; transceiverStop := transceiverStop E;
     newDataChannel := newDataChannel E; dataChannelOpen := dataChannelOpen E;
     NewRTPReceiver := NewRTPReceiver E; NewRTPSender := NewRTPSender E;
     NewSCTPTransport := NewSCTPTransport E; FlattenErrs := FlattenErrs E;
     ToUpper := ToUpper E; TrimPrefix := TrimPrefix E;
     agentIsTrickle := agentIsTrickle E; GetLocalParameters := GetLocalParameters E;
     GetLocalCandidates := v; SignalCandidates := SignalCandidates E;
     Gather := Gather E; candidateValue := candidateValue E;
     parseCandidate := parseCandidate E; AddRemoteCandidate := AddRemoteCandidate E;
     iceTransportStop := iceTransportStop E; dtlsTransportStop := dtlsTransportStop E;
     sctpTransportStop := sctpTransportStop E; getSRTCPSession := getSRTCPSession E;
     OpenWriteStream := OpenWriteStream E; writeStreamWrite := writeStreamWrite E;
     rtcpMarshal := rtcpMarshal E; GetCodecsByKind := GetCodecsByKind E |}.

(** The environment with another value for whether the gatherer trickles. *)
Definition with_agentIsTrickle (v : bool) (E : Env) : Env :=
  {| Unmarshal := Unmarshal E; Marshal := Marshal E;
     NewRTPCodecType := NewRTPCodecType E;
     NewRTPTransceiverDirection := NewRTPTransceiverDirection E;
     kindString := kindString E; directionString := directionString E;
     sctpMaxChannels := sctpMaxChannels E; GetFingerprints := GetFingerprints E;
     certificateEquals := certificateEquals E; validate := validate E;
     setSendingTrack := setSendingTrack E; transceiverStop := transceiverStop E;
     newDataChannel := newDataChannel E; dataChannelOpen := dataChannelOpen E;
     NewRTPReceiver := NewRTPReceiver E; NewRTPSender := NewRTPSender E;
     NewSCTPTransport := NewSCTPTransport E; FlattenErrs := FlattenErrs E;
     ToUpper := ToUpper E; TrimPrefix := TrimPrefix E; agentIsTrickle := v;
     GetLocalParameters := GetLocalParameters E;
     GetLocalCandidates := GetLocalCandidates E; SignalCandidates := SignalCandidates E;
     Gather := Gather E; candidateValue := candidateValue E;
     parseCandidate := parseCandidate E; AddRemoteCandidate := AddRemoteCandidate E;
     iceTransportStop := iceTransportStop E; dtlsTransportStop := dtlsTransportStop E;
     sctpTransportStop := sctpTransportStop E; getSRTCPSession := getSRTCPSession E;
     OpenWriteStream := OpenWriteStream E; writeStreamWrite := writeStreamWrite E;
     rtcpMarshal := rtcpMarshal E; GetCodecsByKind := GetCodecsByKind E |}.

(** The environment with another value for the answer of [DataChannel.open]. *)
Definition with_dataChannelOpen (v : DataChannel -> option error) (E : Env) : Env :=
  {| Unmarshal := Unmarshal E; Marshal := Marshal E;
     NewRTPCodecType := NewRTPCodecType E;
     NewRTPTransceiverDirection := NewRTPTransceiverDirection E;
     kindString := kindString E; directionString := directionString E;
     sctpMaxChannels := sctpMaxChannels E; GetFingerprints := GetFingerprints E;
     certificateEquals := certificateEquals E; validate := validate E;
     setSendingTrack := setSendingTrack E; transceiverStop := transceiverStop E;
     newDataChannel := newDataChannel E; dataChannelOpen := v;
     NewRTPReceiver := NewRTPReceiver E; NewRTPSender := NewRTPSender E;
     NewSCTPTransport := NewSCTPTransport E; FlattenErrs := FlattenErrs E;
     ToUpper := ToUpper E; TrimPrefix := TrimPrefix E;
     agentIsTrickle := agentIsTrickle E; GetLocalParameters := GetLocalParameters E;
     GetLocalCandidates := GetLocalCandidates E; SignalCandidates := SignalCandidates E;
     Gather := Gather E; candidateValue := candidateValue E;
     parseCandidate := parseCandidate E; AddRemoteCandidate := AddRemoteCandidate E;
     iceTransportStop := iceTransportStop E; dtlsTransportStop := dtlsTransportStop E;
     sctpTransportStop := sctpTransportStop E; getSRTCPSession := getSRTCPSession E;
     OpenWriteStream := OpenWriteStream E; writeStreamWrite := writeStreamWrite E;
     rtcpMarshal := rtcpMarshal E; GetCodecsByKind := GetCodecsByKind E |}.

Definition with_validate (v : ICEServer -> option error) (E : Env) : Env :=
  {| Unmarshal := Unmarshal E; Marshal := Marshal E;
     NewRTPCodecType := NewRTPCodecType E;
     NewRTPTransceiverDirection := NewRTPTransceiverDirection E;
     kindString := kindString E; directionString := directionString E;
     sctpMaxChannels := sctpMaxChannels E; GetFingerprints := GetFingerprints E;
     certificateEquals := certificateEquals E; validate := v;
     setSendingTrack := setSendingTrack E; transceiverStop := transceiverStop E;
     newDataChannel := newDataChannel E; dataChannelOpen := dataChannelOpen E;
     NewRTPReceiver := NewRTPReceiver E; NewRTPSender := NewRTPSender E;
     NewSCTPTransport := NewSCTPTransport E; FlattenErrs := FlattenErrs E;
     ToUpper := ToUpper E; TrimPrefix := TrimPrefix E;
     agentIsTrickle := agentIsTrickle E; GetLocalParameters := GetLocalParameters E;
     GetLocalCandidates := GetLocalCandidates E; SignalCandidates := SignalCandidates E;
     Gather := Gather E; candidateValue := candidateValue E;
     parseCandidate := parseCandidate E; AddRemoteCandidate := AddRemoteCandidate E;
     iceTransportStop := iceTransportStop E; dtlsTransportStop := dtlsTransportStop E;
     sctpTransportStop := sctpTransportStop E; getSRTCPSession := getSRTCPSession E;
     OpenWriteStream := OpenWriteStream E; writeStreamWrite := writeStreamWrite E;
     rtcpMarshal := rtcpMarshal E; GetCodecsByKind := GetCodecsByKind E |}.

Definition with_iceTransportStop (v : option error) (E : Env) : Env :=
  {| Unmarshal := Unmarshal E; Marshal := Marshal E;
     NewRTPCodecType := NewRTPCodecType E;
     NewRTPTransceiverDirection := NewRTPTransceiverDirection E;
     kindString := kindString E; directionString := directionString E;
     sctpMaxChannels := sctpMaxChannels E; GetFingerprints := GetFingerprints E;
     certificateEquals := certificateEquals E; validate := validate E;
     setSendingTrack := setSendingTrack E; transceiverStop := transceiverStop E;
     newDataChannel := newDataChannel E; dataChannelOpen := dataChannelOpen E;
     NewRTPReceiver := NewRTPReceiver E; NewRTPSender := NewRTPSender E;
     NewSCTPTransport := NewSCTPTransport E; FlattenErrs := FlattenErrs E;
     ToUpper := ToUpper E; TrimPrefix := TrimPrefix E;
     agentIsTrickle := agentIsTrickle E; GetLocalParameters := GetLocalParameters E;
     GetLocalCandidates := GetLocalCandidates E; SignalCandidates := SignalCandidates E;
     Gather := Gather E; candidateValue := candidateValue E;
     parseCandidate := parseCandidate E; AddRemoteCandidate := AddRemoteCandidate E;
     iceTransportStop := v; dtlsTransportStop := dtlsTransportStop E;
     sctpTransportStop := sctpTransportStop E; getSRTCPSession := getSRTCPSession E;
     OpenWriteStream := OpenWriteStream E; writeStreamWrite := writeStreamWrite E;
     rtcpMarshal := rtcpMarshal E; GetCodecsByKind := GetCodecsByKind E |}.

(** A gatherer that has found one host candidate. *)
Definition gatheredEnv : Env :=
  with_GetLocalCandidates (inr ["1 udp 2130706431 198.51.100.7 40000 typ host"])
    scenarioEnv.

(** ** Vocabulary for the answer *)

(** A transceiver that the satisfy procedure can take for a remote
    direction. *)
Definition preferred (remoteKind : RTPCodecType) (remoteDirection : RTPTransceiverDirection)
    (t : RTPTransceiver) : Prop :=
  exists d, d ∈ getPreferredDirections remoteDirection /\ suits remoteKind d t.

(** A remote section that CreateAnswer answers with a section of its own:
    the data section, or a section of known kind with a direction. *)
Definition answered (E : Env) (media : sdp.MediaDescription) : bool :=
  String.eqb (sdp.Media (sdp.mediaName media)) "application"
  || negb (bool_decide (NewRTPCodecType E (sdp.Media (sdp.mediaName media))
                        = RTPCodecTypeZero)
           || bool_decide (getPeerDirection E (sdp.mediaAttributes media)
                           = RTPTransceiverDirectionUnknown)).

(** An answer section stands for a remote section: a data section under
    the remote mid for the data section; otherwise the section of a
    transceiver of the remote kind, which carries the remote mid when the
    media engine has a codec for the kind and is the attribute-less
    rejected section, without mid, when it has none. *)
Definition answers (E : Env) (remote answer : sdp.MediaDescription) : Prop :=
  if String.eqb (sdp.Media (sdp.mediaName remote)) "application"
  then dataSection (getMidValue remote) answer
  else exists t, kind t = NewRTPCodecType E (sdp.Media (sdp.mediaName remote)) /\
                 sectionFor E t (getMidValue remote) answer.

(** A remote section for which the answer can carry the mid: the data
    section, or a section for whose kind the media engine has a codec. *)
Definition answerable (E : Env) (remote : sdp.MediaDescription) : Prop :=
  String.eqb (sdp.Media (sdp.mediaName remote)) "application" = true \/
  GetCodecsByKind E (NewRTPCodecType E (sdp.Media (sdp.mediaName remote))) <> [].

(** ** Data channels: vocabulary and examples *)

(** The ids of the channels that [n] calls on the creating side hand out
    when they start from an empty map. *)
Definition nthChannelIDs (n : nat) (k : Z) : Prop :=
  0 <= k < 2 * Z.of_nat n /\ k mod 2 = 0.

(** The offering side once its SCTP association is up, and an environment
    in which opening a channel fails. *)
Definition connectedOfferer : PeerConnection :=
  set_sctpTransport (Some {| MaxChannels := 65535; association := true |}) offerer.

Definition failingOpenEnv : Env :=
  with_dataChannelOpen (fun _ => Some (PlainError (Errorf "open failed"))) scenarioEnv.

(** ** Close: the shutdown steps in order *)

(** The stop calls that Close makes on an open connection, and the errors
    it collects, both in the order of the steps. *)
Definition shutdownCalls (pc : PeerConnection) : list Call :=
  (if iceTransport pc then [CallICETransportStop] else [])
  ++ [CallDTLSTransportStop]
  ++ (if sctpTransport pc is Some _ then [CallSCTPTransportStop] else [])
  ++ map CallTransceiverStop (seq 0 (length (rtpTransceivers pc))).

Definition shutdownErrors (E : Env) (pc : PeerConnection) : list error :=
  (if iceTransport pc then errorList (iceTransportStop E) else [])
  ++ errorList (dtlsTransportStop E)
  ++ (if sctpTransport pc is Some _ then errorList (sctpTransportStop E) else [])
  ++ omap (fun t => snd (transceiverStop E t)) (rtpTransceivers pc).

(** An open connection with every transport and two transceivers, and an
    environment in which the ICE transport fails to stop. *)
Definition busyConnection : PeerConnection :=
  set_sctpTransport (Some {| MaxChannels := 65535; association := true |})
    (set_rtpTransceivers [sendrecvTransceiver RTPCodecTypeVideo;
                          recvonlyTransceiver RTPCodecTypeAudio]
       (newPeerConnection (exampleConfiguration SDPSemanticsUnifiedPlan))).

(** ** SetConfiguration: vocabulary *)

(** GetConfiguration returns the current configuration. *)
Definition GetConfiguration (pc : PeerConnection) : Configuration :=
  configuration pc.

(** The configuration after the fields that a request sets have been
    taken over: a zero value (empty list, Unknown, 0) leaves the field. *)
Definition takenOver (ours requested : Configuration) : Configuration :=
  {| ICEServers := if decide (0 < length (ICEServers requested))%nat
                   then ICEServers requested else ICEServers ours;
     ICETransportPolicy := if decide (ICETransportPolicy requested <> Unknown)
                           then ICETransportPolicy requested
                           else ICETransportPolicy ours;
     BundlePolicy := BundlePolicy ours;
     RTCPMuxPolicy := RTCPMuxPolicy ours;
     PeerIdentity := PeerIdentity ours;
     Certificates := if decide (0 < length (Certificates requested))%nat
                     then Certificates requested else Certificates ours;
     ICECandidatePoolSize := if decide (ICECandidatePoolSize requested <> 0)
                             then ICECandidatePoolSize requested
                             else ICECandidatePoolSize ours;
     SDPSemantics_ := SDPSemantics_ ours |}.

(** A request repeats the fields that cannot be modified, or leaves them
    at their zero value. *)
Definition repeatsImmutable (E : Env) (ours requested : Configuration) : Prop :=
  (PeerIdentity requested = "" \/ PeerIdentity requested = PeerIdentity ours) /\
  (Certificates requested = [] \/
   length (Certificates requested) = length (Certificates ours) /\
   certificatesEqual E (Certificates ours) (Certificates requested) = true) /\
  (BundlePolicy requested = Unknown \/ BundlePolicy requested = BundlePolicy ours) /\
  (RTCPMuxPolicy requested = Unknown \/ RTCPMuxPolicy requested = RTCPMuxPolicy ours).

(** Step #7 lets the request through: it leaves the pool size, repeats
    it, or there is no local description yet. *)
Definition poolSizeFree (E : Env) (pc : PeerConnection) (requested : Configuration)
  : Prop :=
  ICECandidatePoolSize requested = 0 \/
  ICECandidatePoolSize requested = ICECandidatePoolSize (configuration pc) \/
  snd (LocalDescription E pc) = inr None.

(** A server the example environment would accept, and an environment that
    rejects every server. *)
Definition strictEnv : Env :=
  with_validate (fun _ => Some (PlainError (Errorf "invalid server"))) scenarioEnv.

Definition relayOnly : Configuration :=
  {| ICEServers := [["stun:stun.example.org"]]; ICETransportPolicy := 2;
     BundlePolicy := Unknown; RTCPMuxPolicy := Unknown; PeerIdentity := "";
     Certificates := []; ICECandidatePoolSize := 4;
     SDPSemantics_ := SDPSemanticsUnifiedPlan |}.

(** ** Tracks and transceivers: vocabulary *)

(** Two connections that differ in their transceivers at most. *)
Definition sameButTransceivers (pc pc' : PeerConnection) : Prop :=
  pc' = set_rtpTransceivers (rtpTransceivers pc') pc.

(** The transceiver AddTrack creates for a track. *)
Definition trackTransceiver (track : Track) (receiver : RTPReceiver) (sender : RTPSender)
  : RTPTransceiver :=
  {| Sender := Some sender; Receiver := Some receiver;
     Direction := RTPTransceiverDirectionSendrecv; kind := track_kind track;
     stopped := false |}.

Definition videoTrack : Track :=
  {| track_kind := RTPCodecTypeVideo; track_ssrc := 4242; track_id := "video";
     track_label := "camera"; track_payloadType := 96 |}.

(** ** AddTransceiverFromKind and AddTransceiverFromTrack *)

Record RtpTransceiverInit := { init_Direction : RTPTransceiverDirection }.

(** The direction that the variadic [init] asks for: sendrecv when it is
    empty, the error of the given method when it has more than one
    element. *)
Definition requestedDirection (method : string) (init : list RtpTransceiverInit)
  : error + RTPTransceiverDirection :=
  match init with
  | [] => inr RTPTransceiverDirectionSendrecv
  | [i] => inr (init_Direction i)
  | _ => inl (PlainError (Errorf (method +:+ " only accepts one RtpTransceiverInit")))
  end.

Section Transceivers.

(** [pc.NewTrack] for a payload type, with the random SSRC, id and label
    it draws. *)
Variable NewTrack : Z -> error + Track.
Variable E : Env.

(** AddTransceiverFromKind creates a new transceiver (sendrecv or
    recvonly) and adds it to the set of transceivers. *)
Definition AddTransceiverFromKind (pc : PeerConnection) (kind : RTPCodecType)
    (init : list RtpTransceiverInit) : PeerConnection * (error + RTPTransceiver) :=
  match requestedDirection "AddTransceiverFromKind" init with
  | inl e => (pc, inl e)
  | inr RTPTransceiverDirectionSendrecv =>
      match NewRTPReceiver E kind with
      | inl e => (pc, inl e)
      | inr receiver =>
          match GetCodecsByKind E kind with
          | [] => (pc, inl (PlainError
                              (Errorf ("no " +:+ kindString E kind +:+ " codecs found"))))
          | codec :: _ =>
              match NewTrack (codec_PayloadType codec) with
              | inl e => (pc, inl e)
              | inr track =>
                  match NewRTPSender E track with
                  | inl e => (pc, inl e)
                  | inr sender =>
                      let '(pc', t) :=
                        newRTPTransceiver pc (Some receiver) (Some sender)
                          RTPTransceiverDirectionSendrecv kind in
                      (pc', inr t)
                  end
              end
          end
      end
  | inr RTPTransceiverDirectionRecvonly =>
      match NewRTPReceiver E kind with
      | inl e => (pc, inl e)
      | inr receiver =>
          let '(pc', t) :=
            newRTPTransceiver pc (Some receiver) None
              RTPTransceiverDirectionRecvonly kind in
          (pc', inr t)
      end
  | inr _ =>
      (pc, inl (PlainError
                  (Errorf "AddTransceiverFromKind currently only supports recvonly and sendrecv")))
  end.

(** AddTransceiver is the deprecated name of AddTransceiverFromKind. *)
Definition AddTransceiver (pc : PeerConnection) (trackOrKind : RTPCodecType)
    (init : list RtpTransceiverInit) : PeerConnection * (error + RTPTransceiver) :=
  AddTransceiverFromKind pc trackOrKind init.

(** AddTransceiverFromTrack creates a new transceiver (sendrecv or
    sendonly) for a track and adds it to the set of transceivers. *)
Definition AddTransceiverFromTrack (pc : PeerConnection) (track : Track)
    (init : list RtpTransceiverInit) : PeerConnection * (error + RTPTransceiver) :=
  match requestedDirection "AddTransceiverFromTrack" init with
  | inl e => (pc, inl e)
  | inr RTPTransceiverDirectionSendrecv =>
      match NewRTPReceiver E (track_kind track) with
      | inl e => (pc, inl e)
      | inr receiver =>
          match NewRTPSender E track with
          | inl e => (pc, inl e)
          | inr sender =>
              let '(pc', t) :=
                newRTPTransceiver pc (Some receiver) (Some sender)
                  RTPTransceiverDirectionSendrecv (track_kind track) in
              (pc', inr t)
          end
      end
  | inr RTPTransceiverDirectionSendonly =>
      match NewRTPSender E track with
      | inl e => (pc, inl e)
      | inr sender =>
          let '(pc', t) :=
            newRTPTransceiver pc None (Some sender)
              RTPTransceiverDirectionSendonly (track_kind track) in
          (pc', inr t)
      end
  | inr _ =>
      (pc, inl (PlainError
                  (Errorf "AddTransceiverFromTrack currently only supports sendonly and sendrecv")))
  end.

End Transceivers.

(** A transceiver as the two methods make it: of a kind and a direction,
    not stopped, with a sender exactly when the direction sends and a
    receiver exactly when it receives. *)
Definition freshTransceiver (k : RTPCodecType) (d : RTPTransceiverDirection)
    (t : RTPTransceiver) : Prop :=
  kind t = k /\ Direction t = d /\ stopped t = false /\
  (is_Some (Sender t) <-> d = RTPTransceiverDirectionSendrecv
                          \/ d = RTPTransceiverDirectionSendonly) /\
  (is_Some (Receiver t) <-> d = RTPTransceiverDirectionSendrecv
                            \/ d = RTPTransceiverDirectionRecvonly).

(** A track source for the examples: a video track under the payload
    type. *)
Definition exampleNewTrack (payloadType : Z) : error + Track :=
  inr {| track_kind := RTPCodecTypeVideo; track_ssrc := 1; track_id := "id";
         track_label := "label"; track_payloadType := payloadType |}.

(** ** initConfiguration *)

Definition set_BundlePolicy (v : Z) (c : Configuration) : Configuration :=
  {| ICEServers := ICEServers c; ICETransportPolicy := ICETransportPolicy c;
     BundlePolicy := v; RTCPMuxPolicy := RTCPMuxPolicy c;
     PeerIdentity := PeerIdentity c; Certificates := Certificates c;
     ICECandidatePoolSize := ICECandidatePoolSize c; SDPSemantics_ := SDPSemantics_ c |}.

Definition set_RTCPMuxPolicy (v : Z) (c : Configuration) : Configuration :=
  {| ICEServers := ICEServers c; ICETransportPolicy := ICETransportPolicy c;
     BundlePolicy := BundlePolicy c; RTCPMuxPolicy := v;
     PeerIdentity := PeerIdentity c; Certificates := Certificates c;
     ICECandidatePoolSize := ICECandidatePoolSize c; SDPSemantics_ := SDPSemantics_ c |}.

Definition set_SDPSemantics (v : SDPSemantics) (c : Configuration) : Configuration :=
  {| ICEServers := ICEServers c; ICETransportPolicy := ICETransportPolicy c;
     BundlePolicy := BundlePolicy c; RTCPMuxPolicy := RTCPMuxPolicy c;
     PeerIdentity := PeerIdentity c; Certificates := Certificates c;
     ICECandidatePoolSize := ICECandidatePoolSize c; SDPSemantics_ := v |}.

Section Init.

(** The collaborators of the constructor: whether a certificate has an
    expiry time that has passed, the generators of a key and of a
    certificate for it, and the integer value of a semantics constant. *)
Variable expired : Certificate -> bool.
Variable PrivateKey : Type.
Variable GenerateKey : base_error + PrivateKey.
Variable GenerateCertificate : PrivateKey -> error + Certificate.
Variable semanticsValue : SDPSemantics -> Z.
Variable E : Env.

(** The loop over the requested certificates: each one is appended unless
    it has expired, which ends the loop with what has been appended. *)
Fixpoint appendCertificates (ours requested : list Certificate)
  : list Certificate * option error :=
  match requested with
  | [] => (ours, None)
  | x509Cert :: rest =>
      if expired x509Cert
      then (ours, Some (InvalidAccessError ErrCertificateExpired))
      else appendCertificates (ours ++ [x509Cert]) rest
  end.

(** initConfiguration validates the specified configuration and assigns
    it to the configuration of the connection under construction. *)
Definition initConfiguration (ours requested : Configuration)
  : Configuration * option error :=
  let c := if negb (String.eqb (PeerIdentity requested) "")
           then set_PeerIdentity (PeerIdentity requested) ours else ours in
  (* step #3 *)
  andThen
    (if decide (0 < length (Certificates requested))%nat then
       let '(certificates, err) :=
         appendCertificates (Certificates c) (Certificates requested) in
       (set_Certificates certificates c, err)
     else
       match GenerateKey with
       | inl err => (c, Some (UnknownError err))
       | inr sk =>
           match GenerateCertificate sk with
           | inl err => (c, Some err)
           | inr certificate => (set_Certificates [certificate] c, None)
           end
       end)
    (fun c =>
  let c := if decide (BundlePolicy requested <> Unknown)
           then set_BundlePolicy (BundlePolicy requested) c else c in
  let c := if decide (RTCPMuxPolicy requested <> Unknown)
           then set_RTCPMuxPolicy (RTCPMuxPolicy requested) c else c in
  let c := if decide (ICECandidatePoolSize requested <> 0)
           then set_ICECandidatePoolSize (ICECandidatePoolSize requested) c else c in
  let c := if decide (ICETransportPolicy requested <> Unknown)
           then set_ICETransportPolicy (ICETransportPolicy requested) c else c in
  let c := if decide (semanticsValue (SDPSemantics_ requested) <> Unknown)
           then set_SDPSemantics (SDPSemantics_ requested) c else c in
  if decide (0 < length (ICEServers requested))%nat then
    match firstInvalidServer E (ICEServers requested) with
    | Some err => (c, Some err)
    | None => (set_ICEServers (ICEServers requested) c, None)
    end
  else (c, None)).

End Init.

(** The configuration literal of the constructor, for given values of the
    policy constants and of the zero value of the semantics, and
    collaborators for the examples. *)
Definition literalConfiguration (all balanced require : Z) (zero : SDPSemantics)
  : Configuration :=
  {| ICEServers := []; ICETransportPolicy := all; BundlePolicy := balanced;
     RTCPMuxPolicy := require; PeerIdentity := ""; Certificates := [];
     ICECandidatePoolSize := 0; SDPSemantics_ := zero |}.

Definition exampleSemanticsValue (s : SDPSemantics) : Z :=
  match s with
  | SDPSemanticsUnifiedPlan => 0
  | SDPSemanticsPlanB => 1
  | SDPSemanticsUnifiedPlanWithFallback => 2
  end.

(** ** Further remote documents for the examples *)

(** A remote document whose only section is a sendrecv video section
    without mid. *)
Definition midlessVideoDocument : sdp.SessionDescription :=
  {| sdp.Attributes := [fingerprintAttribute];
     sdp.MediaDescriptions :=
       [ {| sdp.mediaName := {| sdp.Media := "video"; sdp.Port := 9;
                                sdp.Protos := ["UDP"; "TLS"; "RTP"; "SAVPF"];
                                sdp.Formats := ["96"] |};
            sdp.connectionInformation := None;
            sdp.mediaAttributes := [ {| sdp.Key := "sendrecv"; sdp.Value := "" |} ] |} ] |}.

Definition midlessEnv : Env := exampleEnv defaultCodecs [midlessVideoDocument].

(** ** A small channel limit for the examples *)



(** ** CreateDataChannel: the id and the state after a registration *)

(** The id CreateDataChannel uses: the requested one, or the one the
    allocation hands out. *)
Definition chosenDataChannelID (E : Env) (pc : PeerConnection)
    (options : option DataChannelInit) : option (error + Z) :=
  match requestedID options with
  | None => generateDataChannelID E pc true
  | Some id => Some (inr id)
  end.

(** The connection after a channel has been registered under an id and
    the open call has been made on the established association. *)
Definition registeredAndOpened (pc : PeerConnection) (id : Z) (d : DataChannel)
  : PeerConnection :=
  let pc1 := set_dataChannels (<[id := d]> (dataChannels pc)) pc in
  let pc2 := set_dataChannelsRequested (wrap32 (dataChannelsRequested pc1 + 1)) pc1 in
  set_calls (calls pc2 ++ [CallDataChannelOpen id]) pc2.

(** Both reliability limits are set on a channel. *)
Definition bothLimits (d : DataChannel) : Prop :=
  dc_maxPacketLifeTime d <> None /\ dc_maxRetransmits d <> None.

(** * Properties *)

(** ** The signaling state machine *)

Section SetDescription.

Implicit Types (pc : PeerConnection) (sd : SessionDescription).

Lemma commitSignalingState_error pc pc' nextState err e :
  commitSignalingState pc nextState err = (pc', Some e) -> pc' = pc /\ err = Some e.
Proof.
  unfold commitSignalingState. destruct err; intros H; inversion H; auto.
Qed.

Lemma commitSignalingState_ok pc pc' nextState err :
  commitSignalingState pc nextState err = (pc', None) ->
  err = None /\ pc' = onSignalingStateChange nextState (set_signalingState nextState pc).
Proof.
  unfold commitSignalingState. destruct err; intros H; inversion H; auto.
Qed.

Lemma onSignalingStateChange_fields newState pc :
  let pc' := onSignalingStateChange newState pc in
  signalingState pc' = signalingState pc /\
  currentLocalDescription pc' = currentLocalDescription pc /\
  pendingLocalDescription pc' = pendingLocalDescription pc /\
  currentRemoteDescription pc' = currentRemoteDescription pc /\
  pendingRemoteDescription pc' = pendingRemoteDescription pc.
Proof.
  unfold onSignalingStateChange. destruct (onSignalingStateChangeHandler pc); simpl; auto.
Qed.

Lemma checkNextSignalingState_ok cur next op ty s :
  checkNextSignalingState cur next op ty = (s, None) ->
  s = next /\ permittedTransition cur op ty = Some next.
Proof.
  unfold checkNextSignalingState.
  destruct (permittedTransition cur op ty) as [to|]; [|discriminate].
  destruct (decide (to = next)) as [->|]; [|discriminate].
  intros H; inversion H; auto.
Qed.

(** A remote answer that is installed becomes the current remote
    description. *)
Lemma setDescription_answer_enters_stable_current pc pc' sd :
  desc_Type sd = SDPTypeAnswer ->
  setDescription pc sd stateChangeOpSetRemote = (pc', None) ->
  currentRemoteDescription pc' = Some sd.
Proof.
  intros Hty H. unfold setDescription in H. rewrite Hty in H.
  destruct (isClosed pc); [discriminate|].
  destruct (checkNextSignalingState _ _ _ _) as [nextState err].
  apply commitSignalingState_ok in H as [-> ->].
  by destruct (onSignalingStateChange_fields nextState
              (set_signalingState nextState
                 (set_pendingLocalDescription None
                    (set_pendingRemoteDescription None
                       (set_currentLocalDescription (pendingLocalDescription pc)
                          (set_currentRemoteDescription (Some sd) pc))))))
    as (_ & _ & _ & -> & _).
Qed.

End SetDescription.

(** C10.  [setDescription] is atomic on failure: whenever it returns an
    error, the connection it hands back is the one it was given, so the
    signaling state, the four description slots and the log of handler
    dispatches are all unchanged.  The proof does not look into
    [checkNextSignalingState]. *)
Theorem setDescription_atomic_on_failure :
  forall (pc pc' : PeerConnection) (sd : SessionDescription) (op : stateChangeOp)
         (e : error),
    setDescription pc sd op = (pc', Some e) ->
    pc' = pc /\
    signalingState pc' = signalingState pc /\
    currentLocalDescription pc' = currentLocalDescription pc /\
    pendingLocalDescription pc' = pendingLocalDescription pc /\
    currentRemoteDescription pc' = currentRemoteDescription pc /\
    pendingRemoteDescription pc' = pendingRemoteDescription pc /\
    calls pc' = calls pc.
Proof.
  intros pc pc' sd op e H.
  assert (pc' = pc) as ->; [|repeat split; reflexivity].
  unfold setDescription in H.
  destruct (isClosed pc); [inversion H; reflexivity|].
  destruct op; [inversion H; reflexivity| |];
    destruct (desc_Type sd); try (inversion H; reflexivity);
    repeat match type of H with
    | (if negb ?b then _ else _) = _ =>
        destruct b; cbn [negb] in H; [|inversion H; reflexivity]
    end;
    match type of H with
    | context [checkNextSignalingState ?a ?b ?c ?d] =>
        destruct (checkNextSignalingState a b c d) as [nextState [err|]]
    end;
    first [ apply commitSignalingState_error in H as [-> _]; reflexivity
          | unfold commitSignalingState in H; discriminate ].
Qed.

Lemma setDescription_atomic_on_failure_witness :
  let pc := newPeerConnection (exampleConfiguration SDPSemanticsUnifiedPlan) in
  let sd := describe SDPTypeAnswer planBDataOffer in
  let e := InvalidModificationError
             (ErrInvalidTransition SignalingStateStable stateChangeOpSetRemote
                SDPTypeAnswer SignalingStateStable) in
  setDescription pc sd stateChangeOpSetRemote = (pc, Some e) /\
  (pc = pc /\
   signalingState pc = signalingState pc /\
   currentLocalDescription pc = currentLocalDescription pc /\
   pendingLocalDescription pc = pendingLocalDescription pc /\
   currentRemoteDescription pc = currentRemoteDescription pc /\
   pendingRemoteDescription pc = pendingRemoteDescription pc /\
   calls pc = calls pc).
Proof.
  intros pc sd e.
  assert (H : setDescription pc sd stateChangeOpSetRemote = (pc, Some e))
    by (vm_compute; reflexivity).
  split; [exact H|].
  exact (setDescription_atomic_on_failure pc pc sd stateChangeOpSetRemote e H).
Defined.

(** Which answers the state machine lets through. *)
Lemma permittedTransition_answer cur op :
  permittedTransition cur op SDPTypeAnswer = Some SignalingStateStable ->
  (op = stateChangeOpSetLocal /\
   (cur = SignalingStateHaveRemoteOffer \/ cur = SignalingStateHaveLocalPranswer)) \/
  (op = stateChangeOpSetRemote /\
   (cur = SignalingStateHaveLocalOffer \/ cur = SignalingStateHaveRemotePranswer)).
Proof.
  destruct op, cur; simpl; intros H; try discriminate; auto.
Qed.

(** C1.  A [setDescription] call that installs an answer and succeeds
    leaves the connection in [stable] with both pending slots empty; the
    answer becomes the current description of its side and the pending
    description of the other side becomes that side's current one.  Such a
    call is a remote answer from have-local-offer or have-remote-pranswer,
    or a local answer from have-remote-offer or have-local-pranswer. *)
Theorem setDescription_answer_enters_stable :
  forall (pc pc' : PeerConnection) (sd : SessionDescription) (op : stateChangeOp),
    desc_Type sd = SDPTypeAnswer ->
    setDescription pc sd op = (pc', None) ->
    signalingState pc' = SignalingStateStable /\
    pendingLocalDescription pc' = None /\
    pendingRemoteDescription pc' = None /\
    ((op = stateChangeOpSetRemote /\
      (signalingState pc = SignalingStateHaveLocalOffer \/
       signalingState pc = SignalingStateHaveRemotePranswer) /\
      currentRemoteDescription pc' = Some sd /\
      currentLocalDescription pc' = pendingLocalDescription pc) \/
     (op = stateChangeOpSetLocal /\
      (signalingState pc = SignalingStateHaveRemoteOffer \/
       signalingState pc = SignalingStateHaveLocalPranswer) /\
      currentLocalDescription pc' = Some sd /\
      currentRemoteDescription pc' = pendingRemoteDescription pc)).
Proof.
  intros pc pc' sd op Hty H.
  unfold setDescription in H. rewrite Hty in H.
  destruct (isClosed pc); [discriminate|].
  destruct op; [discriminate| |].
  - destruct (String.eqb (desc_SDP sd) (lastAnswer pc)); cbn [negb] in H; [|discriminate].
    destruct (checkNextSignalingState _ _ _ _) as [nextState err] eqn:Hc.
    apply commitSignalingState_ok in H as [-> ->].
    apply checkNextSignalingState_ok in Hc as [-> Hp].
    apply permittedTransition_answer in Hp as [[_ Hcur]|[? _]]; [|discriminate].
    destruct (onSignalingStateChange_fields SignalingStateStable
                (set_signalingState SignalingStateStable
                   (set_pendingLocalDescription None
                      (set_pendingRemoteDescription None
                         (set_currentRemoteDescription (pendingRemoteDescription pc)
                            (set_currentLocalDescription (Some sd) pc))))))
      as (-> & -> & -> & -> & ->).
    simpl. do 3 (split; [reflexivity|]). right. repeat split; auto.
  - destruct (checkNextSignalingState _ _ _ _) as [nextState err] eqn:Hc.
    apply commitSignalingState_ok in H as [-> ->].
    apply checkNextSignalingState_ok in Hc as [-> Hp].
    apply permittedTransition_answer in Hp as [[? _]|[_ Hcur]]; [discriminate|].
    destruct (onSignalingStateChange_fields SignalingStateStable
                (set_signalingState SignalingStateStable
                   (set_pendingLocalDescription None
                      (set_pendingRemoteDescription None
                         (set_currentLocalDescription (pendingLocalDescription pc)
                            (set_currentRemoteDescription (Some sd) pc))))))
      as (-> & -> & -> & -> & ->).
    simpl. do 3 (split; [reflexivity|]). left. repeat split; auto.
Qed.

(** From the four listed situations the installation does succeed, on an
    open connection and, for a local answer, with the text of the last
    created answer. *)
Lemma setDescription_answer_succeeds pc sd op :
  isClosed pc = false ->
  desc_Type sd = SDPTypeAnswer ->
  (op = stateChangeOpSetRemote /\
   (signalingState pc = SignalingStateHaveLocalOffer \/
    signalingState pc = SignalingStateHaveRemotePranswer)) \/
  (op = stateChangeOpSetLocal /\ desc_SDP sd = lastAnswer pc /\
   (signalingState pc = SignalingStateHaveRemoteOffer \/
    signalingState pc = SignalingStateHaveLocalPranswer)) ->
  exists pc', setDescription pc sd op = (pc', None).
Proof.
  intros Hopen Hty Hcase. unfold setDescription. rewrite Hopen, Hty.
  destruct Hcase as [[-> Hcur]|[-> [Hsdp Hcur]]].
  - destruct Hcur as [-> | ->]; simpl; eauto.
  - rewrite Hsdp, String.eqb_refl. cbn [negb].
    destruct Hcur as [-> | ->]; simpl; eauto.
Qed.

(** A connection that has set a local offer and receives the answer. *)
Lemma setDescription_answer_enters_stable_witness :
  let offer := describe SDPTypeOffer (remoteVideoDocument "0") in
  let answer := describe SDPTypeAnswer (remoteVideoDocument "0") in
  let pc := set_signalingState SignalingStateHaveLocalOffer
              (set_pendingLocalDescription (Some offer)
                 (newPeerConnection (exampleConfiguration SDPSemanticsUnifiedPlan))) in
  let pc' := fst (setDescription pc answer stateChangeOpSetRemote) in
  desc_Type answer = SDPTypeAnswer /\
  setDescription pc answer stateChangeOpSetRemote = (pc', None) /\
  signalingState pc' = SignalingStateStable /\
  currentRemoteDescription pc' = Some answer /\
  currentLocalDescription pc' = Some offer.
Proof.
  intros offer answer pc pc'.
  assert (Hty : desc_Type answer = SDPTypeAnswer) by reflexivity.
  assert (H : setDescription pc answer stateChangeOpSetRemote = (pc', None))
    by (vm_compute; reflexivity).
  destruct (setDescription_answer_enters_stable pc pc' answer stateChangeOpSetRemote Hty H)
    as (Hs & _ & _ & [(_ & _ & Hr & Hl)|(Hop & _)]); [|discriminate Hop].
  repeat split; auto.
Defined.

(** ** The "satisfy" procedure *)

Section Satisfy.

Variable remoteKind : RTPCodecType.

Lemma satisfies_suits d t : satisfies remoteKind d t = true <-> suits remoteKind d t.
Proof.
  unfold satisfies, suits.
  rewrite negb_true_iff, orb_false_iff, !bool_decide_eq_false. split.
  - intros [H1 H2]. split; [by apply dec_stable | symmetry; by apply dec_stable].
  - intros [H1 H2]. split; intros H; apply H; done.
Qed.

Lemma satisfies_not_suits d t : satisfies remoteKind d t = false <-> ~ suits remoteKind d t.
Proof.
  rewrite <- satisfies_suits. destruct (satisfies remoteKind d t); split; congruence.
Qed.

(** The inner loop stops at the first transceiver that suits. *)
Lemma scanTransceivers_Some d rest i0 i :
  scanTransceivers remoteKind d rest i0 = Some i ->
  exists j t, i = (i0 + j)%nat /\ rest !! j = Some t /\ suits remoteKind d t /\
    forall j' t', (j' < j)%nat -> rest !! j' = Some t' -> ~ suits remoteKind d t'.
Proof.
  revert i0. induction rest as [|t rest IH]; intros i0; simpl; [discriminate|].
  destruct (satisfies remoteKind d t) eqn:Hs.
  - intros [= <-]. exists 0%nat, t.
    split; [lia|]. split; [done|]. split; [by apply satisfies_suits|].
    intros j' t' Hlt. lia.
  - intros H. apply IH in H as (j & t0 & -> & Hj & Hsuit & Hbefore).
    exists (S j), t0.
    split; [lia|]. split; [done|]. split; [done|].
    intros [|j'] t' Hlt; simpl.
    + intros [= <-]. by apply satisfies_not_suits.
    + apply Hbefore. lia.
Qed.

Lemma scanTransceivers_None d rest i0 :
  scanTransceivers remoteKind d rest i0 = None ->
  forall t, t ∈ rest -> ~ suits remoteKind d t.
Proof.
  revert i0. induction rest as [|t rest IH]; intros i0; simpl.
  - intros _ t Ht. by apply elem_of_nil in Ht.
  - destruct (satisfies remoteKind d t) eqn:Hs; [discriminate|].
    intros H t' [->|Ht']%elem_of_cons.
    + by apply satisfies_not_suits.
    + by eapply IH.
Qed.

(** The outer loop tries the directions in order. *)
Lemma pluckTransceiver_Some directions l t l' :
  pluckTransceiver remoteKind directions l = Some (t, l') ->
  exists earlier d later i,
    directions = earlier ++ d :: later /\
    l !! i = Some t /\ suits remoteKind d t /\ l' = delete i l /\
    (forall j t', (j < i)%nat -> l !! j = Some t' -> ~ suits remoteKind d t') /\
    (forall d' t', d' ∈ earlier -> t' ∈ l -> ~ suits remoteKind d' t').
Proof.
  induction directions as [|d directions IH]; simpl; [discriminate|].
  destruct (scanTransceivers remoteKind d l 0) as [i|] eqn:Hscan.
  - apply scanTransceivers_Some in Hscan as (j & t0 & -> & Hj & Hsuit & Hbefore).
    simpl. rewrite Hj. intros [= <- <-].
    exists [], d, directions, j.
    split; [done|]. split; [done|]. split; [done|].
    split; [by rewrite delete_take_drop|]. split; [done|].
    intros d' t' Hd'. by apply elem_of_nil in Hd'.
  - intros H. apply IH in H as (earlier & d0 & later & i & -> & Hi & Hsuit & -> & Hb & He).
    exists (d :: earlier), d0, later, i.
    do 5 (split; [done|]).
    intros d' t' [->|Hd']%elem_of_cons Ht'.
    + by eapply scanTransceivers_None.
    + by eapply He.
Qed.

Lemma pluckTransceiver_None directions l :
  pluckTransceiver remoteKind directions l = None ->
  forall d t, d ∈ directions -> t ∈ l -> ~ suits remoteKind d t.
Proof.
  induction directions as [|d directions IH]; simpl.
  - intros _ d t Hd. by apply elem_of_nil in Hd.
  - destruct (scanTransceivers remoteKind d l 0) as [i|] eqn:Hscan.
    + apply scanTransceivers_Some in Hscan as (j & t0 & -> & Hj & _).
      simpl. rewrite Hj. discriminate.
    + intros H d' t [->|Hd']%elem_of_cons Ht.
      * by eapply scanTransceivers_None.
      * by eapply IH.
Qed.

End Satisfy.

(** C3.  [satisfyTypeAndDirection] tries the local directions in the
    preferred order (recvonly then sendrecv for a remote sendrecv or
    sendonly, sendonly then sendrecv for a remote recvonly) and, for each
    direction, the transceivers in list order.  It returns the first
    transceiver that has the remote kind and the direction tried, with the
    list from which that element is removed; when no transceiver suits any
    preferred direction it returns a new inactive transceiver of the remote
    kind, without sender or receiver, and the list as it was. *)
Theorem satisfyTypeAndDirection_first_match :
  forall (remoteKind : RTPCodecType) (remoteDirection : RTPTransceiverDirection)
         (localTransceivers : list RTPTransceiver),
    (getPreferredDirections RTPTransceiverDirectionSendrecv
       = [RTPTransceiverDirectionRecvonly; RTPTransceiverDirectionSendrecv] /\
     getPreferredDirections RTPTransceiverDirectionSendonly
       = [RTPTransceiverDirectionRecvonly; RTPTransceiverDirectionSendrecv] /\
     getPreferredDirections RTPTransceiverDirectionRecvonly
       = [RTPTransceiverDirectionSendonly; RTPTransceiverDirectionSendrecv]) /\
    ((exists earlier d later i t,
        getPreferredDirections remoteDirection = earlier ++ d :: later /\
        localTransceivers !! i = Some t /\
        suits remoteKind d t /\
        (forall j t', (j < i)%nat -> localTransceivers !! j = Some t' ->
                      ~ suits remoteKind d t') /\
        (forall d' t', d' ∈ earlier -> t' ∈ localTransceivers ->
                       ~ suits remoteKind d' t') /\
        satisfyTypeAndDirection remoteKind remoteDirection localTransceivers
          = (t, delete i localTransceivers))
     \/
     ((forall d t, d ∈ getPreferredDirections remoteDirection ->
                   t ∈ localTransceivers -> ~ suits remoteKind d t) /\
      satisfyTypeAndDirection remoteKind remoteDirection localTransceivers
        = ({| Sender := None; Receiver := None;
              Direction := RTPTransceiverDirectionInactive;
              kind := remoteKind; stopped := false |},
           localTransceivers))).
Proof.
  intros remoteKind remoteDirection l. split; [repeat split|].
  unfold satisfyTypeAndDirection.
  destruct (pluckTransceiver remoteKind (getPreferredDirections remoteDirection) l)
    as [[t l']|] eqn:Hp.
  - left. apply pluckTransceiver_Some in Hp
      as (earlier & d & later & i & Hd & Hi & Hs & -> & Hb & He).
    exists earlier, d, later, i, t. by repeat (split; [done|]).
  - right. split; [|reflexivity].
    by apply pluckTransceiver_None.
Qed.

(** A pool in which a sendrecv video transceiver precedes a recvonly one:
    for a remote sendrecv video section the recvonly one is taken. *)
Example satisfyTypeAndDirection_prefers_recvonly :
  satisfyTypeAndDirection RTPCodecTypeVideo RTPTransceiverDirectionSendrecv
    [sendrecvTransceiver RTPCodecTypeAudio; sendrecvTransceiver RTPCodecTypeVideo;
     recvonlyTransceiver RTPCodecTypeVideo]
  = (recvonlyTransceiver RTPCodecTypeVideo,
     [sendrecvTransceiver RTPCodecTypeAudio; sendrecvTransceiver RTPCodecTypeVideo]).
Proof. reflexivity. Qed.

(** ** Close *)

Section Close.

Variable E : Env.

(** What [Close] leaves alone and what it sets. *)
Lemma Close_fields pc :
  let pc' := fst (Close E pc) in
  (isClosed pc = false -> isClosed pc' = true /\ signalingState pc' = SignalingStateClosed) /\
  idpLoginURL pc' = idpLoginURL pc /\
  currentRemoteDescription pc' = currentRemoteDescription pc /\
  pendingRemoteDescription pc' = pendingRemoteDescription pc.
Proof.
  unfold Close. destruct (isClosed pc) eqn:Hc; simpl; [by repeat split|].
  destruct (iceTransport pc); simpl;
    destruct (sctpTransport pc); simpl;
    destruct (stopTransceivers E (rtpTransceivers pc) 0) as [[ts stops] errs];
    simpl; by repeat split.
Qed.

Lemma Close_closes pc : isClosed (fst (Close E pc)) = true.
Proof.
  destruct (isClosed pc) eqn:Hc.
  - unfold Close. by rewrite Hc.
  - by apply Close_fields.
Qed.

Lemma Close_closed pc : isClosed pc = true -> Close E pc = (pc, None).
Proof. intros Hc. unfold Close. by rewrite Hc. Qed.

End Close.

(** C9.  Close is idempotent.  Whatever the first call returned, the
    connection it leaves is closed, and a further call returns nil and
    hands back the same connection: the log of calls on the transports
    and transceivers has not grown, and so for every number of further
    calls.  Hence two successive calls both return nil when the first one
    does. *)
Theorem Close_idempotent :
  forall (E : Env) (pc : PeerConnection),
    let once := Close E pc in
    let twice := Close E (fst once) in
    isClosed (fst once) = true /\
    twice = (fst once, None) /\
    snd twice = None /\
    calls (fst twice) = calls (fst once) /\
    (forall n : nat,
        Close E (Nat.iter n (fun p => fst (Close E p)) (fst once)) = (fst once, None)).
Proof.
  intros E pc once twice. subst once twice.
  pose proof (Close_closes E pc) as Hc.
  rewrite (Close_closed E _ Hc). simpl. do 4 (split; [done|]).
  intros n. induction n as [|n IH]; simpl.
  - by apply Close_closed.
  - rewrite IH. simpl. by apply Close_closed.
Qed.

(** The first call on an open connection with an ICE and an SCTP transport
    and two transceivers stops each of them once; the second stops
    nothing. *)
Example Close_twice_calls :
  let E := exampleEnv defaultCodecs [] in
  let pc := set_sctpTransport (Some (NewSCTPTransport E))
              (set_rtpTransceivers [sendrecvTransceiver RTPCodecTypeVideo;
                                    recvonlyTransceiver RTPCodecTypeAudio]
                 (newPeerConnection (exampleConfiguration SDPSemanticsUnifiedPlan))) in
  snd (Close E pc) = None /\
  calls (fst (Close E pc))
    = [CallICETransportStop; CallDTLSTransportStop; CallSCTPTransportStop;
       CallTransceiverStop 0; CallTransceiverStop 1] /\
  Close E (fst (Close E pc)) = (fst (Close E pc), None).
Proof. vm_compute. by repeat split. Qed.

(** ** A closed connection *)

Section Closed.

Variables (E : Env) (pc : PeerConnection).
Hypothesis closed : isClosed pc = true.

Lemma SetLocalDescription_closed desc :
  SetLocalDescription E pc desc = (pc, Some (InvalidStateError ErrConnectionClosed)).
Proof. unfold SetLocalDescription. by rewrite closed. Qed.

Lemma SetConfiguration_closed requested :
  SetConfiguration E pc requested = (pc, Some (InvalidStateError ErrConnectionClosed)).
Proof. unfold SetConfiguration. by rewrite closed. Qed.

Lemma AddTrack_closed track :
  AddTrack E pc track = (pc, inl (InvalidStateError ErrConnectionClosed)).
Proof. unfold AddTrack. by rewrite closed. Qed.

Lemma CreateDataChannel_closed label options :
  CreateDataChannel E pc label options
  = Some (pc, inl (InvalidStateError ErrConnectionClosed)).
Proof. unfold CreateDataChannel. by rewrite closed. Qed.

Lemma CreateOffer_closed :
  idpLoginURL pc = None ->
  CreateOffer E pc None = (pc, inl (InvalidStateError ErrConnectionClosed)).
Proof. intros Hidp. unfold CreateOffer. rewrite Hidp, closed. reflexivity. Qed.

Lemma CreateAnswer_closed :
  idpLoginURL pc = None -> RemoteDescription pc <> None ->
  CreateAnswer E pc None = (pc, inl (InvalidStateError ErrConnectionClosed)).
Proof.
  intros Hidp Hremote. unfold CreateAnswer. rewrite Hidp, closed.
  rewrite (bool_decide_eq_false_2 _ Hremote). reflexivity.
Qed.

Lemma SetRemoteDescription_closed desc :
  currentRemoteDescription pc = None ->
  SetRemoteDescription E pc desc = (pc, Some (InvalidStateError ErrConnectionClosed)).
Proof.
  intros Hcur. unfold SetRemoteDescription. rewrite Hcur, closed.
  destruct (decide (None <> None)); [congruence|reflexivity].
Qed.

End Closed.

(** ** SetRemoteDescription *)

Section Deliver.

Variable E : Env.

Lemma deliverAttribute_current pc a :
  currentRemoteDescription (fst (deliverAttribute E pc a)) = currentRemoteDescription pc.
Proof.
  unfold deliverAttribute.
  destruct (sdp.IsICECandidate a); [by destruct (parseCandidate E a)|].
  destruct (String.prefix "ice-ufrag" _); [by case_decide|].
  destruct (String.prefix "ice-pwd" _); [by case_decide|].
  reflexivity.
Qed.

Lemma deliverAttributes_current attrs pc :
  currentRemoteDescription (fst (deliverAttributes E pc attrs))
  = currentRemoteDescription pc.
Proof.
  revert pc. induction attrs as [|a attrs IH]; intros pc; simpl; [done|].
  pose proof (deliverAttribute_current pc a) as Ha.
  destruct (deliverAttribute E pc a) as [pc1 [e|]]; simpl in *; [done|].
  by rewrite IH.
Qed.

Lemma deliverMedia_current medias pc fingerprint :
  currentRemoteDescription (fst (deliverMedia E pc fingerprint medias))
  = currentRemoteDescription pc.
Proof.
  revert pc fingerprint. induction medias as [|m medias IH]; intros pc fp; simpl; [done|].
  pose proof (deliverAttributes_current (sdp.mediaAttributes m) pc) as Hm.
  destruct (deliverAttributes E pc (sdp.mediaAttributes m)) as [pc1 [e|]];
    simpl in *; [done|].
  by rewrite IH.
Qed.

(** Once a remote description is current the guard turns every call
    away. *)
Lemma SetRemoteDescription_guard pc desc :
  currentRemoteDescription pc <> None ->
  SetRemoteDescription E pc desc = (pc, Some alreadyDefined).
Proof. intros H. unfold SetRemoteDescription. by rewrite decide_True. Qed.

(** A successful call that installs an answer makes it current. *)
Lemma SetRemoteDescription_answer_current pc pc' desc :
  desc_Type desc = SDPTypeAnswer ->
  SetRemoteDescription E pc desc = (pc', None) ->
  currentRemoteDescription pc' <> None.
Proof.
  intros Hty. unfold SetRemoteDescription.
  case_decide; [discriminate|].
  destruct (isClosed pc); [discriminate|].
  destruct (Unmarshal E (desc_SDP desc)) as [e|parsed]; [discriminate|].
  destruct (setDescription pc (withParsed (Some parsed) desc) stateChangeOpSetRemote)
    as [pc1 [e|]] eqn:Hset; [discriminate|].
  apply setDescription_answer_enters_stable_current in Hset; [|done].
  destruct (RemoteDescription pc1) as [remote|]; [|discriminate].
  destruct (desc_parsed remote) as [remoteParsed|]; [|discriminate].
  pose proof (deliverMedia_current (sdp.MediaDescriptions remoteParsed) pc1
                (sdp.lookupAttribute "fingerprint" (sdp.Attributes parsed))) as Hd.
  destruct (deliverMedia E pc1 _ _) as [pc2 [e|[fp|]]]; simpl in Hd; try discriminate.
  case_decide; [discriminate|].
  destruct (_ && _); intros [= <-]; simpl; congruence.
Qed.

End Deliver.

Lemma pair_eta {A B : Type} (p : A * B) (b : B) : snd p = b -> p = (fst p, b).
Proof. destruct p; simpl; congruence. Qed.

(** The example exchange up to the local offer. *)
Example offerer_has_local_offer :
  desc_Type offererOffer = SDPTypeOffer /\
  signalingState offererWithLocalOffer = SignalingStateHaveLocalOffer /\
  lastOffer offererWithLocalOffer = desc_SDP offererOffer /\
  (exists d, pendingLocalDescription offererWithLocalOffer = Some d
             /\ desc_SDP d = desc_SDP offererOffer).
Proof. vm_compute. repeat split. eexists. split; reflexivity. Qed.

(** ** SetLocalDescription and the text of the last offer or answer *)

Section Mismatch.

Variables (E : Env) (pc : PeerConnection).
Hypothesis open : isClosed pc = false.

(** In [setDescription] the comparison of the texts comes first. *)
Lemma setDescription_offer_mismatch sd :
  desc_Type sd = SDPTypeOffer -> desc_SDP sd <> lastOffer pc ->
  setDescription pc sd stateChangeOpSetLocal = (pc, Some newSDPDoesNotMatchOffer).
Proof.
  intros Hty Hne. unfold setDescription. rewrite open, Hty.
  apply String.eqb_neq in Hne. by rewrite Hne.
Qed.

Lemma setDescription_answer_mismatch sd :
  desc_Type sd = SDPTypeAnswer \/ desc_Type sd = SDPTypePranswer ->
  desc_SDP sd <> lastAnswer pc ->
  setDescription pc sd stateChangeOpSetLocal = (pc, Some newSDPDoesNotMatchAnswer).
Proof.
  intros Hty Hne. unfold setDescription. rewrite open.
  apply String.eqb_neq in Hne. destruct Hty as [-> | ->]; by rewrite Hne.
Qed.

(** With equal texts the verdict is the state machine's alone. *)
Lemma setDescription_text_matches sd :
  (desc_Type sd = SDPTypeOffer /\ desc_SDP sd = lastOffer pc) \/
  ((desc_Type sd = SDPTypeAnswer \/ desc_Type sd = SDPTypePranswer)
   /\ desc_SDP sd = lastAnswer pc) ->
  snd (setDescription pc sd stateChangeOpSetLocal)
  = snd (checkNextSignalingState (signalingState pc)
           match desc_Type sd with
           | SDPTypeOffer => SignalingStateHaveLocalOffer
           | SDPTypePranswer => SignalingStateHaveLocalPranswer
           | _ => SignalingStateStable
           end stateChangeOpSetLocal (desc_Type sd)).
Proof.
  intros H. unfold setDescription. rewrite open.
  destruct H as [[Hty Heq]|[[Hty|Hty] Heq]]; rewrite Hty, Heq, String.eqb_refl;
    cbn [negb];
    destruct (checkNextSignalingState _ _ _ _) as [nextState [e|]]; reflexivity.
Qed.

Lemma SetLocalDescription_parsed desc parsed :
  desc_SDP desc <> "" ->
  Unmarshal E (desc_SDP desc) = inr parsed ->
  forall e,
    setDescription pc (withParsed (Some parsed) desc) stateChangeOpSetLocal
    = (pc, Some e) ->
    SetLocalDescription E pc desc = (pc, Some e).
Proof.
  intros Hne Hparse e Hset. unfold SetLocalDescription. rewrite open.
  apply String.eqb_neq in Hne. rewrite Hne, Hparse.
  unfold withParsed in Hset. by rewrite Hset.
Qed.

End Mismatch.

(** C2, as the code has it.  On an open connection, for a description
    whose text is not empty, SetLocalDescription parses the text before
    anything else.  A text that the SDP parser rejects is answered with the
    parser's error, whatever the type and the remembered texts, and the
    connection is unchanged.  For a text the parser accepts:
    SetLocalDescription of an offer whose text differs from [lastOffer]
    fails with InvalidModificationError "new sdp does not match previous
    offer"; of an answer or pranswer whose text differs from [lastAnswer],
    with "new sdp does not match previous answer"; the connection is
    unchanged.  When the texts are equal the comparison passes and the
    outcome of [setDescription] is that of the state machine. *)
Theorem SetLocalDescription_text_must_match :
  forall (E : Env) (pc : PeerConnection) (desc : SessionDescription),
    isClosed pc = false ->
    desc_SDP desc <> "" ->
    match Unmarshal E (desc_SDP desc) with
    | inl e => SetLocalDescription E pc desc = (pc, Some e)
    | inr parsed =>
        (desc_Type desc = SDPTypeOffer -> desc_SDP desc <> lastOffer pc ->
         SetLocalDescription E pc desc = (pc, Some newSDPDoesNotMatchOffer)) /\
        (desc_Type desc = SDPTypeAnswer \/ desc_Type desc = SDPTypePranswer ->
         desc_SDP desc <> lastAnswer pc ->
         SetLocalDescription E pc desc = (pc, Some newSDPDoesNotMatchAnswer)) /\
        ((desc_Type desc = SDPTypeOffer /\ desc_SDP desc = lastOffer pc) \/
         ((desc_Type desc = SDPTypeAnswer \/ desc_Type desc = SDPTypePranswer)
          /\ desc_SDP desc = lastAnswer pc) ->
         snd (setDescription pc (withParsed (Some parsed) desc) stateChangeOpSetLocal)
         = snd (checkNextSignalingState (signalingState pc)
                  match desc_Type desc with
                  | SDPTypeOffer => SignalingStateHaveLocalOffer
                  | SDPTypePranswer => SignalingStateHaveLocalPranswer
                  | _ => SignalingStateStable
                  end stateChangeOpSetLocal (desc_Type desc)))
    end.
Proof.
  intros E pc desc Hopen Hne.
  destruct (Unmarshal E (desc_SDP desc)) as [e|parsed] eqn:Hparse.
  - unfold SetLocalDescription. rewrite Hopen.
    apply String.eqb_neq in Hne. by rewrite Hne, Hparse.
  - split; [|split].
    + intros Hty Hdiff. eapply SetLocalDescription_parsed; eauto.
      by apply setDescription_offer_mismatch.
    + intros Hty Hdiff. eapply SetLocalDescription_parsed; eauto.
      by apply setDescription_answer_mismatch.
    + intros H.
      by apply (setDescription_text_matches pc Hopen (withParsed (Some parsed) desc)).
Qed.

(** The offering side is handed, as a local offer, a well-formed document
    that is not the offer it created; and the text of its own offer with
    one more character, which the parser rejects. *)
Lemma SetLocalDescription_text_must_match_witness :
  let pc := fst (CreateOffer scenarioEnv offerer None) in
  let desc := describe SDPTypeOffer (remoteVideoDocument "0") in
  (isClosed pc = false /\ desc_SDP desc <> "" /\
   Unmarshal scenarioEnv (desc_SDP desc) = inr (remoteVideoDocument "0") /\
   desc_Type desc = SDPTypeOffer /\ desc_SDP desc <> lastOffer pc) /\
  SetLocalDescription scenarioEnv pc desc = (pc, Some newSDPDoesNotMatchOffer) /\
  (desc_SDP garbledOffer <> "" /\
   Unmarshal scenarioEnv (desc_SDP garbledOffer)
   = inl (PlainError (ErrCollaborator "sdp: invalid syntax"))) /\
  SetLocalDescription scenarioEnv pc garbledOffer
  = (pc, Some (PlainError (ErrCollaborator "sdp: invalid syntax"))).
Proof.
  intros pc desc.
  assert (H1 : isClosed pc = false) by reflexivity.
  assert (H2 : desc_SDP desc <> "") by (vm_compute; discriminate).
  assert (H3 : Unmarshal scenarioEnv (desc_SDP desc) = inr (remoteVideoDocument "0"))
    by (vm_compute; reflexivity).
  assert (H4 : desc_Type desc = SDPTypeOffer) by reflexivity.
  assert (H5 : desc_SDP desc <> lastOffer pc) by (vm_compute; discriminate).
  assert (H6 : desc_SDP garbledOffer <> "") by (vm_compute; discriminate).
  assert (H7 : Unmarshal scenarioEnv (desc_SDP garbledOffer)
               = inl (PlainError (ErrCollaborator "sdp: invalid syntax")))
    by (vm_compute; reflexivity).
  pose proof (SetLocalDescription_text_must_match scenarioEnv pc desc H1 H2) as Haccepted.
  pose proof (SetLocalDescription_text_must_match scenarioEnv pc garbledOffer H1 H6)
    as Hrejected.
  rewrite H3 in Haccepted. rewrite H7 in Hrejected.
  exact (conj (conj H1 (conj H2 (conj H3 (conj H4 H5))))
           (conj (proj1 Haccepted H4 H5) (conj (conj H6 H7) Hrejected))).
Defined.

(** C2 as stated fails for a text the parser does not accept: the text of
    the created offer followed by one more character is not empty and
    differs from [lastOffer], and SetLocalDescription returns the parser's
    error, because parsing comes before the comparison. *)
Lemma SetLocalDescription_unparsable_text :
  let pc := fst (CreateOffer scenarioEnv offerer None) in
  isClosed pc = false /\
  desc_Type garbledOffer = SDPTypeOffer /\
  desc_SDP garbledOffer <> "" /\
  desc_SDP garbledOffer <> lastOffer pc /\
  SetLocalDescription scenarioEnv pc garbledOffer
    = (pc, Some (PlainError (ErrCollaborator "sdp: invalid syntax"))) /\
  SetLocalDescription scenarioEnv pc garbledOffer <> (pc, Some newSDPDoesNotMatchOffer).
Proof. vm_compute. repeat split; discriminate. Qed.

(** ** Plan-B detection and the semantics check of CreateAnswer *)

Lemma equalFold_lower s w :
  equalFold s w = true <-> lowerString s = lowerString w.
Proof.
  revert w. induction s as [|a s IH]; intros [|b w]; simpl; try done.
  rewrite andb_true_iff, Ascii.eqb_eq, IH. split.
  - intros [-> ->]. reflexivity.
  - intros [= -> ->]. done.
Qed.

Lemma FindStringSubmatch_planBMid mid :
  length (FindStringSubmatch mid) = 2%nat <-> planBMid mid.
Proof.
  unfold FindStringSubmatch, planBMid. simpl.
  destruct (equalFold mid "audio") eqn:Ha; [|destruct (equalFold mid "video") eqn:Hv;
    [|destruct (equalFold mid "data") eqn:Hd]]; simpl.
  - apply equalFold_lower in Ha. split; auto.
  - apply equalFold_lower in Hv. split; auto.
  - apply equalFold_lower in Hd. split; auto.
  - split; [discriminate|].
    intros [H|[H|H]];
      [ apply (proj2 (equalFold_lower mid "audio")) in H
      | apply (proj2 (equalFold_lower mid "video")) in H
      | apply (proj2 (equalFold_lower mid "data")) in H ]; congruence.
Qed.

Lemma descriptionIsPlanB_spec desc :
  descriptionIsPlanB desc = true <->
  exists d parsed media,
    desc = Some d /\ desc_parsed d = Some parsed /\
    media ∈ sdp.MediaDescriptions parsed /\ planBMid (getMidValue media).
Proof.
  unfold descriptionIsPlanB. destruct desc as [d|].
  - destruct (desc_parsed d) as [parsed|] eqn:Hp.
    + rewrite existsb_exists. split.
      * intros (media & Hin & Hm). exists d, parsed, media.
        apply bool_decide_eq_true in Hm. apply FindStringSubmatch_planBMid in Hm.
        apply list_elem_of_In in Hin. done.
      * intros (d' & parsed' & media & [= <-] & Hp' & Hin & Hm).
        rewrite Hp in Hp'. injection Hp' as <-.
        exists media. split; [by apply list_elem_of_In|].
        apply bool_decide_eq_true. by apply FindStringSubmatch_planBMid.
    + split; [discriminate|]. intros (d' & parsed' & media & [= <-] & Hp' & _). congruence.
  - split; [discriminate|]. intros (d' & parsed' & media & H & _). discriminate.
Qed.

Section Answer.

Variables (E : Env) (pc : PeerConnection).
Variables (iceParams : ICEParameters) (candidates : list ICECandidate).
Variable detectedPlanB : bool.
Hypothesis wrongSemantics :
  (SDPSemantics_ (configuration pc) = SDPSemanticsUnifiedPlan /\ detectedPlanB = true) \/
  (SDPSemantics_ (configuration pc) = SDPSemanticsPlanB /\ detectedPlanB = false).

Lemma selectMediaTransceivers_wrong remoteKind direction t l :
  selectMediaTransceivers (SDPSemantics_ (configuration pc)) detectedPlanB
    remoteKind direction t l = inl (TypeError ErrIncorrectSDPSemantics).
Proof. by destruct wrongSemantics as [[-> ->]|[-> ->]]. Qed.

(** A section before the first RTP section goes through. *)
Lemma answerMedia_passed media st :
  getMidValue media <> "" -> ~ rtpSection E media ->
  exists st', answerMedia E pc iceParams candidates detectedPlanB media st = inr st'.
Proof.
  intros Hmid Hnot. unfold answerMedia.
  apply String.eqb_neq in Hmid. rewrite Hmid.
  destruct (String.eqb (sdp.Media (sdp.mediaName media)) "application") eqn:Happ;
    [eauto|].
  apply String.eqb_neq in Happ.
  destruct (bool_decide _ || bool_decide _) eqn:Hskip; [eauto|].
  apply orb_false_iff in Hskip as [Hk Hd].
  apply bool_decide_eq_false in Hk, Hd.
  exfalso. apply Hnot. by repeat split.
Qed.

(** The first RTP section meets the semantics check. *)
Lemma answerMedia_rtp media st :
  getMidValue media <> "" -> rtpSection E media ->
  answerMedia E pc iceParams candidates detectedPlanB media st
  = inl (TypeError ErrIncorrectSDPSemantics).
Proof.
  intros Hmid (Happ & Hk & Hd). unfold answerMedia.
  apply String.eqb_neq in Hmid, Happ. rewrite Hmid, Happ.
  rewrite (bool_decide_eq_false_2 _ Hk), (bool_decide_eq_false_2 _ Hd). cbn [orb].
  destruct (satisfyTypeAndDirection _ _ _) as [t l].
  by rewrite selectMediaTransceivers_wrong.
Qed.

Lemma answerMedias_wrong medias st :
  reachesRTPSection E medias ->
  answerMedias E pc iceParams candidates detectedPlanB medias st
  = inl (TypeError ErrIncorrectSDPSemantics).
Proof.
  intros (before & media & after & -> & Hbefore & Hmid & Hrtp).
  revert st. induction Hbefore as [|m before [Hm Hn] _ IH]; intros st; simpl.
  - by rewrite answerMedia_rtp.
  - destruct (answerMedia_passed m st Hm Hn) as [st' ->]. simpl. apply IH.
Qed.

End Answer.

Lemma CreateAnswer_wrong_semantics E pc remote parsed :
  readyToAnswer E pc ->
  RemoteDescription pc = Some remote ->
  desc_parsed remote = Some parsed ->
  reachesRTPSection E (sdp.MediaDescriptions parsed) ->
  (SDPSemantics_ (configuration pc) = SDPSemanticsUnifiedPlan /\
   descriptionIsPlanB (RemoteDescription pc) = true) \/
  (SDPSemantics_ (configuration pc) = SDPSemanticsPlanB /\
   descriptionIsPlanB (RemoteDescription pc) = false) ->
  CreateAnswer E pc None = (pc, inl (TypeError ErrIncorrectSDPSemantics)).
Proof.
  intros (Hopen & Hidp & [d Hfp] & [iceParams Hice] & [candidates Hcand])
         Hremote Hparsed Hreach Hwrong.
  unfold CreateAnswer. rewrite Hidp, Hopen, Hremote. simpl.
  unfold buildAnswer. rewrite Hfp. simpl.
  unfold addAnswerMediaTransceivers. rewrite Hice, Hcand, Hremote, Hparsed. simpl.
  rewrite Hremote in Hwrong.
  by rewrite (answerMedias_wrong E pc iceParams candidates _ Hwrong).
Qed.

(** ** The mids of an offer *)

Section Builder.

Variable E : Env.

Lemma extends_refl m : extends m m.
Proof. split; [done|]. exists []. by rewrite app_nil_r. Qed.

Lemma extends_trans m1 m2 m3 : extends m1 m2 -> extends m2 m3 -> extends m1 m3.
Proof.
  intros [Hn1 [x1 Hx1]] [Hn2 [x2 Hx2]]. split; [congruence|].
  exists (x1 ++ x2). by rewrite Hx2, Hx1, app_assoc.
Qed.

Lemma mediaWithAttributes_extends attrs m : extends m (sdp.mediaWithAttributes attrs m).
Proof. split; [done|]. by exists attrs. Qed.

Lemma mediaWithFormat_extends f m : extends m (sdp.mediaWithFormat f m).
Proof. split; [done|]. exists []. simpl. by rewrite app_nil_r. Qed.

Lemma fold_left_extends {A : Type} (f : sdp.MediaDescription -> A -> sdp.MediaDescription)
    (l : list A) m :
  (forall m a, extends m (f m a)) -> extends m (fold_left f l m).
Proof.
  intros Hf. revert m. induction l as [|a l IH]; intros m; simpl.
  - apply extends_refl.
  - eapply extends_trans; [apply Hf | apply IH].
Qed.

Lemma withCodec_extends codec m : extends m (withCodec codec m).
Proof.
  unfold withCodec.
  eapply extends_trans;
    [|apply fold_left_extends; intros; apply mediaWithAttributes_extends].
  assert (H1 : forall rtpmap,
             extends m (sdp.mediaWithValueAttribute "rtpmap" rtpmap
                          (sdp.mediaWithFormat (Itoa (codec_PayloadType codec)) m))).
  { intros rtpmap. eapply extends_trans;
      [apply mediaWithFormat_extends | apply mediaWithAttributes_extends]. }
  destruct (String.eqb (codec_SDPFmtpLine codec) ""); [apply H1|].
  eapply extends_trans; [apply H1 | apply mediaWithAttributes_extends].
Qed.

Lemma addMediaSources_extends semantics transceivers m :
  extends m (addMediaSources semantics transceivers m).
Proof.
  revert m. induction transceivers as [|mt rest IH]; intros m; simpl.
  - apply extends_refl.
  - destruct (Sender mt) as [sender|]; [|apply IH].
    destruct (sender_track sender) as [track|]; [|apply IH].
    case_decide.
    + eapply extends_trans; apply mediaWithAttributes_extends.
    + eapply extends_trans; [apply mediaWithAttributes_extends | apply IH].
Qed.

Lemma addCandidates_extends candidates m :
  extends m (addCandidatesToMediaDescriptions E candidates m).
Proof.
  unfold addCandidatesToMediaDescriptions.
  assert (H : extends m (fold_left (fun m c =>
                sdp.mediaWithAttributes (candidateAttributes E c) m) candidates m))
    by (apply fold_left_extends; intros; apply mediaWithAttributes_extends).
  case_decide; [|done].
  eapply extends_trans; [apply H | apply mediaWithAttributes_extends].
Qed.

(** An extension keeps the first two attributes, and with them the mid of
    a section that starts with its setup and mid attributes. *)
Lemma extends_mid m m' setup mid rest :
  extends m m' ->
  sdp.mediaAttributes m
  = {| sdp.Key := "setup"; sdp.Value := setup |}
    :: {| sdp.Key := "mid"; sdp.Value := mid |} :: rest ->
  getMidValue m' = mid.
Proof.
  intros [_ [extra Hx]] Hm. unfold getMidValue. rewrite Hx, Hm. reflexivity.
Qed.

(** What [addTransceiverSDP] appends for a non-empty list of
    transceivers. *)
Lemma addTransceiverSDP_section pc d mid iceParams candidates role t rest :
  exists m,
    addTransceiverSDP E pc d mid iceParams candidates role (t :: rest)
    = inr (sdp.WithMedia m d) /\ sectionFor E t mid m.
Proof.
  unfold addTransceiverSDP.
  destruct (decide (length (GetCodecsByKind E (kind t)) = 0%nat)) as [Hnil|Hcodecs].
  - exists (rejectedMedia E t). split; [done|]. split; [done|]. split; [|done].
    intros Hne. by destruct (GetCodecsByKind E (kind t)).
  - eexists. split; [reflexivity|].
    match goal with
    | |- sectionFor _ _ _ (addCandidatesToMediaDescriptions _ _
           (sdp.mediaWithPropertyAttribute _
              (addMediaSources _ _ (fold_left _ _ ?base)))) =>
        assert (Hext : extends base
                  (addCandidatesToMediaDescriptions E candidates
                     (sdp.mediaWithPropertyAttribute (directionString E (Direction t))
                        (addMediaSources (SDPSemantics_ (configuration pc)) (t :: rest)
                           (fold_left (fun m codec => withCodec codec m)
                              (GetCodecsByKind E (kind t)) base)))))
    end.
    { eapply extends_trans; [|apply addCandidates_extends].
      eapply extends_trans; [|apply mediaWithAttributes_extends].
      eapply extends_trans; [|apply addMediaSources_extends].
      apply fold_left_extends. intros; apply withCodec_extends. }
    split; [apply Hext|]. split.
    + intros _. eapply extends_mid; [apply Hext|]. reflexivity.
    + intros Hnil. rewrite Hnil in Hcodecs. done.
Qed.

Lemma addDataMediaSection_section d mid iceParams candidates role :
  exists m,
    addDataMediaSection E d mid iceParams candidates role = sdp.WithMedia m d /\
    dataSection mid m.
Proof.
  unfold addDataMediaSection. eexists. split; [reflexivity|].
  match goal with
  | |- dataSection _ (addCandidatesToMediaDescriptions _ _ ?base) =>
      pose proof (addCandidates_extends candidates base) as Hext
  end.
  split; [apply Hext|]. eapply extends_mid; [apply Hext|]. reflexivity.
Qed.

Lemma offerTransceivers_cons pc iceParams candidates t rest st :
  offerTransceivers E pc iceParams candidates (t :: rest) st
  = bindE (addTransceiverSDP E pc (offer_d st) (Itoa (bundleCount st)) iceParams
             candidates ConnectionRoleActpass [t])
      (fun d => offerTransceivers E pc iceParams candidates rest
                  (appendBundle (Itoa (bundleCount st)) d st)).
Proof. reflexivity. Qed.

(** The Unified Plan loop: one section per transceiver, named by the
    count at which the loop has arrived. *)
Lemma offerTransceivers_sections pc iceParams candidates transceivers st :
  exists st' ms,
    offerTransceivers E pc iceParams candidates transceivers st = inr st' /\
    sdp.MediaDescriptions (offer_d st') = sdp.MediaDescriptions (offer_d st) ++ ms /\
    sdp.Attributes (offer_d st') = sdp.Attributes (offer_d st) /\
    bundleCount st' = bundleCount st + Z.of_nat (length transceivers) /\
    bundleValue st'
    = fold_left (fun acc mid => acc +:+ " " +:+ mid)
        (map (fun i => Itoa (bundleCount st + Z.of_nat i)) (seq 0 (length transceivers)))
        (bundleValue st) /\
    length ms = length transceivers /\
    (forall i t, transceivers !! i = Some t ->
       exists m, ms !! i = Some m /\
                 sectionFor E t (Itoa (bundleCount st + Z.of_nat i)) m).
Proof.
  revert st. induction transceivers as [|t rest IH]; intros st.
  - exists st, []. simpl. rewrite app_nil_r, Z.add_0_r. repeat split; try done.
  - rewrite offerTransceivers_cons.
    destruct (addTransceiverSDP_section pc (offer_d st) (Itoa (bundleCount st))
                iceParams candidates ConnectionRoleActpass t []) as (m & -> & Hm).
    simpl bindE.
    destruct (IH (appendBundle (Itoa (bundleCount st)) (sdp.WithMedia m (offer_d st)) st))
      as (st' & ms & -> & Hmedia & Hattrs & Hcount & Hvalue & Hlen & Hsections).
    simpl in Hmedia, Hattrs, Hcount, Hvalue.
    exists st', (m :: ms). split; [done|].
    split; [by rewrite Hmedia, <- app_assoc|].
    split; [done|].
    split; [rewrite Hcount; simpl length; lia|].
    split.
    { rewrite Hvalue. simpl length. simpl seq. simpl map. simpl fold_left.
      rewrite Z.add_0_r. f_equal. rewrite <- seq_shift, map_map.
      apply map_ext. intros i. f_equal. lia. }
    split; [simpl; by rewrite Hlen|].
    intros [|i] t'; simpl.
    + intros [= <-]. exists m. split; [done|]. by rewrite Z.add_0_r.
    + intros Ht'. destruct (Hsections i t' Ht') as (m' & Hm' & Hsec).
      exists m'. split; [done|]. simpl in Hsec.
      by replace (bundleCount st + Z.of_nat (S i)) with (bundleCount st + 1 + Z.of_nat i)
        by lia.
Qed.

(** The Plan-B step for one kind. *)
Lemma offerPlanBKind_sections pc iceParams candidates mid transceivers st :
  exists st' ms,
    offerPlanBKind E pc iceParams candidates mid transceivers st = inr st' /\
    sdp.MediaDescriptions (offer_d st') = sdp.MediaDescriptions (offer_d st) ++ ms /\
    sdp.Attributes (offer_d st') = sdp.Attributes (offer_d st) /\
    bundleValue st'
    = fold_left (fun acc mid => acc +:+ " " +:+ mid)
        (if decide (transceivers = []) then [] else [mid]) (bundleValue st) /\
    planBSections E transceivers mid ms.
Proof.
  unfold offerPlanBKind. destruct transceivers as [|t rest].
  - exists st, []. simpl. rewrite app_nil_r. by repeat split.
  - rewrite decide_True by (simpl; lia).
    destruct (addTransceiverSDP_section pc (offer_d st) mid iceParams candidates
                ConnectionRoleActpass t rest) as (m & -> & Hm).
    eexists _, [m]. simpl. repeat split; try done. by exists m.
Qed.

(** The fingerprints are the only session attributes before the group. *)
Lemma lookupAttribute_app_last key attrs a :
  Forall (fun x => sdp.Key x <> key) attrs -> sdp.Key a = key ->
  sdp.lookupAttribute key (attrs ++ [a]) = Some (sdp.Value a).
Proof.
  intros Hall Ha. induction Hall as [|x attrs Hx _ IH]; simpl.
  - apply String.eqb_eq in Ha. by rewrite Ha.
  - apply String.eqb_neq in Hx. by rewrite Hx.
Qed.

Lemma addFingerprint_document pc d0 d :
  addFingerprint E pc d0 = inr d ->
  sdp.MediaDescriptions d = sdp.MediaDescriptions d0 /\
  exists fps, sdp.Attributes d = sdp.Attributes d0 ++ fps /\
              Forall (fun x => sdp.Key x = "fingerprint") fps.
Proof.
  unfold addFingerprint.
  destruct (Certificates (configuration pc)) as [|certificate ?]; [discriminate|].
  destruct (GetFingerprints E certificate) as [e|fingerprints]; [discriminate|].
  intros [= <-]. revert d0.
  induction fingerprints as [|fp fingerprints IH]; intros d0; simpl.
  - split; [done|]. exists []. by rewrite app_nil_r.
  - destruct (IH (sdp.WithFingerprint fp.1 (ToUpper E fp.2) d0)) as (Hm & fps & Ha & Hf).
    split; [by rewrite Hm|].
    eexists (_ :: fps). split; [by rewrite Ha; simpl; rewrite <- app_assoc|].
    constructor; [reflexivity|done].
Qed.

End Builder.

Lemma buildOffer_mids E pc desc :
  buildOffer E pc = inr desc ->
  exists d,
    desc_parsed desc = Some d /\
    (SDPSemantics_ (configuration pc) <> SDPSemanticsPlanB ->
     let n := length (rtpTransceivers pc) in
     length (sdp.MediaDescriptions d) = S n /\
     (forall i t, rtpTransceivers pc !! i = Some t ->
        exists m, sdp.MediaDescriptions d !! i = Some m /\
                  sectionFor E t (Itoa (Z.of_nat i)) m) /\
     (exists m, sdp.MediaDescriptions d !! n = Some m /\
                dataSection (Itoa (Z.of_nat n)) m) /\
     sdp.lookupAttribute "group" (sdp.Attributes d) = Some (bundleOf (unifiedMids (S n)))) /\
    (SDPSemantics_ (configuration pc) = SDPSemanticsPlanB ->
     exists video audio data,
       sdp.MediaDescriptions d = video ++ audio ++ [data] /\
       planBSections E (ofKind RTPCodecTypeVideo (rtpTransceivers pc)) "video" video /\
       planBSections E (ofKind RTPCodecTypeAudio (rtpTransceivers pc)) "audio" audio /\
       dataSection "data" data /\
       sdp.lookupAttribute "group" (sdp.Attributes d)
       = Some (bundleOf (planBMids (rtpTransceivers pc)))).
Proof.
  unfold buildOffer.
  destruct (addFingerprint E pc sdp.NewJSEPSessionDescription) as [e|d0] eqn:Hfp;
    [discriminate|].
  apply addFingerprint_document in Hfp as (Hm0 & fps & Ha0 & Hfps).
  simpl in Hm0, Ha0.
  assert (Hnogroup : Forall (fun x => sdp.Key x <> "group") (sdp.Attributes d0)).
  { rewrite Ha0. eapply Forall_impl; [exact Hfps|].
    intros x Hx. simpl in Hx. rewrite Hx. discriminate. }
  destruct (GetLocalParameters E) as [e|iceParams]; [discriminate|].
  destruct (GetLocalCandidates E) as [e|candidates]; [discriminate|].
  simpl bindE.
  destruct (decide (SDPSemantics_ (configuration pc) = SDPSemanticsPlanB)) as [HplanB|Hunified].
  - (* Plan-B *)
    set (st0 := {| offer_d := d0; bundleValue := "BUNDLE"; bundleCount := 0 |}).
    destruct (offerPlanBKind_sections E pc iceParams candidates "video"
                (ofKind RTPCodecTypeVideo (rtpTransceivers pc)) st0)
      as (st1 & video & -> & Hm1 & Ha1 & Hv1 & Hs1).
    simpl bindE.
    destruct (offerPlanBKind_sections E pc iceParams candidates "audio"
                (ofKind RTPCodecTypeAudio (rtpTransceivers pc)) st1)
      as (st2 & audio & -> & Hm2 & Ha2 & Hv2 & Hs2).
    simpl bindE.
    destruct (addDataMediaSection_section E (offer_d st2) "data" iceParams candidates
                ConnectionRoleActpass) as (data & -> & Hdata).
    destruct (Marshal E _) as [e|text]; [discriminate|].
    intros [= <-]. eexists. split; [reflexivity|]. split; [done|].
    intros _. exists video, audio, data.
    split. { simpl. rewrite Hm2, Hm1. subst st0. simpl. rewrite Hm0. simpl.
             by rewrite <- app_assoc. }
    split; [done|]. split; [done|]. split; [done|].
    simpl sdp.Attributes. rewrite Ha2, Ha1. subst st0. simpl offer_d.
    rewrite (lookupAttribute_app_last "group" _ _ Hnogroup) by reflexivity.
    simpl sdp.Value. f_equal. rewrite Hv2, Hv1. simpl bundleValue.
    unfold bundleOf, planBMids. rewrite !fold_left_app. reflexivity.
  - (* Unified Plan *)
    set (st0 := {| offer_d := d0; bundleValue := "BUNDLE"; bundleCount := 0 |}).
    destruct (offerTransceivers_sections E pc iceParams candidates (rtpTransceivers pc) st0)
      as (st1 & ms & -> & Hm1 & Ha1 & Hc1 & Hv1 & Hlen & Hsec).
    simpl bindE.
    destruct (addDataMediaSection_section E (offer_d st1) (Itoa (bundleCount st1))
                iceParams candidates ConnectionRoleActpass) as (data & -> & Hdata).
    destruct (Marshal E _) as [e|text]; [discriminate|].
    intros [= <-]. eexists. split; [reflexivity|]. split; [|done].
    intros _. cbv zeta. subst st0. simpl in Hm1, Ha1, Hc1, Hv1, Hsec.
    rewrite Hm0 in Hm1. simpl in Hm1.
    change (sdp.MediaDescriptions
              (sdp.WithValueAttribute sdp.AttrKeyGroup
                 (bundleValue st1 +:+ " " +:+ Itoa (bundleCount st1))
                 (sdp.WithMedia data (offer_d st1))))
      with (sdp.MediaDescriptions (offer_d st1) ++ [data]).
    change (sdp.Attributes
              (sdp.WithValueAttribute sdp.AttrKeyGroup
                 (bundleValue st1 +:+ " " +:+ Itoa (bundleCount st1))
                 (sdp.WithMedia data (offer_d st1))))
      with (sdp.Attributes (offer_d st1)
            ++ [ {| sdp.Key := "group";
                    sdp.Value := bundleValue st1 +:+ " " +:+ Itoa (bundleCount st1) |} ]).
    rewrite Hm1.
    split; [rewrite length_app, Hlen; simpl; lia|].
    split.
    { intros i t Ht. destruct (Hsec i t Ht) as (m & Hm & Hs).
      exists m. split; [|done]. by apply lookup_app_l_Some. }
    split.
    { exists data. split.
      - rewrite lookup_app_r by lia. by rewrite Hlen, Nat.sub_diag.
      - by rewrite Hc1 in Hdata. }
    rewrite Ha1.
    rewrite (lookupAttribute_app_last "group" _ _ Hnogroup) by reflexivity.
    simpl sdp.Value. f_equal. rewrite Hv1, Hc1.
    unfold bundleOf, unifiedMids. rewrite seq_S, map_app, fold_left_app. reflexivity.
Qed.

(** C5, as the code has it.  For every successful CreateOffer the document
    of the offer is laid out as follows.  Under Unified Plan (any semantics
    but PlanB) there is one section per transceiver, in registry order,
    then the data section; the section of the i-th transceiver has its
    kind and, when the media engine has a codec for that kind, the mid i in
    decimal, while a kind without codecs yields the rejected section, which
    has no attributes and so no mid; the data section has the mid n, the
    number of transceivers; the group attribute is BUNDLE followed by 0 to
    n in order.  Under PlanB there is a video section if there is a video
    transceiver, an audio section if there is an audio transceiver, and the
    data section, in this order, with the mids video, audio and data under
    the same proviso, and the group attribute lists these names in that
    order. *)
Theorem CreateOffer_mids :
  forall (E : Env) (pc pc' : PeerConnection) (options : option OfferOptions)
         (desc : SessionDescription),
    CreateOffer E pc options = (pc', inr desc) ->
    lastOffer pc' = desc_SDP desc /\
    exists d,
      desc_parsed desc = Some d /\
      (SDPSemantics_ (configuration pc) <> SDPSemanticsPlanB ->
       let n := length (rtpTransceivers pc) in
       length (sdp.MediaDescriptions d) = S n /\
       (forall i t, rtpTransceivers pc !! i = Some t ->
          exists m, sdp.MediaDescriptions d !! i = Some m /\
                    sectionFor E t (Itoa (Z.of_nat i)) m) /\
       (exists m, sdp.MediaDescriptions d !! n = Some m /\
                  dataSection (Itoa (Z.of_nat n)) m) /\
       sdp.lookupAttribute "group" (sdp.Attributes d)
       = Some (bundleOf (unifiedMids (S n)))) /\
      (SDPSemantics_ (configuration pc) = SDPSemanticsPlanB ->
       exists video audio data,
         sdp.MediaDescriptions d = video ++ audio ++ [data] /\
         planBSections E (ofKind RTPCodecTypeVideo (rtpTransceivers pc)) "video" video /\
         planBSections E (ofKind RTPCodecTypeAudio (rtpTransceivers pc)) "audio" audio /\
         dataSection "data" data /\
         sdp.lookupAttribute "group" (sdp.Attributes d)
         = Some (bundleOf (planBMids (rtpTransceivers pc)))).
Proof.
  intros E pc pc' options desc. unfold CreateOffer.
  destruct (bool_decide (options <> None)); [discriminate|].
  destruct (bool_decide (idpLoginURL pc <> None)); [discriminate|].
  destruct (isClosed pc); [discriminate|].
  destruct (buildOffer E pc) as [e|desc0] eqn:Hbuild; [discriminate|].
  intros [= <- <-]. split; [reflexivity|].
  by apply buildOffer_mids.
Qed.

(** The offer of the example exchange: one video section with the mid 0,
    the data section with the mid 1, and the group "BUNDLE 0 1". *)
Lemma CreateOffer_mids_witness :
  let r := CreateOffer scenarioEnv offerer None in
  CreateOffer scenarioEnv offerer None = (fst r, inr offererOffer) /\
  lastOffer (fst r) = desc_SDP offererOffer /\
  map getMidValue (sdp.MediaDescriptions (parsedOf offererOffer)) = ["0"; "1"] /\
  sdp.lookupAttribute "group" (sdp.Attributes (parsedOf offererOffer)) = Some "BUNDLE 0 1".
Proof.
  intros r.
  assert (H0 : snd r = inr offererOffer) by (vm_compute; reflexivity).
  pose proof (pair_eta _ _ H0) as H.
  destruct (CreateOffer_mids scenarioEnv offerer (fst r) None offererOffer H)
    as (Hlast & d & Hd & _ & _).
  split; [exact H|]. split; [exact Hlast|].
  split; vm_compute; reflexivity.
Defined.

(** C5 as stated fails when the media engine has no codec for the kind of
    a transceiver: the offer succeeds, its first section is the rejected
    section without any attribute, so without the mid 0, and the group
    attribute lists 0 all the same. *)
Lemma CreateOffer_rejected_section_has_no_mid :
  let E := exampleEnv noCodecs [] in
  let pc := set_rtpTransceivers [recvonlyTransceiver RTPCodecTypeVideo]
              (newPeerConnection (exampleConfiguration SDPSemanticsUnifiedPlan)) in
  exists desc d m,
    snd (CreateOffer E pc None) = inr desc /\
    desc_parsed desc = Some d /\
    sdp.MediaDescriptions d !! 0%nat = Some m /\
    sdp.mediaAttributes m = [] /\
    getMidValue m = "" /\
    getMidValue m <> Itoa 0 /\
    sdp.lookupAttribute "group" (sdp.Attributes d) = Some "BUNDLE 0 1".
Proof.
  vm_compute. do 3 eexists.
  split; [reflexivity|]. split; [reflexivity|]. split; [reflexivity|].
  split; [reflexivity|]. split; [reflexivity|]. split; [discriminate|reflexivity].
Qed.

(** ** Data channel ids *)

Section DataChannelIDs.

Variable dataChannels : gmap Z DataChannel.

(** The scan with enough rounds, for a limit between 1 and 65535: it
    returns the first id of the parity of its start that is below the
    limit minus one and not in the map, or fails when there is none. *)
Lemma scanDataChannelIDs_spec rounds max id :
  1 <= max <= 65535 -> 0 <= id <= max ->
  max + 1 - id <= 2 * Z.of_nat rounds ->
  (exists r, scanDataChannelIDs rounds dataChannels max id = Some (inr r) /\
             id <= r < max - 1 /\ (r - id) mod 2 = 0 /\
             dataChannels !! r = None /\
             forall j, id <= j < r -> (j - id) mod 2 = 0 -> is_Some (dataChannels !! j))
  \/
  (scanDataChannelIDs rounds dataChannels max id
   = Some (inl (OperationError ErrMaxDataChannelID)) /\
   forall j, id <= j < max - 1 -> (j - id) mod 2 = 0 -> is_Some (dataChannels !! j)).
Proof.
  intros Hmax. revert id. induction rounds as [|rounds IH]; intros id Hid Hrounds; [lia|].
  simpl. unfold wrap16. rewrite (Z.mod_small (max - 1)) by lia.
  destruct (Z.ltb_spec id (max - 1)) as [Hlt|Hge].
  - destruct (dataChannels !! id) as [d|] eqn:Hd.
    + rewrite (Z.mod_small (id + 2)) by lia.
      destruct (IH (id + 2)) as [(r & Hr & Hrange & Hpar & Hfree & Hbelow)|[Hr Hall]];
        [lia|lia| |].
      * left. exists r. split; [done|]. split; [lia|].
        split. { replace (r - id) with (r - (id + 2) + 1 * 2) by lia.
                 by rewrite Z.mod_add. }
        split; [done|].
        intros j Hj Hjpar. destruct (decide (j = id)) as [->|Hne]; [by eexists|].
        assert (j <> id + 1).
        { intros ->. replace (id + 1 - id) with 1 in Hjpar by lia. discriminate. }
        apply Hbelow; [lia|].
        replace (j - (id + 2)) with (j - id + (-1) * 2) by lia. by rewrite Z.mod_add.
      * right. split; [done|].
        intros j Hj Hjpar. destruct (decide (j = id)) as [->|Hne]; [by eexists|].
        assert (j <> id + 1).
        { intros ->. replace (id + 1 - id) with 1 in Hjpar by lia. discriminate. }
        apply Hall; [lia|].
        replace (j - (id + 2)) with (j - id + (-1) * 2) by lia. by rewrite Z.mod_add.
    + left. exists id. split; [done|]. split; [lia|].
      split; [by rewrite Z.sub_diag|]. split; [done|]. intros j Hj. lia.
  - right. split; [done|]. intros j Hj. lia.
Qed.

End DataChannelIDs.

(** For the offering side the scan starts at 0: the id handed out is the
    smallest even id that is not in the map, among the ids below the limit
    minus one; the call fails when all of those are taken. *)
Lemma generateDataChannelID_client E pc :
  1 <= maxChannels E pc <= 65535 ->
  (exists id, generateDataChannelID E pc true = Some (inr id) /\
              0 <= id < maxChannels E pc - 1 /\ id mod 2 = 0 /\
              dataChannels pc !! id = None /\
              forall j, 0 <= j < id -> j mod 2 = 0 -> is_Some (dataChannels pc !! j))
  \/
  (generateDataChannelID E pc true = Some (inl (OperationError ErrMaxDataChannelID)) /\
   forall j, 0 <= j < maxChannels E pc - 1 -> j mod 2 = 0 ->
             is_Some (dataChannels pc !! j)).
Proof.
  intros Hmax. unfold generateDataChannelID. cbn [negb].
  destruct (scanDataChannelIDs_spec (dataChannels pc) idRounds (maxChannels E pc) 0)
    as [(r & Hr & Hrange & Hpar & Hfree & Hbelow)|[Hr Hall]].
  - done.
  - lia.
  - unfold idRounds. rewrite Z2Nat.id by lia. lia.
  - left. exists r. rewrite Z.sub_0_r in Hpar. repeat (split; [done|]).
    intros j Hj Hjpar. apply Hbelow; [done|]. by rewrite Z.sub_0_r.
  - right. split; [done|].
    intros j Hj Hjpar. apply Hall; [done|]. by rewrite Z.sub_0_r.
Qed.

(** * Further properties of peerconnection.go *)

(** ** setDescription on success *)

Lemma onSignalingStateChange_rest newState pc :
  let pc' := onSignalingStateChange newState pc in
  calls pc' = calls pc ++ signalingDispatch pc newState /\
  isClosed pc' = isClosed pc /\
  lastOffer pc' = lastOffer pc /\ lastAnswer pc' = lastAnswer pc /\
  rtpTransceivers pc' = rtpTransceivers pc /\ dataChannels pc' = dataChannels pc /\
  configuration pc' = configuration pc /\ sctpTransport pc' = sctpTransport pc /\
  onSignalingStateChangeHandler pc' = onSignalingStateChangeHandler pc.
Proof.
  unfold onSignalingStateChange, signalingDispatch.
  destruct (onSignalingStateChangeHandler pc) eqn:Hh; simpl;
    rewrite ?app_nil_r; by repeat split.
Qed.

(** The shape of every successful [setDescription]: the state machine has
    accepted the proposed state, some description slots have been written,
    the state has been set and the handler dispatched. *)
Lemma setDescription_success_shape pc pc' sd op :
  setDescription pc sd op = (pc', None) ->
  isClosed pc = false /\
  checkNextSignalingState (signalingState pc) (proposedState op (desc_Type sd)) op
    (desc_Type sd) = (proposedState op (desc_Type sd), None) /\
  exists pc1,
    pc' = onSignalingStateChange (proposedState op (desc_Type sd))
            (set_signalingState (proposedState op (desc_Type sd)) pc1) /\
    calls pc1 = calls pc /\ isClosed pc1 = isClosed pc /\
    lastOffer pc1 = lastOffer pc /\ lastAnswer pc1 = lastAnswer pc /\
    rtpTransceivers pc1 = rtpTransceivers pc /\ dataChannels pc1 = dataChannels pc /\
    configuration pc1 = configuration pc /\ sctpTransport pc1 = sctpTransport pc /\
    onSignalingStateChangeHandler pc1 = onSignalingStateChangeHandler pc /\
    match desc_Type sd, op with
    | SDPTypeAnswer, stateChangeOpSetLocal =>
        currentLocalDescription pc1 = Some sd /\
        currentRemoteDescription pc1 = pendingRemoteDescription pc /\
        pendingLocalDescription pc1 = None /\ pendingRemoteDescription pc1 = None
    | SDPTypeAnswer, _ =>
        currentRemoteDescription pc1 = Some sd /\
        currentLocalDescription pc1 = pendingLocalDescription pc /\
        pendingLocalDescription pc1 = None /\ pendingRemoteDescription pc1 = None
    | SDPTypeRollback, stateChangeOpSetLocal =>
        pendingLocalDescription pc1 = None /\
        pendingRemoteDescription pc1 = pendingRemoteDescription pc /\
        currentLocalDescription pc1 = currentLocalDescription pc /\
        currentRemoteDescription pc1 = currentRemoteDescription pc
    | SDPTypeRollback, _ =>
        pendingRemoteDescription pc1 = None /\
        pendingLocalDescription pc1 = pendingLocalDescription pc /\
        currentLocalDescription pc1 = currentLocalDescription pc /\
        currentRemoteDescription pc1 = currentRemoteDescription pc
    | _, stateChangeOpSetLocal =>
        pendingLocalDescription pc1 = Some sd /\
        pendingRemoteDescription pc1 = pendingRemoteDescription pc /\
        currentLocalDescription pc1 = currentLocalDescription pc /\
        currentRemoteDescription pc1 = currentRemoteDescription pc
    | _, _ =>
        pendingRemoteDescription pc1 = Some sd /\
        pendingLocalDescription pc1 = pendingLocalDescription pc /\
        currentLocalDescription pc1 = currentLocalDescription pc /\
        currentRemoteDescription pc1 = currentRemoteDescription pc
    end.
Proof.
  unfold setDescription. destruct (isClosed pc) eqn:Hopen; [discriminate|].
  intros H. split; [done|].
  destruct op; [discriminate| |]; destruct (desc_Type sd) eqn:Hty; try discriminate;
    repeat match type of H with
    | (if negb ?b then _ else _) = _ => destruct b; cbn [negb] in H; [|discriminate]
    end;
    match type of H with
    | context [checkNextSignalingState ?a ?b ?c ?d] =>
        destruct (checkNextSignalingState a b c d) as [nextState err] eqn:Hc
    end;
    apply commitSignalingState_ok in H as [-> ->];
    pose proof (checkNextSignalingState_ok _ _ _ _ _ Hc) as [-> _];
    (split; [exact Hc|]); eexists; (split; [reflexivity|]); simpl; by repeat split.
Qed.

Lemma setDescription_atomic_ops pc pc' sd :
  setDescription pc sd stateChangeOpInvalid = (pc', None) -> False.
Proof. unfold setDescription. destruct (isClosed pc); discriminate. Qed.

(** The same, pushed through the dispatch: everything a caller can see
    of a successful [setDescription]. *)
Lemma setDescription_success_summary pc pc' sd op :
  setDescription pc sd op = (pc', None) ->
  (signalingState pc' = proposedState op (desc_Type sd) /\
   calls pc' = calls pc ++ signalingDispatch pc (proposedState op (desc_Type sd)) /\
   isClosed pc' = false /\
   lastOffer pc' = lastOffer pc /\ lastAnswer pc' = lastAnswer pc /\
   rtpTransceivers pc' = rtpTransceivers pc /\ dataChannels pc' = dataChannels pc /\
   configuration pc' = configuration pc /\ sctpTransport pc' = sctpTransport pc) /\
  (op = stateChangeOpSetLocal \/ op = stateChangeOpSetRemote) /\
  (desc_Type sd <> SDPTypeAnswer ->
   currentLocalDescription pc' = currentLocalDescription pc /\
   currentRemoteDescription pc' = currentRemoteDescription pc /\
   match op with
   | stateChangeOpSetLocal =>
       pendingRemoteDescription pc' = pendingRemoteDescription pc /\
       pendingLocalDescription pc'
       = if decide (desc_Type sd = SDPTypeRollback) then None else Some sd
   | _ =>
       pendingLocalDescription pc' = pendingLocalDescription pc /\
       pendingRemoteDescription pc'
       = if decide (desc_Type sd = SDPTypeRollback) then None else Some sd
   end) /\
  (desc_Type sd = SDPTypeAnswer ->
   pendingLocalDescription pc' = None /\ pendingRemoteDescription pc' = None /\
   match op with
   | stateChangeOpSetLocal =>
       currentLocalDescription pc' = Some sd /\
       currentRemoteDescription pc' = pendingRemoteDescription pc
   | _ =>
       currentRemoteDescription pc' = Some sd /\
       currentLocalDescription pc' = pendingLocalDescription pc
   end).
Proof.
  intros H. pose proof H as Hshape. apply setDescription_success_shape in Hshape
    as (Hopen & _ & pc1 & -> & Hcalls & Hclosed & Hlo & Hla & Hts & Hdc & Hcfg
        & Hsctp & Hh & Hslots).
  destruct (onSignalingStateChange_rest (proposedState op (desc_Type sd))
              (set_signalingState (proposedState op (desc_Type sd)) pc1))
    as (-> & -> & -> & -> & -> & -> & -> & -> & _).
  destruct (onSignalingStateChange_fields (proposedState op (desc_Type sd))
              (set_signalingState (proposedState op (desc_Type sd)) pc1))
    as (-> & -> & -> & -> & ->).
  simpl. unfold signalingDispatch. simpl. rewrite Hh, Hcalls.
  split; [split; [done|]; split; [done|]; split; [congruence|]; by repeat split|].
  destruct op; [by apply setDescription_atomic_ops in H| |];
    (split; [by auto|]);
    (split; intros Hty; destruct (desc_Type sd) eqn:Hd; try done;
     destruct Hslots as (? & ? & ? & ?); by repeat split).
Qed.

(** X1.  Every successful [setDescription] enters the state it proposed,
    dispatches the signaling handler exactly once with that state when one
    is registered, and touches neither the remembered offer and answer
    texts nor the transceivers, the data channels or the configuration. *)
Theorem setDescription_success_dispatches_once :
  forall (pc pc' : PeerConnection) (sd : SessionDescription) (op : stateChangeOp),
    setDescription pc sd op = (pc', None) ->
    signalingState pc' = proposedState op (desc_Type sd) /\
    calls pc' = calls pc ++ signalingDispatch pc (signalingState pc') /\
    isClosed pc' = false /\
    lastOffer pc' = lastOffer pc /\ lastAnswer pc' = lastAnswer pc /\
    rtpTransceivers pc' = rtpTransceivers pc /\ dataChannels pc' = dataChannels pc /\
    configuration pc' = configuration pc.
Proof.
  intros pc pc' sd op H.
  apply setDescription_success_summary in H
    as ((Hs & Hc & Hopen & Hlo & Hla & Hts & Hdc & Hcfg & _) & _).
  rewrite Hs. by repeat split.
Qed.

Lemma setDescription_success_dispatches_once_witness :
  let offer := describe SDPTypeOffer (remoteVideoDocument "0") in
  let pc := newPeerConnection (exampleConfiguration SDPSemanticsUnifiedPlan) in
  let pc' := fst (setDescription pc offer stateChangeOpSetRemote) in
  setDescription pc offer stateChangeOpSetRemote = (pc', None) /\
  signalingState pc' = SignalingStateHaveRemoteOffer /\
  calls pc' = [].
Proof.
  intros offer pc pc'.
  assert (H0 : snd (setDescription pc offer stateChangeOpSetRemote) = None)
    by (vm_compute; reflexivity).
  pose proof (pair_eta _ _ H0) as H.
  destruct (setDescription_success_dispatches_once pc pc' offer stateChangeOpSetRemote H)
    as (Hs & Hc & _).
  split; [exact H|]. split; [exact Hs|]. exact Hc.
Defined.

(** X2.  An offer or a pranswer that is installed becomes the pending
    description of its side and leaves the three other slots alone; a
    rollback that is accepted empties the pending slot of its side and
    leaves the three other slots alone. *)
Theorem setDescription_pending_slots :
  forall (pc pc' : PeerConnection) (sd : SessionDescription) (op : stateChangeOp),
    desc_Type sd <> SDPTypeAnswer ->
    setDescription pc sd op = (pc', None) ->
    currentLocalDescription pc' = currentLocalDescription pc /\
    currentRemoteDescription pc' = currentRemoteDescription pc /\
    match op with
    | stateChangeOpSetLocal =>
        pendingRemoteDescription pc' = pendingRemoteDescription pc /\
        pendingLocalDescription pc'
        = if decide (desc_Type sd = SDPTypeRollback) then None else Some sd
    | _ =>
        pendingLocalDescription pc' = pendingLocalDescription pc /\
        pendingRemoteDescription pc'
        = if decide (desc_Type sd = SDPTypeRollback) then None else Some sd
    end.
Proof.
  intros pc pc' sd op Hty H.
  apply setDescription_success_summary in H as (_ & _ & Hslots & _).
  exact (Hslots Hty).
Qed.

Lemma setDescription_pending_slots_witness :
  let offer := describe SDPTypeOffer (remoteVideoDocument "0") in
  let pc := newPeerConnection (exampleConfiguration SDPSemanticsUnifiedPlan) in
  let pc' := fst (setDescription pc offer stateChangeOpSetRemote) in
  (desc_Type offer <> SDPTypeAnswer /\
   setDescription pc offer stateChangeOpSetRemote = (pc', None)) /\
  pendingRemoteDescription pc' = Some offer /\
  pendingLocalDescription pc' = None.
Proof.
  intros offer pc pc'.
  assert (Hty : desc_Type offer <> SDPTypeAnswer) by discriminate.
  assert (H0 : snd (setDescription pc offer stateChangeOpSetRemote) = None)
    by (vm_compute; reflexivity).
  pose proof (pair_eta _ _ H0) as H.
  destruct (setDescription_pending_slots pc pc' offer stateChangeOpSetRemote Hty H)
    as (_ & _ & Hl & Hr).
  split; [exact (conj Hty H)|]. split; [exact Hr|exact Hl].
Defined.

(** ** SetLocalDescription *)

(** X3.  JSEP 5.4: a local description without text stands for the last
    created offer or answer, so the call behaves as the call with that
    text; for a rollback or an unknown type there is nothing to stand for
    and the call fails before anything is parsed. *)
Theorem SetLocalDescription_empty_text :
  forall (E : Env) (pc : PeerConnection) (desc : SessionDescription),
    desc_SDP desc = "" ->
    match desc_Type desc with
    | SDPTypeOffer =>
        SetLocalDescription E pc desc
        = SetLocalDescription E pc (withSDP (lastOffer pc) desc)
    | SDPTypeAnswer | SDPTypePranswer =>
        SetLocalDescription E pc desc
        = SetLocalDescription E pc (withSDP (lastAnswer pc) desc)
    | _ =>
        isClosed pc = false ->
        SetLocalDescription E pc desc
        = (pc, Some (InvalidModificationError (ErrInvalidSDPType (desc_Type desc))))
    end.
Proof.
  intros E pc desc Hempty. unfold SetLocalDescription. simpl.
  destruct (isClosed pc); [by destruct (desc_Type desc)|].
  rewrite Hempty. simpl.
  destruct (desc_Type desc) eqn:Hty; try done.
  - destruct (String.eqb (lastOffer pc) "") eqn:Hl; [|done].
    apply String.eqb_eq in Hl. by rewrite Hl.
  - destruct (String.eqb (lastAnswer pc) "") eqn:Hl; [|done].
    apply String.eqb_eq in Hl. by rewrite Hl.
  - destruct (String.eqb (lastAnswer pc) "") eqn:Hl; [|done].
    apply String.eqb_eq in Hl. by rewrite Hl.
Qed.

(** The offering side sets its offer without repeating the text. *)
Lemma SetLocalDescription_empty_text_witness :
  let pc := fst (CreateOffer scenarioEnv offerer None) in
  let desc := {| desc_Type := SDPTypeOffer; desc_SDP := ""; desc_parsed := None |} in
  desc_SDP desc = "" /\
  SetLocalDescription scenarioEnv pc desc
  = SetLocalDescription scenarioEnv pc (withSDP (lastOffer pc) desc) /\
  signalingState (fst (SetLocalDescription scenarioEnv pc desc))
  = SignalingStateHaveLocalOffer.
Proof.
  intros pc desc.
  assert (H : desc_SDP desc = "") by reflexivity.
  split; [exact H|]. split.
  - exact (SetLocalDescription_empty_text scenarioEnv pc desc H).
  - vm_compute. reflexivity.
Defined.

Section Create.

Variable E : Env.

Lemma buildOffer_type pc desc : buildOffer E pc = inr desc -> desc_Type desc = SDPTypeOffer.
Proof.
  unfold buildOffer, bindE.
  repeat match goal with
  | |- context [match ?x with inl _ => _ | inr _ => _ end] =>
      destruct x; try discriminate
  end.
  by intros [= <-].
Qed.

Lemma buildAnswer_type pc desc :
  buildAnswer E pc = inr desc -> desc_Type desc = SDPTypeAnswer.
Proof.
  unfold buildAnswer, bindE.
  repeat match goal with
  | |- context [match ?x with inl _ => _ | inr _ => _ end] =>
      destruct x; try discriminate
  end.
  by intros [= <-].
Qed.

Lemma CreateOffer_inv pc options pc' r :
  CreateOffer E pc options = (pc', r) ->
  match r with
  | inl _ => pc' = pc
  | inr desc =>
      options = None /\ isClosed pc = false /\
      pc' = set_lastOffer (desc_SDP desc) pc /\ desc_Type desc = SDPTypeOffer
  end.
Proof.
  unfold CreateOffer.
  destruct options as [o|]; [by intros [= <- <-]|].
  rewrite bool_decide_eq_false_2 by (intros H; by apply H).
  destruct (bool_decide (idpLoginURL pc <> None)); [by intros [= <- <-]|].
  destruct (isClosed pc); [by intros [= <- <-]|].
  destruct (buildOffer E pc) as [e|desc] eqn:Hb; intros [= <- <-]; [done|].
  repeat split. by eapply buildOffer_type.
Qed.

Lemma CreateAnswer_inv pc options pc' r :
  CreateAnswer E pc options = (pc', r) ->
  match r with
  | inl _ => pc' = pc
  | inr desc =>
      options = None /\ isClosed pc = false /\ RemoteDescription pc <> None /\
      pc' = set_lastAnswer (desc_SDP desc) pc /\ desc_Type desc = SDPTypeAnswer
  end.
Proof.
  unfold CreateAnswer.
  destruct options as [o|]; [by intros [= <- <-]|].
  rewrite bool_decide_eq_false_2 by (intros H; by apply H).
  case_bool_decide as Hr; [by intros [= <- <-]|].
  destruct (bool_decide (idpLoginURL pc <> None)); [by intros [= <- <-]|].
  destruct (isClosed pc); [by intros [= <- <-]|].
  destruct (buildAnswer E pc) as [e|desc] eqn:Hb; intros [= <- <-]; [done|].
  repeat split; [done|]. by eapply buildAnswer_type.
Qed.

End Create.

(** X4.  CreateOffer and CreateAnswer install nothing: whatever they return,
    the signaling state, the four description slots, the transceivers and
    the call log are as before.  A failure leaves the whole connection as
    it was; a success only remembers the returned text, as the last offer
    or the last answer. *)
Theorem create_installs_nothing :
  forall (E : Env) (pc : PeerConnection),
    (forall options pc' r,
        CreateOffer E pc options = (pc', r) ->
        match r with
        | inl _ => pc' = pc
        | inr desc => pc' = set_lastOffer (desc_SDP desc) pc /\ lastOffer pc' = desc_SDP desc
        end /\
        signalingState pc' = signalingState pc /\
        pendingLocalDescription pc' = pendingLocalDescription pc /\
        currentLocalDescription pc' = currentLocalDescription pc /\
        rtpTransceivers pc' = rtpTransceivers pc /\ calls pc' = calls pc) /\
    (forall options pc' r,
        CreateAnswer E pc options = (pc', r) ->
        match r with
        | inl _ => pc' = pc
        | inr desc => pc' = set_lastAnswer (desc_SDP desc) pc /\ lastAnswer pc' = desc_SDP desc
        end /\
        signalingState pc' = signalingState pc /\
        pendingLocalDescription pc' = pendingLocalDescription pc /\
        currentLocalDescription pc' = currentLocalDescription pc /\
        rtpTransceivers pc' = rtpTransceivers pc /\ calls pc' = calls pc).
Proof.
  intros E pc. split; intros options pc' r H.
  - apply CreateOffer_inv in H. destruct r as [e|desc].
    + by subst.
    + destruct H as (_ & _ & -> & _). by repeat split.
  - apply CreateAnswer_inv in H. destruct r as [e|desc].
    + by subst.
    + destruct H as (_ & _ & _ & -> & _). by repeat split.
Qed.

Lemma create_installs_nothing_witness :
  let r := CreateOffer scenarioEnv offerer None in
  CreateOffer scenarioEnv offerer None = (fst r, snd r) /\
  signalingState (fst r) = signalingState offerer /\
  calls (fst r) = calls offerer.
Proof.
  intros r.
  assert (H : CreateOffer scenarioEnv offerer None = (fst r, snd r))
    by (apply surjective_pairing).
  destruct (proj1 (create_installs_nothing scenarioEnv offerer) None (fst r) (snd r) H)
    as (_ & Hs & _ & _ & _ & Hc).
  split; [exact H|]. split; [exact Hs|exact Hc].
Defined.

(** What SetLocalDescription does once [setDescription] has accepted the
    description: it asks the gatherer and returns its answer. *)
Lemma SetLocalDescription_installed E pc desc parsed pc1 :
  isClosed pc = false ->
  desc_SDP desc <> "" \/
    desc_SDP desc = match desc_Type desc with
                    | SDPTypeOffer => lastOffer pc
                    | _ => lastAnswer pc
                    end /\
    (desc_Type desc = SDPTypeOffer \/ desc_Type desc = SDPTypeAnswer
     \/ desc_Type desc = SDPTypePranswer) ->
  Unmarshal E (desc_SDP desc) = inr parsed ->
  setDescription pc (withParsed (Some parsed) desc) stateChangeOpSetLocal = (pc1, None) ->
  SetLocalDescription E pc desc
  = (if decide (gathererCalls E (desc_Type desc) = []) then pc1
     else set_calls (calls pc1 ++ gathererCalls E (desc_Type desc)) pc1,
     gathererVerdict E (desc_Type desc)).
Proof.
  intros Hopen Htext Hparse Hset. unfold SetLocalDescription. rewrite Hopen.
  assert (Hsub : (if String.eqb (desc_SDP desc) "" then
                    match desc_Type desc with
                    | SDPTypeAnswer | SDPTypePranswer => inr (lastAnswer pc)
                    | SDPTypeOffer => inr (lastOffer pc)
                    | _ => inl (InvalidModificationError (ErrInvalidSDPType (desc_Type desc)))
                    end
                  else inr (desc_SDP desc)) = inr (desc_SDP desc)).
  { destruct (String.eqb (desc_SDP desc) "") eqn:He; [|done].
    destruct Htext as [Hne|[Heq Hty]].
    - apply String.eqb_eq in He. done.
    - destruct Hty as [Ht|[Ht|Ht]]; rewrite Ht in Heq |- *; by rewrite Heq. }
  rewrite Hsub, Hparse. unfold withParsed in Hset. rewrite Hset.
  unfold gathererVerdict, gathererCalls. simpl desc_Type.
  destruct (agentIsTrickle E); simpl; [|done].
  by destruct (decide (desc_Type desc = SDPTypeAnswer)).
Qed.

(** X5.  CreateOffer followed by SetLocalDescription of the offer it returned:
    on a connection in stable or have-local-offer, and when the parser
    reads the created text back, the offer is installed as the pending
    local description with exactly the created text, the state is
    have-local-offer, the signaling handler is dispatched once and the
    gatherer is asked once; what the call returns is the gatherer's
    answer. *)
Theorem CreateOffer_then_SetLocalDescription :
  forall (E : Env) (pc pc1 : PeerConnection) (options : option OfferOptions)
         (desc : SessionDescription) (parsed : sdp.SessionDescription),
    CreateOffer E pc options = (pc1, inr desc) ->
    Unmarshal E (desc_SDP desc) = inr parsed ->
    signalingState pc = SignalingStateStable \/
      signalingState pc = SignalingStateHaveLocalOffer ->
    let r := SetLocalDescription E pc1 desc in
    snd r = gathererVerdict E SDPTypeOffer /\
    signalingState (fst r) = SignalingStateHaveLocalOffer /\
    pendingLocalDescription (fst r)
    = Some {| desc_Type := SDPTypeOffer; desc_SDP := desc_SDP desc;
              desc_parsed := Some parsed |} /\
    lastOffer (fst r) = desc_SDP desc /\
    calls (fst r)
    = calls pc ++ signalingDispatch pc SignalingStateHaveLocalOffer
      ++ gathererCalls E SDPTypeOffer.
Proof.
  intros E pc pc1 options desc parsed Hcreate Hparse Hstate r. subst r.
  apply CreateOffer_inv in Hcreate as (_ & Hopen & -> & Hty).
  destruct (setDescription (set_lastOffer (desc_SDP desc) pc)
              (withParsed (Some parsed) desc) stateChangeOpSetLocal)
    as [pc2 res] eqn:Hset.
  assert (res = None) as ->.
  { unfold setDescription in Hset. simpl in Hset.
    rewrite Hopen, Hty, String.eqb_refl in Hset. cbn [negb] in Hset.
    destruct Hstate as [Hst|Hst]; rewrite Hst in Hset; simpl in Hset;
      by injection Hset as _ <-. }
  rewrite (SetLocalDescription_installed E _ desc parsed pc2); try done.
  2: { destruct (String.eqb_spec (desc_SDP desc) ""); [right|by left].
       rewrite Hty. by split; [|left]. }
  apply setDescription_success_summary in Hset
    as ((Hs & Hc & _ & Hlo & _) & _ & Hslots & _).
  simpl in Hs, Hc, Hlo, Hslots. rewrite Hty in Hs, Hc, Hslots. simpl in Hs, Hc.
  destruct Hslots as (_ & _ & _ & Hpl); [discriminate|].
  simpl in Hpl. unfold withParsed in Hpl. rewrite Hty in Hpl.
  change (signalingDispatch (set_lastOffer (desc_SDP desc) pc)
            SignalingStateHaveLocalOffer)
    with (signalingDispatch pc SignalingStateHaveLocalOffer) in Hc.
  rewrite Hty.
  destruct (decide (gathererCalls E SDPTypeOffer = [])) as [Hg|Hg]; simpl.
  - rewrite Hg, app_nil_r. by repeat split.
  - rewrite Hc, <- app_assoc. by repeat split.
Qed.

Lemma CreateOffer_then_SetLocalDescription_witness :
  let pc1 := fst (CreateOffer scenarioEnv offerer None) in
  let r := SetLocalDescription scenarioEnv pc1 offererOffer in
  (CreateOffer scenarioEnv offerer None = (pc1, inr offererOffer) /\
   Unmarshal scenarioEnv (desc_SDP offererOffer) = inr (parsedOf offererOffer) /\
   signalingState offerer = SignalingStateStable) /\
  snd r = None /\
  signalingState (fst r) = SignalingStateHaveLocalOffer /\
  calls (fst r) = [CallSignalCandidates].
Proof.
  intros pc1 r.
  assert (H0 : snd (CreateOffer scenarioEnv offerer None) = inr offererOffer)
    by (vm_compute; reflexivity).
  pose proof (pair_eta _ _ H0) as H1.
  assert (H2 : Unmarshal scenarioEnv (desc_SDP offererOffer) = inr (parsedOf offererOffer))
    by (vm_compute; reflexivity).
  assert (H3 : signalingState offerer = SignalingStateStable) by reflexivity.
  destruct (CreateOffer_then_SetLocalDescription scenarioEnv offerer pc1 None offererOffer
              (parsedOf offererOffer) H1 H2 (or_introl H3))
    as (Hr & Hs & _ & _ & Hc).
  split; [exact (conj H1 (conj H2 H3))|].
  split; [exact Hr|]. split; [exact Hs|exact Hc].
Defined.

(** X6.  CreateAnswer followed by SetLocalDescription of the answer it
    returned: on a connection in have-remote-offer or have-local-pranswer,
    and when the parser reads the created text back, the answer becomes the
    current local description, the pending remote description becomes the
    current remote one, both pending slots are empty and the state is
    stable; the signaling handler is dispatched once, the gatherer is asked
    once, and the call returns the gatherer's answer. *)
Theorem CreateAnswer_then_SetLocalDescription :
  forall (E : Env) (pc pc1 : PeerConnection) (options : option AnswerOptions)
         (desc : SessionDescription) (parsed : sdp.SessionDescription),
    CreateAnswer E pc options = (pc1, inr desc) ->
    Unmarshal E (desc_SDP desc) = inr parsed ->
    signalingState pc = SignalingStateHaveRemoteOffer \/
      signalingState pc = SignalingStateHaveLocalPranswer ->
    let r := SetLocalDescription E pc1 desc in
    snd r = gathererVerdict E SDPTypeAnswer /\
    signalingState (fst r) = SignalingStateStable /\
    currentLocalDescription (fst r)
    = Some {| desc_Type := SDPTypeAnswer; desc_SDP := desc_SDP desc;
              desc_parsed := Some parsed |} /\
    currentRemoteDescription (fst r) = pendingRemoteDescription pc /\
    pendingLocalDescription (fst r) = None /\
    pendingRemoteDescription (fst r) = None /\
    calls (fst r)
    = calls pc ++ signalingDispatch pc SignalingStateStable
      ++ gathererCalls E SDPTypeAnswer.
Proof.
  intros E pc pc1 options desc parsed Hcreate Hparse Hstate r. subst r.
  apply CreateAnswer_inv in Hcreate as (_ & Hopen & _ & -> & Hty).
  destruct (setDescription (set_lastAnswer (desc_SDP desc) pc)
              (withParsed (Some parsed) desc) stateChangeOpSetLocal)
    as [pc2 res] eqn:Hset.
  assert (res = None) as ->.
  { unfold setDescription in Hset. simpl in Hset.
    rewrite Hopen, Hty, String.eqb_refl in Hset. cbn [negb] in Hset.
    destruct Hstate as [Hst|Hst]; rewrite Hst in Hset; simpl in Hset;
      by injection Hset as _ <-. }
  rewrite (SetLocalDescription_installed E _ desc parsed pc2); try done.
  2: { destruct (String.eqb_spec (desc_SDP desc) ""); [right|by left].
       rewrite Hty. split; [done|]. right. by left. }
  apply setDescription_success_summary in Hset
    as ((Hs & Hc & _) & _ & _ & Hslots).
  simpl in Hs, Hc, Hslots. rewrite Hty in Hs, Hc. simpl in Hs, Hc.
  destruct (Hslots Hty) as (Hpl & Hpr & Hcl & Hcr).
  unfold withParsed in Hcl. rewrite Hty in Hcl. simpl in Hcr.
  change (signalingDispatch (set_lastAnswer (desc_SDP desc) pc) SignalingStateStable)
    with (signalingDispatch pc SignalingStateStable) in Hc.
  rewrite Hty.
  destruct (decide (gathererCalls E SDPTypeAnswer = [])) as [Hg|Hg]; simpl.
  - rewrite Hg, app_nil_r. by repeat split.
  - rewrite Hc, <- app_assoc. by repeat split.
Qed.

(** The answering side of the example exchange answers and reaches
    stable. *)
Lemma CreateAnswer_then_SetLocalDescription_witness :
  let pc1 := fst (CreateAnswer answererEnv answererWithRemoteOffer None) in
  let r := SetLocalDescription answererEnv pc1 answererAnswer in
  (CreateAnswer answererEnv answererWithRemoteOffer None = (pc1, inr answererAnswer) /\
   Unmarshal answererEnv (desc_SDP answererAnswer) = inr (parsedOf answererAnswer) /\
   signalingState answererWithRemoteOffer = SignalingStateHaveRemoteOffer) /\
  snd r = None /\
  signalingState (fst r) = SignalingStateStable /\
  currentRemoteDescription (fst r) = pendingRemoteDescription answererWithRemoteOffer /\
  pendingRemoteDescription (fst r) = None.
Proof.
  intros pc1 r.
  assert (H0 : snd (CreateAnswer answererEnv answererWithRemoteOffer None)
               = inr answererAnswer) by (vm_compute; reflexivity).
  pose proof (pair_eta _ _ H0) as H1.
  assert (H2 : Unmarshal answererEnv (desc_SDP answererAnswer)
               = inr (parsedOf answererAnswer)) by (vm_compute; reflexivity).
  assert (H3 : signalingState answererWithRemoteOffer = SignalingStateHaveRemoteOffer)
    by (vm_compute; reflexivity).
  destruct (CreateAnswer_then_SetLocalDescription answererEnv answererWithRemoteOffer pc1
              None answererAnswer (parsedOf answererAnswer) H1 H2 (or_introl H3))
    as (Hr & Hs & _ & Hcr & _ & Hpr & _).
  split; [exact (conj H1 (conj H2 H3))|].
  split; [exact Hr|]. split; [exact Hs|]. split; [exact Hcr|exact Hpr].
Defined.

(** ** SetRemoteDescription after the state machine *)

Section DeliverLog.

Variable E : Env.

Lemma sameButCalls_refl pc : sameButCalls pc pc.
Proof. unfold sameButCalls. by destruct pc. Qed.

Lemma sameButCalls_trans pc1 pc2 pc3 :
  sameButCalls pc1 pc2 -> sameButCalls pc2 pc3 -> sameButCalls pc1 pc3.
Proof. unfold sameButCalls. intros H12 H23. rewrite H23 at 1. by rewrite H12. Qed.

Lemma sameButCalls_set_calls pc l : sameButCalls pc (set_calls l pc).
Proof. reflexivity. Qed.

(** One attribute: a candidate that parses is handed to the transport,
    whatever the transport answers; nothing else is logged. *)
Lemma deliverAttribute_log pc a :
  let r := deliverAttribute E pc a in
  sameButCalls pc (fst r) /\
  (snd r = None ->
   calls (fst r)
   = calls pc ++ map CallAddRemoteCandidate (option_list (candidateOf E a))) /\
  (exists delivered, calls (fst r) = calls pc ++ map CallAddRemoteCandidate delivered).
Proof.
  unfold deliverAttribute, candidateOf.
  destruct (sdp.IsICECandidate a).
  - destruct (parseCandidate E a) as [e|candidate]; simpl.
    + split; [apply sameButCalls_refl|]. split; [discriminate|].
      exists []. by rewrite app_nil_r.
    + split; [apply sameButCalls_set_calls|]. split; [done|]. by exists [candidate].
  - assert (Hnone : forall r : PeerConnection * option error,
               fst r = pc ->
               sameButCalls pc (fst r) /\
               (snd r = None -> calls (fst r) = calls pc ++ map CallAddRemoteCandidate []) /\
               (exists delivered,
                   calls (fst r) = calls pc ++ map CallAddRemoteCandidate delivered)).
    { intros r ->. split; [apply sameButCalls_refl|].
      split; [intros _; by rewrite app_nil_r|]. exists []. by rewrite app_nil_r. }
    destruct (String.prefix "ice-ufrag" _); [case_decide; by apply Hnone|].
    destruct (String.prefix "ice-pwd" _); [case_decide; by apply Hnone|].
    by apply Hnone.
Qed.

Lemma deliverAttributes_log attrs pc :
  let r := deliverAttributes E pc attrs in
  sameButCalls pc (fst r) /\
  (snd r = None ->
   calls (fst r) = calls pc ++ map CallAddRemoteCandidate (omap (candidateOf E) attrs)) /\
  (exists delivered, calls (fst r) = calls pc ++ map CallAddRemoteCandidate delivered).
Proof.
  revert pc. induction attrs as [|a attrs IH]; intros pc; simpl.
  - split; [apply sameButCalls_refl|]. split; [intros _; by rewrite app_nil_r|].
    exists []. by rewrite app_nil_r.
  - destruct (deliverAttribute_log pc a) as (Hsame & Hok & [d1 Hd1]).
    destruct (deliverAttribute E pc a) as [pc1 [e|]]; simpl in *.
    + split; [done|]. split; [discriminate|]. by exists d1.
    + destruct (IH pc1) as (Hsame' & Hok' & [d2 Hd2]).
      split; [by eapply sameButCalls_trans|]. split.
      * intros Hr. rewrite (Hok' Hr), (Hok eq_refl), <- app_assoc, <- map_app.
        do 2 f_equal. by destruct (candidateOf E a).
      * exists (d1 ++ d2). by rewrite Hd2, Hd1, <- app_assoc, map_app.
Qed.

(** The walk over the sections: the fingerprint found is that of the
    first section that has one unless one was given, the candidates are
    delivered in document order, and nothing but the log changes, also
    when the walk is cut short by an error. *)
Lemma deliverMedia_log medias pc fingerprint :
  let r := deliverMedia E pc fingerprint medias in
  sameButCalls pc (fst r) /\
  (forall found, snd r = inr found ->
     found = match fingerprint with
             | Some f => Some f
             | None => mediaFingerprint medias
             end /\
     calls (fst r) = calls pc ++ map CallAddRemoteCandidate (remoteCandidates E medias)) /\
  (exists delivered, calls (fst r) = calls pc ++ map CallAddRemoteCandidate delivered).
Proof.
  revert pc fingerprint. induction medias as [|m medias IH]; intros pc fp; simpl.
  - split; [apply sameButCalls_refl|]. split.
    + intros found [= <-]. split; [by destruct fp|]. by rewrite app_nil_r.
    + exists []. by rewrite app_nil_r.
  - destruct (deliverAttributes_log (sdp.mediaAttributes m) pc) as (Hsame & Hok & [d1 Hd1]).
    destruct (deliverAttributes E pc (sdp.mediaAttributes m)) as [pc1 [e|]]; simpl in *.
    + split; [done|]. split; [discriminate|]. by exists d1.
    + match goal with
      | |- context [deliverMedia E pc1 ?fp' medias] =>
          destruct (IH pc1 fp') as (Hsame' & Hok' & [d2 Hd2])
      end.
      split; [by eapply sameButCalls_trans|]. split.
      * intros found Hr. destruct (Hok' found Hr) as [-> ->]. split.
        -- destruct fp as [f|]; [done|].
           by destruct (sdp.lookupAttribute "fingerprint" (sdp.mediaAttributes m)).
        -- rewrite (Hok eq_refl), <- app_assoc, <- map_app. unfold remoteCandidates.
           simpl. by rewrite omap_app.
      * exists (d1 ++ d2). by rewrite Hd2, Hd1, <- app_assoc, map_app.
Qed.

End DeliverLog.

(** After a remote description has been installed the getter returns it,
    except after a rollback, which leaves none. *)
Lemma RemoteDescription_installed pc pc1 sd :
  currentRemoteDescription pc = None ->
  setDescription pc sd stateChangeOpSetRemote = (pc1, None) ->
  RemoteDescription pc1
  = if decide (desc_Type sd = SDPTypeRollback) then None else Some sd.
Proof.
  intros Hcur Hset.
  apply setDescription_success_summary in Hset as (_ & _ & Hother & Hanswer).
  unfold RemoteDescription.
  destruct (decide (desc_Type sd = SDPTypeAnswer)) as [Hty|Hty].
  - destruct (Hanswer Hty) as (_ & -> & -> & _). rewrite Hty. done.
  - destruct (Hother Hty) as (_ & -> & _ & ->). rewrite Hcur.
    by case_decide.
Qed.

(** X7.  What a successful SetRemoteDescription has read from the remote
    document: a fingerprint, taken from the session attributes or else
    from the first media section that has one, which consists of exactly
    two space-separated parts; and every candidate attribute, in document
    order, each handed once to the ICE transport.  The state is the one
    proposed for the type, the SCTP transport is attached, and the log
    shows the handler dispatch, the candidates and, for an answer or
    pranswer with a trickling gatherer, one gathering pass. *)
Theorem SetRemoteDescription_success_reads_document :
  forall (E : Env) (pc pc' : PeerConnection) (desc : SessionDescription),
    SetRemoteDescription E pc desc = (pc', None) ->
    exists parsed fingerprint,
      Unmarshal E (desc_SDP desc) = inr parsed /\
      documentFingerprint parsed = Some fingerprint /\
      splitLength fingerprint = 2%nat /\
      signalingState pc' = proposedState stateChangeOpSetRemote (desc_Type desc) /\
      sctpTransport pc' = Some (NewSCTPTransport E) /\
      calls pc'
      = calls pc
        ++ signalingDispatch pc (proposedState stateChangeOpSetRemote (desc_Type desc))
        ++ map CallAddRemoteCandidate (remoteCandidates E (sdp.MediaDescriptions parsed))
        ++ remoteGatherCalls E (desc_Type desc).
Proof.
  intros E pc pc' desc. unfold SetRemoteDescription.
  case_decide as Hcur; [discriminate|].
  assert (Hnone : currentRemoteDescription pc = None)
    by (destruct (currentRemoteDescription pc); [by destruct Hcur|done]).
  destruct (isClosed pc); [discriminate|].
  destruct (Unmarshal E (desc_SDP desc)) as [e|parsed]; [discriminate|].
  destruct (setDescription pc (withParsed (Some parsed) desc) stateChangeOpSetRemote)
    as [pc1 [e|]] eqn:Hset; [discriminate|].
  rewrite (RemoteDescription_installed pc pc1 _ Hnone Hset). simpl desc_Type.
  case_decide as Hroll; [discriminate|]. simpl desc_parsed.
  apply setDescription_success_summary in Hset as ((Hs & Hc & _) & _).
  simpl in Hs, Hc.
  destruct (deliverMedia_log E (sdp.MediaDescriptions parsed) pc1
              (sdp.lookupAttribute "fingerprint" (sdp.Attributes parsed)))
    as (Hsame & Hok & _).
  destruct (deliverMedia E pc1 _ _) as [pc2 [e|[fingerprint|]]]; simpl in *;
    try discriminate.
  destruct (Hok _ eq_refl) as [Hfp Hcalls].
  case_decide as Hsplit; [discriminate|].
  assert (Hstate2 : signalingState pc2 = signalingState pc1)
    by (rewrite Hsame; reflexivity).
  intros H. exists parsed, fingerprint. split; [done|].
  split; [by unfold documentFingerprint|].
  split; [by destruct (decide (splitLength fingerprint = 2%nat))|].
  unfold remoteGatherCalls.
  destruct ((bool_decide (desc_Type desc = SDPTypeAnswer)
             || bool_decide (desc_Type desc = SDPTypePranswer)) && agentIsTrickle E).
  - injection H as <- _. simpl.
    rewrite Hstate2, Hs, Hcalls, Hc, <- !app_assoc. by repeat split.
  - injection H as <-. simpl.
    rewrite Hstate2, Hs, Hcalls, Hc, <- !app_assoc, app_nil_r. by repeat split.
Qed.

(** An offer whose only fingerprint is in its media section, between two
    candidates. *)
Lemma SetRemoteDescription_success_reads_document_witness :
  let offer := describe SDPTypeOffer mediaLevelDocument in
  let pc := newPeerConnection (exampleConfiguration SDPSemanticsUnifiedPlan) in
  let pc' := fst (SetRemoteDescription remoteEnv pc offer) in
  SetRemoteDescription remoteEnv pc offer = (pc', None) /\
  documentFingerprint mediaLevelDocument = Some "sha-256 12:34" /\
  calls pc'
  = [CallAddRemoteCandidate "1 1 udp 2130706431 192.0.2.1 50000 typ host";
     CallAddRemoteCandidate "2 1 udp 2130706430 192.0.2.2 50001 typ host"].
Proof.
  intros offer pc pc'.
  assert (H0 : snd (SetRemoteDescription remoteEnv pc offer) = None)
    by (vm_compute; reflexivity).
  pose proof (pair_eta _ _ H0) as H.
  destruct (SetRemoteDescription_success_reads_document remoteEnv pc pc' offer H)
    as (parsed & fingerprint & Hp & Hf & _ & _ & _ & Hc).
  assert (Hparsed : parsed = mediaLevelDocument).
  { assert (Hu : Unmarshal remoteEnv (desc_SDP offer) = inr mediaLevelDocument)
      by (vm_compute; reflexivity).
    rewrite Hu in Hp. by injection Hp. }
  subst parsed. split; [exact H|]. split; [vm_compute; reflexivity|].
  rewrite Hc. vm_compute. reflexivity.
Defined.

(** X8.  SetRemoteDescription is not atomic after the state machine: once
    [setDescription] has accepted the description, whatever the call then
    returns (a candidate that does not parse or is refused, a missing or
    malformed fingerprint, a failed gathering pass), the signaling state
    and the four description slots are those of the installed
    description and the handler dispatch is in the log. *)
Theorem SetRemoteDescription_keeps_installation :
  forall (E : Env) (pc pc1 pc' : PeerConnection) (desc : SessionDescription)
         (parsed : sdp.SessionDescription) (r : option error),
    currentRemoteDescription pc = None ->
    Unmarshal E (desc_SDP desc) = inr parsed ->
    setDescription pc (withParsed (Some parsed) desc) stateChangeOpSetRemote
    = (pc1, None) ->
    SetRemoteDescription E pc desc = (pc', r) ->
    signalingState pc' = proposedState stateChangeOpSetRemote (desc_Type desc) /\
    currentLocalDescription pc' = currentLocalDescription pc1 /\
    pendingLocalDescription pc' = pendingLocalDescription pc1 /\
    currentRemoteDescription pc' = currentRemoteDescription pc1 /\
    pendingRemoteDescription pc' = pendingRemoteDescription pc1 /\
    (exists later, calls pc' = calls pc1 ++ later) /\
    (documentFingerprint parsed = None -> r <> None).
Proof.
  intros E pc pc1 pc' desc parsed r Hnone Hparse Hset.
  unfold SetRemoteDescription. rewrite Hnone.
  destruct (decide (None <> None)) as [Hn|_]; [done|].
  pose proof Hset as Hsum.
  apply setDescription_success_summary in Hsum as ((Hs & _ & Hopen & _) & _).
  simpl in Hs.
  assert (Hopen0 : isClosed pc = false).
  { unfold setDescription in Hset. by destruct (isClosed pc). }
  rewrite Hopen0, Hparse, Hset.
  assert (Hkeep : forall p, sameButCalls pc1 p ->
            signalingState p = proposedState stateChangeOpSetRemote (desc_Type desc) /\
            currentLocalDescription p = currentLocalDescription pc1 /\
            pendingLocalDescription p = pendingLocalDescription pc1 /\
            currentRemoteDescription p = currentRemoteDescription pc1 /\
            pendingRemoteDescription p = pendingRemoteDescription pc1).
  { intros p ->. simpl. by rewrite Hs. }
  rewrite (RemoteDescription_installed pc pc1 _ Hnone Hset). simpl desc_Type.
  case_decide as Hroll.
  { intros [= <- <-]. destruct (Hkeep pc1 (sameButCalls_refl pc1)) as (?&?&?&?&?).
    repeat split; try done. exists []. by rewrite app_nil_r. }
  simpl desc_parsed.
  destruct (deliverMedia_log E (sdp.MediaDescriptions parsed) pc1
              (sdp.lookupAttribute "fingerprint" (sdp.Attributes parsed)))
    as (Hsame & Hok & [delivered Hdel]).
  destruct (deliverMedia E pc1 _ _) as [pc2 [e|found]] eqn:Hdm; simpl in *.
  { intros [= <- <-]. destruct (Hkeep pc2 Hsame) as (?&?&?&?&?).
    repeat split; try done. by eexists. }
  destruct (Hok found eq_refl) as [Hfound _].
  fold (documentFingerprint parsed) in Hfound.
  destruct found as [fingerprint|].
  2: { intros [= <- <-]. destruct (Hkeep pc2 Hsame) as (?&?&?&?&?).
       repeat split; try done. by eexists. }
  case_decide.
  { intros [= <- <-]. destruct (Hkeep pc2 Hsame) as (?&?&?&?&?).
    repeat split; try done. by eexists. }
  assert (Hhas : documentFingerprint parsed = None -> False) by (intros Hn; congruence).
  destruct (Hkeep pc2 Hsame) as (?&?&?&?&?).
  destruct (_ && _); intros [= <- <-]; simpl;
    do 5 (split; [done|]);
    (split; [|intros Hn; by destruct (Hhas Hn)]).
  - exists (map CallAddRemoteCandidate delivered ++ [CallGather]).
    by rewrite Hdel, <- app_assoc.
  - by eexists.
Qed.

(** An offer without any fingerprint: the call fails, the offer is
    installed and its candidate has been delivered. *)
Lemma SetRemoteDescription_keeps_installation_witness :
  let offer := describe SDPTypeOffer bareDocument in
  let pc := newPeerConnection (exampleConfiguration SDPSemanticsUnifiedPlan) in
  let pc1 := fst (setDescription pc (withParsed (Some bareDocument) offer)
                    stateChangeOpSetRemote) in
  let r := SetRemoteDescription remoteEnv pc offer in
  (currentRemoteDescription pc = None /\
   Unmarshal remoteEnv (desc_SDP offer) = inr bareDocument /\
   setDescription pc (withParsed (Some bareDocument) offer) stateChangeOpSetRemote
   = (pc1, None) /\
   documentFingerprint bareDocument = None) /\
  snd r = Some (PlainError (Errorf "could not find fingerprint")) /\
  signalingState (fst r) = SignalingStateHaveRemoteOffer /\
  pendingRemoteDescription (fst r) = pendingRemoteDescription pc1 /\
  snd r <> None.
Proof.
  intros offer pc pc1 r.
  assert (H1 : currentRemoteDescription pc = None) by reflexivity.
  assert (H2 : Unmarshal remoteEnv (desc_SDP offer) = inr bareDocument)
    by (vm_compute; reflexivity).
  assert (H3 : setDescription pc (withParsed (Some bareDocument) offer)
                 stateChangeOpSetRemote = (pc1, None))
    by (apply pair_eta; reflexivity).
  assert (H4 : documentFingerprint bareDocument = None) by reflexivity.
  assert (H5 : SetRemoteDescription remoteEnv pc offer = (fst r, snd r))
    by apply surjective_pairing.
  destruct (SetRemoteDescription_keeps_installation remoteEnv pc pc1 (fst r) offer
              bareDocument (snd r) H1 H2 H3 H5) as (Hs & _ & _ & _ & Hp & _ & Hr).
  split; [exact (conj H1 (conj H2 (conj H3 H4)))|].
  split; [vm_compute; reflexivity|]. split; [exact Hs|]. split; [exact Hp|exact (Hr H4)].
Defined.

(** ** The local description getters *)

(** The getter of the claims' part is the general function asked for the
    pending description. *)
Lemma PendingLocalDescription_populate E pc :
  PendingLocalDescription E pc = populateLocalCandidates E pc PendingSlot.
Proof.
  unfold PendingLocalDescription, populateLocalCandidates. simpl.
  destruct (pendingLocalDescription pc) as [orig|]; [|done].
  destruct (GetLocalCandidates E) as [e|candidates]; [done|].
  destruct (desc_parsed orig) as [parsed|]; [|done].
  by destruct (Marshal E _).
Qed.

(** X9.  After a negotiation has completed with an answer, that is, with
    a current local description and no pending one, CurrentLocalDescription
    dereferences the missing pending description as soon as the gatherer
    has a candidate list to offer: the call panics.  It returns the current
    description only while the gatherer fails to list candidates. *)
Theorem CurrentLocalDescription_after_answer :
  forall (E : Env) (pc pc' : PeerConnection) (sd : SessionDescription)
         (op : stateChangeOp) (current : SessionDescription),
    desc_Type sd = SDPTypeAnswer ->
    setDescription pc sd op = (pc', None) ->
    currentLocalDescription pc' = Some current ->
    (forall candidates, GetLocalCandidates E = inr candidates ->
       CurrentLocalDescription E pc'
       = (pc', inl (RuntimePanic "nil pointer dereference"))) /\
    (forall e, GetLocalCandidates E = inl e ->
       CurrentLocalDescription E pc' = (pc', inr (Some current))).
Proof.
  intros E pc pc' sd op current Hty Hset Hcur.
  apply setDescription_success_summary in Hset as (_ & _ & _ & Hanswer).
  destruct (Hanswer Hty) as (Hpl & _).
  unfold CurrentLocalDescription, populateLocalCandidates. simpl. rewrite Hcur, Hpl.
  split; intros x ->; reflexivity.
Qed.

(** The offering side of the example exchange after the answer. *)
Lemma CurrentLocalDescription_after_answer_witness :
  let answer := describe SDPTypeAnswer (remoteVideoDocument "0") in
  let sd := withParsed (Some (remoteVideoDocument "0")) answer in
  let pc' := fst (setDescription offererWithLocalOffer sd stateChangeOpSetRemote) in
  (desc_Type sd = SDPTypeAnswer /\
   setDescription offererWithLocalOffer sd stateChangeOpSetRemote = (pc', None) /\
   currentLocalDescription pc' = pendingLocalDescription offererWithLocalOffer /\
   GetLocalCandidates scenarioEnv = inr []) /\
  CurrentLocalDescription scenarioEnv pc'
  = (pc', inl (RuntimePanic "nil pointer dereference")).
Proof.
  intros answer sd pc'.
  assert (H1 : desc_Type sd = SDPTypeAnswer) by reflexivity.
  assert (H0 : snd (setDescription offererWithLocalOffer sd stateChangeOpSetRemote) = None)
    by (vm_compute; reflexivity).
  pose proof (pair_eta _ _ H0) as H2.
  destruct (pendingLocalDescription offererWithLocalOffer) as [current|] eqn:Hp;
    [|vm_compute in Hp; discriminate Hp].
  assert (H3 : currentLocalDescription pc' = Some current).
  { rewrite <- Hp. vm_compute. reflexivity. }
  assert (H4 : GetLocalCandidates scenarioEnv = inr []) by reflexivity.
  destruct (CurrentLocalDescription_after_answer scenarioEnv offererWithLocalOffer pc' sd
              stateChangeOpSetRemote current H1 H2 H3) as [Hpanic _].
  split; [exact (conj H1 (conj H2 (conj H3 H4)))|]. exact (Hpanic [] H4).
Defined.

Section Candidates.

Variable E : Env.

Lemma fold_candidates_attributes candidates m :
  sdp.mediaAttributes
    (fold_left (fun m c => sdp.mediaWithAttributes (candidateAttributes E c) m)
       candidates m)
  = sdp.mediaAttributes m ++ concat (map (candidateAttributes E) candidates).
Proof.
  revert m. induction candidates as [|c candidates IH]; intros m; simpl.
  - by rewrite app_nil_r.
  - rewrite IH. simpl. by rewrite <- app_assoc.
Qed.

(** Every candidate yields its two component lines, in order, and the
    marker closes the list when there is at least one candidate. *)
Lemma addCandidates_attributes candidates m :
  sdp.mediaAttributes (addCandidatesToMediaDescriptions E candidates m)
  = sdp.mediaAttributes m ++ concat (map (candidateAttributes E) candidates)
    ++ (if decide (candidates = []) then []
        else [ {| sdp.Key := "end-of-candidates"; sdp.Value := "" |} ]).
Proof.
  unfold addCandidatesToMediaDescriptions.
  destruct candidates as [|c candidates].
  - simpl. by rewrite app_nil_r.
  - rewrite decide_True by (simpl; lia). rewrite decide_False by done.
    unfold sdp.mediaWithPropertyAttribute, sdp.mediaWithAttributes.
    cbn [sdp.mediaAttributes]. rewrite fold_candidates_attributes.
    by rewrite <- app_assoc.
Qed.

Lemma addCandidates_length candidates m :
  length (sdp.mediaAttributes (addCandidatesToMediaDescriptions E candidates m))
  = (length (sdp.mediaAttributes m) + candidateLines candidates)%nat.
Proof.
  rewrite addCandidates_attributes, !length_app.
  assert (Hc : forall l, length (concat (map (candidateAttributes E) l))
                         = (2 * length l)%nat).
  { induction l as [|c l IH]; simpl; [done|]. rewrite IH. lia. }
  rewrite Hc. destruct candidates as [|c candidates]; simpl; lia.
Qed.

(** One call of the getter on a pending description with a parsed
    document. *)
Lemma PendingLocalDescription_step candidates pc d parsed :
  GetLocalCandidates E = inr candidates ->
  pendingLocalDescription pc = Some d -> desc_parsed d = Some parsed ->
  exists d' parsed',
    pendingLocalDescription (fst (PendingLocalDescription E pc)) = Some d' /\
    desc_parsed d' = Some parsed' /\
    desc_SDP d' = desc_SDP d /\ desc_Type d' = desc_Type d /\
    sdp.MediaDescriptions parsed'
    = map (addCandidatesToMediaDescriptions E candidates) (sdp.MediaDescriptions parsed).
Proof.
  intros Hc Hp Hd. unfold PendingLocalDescription. rewrite Hp, Hc, Hd.
  destruct (Marshal E _); simpl; by eexists _, _.
Qed.

Lemma PendingLocalDescription_times candidates pc d parsed n :
  GetLocalCandidates E = inr candidates ->
  pendingLocalDescription pc = Some d -> desc_parsed d = Some parsed ->
  exists d' parsed',
    pendingLocalDescription (pendingLocalDescriptionTimes E n pc) = Some d' /\
    desc_parsed d' = Some parsed' /\ desc_SDP d' = desc_SDP d /\
    map (fun m => length (sdp.mediaAttributes m)) (sdp.MediaDescriptions parsed')
    = map (fun m => (length (sdp.mediaAttributes m) + n * candidateLines candidates)%nat)
        (sdp.MediaDescriptions parsed).
Proof.
  intros Hc Hp Hd. induction n as [|n IH]; simpl.
  - exists d, parsed. repeat split; try done.
    apply map_ext. intros m. lia.
  - destruct IH as (d1 & parsed1 & Hp1 & Hd1 & Hs1 & Hl1).
    destruct (PendingLocalDescription_step candidates _ d1 parsed1 Hc Hp1 Hd1)
      as (d2 & parsed2 & Hp2 & Hd2 & Hs2 & _ & Hm2).
    exists d2, parsed2. split; [done|]. split; [done|]. split; [congruence|].
    rewrite Hm2, map_map.
    erewrite map_ext; [|intros m; apply addCandidates_length].
    rewrite <- (map_map (fun m => length (sdp.mediaAttributes m))
                        (fun k => (k + candidateLines candidates)%nat)).
    rewrite Hl1, map_map. apply map_ext. intros m. lia.
Qed.

End Candidates.

(** X10.  PendingLocalDescription is a getter that writes: each call
    appends the gatherer's candidates once more to every media section of
    the stored pending description, two lines per candidate and the
    end-of-candidates marker.  After n calls every section has n times
    that many attributes more than it had, while the stored text is the
    one that was set. *)
Theorem PendingLocalDescription_accumulates :
  forall (E : Env) (pc : PeerConnection) (d : SessionDescription)
         (parsed : sdp.SessionDescription) (candidates : list ICECandidate) (n : nat),
    GetLocalCandidates E = inr candidates ->
    pendingLocalDescription pc = Some d ->
    desc_parsed d = Some parsed ->
    attributeCounts (pendingLocalDescription (pendingLocalDescriptionTimes E n pc))
    = map (fun k => (k + n * candidateLines candidates)%nat) (attributeCounts (Some d)) /\
    (exists d', pendingLocalDescription (pendingLocalDescriptionTimes E n pc) = Some d'
                /\ desc_SDP d' = desc_SDP d).
Proof.
  intros E pc d parsed candidates n Hc Hp Hd.
  destruct (PendingLocalDescription_times E candidates pc d parsed n Hc Hp Hd)
    as (d' & parsed' & Hp' & Hd' & Hs' & Hl).
  split; [|by exists d'].
  unfold attributeCounts. rewrite Hp', Hd', Hd, Hl, map_map. reflexivity.
Qed.

(** The offering side asks three times for its pending offer while the
    gatherer has one candidate: every section has gained nine lines. *)
Lemma PendingLocalDescription_accumulates_witness :
  let pc := offererWithLocalOffer in
  let after := pendingLocalDescriptionTimes gatheredEnv 3 pc in
  (GetLocalCandidates gatheredEnv
   = inr ["1 udp 2130706431 198.51.100.7 40000 typ host"] /\
   exists d, pendingLocalDescription pc = Some d
             /\ desc_parsed d = Some (parsedOf offererOffer)) /\
  attributeCounts (pendingLocalDescription after)
  = map (fun k => (k + 9)%nat) (attributeCounts (pendingLocalDescription pc)).
Proof.
  intros pc after.
  assert (H1 : GetLocalCandidates gatheredEnv
               = inr ["1 udp 2130706431 198.51.100.7 40000 typ host"]) by reflexivity.
  destruct (pendingLocalDescription pc) as [d|] eqn:Hp; [|vm_compute in Hp; discriminate Hp].
  assert (H3 : desc_parsed d = Some (parsedOf offererOffer)).
  { vm_compute in Hp. injection Hp as <-. vm_compute. reflexivity. }
  destruct (PendingLocalDescription_accumulates gatheredEnv pc d (parsedOf offererOffer)
              _ 3 H1 Hp H3) as [Hcounts _].
  split; [split; [exact H1|by exists d]|].
  exact Hcounts.
Defined.

(** ** The Plan-B fill loop *)

Lemma preferred_not_inactive remoteDirection d :
  d ∈ getPreferredDirections remoteDirection -> d <> RTPTransceiverDirectionInactive.
Proof.
  destruct remoteDirection; simpl; intros Hd;
    repeat (apply elem_of_cons in Hd as [->|Hd]; [discriminate|]);
    by apply elem_of_nil in Hd.
Qed.

(** The two outcomes of one satisfy step, for the loop. *)
Lemma satisfyTypeAndDirection_step remoteKind remoteDirection pool :
  (exists t rest,
      satisfyTypeAndDirection remoteKind remoteDirection pool = (t, rest) /\
      Direction t <> RTPTransceiverDirectionInactive /\
      preferred remoteKind remoteDirection t /\
      pool ≡ₚ t :: rest)
  \/
  (satisfyTypeAndDirection remoteKind remoteDirection pool
   = (inactiveTransceiver remoteKind, pool) /\
   Forall (fun t => ~ preferred remoteKind remoteDirection t) pool).
Proof.
  unfold satisfyTypeAndDirection.
  destruct (pluckTransceiver remoteKind (getPreferredDirections remoteDirection) pool)
    as [[t rest]|] eqn:Hp.
  - left. apply pluckTransceiver_Some in Hp
      as (earlier & d & later & i & Hd & Hi & Hs & -> & _).
    exists t, (delete i pool). split; [done|].
    assert (Hin : d ∈ getPreferredDirections remoteDirection).
    { rewrite Hd. apply elem_of_app. right. by left. }
    split. { destruct Hs as [_ ->]. by eapply preferred_not_inactive. }
    split; [by exists d|]. by apply delete_Permutation.
  - right. split; [done|]. apply Forall_forall. intros t Ht (d & Hd & Hs).
    by eapply pluckTransceiver_None.
Qed.

Lemma fillPlanBSection_spec remoteKind remoteDirection fuel pool acc :
  (length pool < fuel)%nat ->
  exists taken rest,
    fillPlanBSection fuel remoteKind remoteDirection pool acc = (acc ++ taken, rest) /\
    taken ++ rest ≡ₚ pool /\
    Forall (preferred remoteKind remoteDirection) taken /\
    Forall (fun t => ~ preferred remoteKind remoteDirection t) rest.
Proof.
  revert pool acc. induction fuel as [|fuel IH]; intros pool acc Hfuel; [lia|].
  simpl.
  destruct (satisfyTypeAndDirection_step remoteKind remoteDirection pool)
    as [(t & rest & -> & Hdir & Hpref & Hperm)|[-> Hnone]].
  - rewrite decide_False by done.
    destruct (IH rest (acc ++ [t])) as (taken & rest' & -> & Hp & Ht & Hr).
    { apply Permutation_length in Hperm. simpl in Hperm. lia. }
    exists (t :: taken), rest'. split; [by rewrite <- app_assoc|].
    split; [simpl; by rewrite Hp|]. split; [by constructor|done].
  - rewrite decide_True by done.
    exists [], pool. rewrite app_nil_r. by repeat split.
Qed.

Lemma fillPlanBSection_fuel remoteKind remoteDirection fuel fuel' pool acc :
  (length pool < fuel)%nat -> (length pool < fuel')%nat ->
  fillPlanBSection fuel remoteKind remoteDirection pool acc
  = fillPlanBSection fuel' remoteKind remoteDirection pool acc.
Proof.
  revert fuel' pool acc.
  induction fuel as [|fuel IH]; intros [|fuel'] pool acc Hfuel Hfuel'; try lia.
  simpl.
  destruct (satisfyTypeAndDirection_step remoteKind remoteDirection pool)
    as [(t & rest & -> & Hdir & Hpref & Hperm)|[-> Hnone]].
  - rewrite !decide_False by done.
    apply Permutation_length in Hperm. simpl in Hperm. apply IH; lia.
  - by rewrite !decide_True.
Qed.

(** X11.  The loop that fills a Plan-B section, run as the code runs it:
    it ends, and it takes from the pool exactly the transceivers that the
    satisfy procedure can take for the remote kind and direction.  The
    section gets the transceivers it had and the ones taken; these and the
    ones left are the pool, none lost and none twice; nothing that could
    still be taken is left; and more rounds would not change the
    result. *)
Theorem fillPlanBSection_takes_all :
  forall (remoteKind : RTPCodecType) (remoteDirection : RTPTransceiverDirection)
         (pool acc : list RTPTransceiver),
    exists taken rest,
      fillPlanBSection (S (length pool)) remoteKind remoteDirection pool acc
      = (acc ++ taken, rest) /\
      taken ++ rest ≡ₚ pool /\
      Forall (preferred remoteKind remoteDirection) taken /\
      Forall (fun t => ~ preferred remoteKind remoteDirection t) rest /\
      forall more : nat,
        fillPlanBSection (S (length pool) + more) remoteKind remoteDirection pool acc
        = (acc ++ taken, rest).
Proof.
  intros remoteKind remoteDirection pool acc.
  destruct (fillPlanBSection_spec remoteKind remoteDirection (S (length pool)) pool acc)
    as (taken & rest & Hrun & Hperm & Htaken & Hrest); [lia|].
  exists taken, rest. do 4 (split; [done|]).
  intros more. rewrite <- Hrun. apply fillPlanBSection_fuel; lia.
Qed.

(** ** The layout of an answer *)

Section AnswerLayout.
Variable E : Env.
Variable pc : PeerConnection.
Variable iceParams : ICEParameters.
Variable candidates : list ICECandidate.
Variable detectedPlanB : bool.

Lemma satisfyTypeAndDirection_kind remoteKind remoteDirection pool t rest :
  satisfyTypeAndDirection remoteKind remoteDirection pool = (t, rest) ->
  kind t = remoteKind.
Proof.
  intros Hs.
  destruct (satisfyTypeAndDirection_step remoteKind remoteDirection pool)
    as [(t' & rest' & Hs' & _ & (d & _ & Hk & _) & _)|[Hs' _]];
    rewrite Hs' in Hs; by injection Hs as <- _.
Qed.

(** The transceivers selected for a section start with the one that the
    satisfy procedure returned. *)
Lemma selectMediaTransceivers_head semantics remoteKind direction t pool selected :
  selectMediaTransceivers semantics detectedPlanB remoteKind direction t pool
  = inr selected ->
  exists more, fst selected = t :: more.
Proof.
  unfold selectMediaTransceivers.
  destruct (fillPlanBSection_spec remoteKind direction (S (length pool)) pool [t])
    as (taken & rest & -> & _); [lia|].
  destruct semantics, detectedPlanB; simpl; intros [= <-]; simpl; by eexists.
Qed.

Lemma answerMedia_success media st st' :
  answerMedia E pc iceParams candidates detectedPlanB media st = inr st' ->
  getMidValue media <> "" /\
  if answered E media
  then exists m,
         answer_d st' = sdp.WithMedia m (answer_d st) /\
         answers E media m /\
         answer_bundleValue st'
         = answer_bundleValue st +:+ " " +:+ getMidValue media
  else st' = st.
Proof.
  unfold answerMedia, answered, answers.
  destruct (String.eqb (getMidValue media) "") eqn:Hmid; [discriminate|].
  apply String.eqb_neq in Hmid.
  destruct (String.eqb (sdp.Media (sdp.mediaName media)) "application") eqn:Happ.
  - intros [= <-]. split; [done|]. simpl.
    destruct (addDataMediaSection_section E (answer_d st) (getMidValue media)
                iceParams candidates ConnectionRoleActive) as (m & -> & Hm).
    by exists m.
  - simpl orb at 2.
    destruct (bool_decide _ || bool_decide _) eqn:Hskip; [by intros [= <-]|].
    simpl negb. cbv iota.
    destruct (satisfyTypeAndDirection _ _ (answer_localTransceivers st))
      as [t pool] eqn:Hsat.
    apply satisfyTypeAndDirection_kind in Hsat.
    destruct (selectMediaTransceivers _ _ _ _ t pool) as [e|selected] eqn:Hsel;
      [discriminate|].
    apply selectMediaTransceivers_head in Hsel as [more Hsel].
    simpl bindE. rewrite Hsel.
    destruct (addTransceiverSDP_section E pc (answer_d st) (getMidValue media)
                iceParams candidates ConnectionRoleActive t more) as (m & -> & Hm).
    simpl bindE. intros [= <-]. split; [done|]. simpl.
    exists m. split; [done|]. split; [|done]. by exists t.
Qed.

Lemma answerMedias_success medias st st' :
  answerMedias E pc iceParams candidates detectedPlanB medias st = inr st' ->
  Forall (fun media => getMidValue media <> "") medias /\
  sdp.Attributes (answer_d st') = sdp.Attributes (answer_d st) /\
  answer_bundleValue st'
  = fold_left (fun acc mid => acc +:+ " " +:+ mid)
      (map getMidValue (List.filter (answered E) medias)) (answer_bundleValue st) /\
  exists ms,
    sdp.MediaDescriptions (answer_d st') = sdp.MediaDescriptions (answer_d st) ++ ms /\
    Forall2 (answers E) (List.filter (answered E) medias) ms.
Proof.
  revert st. induction medias as [|media medias IH]; intros st; simpl.
  - intros [= <-]. do 3 (split; [done|]). exists []. by rewrite app_nil_r.
  - destruct (answerMedia E pc iceParams candidates detectedPlanB media st)
      as [e|st1] eqn:H1; [discriminate|].
    simpl bindE. intros Hrest.
    apply answerMedia_success in H1 as [Hmid H1].
    apply IH in Hrest as (Hmids & Ha & Hb & ms & Hms & Hall).
    split; [by constructor|].
    destruct (answered E media).
    + destruct H1 as (m & Hd & Hm & Hbv).
      rewrite Hd in Ha, Hms. simpl in Ha, Hms.
      split; [done|]. split; [simpl; by rewrite <- Hbv|].
      exists (m :: ms). split; [by rewrite Hms, <- app_assoc|by constructor].
    + subst st1. split; [done|]. split; [done|]. by exists ms.
Qed.

End AnswerLayout.

Lemma buildAnswer_layout E pc desc :
  buildAnswer E pc = inr desc ->
  exists remote parsed d,
    RemoteDescription pc = Some remote /\ desc_parsed remote = Some parsed /\
    desc_parsed desc = Some d /\
    Forall (fun media => getMidValue media <> "") (sdp.MediaDescriptions parsed) /\
    Forall2 (answers E) (List.filter (answered E) (sdp.MediaDescriptions parsed))
      (sdp.MediaDescriptions d) /\
    sdp.lookupAttribute "group" (sdp.Attributes d)
    = Some (bundleOf (map getMidValue
                        (List.filter (answered E) (sdp.MediaDescriptions parsed)))).
Proof.
  unfold buildAnswer.
  destruct (addFingerprint E pc sdp.NewJSEPSessionDescription) as [e|d0] eqn:Hfp;
    [discriminate|].
  apply addFingerprint_document in Hfp as (Hm0 & fps & Ha0 & Hfps).
  simpl in Hm0, Ha0.
  assert (Hnogroup : Forall (fun x => sdp.Key x <> "group") (sdp.Attributes d0)).
  { rewrite Ha0. eapply Forall_impl; [exact Hfps|].
    intros x Hx. simpl in Hx. rewrite Hx. discriminate. }
  simpl bindE. unfold addAnswerMediaTransceivers.
  destruct (GetLocalParameters E) as [e|iceParams]; [discriminate|].
  destruct (GetLocalCandidates E) as [e|candidates]; [discriminate|].
  simpl bindE.
  destruct (RemoteDescription pc) as [remote|]; [|discriminate].
  destruct (desc_parsed remote) as [parsed|] eqn:Hparsed; [|discriminate].
  destruct (answerMedias _ _ _ _ _ _ _) as [e|st] eqn:Hwalk; [discriminate|].
  apply answerMedias_success in Hwalk as (Hmids & Ha & Hb & ms & Hms & Hall).
  simpl in Ha, Hb, Hms. rewrite Hm0 in Hms. simpl in Hms.
  simpl bindE.
  destruct (Marshal E _) as [e|text]; [discriminate|].
  intros [= <-]. exists remote, parsed. eexists.
  split; [reflexivity|]. split; [exact Hparsed|]. split; [reflexivity|].
  split; [done|].
  split; [simpl; by rewrite Hms|].
  simpl sdp.Attributes. rewrite Ha.
  rewrite (lookupAttribute_app_last "group" _ _ Hnogroup) by reflexivity.
  simpl sdp.Value. by rewrite Hb.
Qed.

Lemma answers_mids E remotes sections :
  Forall2 (answers E) remotes sections ->
  Forall (answerable E) remotes ->
  map getMidValue sections = map getMidValue remotes.
Proof.
  induction 1 as [|remote section remotes sections Hfirst _ IH]; [done|].
  intros Hall. apply Forall_cons in Hall as [Hable Hall].
  simpl. f_equal; [|by apply IH].
  unfold answers in Hfirst. unfold answerable in Hable.
  destruct (String.eqb (sdp.Media (sdp.mediaName remote)) "application").
  - by destruct Hfirst.
  - destruct Hable as [?|Hcodecs]; [done|].
    destruct Hfirst as (t & Hkind & _ & Hmid & _). apply Hmid. by rewrite Hkind.
Qed.

(** X12.  The answer mirrors the remote description.  For every
    successful CreateAnswer, every media section of the remote description
    has a non-empty mid, and the answer has one section for each remote
    section that is answered (the data section, and every section of known
    kind that has a direction), in the remote order: a data section under
    the remote mid for the data section; otherwise the section of a
    transceiver of the remote kind, which carries the remote mid when the
    media engine has a codec for that kind and is the rejected section,
    without attributes and so without mid, when it has none.  The group
    attribute is BUNDLE followed by the mids of the answered remote
    sections in order, in either case.  Remote sections of unknown kind or
    without direction get no section and no entry in the group.  When the
    media engine has a codec for the kind of every answered section that
    is not the data section, the mids of the sections of the answer are
    the mids of the answered remote sections, in order, and the group
    lists exactly the mids of the sections of the answer. *)
Theorem CreateAnswer_mirrors_remote :
  forall (E : Env) (pc pc' : PeerConnection) (options : option AnswerOptions)
         (desc : SessionDescription),
    CreateAnswer E pc options = (pc', inr desc) ->
    exists remote parsed d,
      RemoteDescription pc = Some remote /\ desc_parsed remote = Some parsed /\
      desc_parsed desc = Some d /\
      Forall (fun media => getMidValue media <> "") (sdp.MediaDescriptions parsed) /\
      Forall2 (answers E) (List.filter (answered E) (sdp.MediaDescriptions parsed))
        (sdp.MediaDescriptions d) /\
      sdp.lookupAttribute "group" (sdp.Attributes d)
      = Some (bundleOf (map getMidValue
                          (List.filter (answered E) (sdp.MediaDescriptions parsed)))) /\
      (Forall (answerable E) (List.filter (answered E) (sdp.MediaDescriptions parsed)) ->
       map getMidValue (sdp.MediaDescriptions d)
       = map getMidValue (List.filter (answered E) (sdp.MediaDescriptions parsed)) /\
       sdp.lookupAttribute "group" (sdp.Attributes d)
       = Some (bundleOf (map getMidValue (sdp.MediaDescriptions d)))).
Proof.
  intros E pc pc' options desc. unfold CreateAnswer.
  destruct (bool_decide (options <> None)); [discriminate|].
  destruct (bool_decide (RemoteDescription pc = None)); [discriminate|].
  destruct (bool_decide (idpLoginURL pc <> None)); [discriminate|].
  destruct (isClosed pc); [discriminate|].
  destruct (buildAnswer E pc) as [e|desc0] eqn:Hbuild; [discriminate|].
  intros [= <- <-].
  destruct (buildAnswer_layout E pc desc0 Hbuild)
    as (remote & parsed & d & Hremote & Hparsed & Hd & Hmids & Hsections & Hgroup).
  exists remote, parsed, d. do 6 (split; [done|]).
  intros Hable.
  pose proof (answers_mids E _ _ Hsections Hable) as Hsame.
  split; [done|]. by rewrite Hsame.
Qed.

(** The answer of the example exchange mirrors the remote video offer:
    one section with the mid 0, and the group "BUNDLE 0". *)
Lemma CreateAnswer_mirrors_remote_witness :
  let r := CreateAnswer answererEnv answererWithRemoteOffer None in
  r = (fst r, inr answererAnswer) /\
  exists remote parsed d,
    RemoteDescription answererWithRemoteOffer = Some remote /\
    desc_parsed remote = Some parsed /\
    desc_parsed answererAnswer = Some d /\
    Forall (fun media => getMidValue media <> "") (sdp.MediaDescriptions parsed) /\
    Forall2 (answers answererEnv)
      (List.filter (answered answererEnv) (sdp.MediaDescriptions parsed))
      (sdp.MediaDescriptions d) /\
    map getMidValue (sdp.MediaDescriptions d) = ["0"] /\
    sdp.lookupAttribute "group" (sdp.Attributes d) = Some "BUNDLE 0".
Proof.
  intros r.
  assert (H0 : snd (CreateAnswer answererEnv answererWithRemoteOffer None)
               = inr answererAnswer) by (vm_compute; reflexivity).
  pose proof (pair_eta _ _ H0) as H1.
  destruct (CreateAnswer_mirrors_remote answererEnv answererWithRemoteOffer
              (fst r) None answererAnswer H1)
    as (remote & parsed & d & Hremote & Hparsed & Hd & Hmids & Hsections & _).
  split; [exact H1|]. exists remote, parsed, d.
  split; [exact Hremote|]. split; [exact Hparsed|]. split; [exact Hd|].
  split; [exact Hmids|]. split; [exact Hsections|].
  assert (Hd' : desc_parsed answererAnswer = Some (parsedOf answererAnswer))
    by (vm_compute; reflexivity).
  rewrite Hd' in Hd. injection Hd as <-.
  split; vm_compute; reflexivity.
Defined.

(** ** Data channel ids *)

(** X13.  generateDataChannelID, for a channel limit between 1 and 65535
    and either parity: the call returns; it hands out the least id of its
    parity (even for the side that creates the channel, odd otherwise)
    that is free, among the ids below the limit minus one; and it fails
    with MaxDataChannelID exactly when all of those are taken.  An id
    handed out is never in the map, and the id limit minus one is never
    handed out, free or not. *)
Theorem generateDataChannelID_least_free :
  forall (E : Env) (pc : PeerConnection) (client : bool),
    1 <= maxChannels E pc <= 65535 ->
    let first := if client then 0 else 1 in
    let candidate j := first <= j < maxChannels E pc - 1 /\ j mod 2 = first in
    (exists id,
        generateDataChannelID E pc client = Some (inr id) /\
        candidate id /\ dataChannels pc !! id = None /\
        forall j, candidate j -> j < id -> is_Some (dataChannels pc !! j))
    \/
    (generateDataChannelID E pc client
     = Some (inl (OperationError ErrMaxDataChannelID)) /\
     forall j, candidate j -> is_Some (dataChannels pc !! j)).
Proof.
  intros E pc client Hmax first candidate.
  assert (Hpar : forall j, first <= j -> (j - first) mod 2 = 0 <-> j mod 2 = first).
  { intros j Hj. subst first. destruct client.
    - by rewrite Z.sub_0_r.
    - rewrite <- (Z.mod_add (j - 1) 1 2) by lia.
      replace (j - 1 + 1 * 2) with (j + 1) by lia.
      pose proof (Z.mod_pos_bound j 2). rewrite (Z.add_mod j 1 2) by lia.
      assert (Hcases : j mod 2 = 0 \/ j mod 2 = 1) by lia.
      destruct Hcases as [Hc|Hc]; rewrite Hc; split; intros H0; try done;
        vm_compute in H0; discriminate. }
  unfold generateDataChannelID.
  replace (if negb client then 1 else 0) with first by (by destruct client).
  destruct (scanDataChannelIDs_spec (dataChannels pc) idRounds (maxChannels E pc) first)
    as [(r & Hr & Hrange & Hrpar & Hfree & Hbelow)|[Hr Hall]].
  - done.
  - subst first. destruct client; lia.
  - unfold idRounds. rewrite Z2Nat.id by lia. subst first. destruct client; lia.
  - left. exists r. split; [done|]. split.
    { split; [done|]. apply Hpar; [lia|done]. }
    split; [done|].
    intros j [Hj Hjpar] Hlt. apply Hbelow; [lia|]. apply Hpar; [lia|done].
  - right. split; [done|].
    intros j [Hj Hjpar]. apply Hall; [done|]. apply Hpar; [lia|done].
Qed.

(** The offering side of the example exchange, which has no channel yet
    and the fixed limit. *)
Lemma generateDataChannelID_least_free_witness :
  1 <= maxChannels scenarioEnv offerer <= 65535 /\
  let candidate j := 0 <= j < maxChannels scenarioEnv offerer - 1 /\ j mod 2 = 0 in
  ((exists id,
       generateDataChannelID scenarioEnv offerer true = Some (inr id) /\
       candidate id /\ dataChannels offerer !! id = None /\
       forall j, candidate j -> j < id -> is_Some (dataChannels offerer !! j))
   \/
   (generateDataChannelID scenarioEnv offerer true
    = Some (inl (OperationError ErrMaxDataChannelID)) /\
    forall j, candidate j -> is_Some (dataChannels offerer !! j))).
Proof.
  assert (Hm : maxChannels scenarioEnv offerer = 65535) by (vm_compute; reflexivity).
  assert (H : 1 <= maxChannels scenarioEnv offerer <= 65535) by (rewrite Hm; lia).
  exact (conj H (generateDataChannelID_least_free scenarioEnv offerer true H)).
Defined.

Section DataChannels.

Variable E : Env.

(** What a returning CreateDataChannel call has done. *)
Lemma CreateDataChannel_inv pc label options pc' r :
  CreateDataChannel E pc label options = Some (pc', r) ->
  (pc' = pc /\ exists e, r = inl e) \/
  (isClosed pc = false /\
   exists id d,
     match requestedID options with
     | None => generateDataChannelID E pc true = Some (inr id)
     | Some requested => id = requested
     end /\
     newDataChannel E (dataChannelParameters label id options) = inr d /\
     dataChannels pc' = <[id := d]> (dataChannels pc) /\
     dataChannelsRequested pc' = wrap32 (dataChannelsRequested pc + 1) /\
     sctpTransport pc' = sctpTransport pc /\
     isClosed pc' = false /\
     match sctpTransport pc with
     | Some t =>
         if association t
         then calls pc' = calls pc ++ [CallDataChannelOpen id] /\
              r = match dataChannelOpen E d with Some e => inl e | None => inr d end
         else calls pc' = calls pc /\ r = inr d
     | None => calls pc' = calls pc /\ r = inr d
     end).
Proof.
  unfold CreateDataChannel.
  destruct (isClosed pc) eqn:Hclosed; [intros [= <- <-]; left; eauto|].
  set (chosen := match requestedID options with
                 | None => generateDataChannelID E pc true
                 | Some id => Some (inr id)
                 end).
  destruct chosen as [[e|id]|] eqn:Hchosen; [intros [= <- <-]; left; eauto| |done].
  assert (Hid : match requestedID options with
                | None => generateDataChannelID E pc true = Some (inr id)
                | Some requested => id = requested
                end).
  { subst chosen. destruct (requestedID options); [by injection Hchosen as ->|done]. }
  assert (Hpid : param_ID (dataChannelParameters label id options) = id)
    by (by destruct options).
  destruct (newDataChannel E _) as [e|d] eqn:Hnew; [intros [= <- <-]; left; eauto|].
  destruct (bool_decide _ && bool_decide _); [intros [= <- <-]; left; eauto|].
  rewrite Hpid.
  destruct pc as [].
  simpl in *.
  match goal with
  | |- context [match ?s with Some t => association t | None => false end] =>
      destruct s as [t|] eqn:Hs
  end.
  - destruct (association t) eqn:Hassoc.
    + destruct (dataChannelOpen E d) eqn:Hopen; intros [= <- <-]; right;
        (split; [done|]); exists id, d; simpl; rewrite ?Hassoc, ?Hopen; by repeat split.
    + intros [= <- <-]. right. split; [done|]. exists id, d. simpl.
      rewrite ?Hassoc. by repeat split.
  - intros [= <- <-]. right. split; [done|]. exists id, d. simpl. by repeat split.
Qed.

End DataChannels.

(** X14.  A generated id never displaces a channel.  When
    CreateDataChannel is called without an id and returns a channel (the
    limit being between 1 and 65535), the channel is registered under an id
    that was free: the id is even, below the limit minus one, every smaller
    even id was taken, and the map afterwards is the map before plus this
    one entry, so every channel registered before is still registered
    under its id. *)
Theorem CreateDataChannel_generated_id_is_fresh :
  forall (E : Env) (pc pc' : PeerConnection) (label : string)
         (options : option DataChannelInit) (d : DataChannel),
    1 <= maxChannels E pc <= 65535 ->
    requestedID options = None ->
    CreateDataChannel E pc label options = Some (pc', inr d) ->
    exists id,
      (0 <= id < maxChannels E pc - 1 /\ id mod 2 = 0) /\
      (forall j, 0 <= j < id -> j mod 2 = 0 -> is_Some (dataChannels pc !! j)) /\
      dataChannels pc !! id = None /\
      dataChannels pc' = <[id := d]> (dataChannels pc) /\
      dataChannels pc ⊆ dataChannels pc' /\
      forall j c, dataChannels pc !! j = Some c -> dataChannels pc' !! j = Some c.
Proof.
  intros E pc pc' label options d Hmax Hnone Hcall.
  apply CreateDataChannel_inv in Hcall
    as [[_ [e He]]|(_ & id & d' & Hid & _ & Hmap & _ & _ & _ & Hr)]; [discriminate|].
  rewrite Hnone in Hid.
  assert (d' = d) as ->.
  { destruct (sctpTransport pc) as [t|]; [destruct (association t)|].
    - destruct Hr as [_ Hr]. destruct (dataChannelOpen E d'); [discriminate|].
      by injection Hr.
    - destruct Hr as [_ Hr]. by injection Hr.
    - destruct Hr as [_ Hr]. by injection Hr. }
  destruct (generateDataChannelID_client E pc Hmax)
    as [(id' & Hgen & Hrange & Hpar & Hfree & Hbelow)|[Hgen _]];
    rewrite Hgen in Hid; [|discriminate].
  injection Hid as <-.
  exists id'. split; [done|]. split; [done|]. split; [done|]. split; [done|].
  assert (Hsub : dataChannels pc ⊆ dataChannels pc').
  { rewrite Hmap. by apply insert_subseteq. }
  split; [done|].
  intros j c Hj. by eapply lookup_weaken.
Qed.

(** The first channel of the offering side of the example exchange. *)
Lemma CreateDataChannel_generated_id_is_fresh_witness :
  let r := CreateDataChannel scenarioEnv offerer "chat" None in
  let d := exampleDataChannel (dataChannelParameters "chat" 0 None) in
  (1 <= maxChannels scenarioEnv offerer <= 65535 /\
   option_map snd r = Some (inr d)) /\
  exists pc' id,
    r = Some (pc', inr d) /\
    (0 <= id < maxChannels scenarioEnv offerer - 1 /\ id mod 2 = 0) /\
    dataChannels offerer !! id = None /\
    dataChannels pc' = <[id := d]> (dataChannels offerer).
Proof.
  intros r d.
  assert (Hm : maxChannels scenarioEnv offerer = 65535) by (vm_compute; reflexivity).
  assert (H : 1 <= maxChannels scenarioEnv offerer <= 65535) by (rewrite Hm; lia).
  assert (H0 : option_map snd r = Some (inr d)) by (vm_compute; reflexivity).
  destruct r as [[pc' res]|] eqn:Hr; [|discriminate].
  injection H0 as ->.
  destruct (CreateDataChannel_generated_id_is_fresh scenarioEnv offerer pc' "chat" None d
              H eq_refl Hr) as (id & Hrange & _ & Hfree & Hmap & _).
  split; [exact (conj H eq_refl)|].
  exists pc', id. exact (conj eq_refl (conj Hrange (conj Hfree Hmap))).
Defined.

(** Every way in which CreateDataChannel returns an error. *)
Lemma CreateDataChannel_failures E pc label options pc' e :
  CreateDataChannel E pc label options = Some (pc', inl e) ->
  (pc' = pc /\
   ((isClosed pc = true /\ e = InvalidStateError ErrConnectionClosed) \/
    (isClosed pc = false /\ chosenDataChannelID E pc options = Some (inl e)) \/
    (exists id,
        isClosed pc = false /\ chosenDataChannelID E pc options = Some (inr id) /\
        (newDataChannel E (dataChannelParameters label id options) = inl e \/
         exists d,
           newDataChannel E (dataChannelParameters label id options) = inr d /\
           bothLimits d /\ e = TypeError ErrRetransmitsOrPacketLifeTime))))
  \/
  (exists t id d,
      isClosed pc = false /\ chosenDataChannelID E pc options = Some (inr id) /\
      newDataChannel E (dataChannelParameters label id options) = inr d /\
      ~ bothLimits d /\
      sctpTransport pc = Some t /\ association t = true /\
      dataChannelOpen E d = Some e /\
      pc' = registeredAndOpened pc id d).
Proof.
  unfold CreateDataChannel, chosenDataChannelID, registeredAndOpened, bothLimits.
  destruct (isClosed pc) eqn:Hclosed.
  { intros [= <- <-]. left. split; [done|]. by left. }
  destruct (match requestedID options with
            | None => generateDataChannelID E pc true
            | Some id => Some (inr id)
            end) as [[e0|id]|] eqn:Hchosen; [| |discriminate].
  { intros [= <- <-]. left. split; [done|]. right. by left. }
  assert (Hpid : param_ID (dataChannelParameters label id options) = id)
    by (by destruct options).
  destruct (newDataChannel E _) as [e0|d] eqn:Hnew.
  { intros [= <- <-]. left. split; [done|]. right. right. exists id.
    split; [done|]. split; [done|]. by left. }
  destruct (bool_decide (dc_maxPacketLifeTime d <> None)) eqn:H1;
    [destruct (bool_decide (dc_maxRetransmits d <> None)) eqn:H2|]; cbn [andb].
  { intros [= <- <-]. left. split; [done|]. right. right. exists id.
    split; [done|]. split; [done|]. right. exists d. split; [done|].
    apply bool_decide_eq_true in H1, H2. by repeat split. }
  all: assert (Hnot : ~ (dc_maxPacketLifeTime d <> None /\ dc_maxRetransmits d <> None))
         by (intros [? ?];
             first [ by apply bool_decide_eq_false in H2
                   | by apply bool_decide_eq_false in H1 ]).
  all: rewrite Hpid.
  all: change (sctpTransport (set_dataChannels _ pc)) with (sctpTransport pc).
  all: destruct (sctpTransport pc) as [t|] eqn:Hs; [|discriminate].
  all: destruct (association t) eqn:Hassoc; [|discriminate].
  all: destruct (dataChannelOpen E d) as [e0|] eqn:Hopen; [|discriminate].
  all: intros [= <- <-]; right; exists t, id, d; by repeat split.
Qed.

Lemma registeredAndOpened_changes pc id d : registeredAndOpened pc id d <> pc.
Proof.
  intros Heq. apply (f_equal calls) in Heq. apply (f_equal length) in Heq.
  unfold registeredAndOpened in Heq. simpl in Heq.
  rewrite length_app in Heq. simpl in Heq. lia.
Qed.

(** X15.  Which failures of CreateDataChannel leave a trace.  A call that
    returns an error before the channel is registered (the connection is
    closed, no id can be allocated, the channel cannot be made, or both
    reliability limits are set) leaves the connection exactly as it was.
    The one error that comes after the registration is that of opening
    the channel on an established SCTP association: whenever that open
    call fails, the call returns its error, and the channel stays
    registered under its id, the request counter has advanced and the
    open call has been made, although the caller got no channel; the
    connection is then not the one it was. *)
Theorem CreateDataChannel_failure_trace :
  forall (E : Env) (pc : PeerConnection) (label : string)
         (options : option DataChannelInit),
    (forall pc' e,
        CreateDataChannel E pc label options = Some (pc', inl e) ->
        (pc' = pc /\
         ((isClosed pc = true /\ e = InvalidStateError ErrConnectionClosed) \/
          (isClosed pc = false /\ chosenDataChannelID E pc options = Some (inl e)) \/
          (exists id,
              isClosed pc = false /\
              chosenDataChannelID E pc options = Some (inr id) /\
              (newDataChannel E (dataChannelParameters label id options) = inl e \/
               exists d,
                 newDataChannel E (dataChannelParameters label id options) = inr d /\
                 bothLimits d /\ e = TypeError ErrRetransmitsOrPacketLifeTime))))
        \/
        (pc' <> pc /\
         exists t id d,
           chosenDataChannelID E pc options = Some (inr id) /\
           newDataChannel E (dataChannelParameters label id options) = inr d /\
           sctpTransport pc = Some t /\ association t = true /\
           dataChannelOpen E d = Some e /\
           pc' = registeredAndOpened pc id d /\
           dataChannels pc' !! id = Some d /\
           dataChannelsRequested pc' = wrap32 (dataChannelsRequested pc + 1) /\
           calls pc' = calls pc ++ [CallDataChannelOpen id])) /\
    (forall t id d e,
        isClosed pc = false ->
        chosenDataChannelID E pc options = Some (inr id) ->
        newDataChannel E (dataChannelParameters label id options) = inr d ->
        ~ bothLimits d ->
        sctpTransport pc = Some t -> association t = true ->
        dataChannelOpen E d = Some e ->
        CreateDataChannel E pc label options
        = Some (registeredAndOpened pc id d, inl e) /\
        registeredAndOpened pc id d <> pc).
Proof.
  intros E pc label options. split.
  - intros pc' e Hcall.
    destruct (CreateDataChannel_failures E pc label options pc' e Hcall)
      as [Hearly|(t & id & d & _ & Hid & Hnew & _ & Hs & Hassoc & Hopen & ->)];
      [by left|].
    right. split; [apply registeredAndOpened_changes|].
    exists t, id, d. do 6 (split; [done|]).
    split; [apply lookup_insert_eq|]. by split.
  - intros t id d e Hopen Hid Hnew Hlimits Hs Hassoc Hfail.
    split; [|apply registeredAndOpened_changes].
    assert (Hpid : param_ID (dataChannelParameters label id options) = id)
      by (by destruct options).
    unfold CreateDataChannel. rewrite Hopen.
    unfold chosenDataChannelID in Hid. rewrite Hid, Hnew, Hpid.
    assert (Hboth : bool_decide (dc_maxPacketLifeTime d <> None)
                    && bool_decide (dc_maxRetransmits d <> None) = false).
    { apply andb_false_iff.
      destruct (decide (dc_maxPacketLifeTime d <> None)) as [H1|H1];
        [|left; by apply bool_decide_eq_false].
      right. apply bool_decide_eq_false. intros H2. by apply Hlimits. }
    rewrite Hboth.
    change (sctpTransport (set_dataChannels _ pc)) with (sctpTransport pc).
    by rewrite Hs, Hassoc, Hfail.
Qed.

(** A connected offering side whose channel fails to open: the error
    comes back and the channel is registered under the id 0. *)
Lemma CreateDataChannel_failure_trace_witness :
  let e := PlainError (Errorf "open failed") in
  let d := exampleDataChannel (dataChannelParameters "chat" 0 None) in
  let t := {| MaxChannels := 65535; association := true |} in
  (isClosed connectedOfferer = false /\
   chosenDataChannelID failingOpenEnv connectedOfferer None = Some (inr 0) /\
   newDataChannel failingOpenEnv (dataChannelParameters "chat" 0 None) = inr d /\
   ~ bothLimits d /\
   sctpTransport connectedOfferer = Some t /\ association t = true /\
   dataChannelOpen failingOpenEnv d = Some e) /\
  CreateDataChannel failingOpenEnv connectedOfferer "chat" None
  = Some (registeredAndOpened connectedOfferer 0 d, inl e) /\
  registeredAndOpened connectedOfferer 0 d <> connectedOfferer /\
  dataChannels (registeredAndOpened connectedOfferer 0 d) !! 0 = Some d.
Proof.
  intros e d t.
  assert (H1 : isClosed connectedOfferer = false) by reflexivity.
  assert (H2 : chosenDataChannelID failingOpenEnv connectedOfferer None = Some (inr 0))
    by (vm_compute; reflexivity).
  assert (H3 : newDataChannel failingOpenEnv (dataChannelParameters "chat" 0 None)
               = inr d) by reflexivity.
  assert (H4 : ~ bothLimits d) by (intros [H _]; by apply H).
  assert (H5 : sctpTransport connectedOfferer = Some t) by reflexivity.
  assert (H6 : association t = true) by reflexivity.
  assert (H7 : dataChannelOpen failingOpenEnv d = Some e) by reflexivity.
  destruct (CreateDataChannel_failure_trace failingOpenEnv connectedOfferer "chat" None)
    as [_ Hforward].
  destruct (Hforward t 0 d e H1 H2 H3 H4 H5 H6 H7) as [Hcall Hchanged].
  split; [exact (conj H1 (conj H2 (conj H3 (conj H4 (conj H5 (conj H6 H7))))))|].
  split; [exact Hcall|]. split; [exact Hchanged|]. apply lookup_insert_eq.
Defined.

Lemma createChannels_spec E label n pc pc' :
  1 <= maxChannels E pc <= 65535 ->
  dataChannels pc = ∅ ->
  createChannels E label n pc = Some pc' ->
  sctpTransport pc' = sctpTransport pc /\
  2 * Z.of_nat n <= maxChannels E pc /\
  forall k, is_Some (dataChannels pc' !! k) <-> nthChannelIDs n k.
Proof.
  intros Hmax Hempty. revert pc'. induction n as [|n IH]; intros pc'.
  - simpl. intros [= <-]. split; [done|]. split; [lia|].
    intros k. rewrite Hempty, lookup_empty. unfold nthChannelIDs. split.
    + by intros [? ?].
    + lia.
  - simpl.
    destruct (createChannels E label n pc) as [pc1|]; [|discriminate].
    destruct (IH pc1 eq_refl) as (Hsctp & Hbound & Hkeys).
    assert (Hmax1 : maxChannels E pc1 = maxChannels E pc)
      by (unfold maxChannels; by rewrite Hsctp).
    destruct (CreateDataChannel E pc1 label None) as [[pc2 [e|d]]|] eqn:Hcall;
      try discriminate.
    intros [= <-].
    apply CreateDataChannel_inv in Hcall
      as [[_ [e He]]|(_ & id & d' & Hid & _ & Hmap & _ & Hsctp2 & _)]; [discriminate|].
    simpl in Hid.
    destruct (generateDataChannelID_client E pc1)
      as [(id' & Hgen & Hrange & Hpar & Hfree & Hbelow)|[Hgen _]];
      [by rewrite Hmax1|rewrite Hgen in Hid|rewrite Hgen in Hid; discriminate].
    injection Hid as <-.
    assert (Hid : id' = 2 * Z.of_nat n).
    { destruct (Z.lt_trichotomy id' (2 * Z.of_nat n)) as [Hlt|[Heq|Hgt]]; [|done|].
      - assert (Htaken : is_Some (dataChannels pc1 !! id'))
          by (apply Hkeys; split; [lia|done]).
        rewrite Hfree in Htaken. by destruct Htaken.
      - assert (Htaken : is_Some (dataChannels pc1 !! (2 * Z.of_nat n))).
        { apply Hbelow; [lia|]. by rewrite Z.mul_comm, Z.mod_mul. }
        apply Hkeys in Htaken as [? _]. lia. }
    subst id'. split; [by rewrite Hsctp2|]. split; [rewrite Hmax1 in Hrange; lia|].
    intros k. rewrite Hmap. unfold nthChannelIDs.
    destruct (decide (k = 2 * Z.of_nat n)) as [->|Hne].
    + rewrite lookup_insert_eq. split; [|by eexists].
      intros _. split; [lia|]. by rewrite Z.mul_comm, Z.mod_mul.
    + rewrite lookup_insert_ne by done. rewrite Hkeys. unfold nthChannelIDs.
      split; intros [Hk Hkpar]; (split; [|done]); [lia|].
      assert (k <> 2 * Z.of_nat n + 1).
      { intros ->. rewrite Z.add_comm, Z.mul_comm, Z.mod_add in Hkpar by lia.
        discriminate. }
      lia.
Qed.

(** X16.  The ids of successive channels.  On a connection that has no
    channel yet (the limit being between 1 and 65535), after n successive
    CreateDataChannel calls without an id have all returned a channel, the
    registered ids are exactly the even numbers 0, 2, ..., 2(n-1): all even
    and pairwise distinct, with no gap.  Twice the number of channels is at
    most the limit, so with the fixed limit 65535 no more than 32767
    channels can be created this way. *)
Theorem createChannels_ids :
  forall (E : Env) (pc pc' : PeerConnection) (label : string) (n : nat),
    1 <= maxChannels E pc <= 65535 ->
    dataChannels pc = ∅ ->
    createChannels E label n pc = Some pc' ->
    (forall k, is_Some (dataChannels pc' !! k) <-> nthChannelIDs n k) /\
    size (dataChannels pc') = n /\
    2 * Z.of_nat n <= maxChannels E pc.
Proof.
  intros E pc pc' label n Hmax Hempty Hrun.
  destruct (createChannels_spec E label n pc pc' Hmax Hempty Hrun)
    as (_ & Hbound & Hkeys).
  split; [done|]. split; [|done].
  assert (Hdom : dom (dataChannels pc')
                 ≡ list_to_set (map (fun i => 2 * Z.of_nat i) (seq 0 n))).
  { intros k. rewrite elem_of_dom, Hkeys, elem_of_list_to_set, list_elem_of_fmap.
    unfold nthChannelIDs. split.
    - intros [Hk Hpar]. exists (Z.to_nat (k / 2)). split.
      + rewrite Z2Nat.id by (apply Z.div_pos; lia).
        pose proof (Z.div_mod k 2). lia.
      + apply elem_of_seq. pose proof (Z.div_mod k 2).
        assert (0 <= k / 2) by (apply Z.div_pos; lia). lia.
    - intros (i & -> & Hi). apply elem_of_seq in Hi.
      split; [lia|]. by rewrite Z.mul_comm, Z.mod_mul. }
  rewrite <- size_dom. apply leibniz_equiv in Hdom. rewrite Hdom.
  rewrite size_list_to_set.
  - by rewrite length_map, length_seq.
  - apply NoDup_fmap_2; [|apply NoDup_seq].
    intros i j Hij. lia.
Qed.

(** Three channels on the offering side of the example exchange. *)
Lemma createChannels_ids_witness :
  let r := createChannels scenarioEnv "chat" 3 offerer in
  (1 <= maxChannels scenarioEnv offerer <= 65535 /\ dataChannels offerer = ∅) /\
  exists pc',
    r = Some pc' /\
    (forall k, is_Some (dataChannels pc' !! k) <-> nthChannelIDs 3 k) /\
    size (dataChannels pc') = 3%nat.
Proof.
  intros r.
  assert (Hm : maxChannels scenarioEnv offerer = 65535) by (vm_compute; reflexivity).
  assert (H : 1 <= maxChannels scenarioEnv offerer <= 65535) by (rewrite Hm; lia).
  assert (H0 : dataChannels offerer = ∅) by reflexivity.
  assert (H1 : is_Some r) by (vm_compute; eexists; reflexivity).
  destruct r as [pc'|] eqn:Hr; [|by destruct H1].
  destruct (createChannels_ids scenarioEnv offerer pc' "chat" 3 H H0 Hr)
    as (Hkeys & Hsize & _).
  split; [exact (conj H H0)|].
  exists pc'. exact (conj eq_refl (conj Hkeys Hsize)).
Defined.

(** ** Close *)

Lemma stopTransceivers_spec E transceivers i :
  stopTransceivers E transceivers i
  = (map (fun t => fst (transceiverStop E t)) transceivers,
     map CallTransceiverStop (seq i (length transceivers)),
     omap (fun t => snd (transceiverStop E t)) transceivers).
Proof.
  revert i. induction transceivers as [|t rest IH]; intros i; [done|].
  simpl. rewrite IH. by destruct (transceiverStop E t) as [t' [e|]].
Qed.

Lemma Close_open E pc :
  isClosed pc = false ->
  let pc' := fst (Close E pc) in
  calls pc' = calls pc ++ shutdownCalls pc /\
  snd (Close E pc) = FlattenErrs E (shutdownErrors E pc) /\
  rtpTransceivers pc' = map (fun t => fst (transceiverStop E t)) (rtpTransceivers pc) /\
  (isClosed pc' = true /\ signalingState pc' = SignalingStateClosed /\
   connectionState pc' = PeerConnectionStateClosed) /\
  (currentLocalDescription pc' = currentLocalDescription pc /\
   pendingLocalDescription pc' = pendingLocalDescription pc /\
   currentRemoteDescription pc' = currentRemoteDescription pc /\
   pendingRemoteDescription pc' = pendingRemoteDescription pc /\
   dataChannels pc' = dataChannels pc /\
   configuration pc' = configuration pc).
Proof.
  intros Hopen. unfold Close, shutdownCalls, shutdownErrors. rewrite Hopen. simpl.
  destruct (iceTransport pc); simpl;
    destruct (sctpTransport pc); simpl;
    rewrite stopTransceivers_spec; simpl; rewrite <- ?app_assoc; by repeat split.
Qed.

(** X17.  Close on an open connection tries every shutdown step.  The
    stop calls are made in the order ICE transport (when there is one),
    DTLS transport, SCTP transport (when there is one), then every
    transceiver in registry order, each once, whatever the earlier steps
    returned; the result is the flattening of the errors of these steps in
    that order.  The connection is closed, with signaling and connection
    state closed, but the signaling-state handler is not called; the four
    descriptions, the data channels and the configuration are as before. *)
Theorem Close_tries_every_step :
  forall (E : Env) (pc : PeerConnection),
    isClosed pc = false ->
    let pc' := fst (Close E pc) in
    calls pc' = calls pc ++ shutdownCalls pc /\
    (forall s, CallSignalingStateHandler s ∉ shutdownCalls pc) /\
    snd (Close E pc) = FlattenErrs E (shutdownErrors E pc) /\
    length (rtpTransceivers pc') = length (rtpTransceivers pc) /\
    (isClosed pc' = true /\ signalingState pc' = SignalingStateClosed /\
     connectionState pc' = PeerConnectionStateClosed) /\
    (currentLocalDescription pc' = currentLocalDescription pc /\
     pendingLocalDescription pc' = pendingLocalDescription pc /\
     currentRemoteDescription pc' = currentRemoteDescription pc /\
     pendingRemoteDescription pc' = pendingRemoteDescription pc /\
     dataChannels pc' = dataChannels pc /\
     configuration pc' = configuration pc).
Proof.
  intros E pc Hopen pc'.
  destruct (Close_open E pc Hopen) as (Hcalls & Herr & Hts & Hstate & Hkept).
  split; [done|]. split.
  { intros s. unfold shutdownCalls. rewrite !elem_of_app.
    intros [Hin|[Hin|[Hin|Hin]]].
    - destruct (iceTransport pc); [apply list_elem_of_singleton in Hin|
                                   apply elem_of_nil in Hin]; done.
    - by apply list_elem_of_singleton in Hin.
    - destruct (sctpTransport pc); [apply list_elem_of_singleton in Hin|
                                    apply elem_of_nil in Hin]; done.
    - apply list_elem_of_fmap in Hin as (i & Hi & _). done. }
  split; [done|]. split; [|done].
  subst pc'. by rewrite Hts, length_map.
Qed.

(** A connection with every transport and two transceivers, closed in an
    environment whose ICE transport fails to stop: the other four stops
    are made all the same. *)
Lemma Close_tries_every_step_witness :
  let E := with_iceTransportStop (Some (PlainError (Errorf "ice stop failed")))
             scenarioEnv in
  let pc' := fst (Close E busyConnection) in
  isClosed busyConnection = false /\
  calls pc' = [CallICETransportStop; CallDTLSTransportStop; CallSCTPTransportStop;
               CallTransceiverStop 0; CallTransceiverStop 1] /\
  snd (Close E busyConnection) = Some (PlainError (Errorf "ice stop failed")) /\
  isClosed pc' = true.
Proof.
  intros E pc'.
  assert (H : isClosed busyConnection = false) by reflexivity.
  destruct (Close_tries_every_step E busyConnection H)
    as (Hcalls & _ & Herr & _ & (Hclosed & _) & _).
  split; [exact H|]. split; [|split; [|exact Hclosed]].
  - unfold pc'. rewrite Hcalls. vm_compute. reflexivity.
  - rewrite Herr. vm_compute. reflexivity.
Defined.

(** ** SetConfiguration *)

Section Configure.

Variable E : Env.

Lemma configuration_eta (c : Configuration) :
  {| ICEServers := ICEServers c; ICETransportPolicy := ICETransportPolicy c;
     BundlePolicy := BundlePolicy c; RTCPMuxPolicy := RTCPMuxPolicy c;
     PeerIdentity := PeerIdentity c; Certificates := Certificates c;
     ICECandidatePoolSize := ICECandidatePoolSize c;
     SDPSemantics_ := SDPSemantics_ c |} = c.
Proof. by destruct c. Qed.

(** Steps #3 to #6 pass exactly for a request that repeats the fields
    that cannot be modified; they write nothing but certificates that
    equal ours. *)
Lemma checkImmutable_spec ours requested :
  (repeatsImmutable E ours requested /\
   checkImmutable E ours requested
   = (if decide (0 < length (Certificates requested))%nat
      then set_Certificates (Certificates requested) ours else ours, None))
  \/
  (~ repeatsImmutable E ours requested /\
   exists c e,
     checkImmutable E ours requested = (c, Some e) /\
     (c = ours \/ c = set_Certificates (Certificates requested) ours /\
                  length (Certificates requested) = length (Certificates ours) /\
                  certificatesEqual E (Certificates ours) (Certificates requested)
                  = true)).
Proof.
  unfold checkImmutable, repeatsImmutable.
  (* step #3 *)
  match goal with |- context [andThen ?s _] => set (s1 := s) end.
  assert (H1 : s1 = (ours, None) /\
               (PeerIdentity requested = "" \/
                PeerIdentity requested = PeerIdentity ours) \/
               (exists e, s1 = (ours, Some e)) /\
               ~ (PeerIdentity requested = "" \/
                  PeerIdentity requested = PeerIdentity ours)).
  { subst s1.
    destruct (String.eqb_spec (PeerIdentity requested) "") as [Hid|Hid];
      simpl negb; cbv iota; [left; split; [done|by left]|].
    destruct (String.eqb_spec (PeerIdentity requested) (PeerIdentity ours))
      as [Hid2|Hid2]; simpl negb; cbv iota.
    - left. split; [|by right].
      rewrite Hid2. unfold set_PeerIdentity. by rewrite configuration_eta.
    - right. split; [by eexists|]. by intros [?|?]. }
  destruct H1 as [[-> HP1]|[[e ->] HN1]];
    [|right; split; [by intros (? & _)|]; exists ours, e; split; [done|by left]].
  cbn [andThen].
  (* step #4 *)
  match goal with |- context [andThen ?s _] => set (s2 := s) end.
  set (c2 := if decide (0 < length (Certificates requested))%nat
             then set_Certificates (Certificates requested) ours else ours).
  assert (Hc2 : c2 = ours \/
                c2 = set_Certificates (Certificates requested) ours /\
                length (Certificates requested) = length (Certificates ours) /\
                certificatesEqual E (Certificates ours) (Certificates requested)
                = true ->
                BundlePolicy c2 = BundlePolicy ours /\
                RTCPMuxPolicy c2 = RTCPMuxPolicy ours).
  { intros [->|[-> _]]; done. }
  assert (H2 : s2 = (c2, None) /\
               (Certificates requested = [] \/
                length (Certificates requested) = length (Certificates ours) /\
                certificatesEqual E (Certificates ours) (Certificates requested)
                = true) \/
               (exists e, s2 = (ours, Some e)) /\
               ~ (Certificates requested = [] \/
                  length (Certificates requested) = length (Certificates ours) /\
                  certificatesEqual E (Certificates ours) (Certificates requested)
                  = true)).
  { subst s2 c2.
    destruct (decide (0 < length (Certificates requested))%nat) as [Hc|Hc].
    - assert (Hne : Certificates requested <> [])
        by (intros Hnil; rewrite Hnil in Hc; simpl in Hc; lia).
      destruct (decide (length (Certificates requested)
                        <> length (Certificates ours))) as [Hl|Hl].
      { right. split; [by eexists|]. intros [?|[? _]]; done. }
      apply dec_stable in Hl.
      destruct (certificatesEqual E (Certificates ours) (Certificates requested))
        eqn:Heq; simpl negb; cbv iota.
      + left. split; [done|]. by right.
      + right. split; [by eexists|]. intros [?|[_ ?]]; done.
    - left. split; [done|]. left.
      destruct (Certificates requested); [done|simpl in Hc; lia]. }
  destruct H2 as [[-> HP2]|[[e ->] HN2]];
    [|right; split; [by intros (_ & ? & _)|]; exists ours, e; split; [done|by left]].
  cbn [andThen].
  assert (Hwritten : c2 = ours \/
                     c2 = set_Certificates (Certificates requested) ours /\
                     length (Certificates requested) = length (Certificates ours) /\
                     certificatesEqual E (Certificates ours) (Certificates requested)
                     = true).
  { subst c2. destruct (decide (0 < length (Certificates requested))%nat) as [Hc|Hc];
      [|by left].
    destruct HP2 as [Hnil|HP2]; [rewrite Hnil in Hc; simpl in Hc; lia|by right]. }
  destruct (Hc2 Hwritten) as [Hbundle Hmux].
  (* step #5 *)
  rewrite Hbundle.
  destruct (decide (BundlePolicy requested <> Unknown)) as [Hb|Hb];
    [destruct (decide (BundlePolicy requested <> BundlePolicy ours)) as [Hb2|Hb2]|].
  { right. split; [by intros (_ & _ & [?|?] & _)|]. cbn [andThen]. eauto. }
  all: cbn [andThen]; rewrite Hmux.
  all: apply dec_stable in Hb || apply dec_stable in Hb2.
  (* step #6 *)
  all: destruct (decide (RTCPMuxPolicy requested <> Unknown)) as [Hm|Hm];
    [destruct (decide (RTCPMuxPolicy requested <> RTCPMuxPolicy ours)) as [Hm2|Hm2]|].
  all: try (right; split; [by intros (_ & _ & _ & [?|?])|]; eauto).
  all: left; split; [|done].
  all: apply dec_stable in Hm || apply dec_stable in Hm2.
  all: split; [done|]; split; [done|]; split; [by (left + right)|by (left + right)].
Qed.

(** Asking for the local description touches the pending description
    only, and does not look at the configuration. *)
Lemma LocalDescription_configuration pc c :
  configuration (fst (LocalDescription E pc)) = configuration pc /\
  isClosed (fst (LocalDescription E pc)) = isClosed pc /\
  snd (LocalDescription E (set_configuration c pc)) = snd (LocalDescription E pc) /\
  fst (LocalDescription E (set_configuration c pc))
  = set_configuration c (fst (LocalDescription E pc)).
Proof.
  unfold LocalDescription, PendingLocalDescription. simpl.
  destruct (pendingLocalDescription pc) as [orig|]; [|done].
  destruct (GetLocalCandidates E) as [e|candidates]; [done|].
  destruct (desc_parsed orig) as [parsed|]; [|done].
  by destruct (Marshal E _).
Qed.

Lemma checkPoolSize_spec pc requested :
  let r := checkPoolSize E pc requested in
  (poolSizeFree E pc requested /\ snd r = None /\
   configuration (fst r)
   = (if decide (ICECandidatePoolSize requested <> 0)
      then set_ICECandidatePoolSize (ICECandidatePoolSize requested) (configuration pc)
      else configuration pc))
  \/
  (~ poolSizeFree E pc requested /\ (exists e, snd r = Some e) /\
   configuration (fst r) = configuration pc).
Proof.
  unfold checkPoolSize, poolSizeFree.
  destruct (LocalDescription_configuration pc (configuration pc)) as (Hconf & _).
  destruct (decide (ICECandidatePoolSize requested <> 0)) as [Hsize|Hsize];
    [|apply dec_stable in Hsize; left; by eauto].
  destruct (decide (ICECandidatePoolSize (configuration pc)
                    <> ICECandidatePoolSize requested)) as [Hne|Heq];
    [|apply dec_stable in Heq; left; by eauto].
  destruct (LocalDescription E pc) as [pc1 [e|[d|]]] eqn:Hlocal; simpl in *.
  - right. split; [|by eauto]. intros [?|[?|?]]; done.
  - right. split; [|by eauto]. intros [?|[?|?]]; done.
  - left. rewrite Hconf. by eauto.
Qed.

Lemma applyMutable_spec ours requested :
  let c1 := if decide (ICETransportPolicy requested <> Unknown)
            then set_ICETransportPolicy (ICETransportPolicy requested) ours
            else ours in
  (firstInvalidServer E (ICEServers requested) = None /\
   applyMutable E ours requested
   = (if decide (0 < length (ICEServers requested))%nat
      then set_ICEServers (ICEServers requested) c1 else c1, None))
  \/
  (exists e, firstInvalidServer E (ICEServers requested) = Some e /\
             applyMutable E ours requested = (c1, Some e)).
Proof.
  unfold applyMutable.
  destruct (decide (0 < length (ICEServers requested))%nat) as [Hs|Hs].
  - destruct (firstInvalidServer E (ICEServers requested)) as [e|]; by eauto.
  - left. split; [|done].
    destruct (ICEServers requested); [done|simpl in Hs; lia].
Qed.

(** The three outcomes of SetConfiguration on an open connection. *)
Lemma SetConfiguration_spec pc requested :
  isClosed pc = false ->
  let ours := configuration pc in
  let r := SetConfiguration E pc requested in
  (repeatsImmutable E ours requested /\ poolSizeFree E pc requested /\
   firstInvalidServer E (ICEServers requested) = None /\
   snd r = None /\ configuration (fst r) = takenOver ours requested)
  \/
  (repeatsImmutable E ours requested /\ poolSizeFree E pc requested /\
   exists e, firstInvalidServer E (ICEServers requested) = Some e /\
             snd r = Some e /\
             configuration (fst r) = set_ICEServers (ICEServers ours)
                                       (takenOver ours requested))
  \/
  ((~ repeatsImmutable E ours requested \/ ~ poolSizeFree E pc requested) /\
   (exists e, snd r = Some e) /\
   (configuration (fst r) = ours \/
    configuration (fst r) = set_Certificates (Certificates requested) ours /\
    length (Certificates requested) = length (Certificates ours) /\
    certificatesEqual E (Certificates ours) (Certificates requested) = true)).
Proof.
  intros Hopen ours r. subst r. unfold SetConfiguration. rewrite Hopen.
  unfold onConfiguration. fold ours.
  destruct (checkImmutable_spec ours requested)
    as [[Hrep ->]|(Hrep & c & e & -> & Hc)].
  2: { right. right. split; [by left|]. split; [by eexists|]. exact Hc. }
  cbn [andThen].
  set (c1 := if decide (0 < length (Certificates requested))%nat
             then set_Certificates (Certificates requested) ours else ours).
  assert (Hc1 : c1 = ours \/
                c1 = set_Certificates (Certificates requested) ours /\
                length (Certificates requested) = length (Certificates ours) /\
                certificatesEqual E (Certificates ours) (Certificates requested)
                = true).
  { subst c1. destruct (decide (0 < length (Certificates requested))%nat) as [Hc|Hc];
      [|by left].
    destruct Hrep as (_ & [Hnil|Hcerts] & _); [|by right].
    rewrite Hnil in Hc. simpl in Hc. lia. }
  assert (Hfree : poolSizeFree E (set_configuration c1 pc) requested
                  <-> poolSizeFree E pc requested).
  { unfold poolSizeFree.
    destruct (LocalDescription_configuration pc c1) as (_ & _ & -> & _).
    simpl. fold ours. by destruct Hc1 as [->|[-> _]]. }
  destruct (checkPoolSize_spec (set_configuration c1 pc) requested)
    as [(Hpool & Herr & Hconf)|(Hpool & [e Herr] & Hconf)];
    destruct (checkPoolSize E (set_configuration c1 pc) requested) as [pc2 err];
    simpl in Herr, Hconf; subst err.
  2: { right. right. split; [right; by rewrite <- Hfree|].
       cbn [andThen fst snd]. split; [by eexists|]. by rewrite Hconf. }
  apply Hfree in Hpool. cbn [andThen].
  destruct (applyMutable_spec (configuration pc2) requested)
    as [[Hvalid ->]|(e & Hinvalid & ->)]; cbn [fst snd configuration set_configuration].
  - left. do 3 (split; [done|]). split; [done|].
    rewrite Hconf. subst c1. unfold takenOver.
    destruct ours as []. simpl.
    by repeat destruct (decide _).
  - right. left. do 2 (split; [done|]). exists e. do 2 (split; [done|]).
    rewrite Hconf. subst c1. unfold takenOver.
    destruct ours as []. simpl.
    by repeat destruct (decide _).
Qed.

End Configure.

(** X18.  When SetConfiguration succeeds, and what it has then done.  On
    an open connection the call returns nil exactly when the request
    repeats the fields that cannot be modified or leaves them at their zero
    value (peer identity, certificates, bundle policy, RTCP-mux policy),
    the candidate pool size is left, repeated or there is no local
    description yet, and every requested ICE server validates.  The
    configuration is then the old one with the requested non-zero fields
    taken over: servers, transport policy, pool size, and certificates
    that equal the old ones. *)
Theorem SetConfiguration_success_iff :
  forall (E : Env) (pc : PeerConnection) (requested : Configuration),
    isClosed pc = false ->
    let r := SetConfiguration E pc requested in
    (snd r = None <->
     repeatsImmutable E (configuration pc) requested /\
     poolSizeFree E pc requested /\
     firstInvalidServer E (ICEServers requested) = None) /\
    (snd r = None ->
     configuration (fst r) = takenOver (configuration pc) requested).
Proof.
  intros E pc requested Hopen r. subst r.
  destruct (SetConfiguration_spec E pc requested Hopen)
    as [(Hrep & Hpool & Hvalid & -> & Hconf)
       |[(Hrep & Hpool & e & Hinvalid & -> & Hconf)
        |(Hnot & [e ->] & Hconf)]].
  - split; [|done]. split; [done|]. by intros _.
  - split; [|done]. split; [done|]. intros (_ & _ & Hvalid).
    rewrite Hvalid in Hinvalid. discriminate.
  - split; [|done]. split; [done|]. intros (Hrep & Hpool & _).
    by destruct Hnot.
Qed.

(** The offering side takes over a transport policy, a pool size and a
    server. *)
Lemma SetConfiguration_success_iff_witness :
  let r := SetConfiguration scenarioEnv offerer relayOnly in
  isClosed offerer = false /\
  snd r = None /\
  configuration (fst r) = takenOver (configuration offerer) relayOnly /\
  ICETransportPolicy (configuration (fst r)) = 2 /\
  ICECandidatePoolSize (configuration (fst r)) = 4.
Proof.
  intros r.
  assert (H : isClosed offerer = false) by reflexivity.
  destruct (SetConfiguration_success_iff scenarioEnv offerer relayOnly H)
    as [_ Hconf].
  assert (H0 : snd r = None) by (vm_compute; reflexivity).
  pose proof (Hconf H0) as H1.
  split; [exact H|]. split; [exact H0|]. split; [exact H1|].
  unfold r. rewrite H1. split; vm_compute; reflexivity.
Defined.

(** X19.  What SetConfiguration never modifies.  Whatever the call
    returns, on an open or a closed connection, the peer identity, the
    bundle policy, the RTCP-mux policy and the SDP semantics of the
    connection are as before and it has as many certificates as before;
    and when the call returns an error the ICE servers are as before. *)
Theorem SetConfiguration_keeps_identity :
  forall (E : Env) (pc : PeerConnection) (requested : Configuration),
    let r := SetConfiguration E pc requested in
    let ours := configuration pc in
    let theirs := configuration (fst r) in
    PeerIdentity theirs = PeerIdentity ours /\
    BundlePolicy theirs = BundlePolicy ours /\
    RTCPMuxPolicy theirs = RTCPMuxPolicy ours /\
    SDPSemantics_ theirs = SDPSemantics_ ours /\
    length (Certificates theirs) = length (Certificates ours) /\
    (snd r <> None -> ICEServers theirs = ICEServers ours).
Proof.
  intros E pc requested r ours theirs. subst r theirs.
  destruct (isClosed pc) eqn:Hclosed.
  { unfold SetConfiguration. rewrite Hclosed. by repeat split. }
  assert (Hcerts : repeatsImmutable E ours requested ->
                   length (Certificates (takenOver ours requested))
                   = length (Certificates ours)).
  { intros (_ & [Hnil|[Hlen _]] & _); simpl; [by rewrite Hnil|].
    by destruct (decide _). }
  destruct (SetConfiguration_spec E pc requested Hclosed)
    as [(Hrep & _ & _ & -> & ->)
       |[(Hrep & _ & e & _ & -> & ->)
        |(_ & [e ->] & [->|(-> & Hlen & _)])]]; fold ours.
  - do 4 (split; [done|]). split; [by apply Hcerts|done].
  - do 4 (split; [done|]). split; [by apply Hcerts|done].
  - by repeat split.
  - by repeat split.
Qed.

(** X20.  SetConfiguration does not undo what it has written when a
    server is rejected.  On an open connection, for a request that passes
    the checks of the fields that cannot be modified and of the pool size
    but names a server that does not validate, the call returns the
    validation error of the first such server; the servers are as before,
    but the requested transport policy, pool size and certificates have
    already been taken over. *)
Theorem SetConfiguration_invalid_server :
  forall (E : Env) (pc : PeerConnection) (requested : Configuration) (e : error),
    isClosed pc = false ->
    repeatsImmutable E (configuration pc) requested ->
    poolSizeFree E pc requested ->
    firstInvalidServer E (ICEServers requested) = Some e ->
    let r := SetConfiguration E pc requested in
    snd r = Some e /\
    ICEServers (configuration (fst r)) = ICEServers (configuration pc) /\
    configuration (fst r)
    = set_ICEServers (ICEServers (configuration pc))
        (takenOver (configuration pc) requested) /\
    (ICETransportPolicy requested <> Unknown ->
     ICETransportPolicy (configuration (fst r)) = ICETransportPolicy requested) /\
    (ICECandidatePoolSize requested <> 0 ->
     ICECandidatePoolSize (configuration (fst r)) = ICECandidatePoolSize requested).
Proof.
  intros E pc requested e Hopen Hrep Hpool Hinvalid r. subst r.
  destruct (SetConfiguration_spec E pc requested Hopen)
    as [(_ & _ & Hvalid & _)
       |[(_ & _ & e' & Hinvalid' & -> & ->)
        |([Hnot|Hnot] & _)]]; try done.
  - rewrite Hvalid in Hinvalid. discriminate.
  - rewrite Hinvalid in Hinvalid'. injection Hinvalid' as <-.
    do 3 (split; [done|]). simpl.
    split; intros Hne; by rewrite decide_True.
Qed.

(** The same request where every server is rejected: the error comes
    back, and the transport policy and the pool size are the requested
    ones all the same. *)
Lemma SetConfiguration_invalid_server_witness :
  let r := SetConfiguration strictEnv offerer relayOnly in
  (isClosed offerer = false /\
   repeatsImmutable strictEnv (configuration offerer) relayOnly /\
   poolSizeFree strictEnv offerer relayOnly /\
   firstInvalidServer strictEnv (ICEServers relayOnly)
   = Some (PlainError (Errorf "invalid server"))) /\
  snd r = Some (PlainError (Errorf "invalid server")) /\
  ICEServers (configuration (fst r)) = ICEServers (configuration offerer) /\
  ICETransportPolicy (configuration (fst r)) = 2 /\
  ICECandidatePoolSize (configuration (fst r)) = 4.
Proof.
  intros r.
  assert (H1 : isClosed offerer = false) by reflexivity.
  assert (H2 : repeatsImmutable strictEnv (configuration offerer) relayOnly).
  { split; [by left|]. split; [by left|]. split; by left. }
  assert (H3 : poolSizeFree strictEnv offerer relayOnly).
  { right. right. vm_compute. reflexivity. }
  assert (H4 : firstInvalidServer strictEnv (ICEServers relayOnly)
               = Some (PlainError (Errorf "invalid server"))) by reflexivity.
  destruct (SetConfiguration_invalid_server strictEnv offerer relayOnly _ H1 H2 H3 H4)
    as (Herr & Hservers & _ & Hpolicy & Hsize).
  split; [exact (conj H1 (conj H2 (conj H3 H4)))|].
  split; [exact Herr|]. split; [exact Hservers|].
  split; [apply Hpolicy; discriminate|apply Hsize; discriminate].
Defined.

(** X21.  GetConfiguration followed by SetConfiguration changes nothing.
    On an open connection whose certificates equal themselves and whose
    ICE servers validate, handing the configuration that GetConfiguration
    returned back to SetConfiguration succeeds and leaves the connection
    exactly as it was. *)
Theorem SetConfiguration_GetConfiguration :
  forall (E : Env) (pc : PeerConnection),
    isClosed pc = false ->
    certificatesEqual E (Certificates (configuration pc))
      (Certificates (configuration pc)) = true ->
    firstInvalidServer E (ICEServers (configuration pc)) = None ->
    SetConfiguration E pc (GetConfiguration pc) = (pc, None).
Proof.
  intros E pc Hopen Hcerts Hvalid.
  unfold SetConfiguration, GetConfiguration, onConfiguration. rewrite Hopen.
  assert (Hrep : repeatsImmutable E (configuration pc) (configuration pc)).
  { split; [by right|]. split; [by right|]. split; by right. }
  destruct (checkImmutable_spec E (configuration pc) (configuration pc))
    as [[_ ->]|[Hnot _]]; [|done].
  assert (Hsame : (if decide (0 < length (Certificates (configuration pc)))%nat
                   then set_Certificates (Certificates (configuration pc))
                          (configuration pc)
                   else configuration pc) = configuration pc).
  { destruct (decide _); [|done]. unfold set_Certificates.
    by rewrite configuration_eta. }
  rewrite Hsame. cbn [andThen].
  assert (Hpc : set_configuration (configuration pc) pc = pc) by (by destruct pc).
  rewrite Hpc.
  assert (Hpool : checkPoolSize E pc (configuration pc) = (pc, None)).
  { unfold checkPoolSize.
    destruct (decide (ICECandidatePoolSize (configuration pc) <> 0)); [|done].
    rewrite decide_False by (intros Hne; by apply Hne).
    f_equal. unfold set_ICECandidatePoolSize. by rewrite configuration_eta. }
  rewrite Hpool. cbn [andThen].
  destruct (applyMutable_spec E (configuration pc) (configuration pc))
    as [[_ ->]|(e & Hinvalid & _)]; [|by rewrite Hvalid in Hinvalid].
  f_equal.
  match goal with
  | |- set_configuration ?c pc = pc => assert (Hc : c = configuration pc)
  end.
  { destruct (configuration pc) as []. simpl. by repeat destruct (decide _). }
  by rewrite Hc.
Qed.

(** The offering side of the example exchange. *)
Lemma SetConfiguration_GetConfiguration_witness :
  (isClosed offerer = false /\
   certificatesEqual scenarioEnv (Certificates (configuration offerer))
     (Certificates (configuration offerer)) = true /\
   firstInvalidServer scenarioEnv (ICEServers (configuration offerer)) = None) /\
  SetConfiguration scenarioEnv offerer (GetConfiguration offerer) = (offerer, None).
Proof.
  assert (H1 : isClosed offerer = false) by reflexivity.
  assert (H2 : certificatesEqual scenarioEnv (Certificates (configuration offerer))
                 (Certificates (configuration offerer)) = true) by reflexivity.
  assert (H3 : firstInvalidServer scenarioEnv (ICEServers (configuration offerer)) = None)
    by reflexivity.
  exact (conj (conj H1 (conj H2 H3))
           (SetConfiguration_GetConfiguration scenarioEnv offerer H1 H2 H3)).
Defined.

(** ** Calls that do not look at the closed flag *)

(** X22.  AddICECandidate and WriteRTCP do not read the closed flag.  For
    either value of the flag, on otherwise the same connection, each of
    them makes the same collaborator calls and returns the same result,
    and neither changes anything but the log of calls.  What decides
    AddICECandidate is the remote description: without one it fails with
    InvalidStateError{NoRemoteDescription} and calls nothing, on a closed
    connection as on an open one.  What decides WriteRTCP are its
    collaborators: when the packets serialize and no SRTCP session is to
    be had, the packets are discarded, the call returns nil and writes
    nothing. *)
Theorem AddICECandidate_WriteRTCP_ignore_closed_flag :
  forall (E : Env) (pc : PeerConnection) (b : bool) (candidate : string)
         (pkts : list string),
    AddICECandidate E (set_isClosed b pc) candidate
    = (set_isClosed b (fst (AddICECandidate E pc candidate)),
       snd (AddICECandidate E pc candidate)) /\
    WriteRTCP E (set_isClosed b pc) pkts
    = (set_isClosed b (fst (WriteRTCP E pc pkts)), snd (WriteRTCP E pc pkts)) /\
    sameButCalls pc (fst (AddICECandidate E pc candidate)) /\
    sameButCalls pc (fst (WriteRTCP E pc pkts)) /\
    (RemoteDescription pc = None ->
     AddICECandidate E (set_isClosed b pc) candidate
     = (set_isClosed b pc, Some (InvalidStateError ErrNoRemoteDescription))) /\
    (forall raw,
        rtcpMarshal E pkts = inr raw -> getSRTCPSession E <> None ->
        WriteRTCP E (set_isClosed b pc) pkts = (set_isClosed b pc, None)).
Proof.
  intros E pc b candidate pkts.
  assert (Hremote : RemoteDescription (set_isClosed b pc) = RemoteDescription pc)
    by reflexivity.
  split.
  { unfold AddICECandidate. rewrite Hremote.
    destruct (bool_decide (RemoteDescription pc = None)); [done|].
    by destruct (parseCandidate E _). }
  split.
  { unfold WriteRTCP. destruct (rtcpMarshal E pkts); [done|].
    destruct (getSRTCPSession E); [done|]. by destruct (OpenWriteStream E). }
  split.
  { unfold AddICECandidate.
    destruct (bool_decide (RemoteDescription pc = None)); [apply sameButCalls_refl|].
    destruct (parseCandidate E _); [apply sameButCalls_refl|].
    apply sameButCalls_set_calls. }
  split.
  { unfold WriteRTCP. destruct (rtcpMarshal E pkts); [apply sameButCalls_refl|].
    destruct (getSRTCPSession E); [apply sameButCalls_refl|].
    destruct (OpenWriteStream E); [apply sameButCalls_refl|].
    apply sameButCalls_set_calls. }
  split.
  { intros Hnone. unfold AddICECandidate. by rewrite Hremote, Hnone. }
  intros raw Hraw Hsession. unfold WriteRTCP. rewrite Hraw.
  by destruct (getSRTCPSession E).
Qed.

(** ** AddTrack *)

Lemma findReusable_spec track transceivers i :
  match findReusable track transceivers i with
  | Some j =>
      exists k t, j = (i + k)%nat /\ transceivers !! k = Some t /\
                  reusable track t = true /\
                  forall k' t', (k' < k)%nat -> transceivers !! k' = Some t' ->
                                reusable track t' = false
  | None => Forall (fun t => reusable track t = false) transceivers
  end.
Proof.
  revert i. induction transceivers as [|t rest IH]; intros i; simpl; [done|].
  destruct (reusable track t) eqn:Ht.
  - exists 0%nat, t. split; [lia|]. split; [done|]. split; [done|]. intros; lia.
  - specialize (IH (S i)). destruct (findReusable track rest (S i)) as [j|].
    + destruct IH as (k & t0 & -> & Hk & Hr & Hbefore).
      exists (S k), t0. split; [lia|]. split; [done|]. split; [done|].
      intros [|k'] t' Hlt Hl; simpl in Hl; [by injection Hl as <-|].
      eapply Hbefore; [|done]. lia.
    + by constructor.
Qed.

Lemma AddTrack_spec E pc track pc' r :
  isClosed pc = false ->
  AddTrack E pc track = (pc', r) ->
  sameButTransceivers pc pc' /\
  ((exists i t,
       rtpTransceivers pc !! i = Some t /\ reusable track t = true /\
       (forall j t', (j < i)%nat -> rtpTransceivers pc !! j = Some t' ->
                     reusable track t' = false) /\
       rtpTransceivers pc' = <[i := fst (setSendingTrack E t track)]> (rtpTransceivers pc) /\
       r = match snd (setSendingTrack E t track) with
           | Some e => inl e
           | None => inr (Sender (fst (setSendingTrack E t track)))
           end)
   \/
   (Forall (fun t => reusable track t = false) (rtpTransceivers pc) /\
    ((exists receiver sender,
         NewRTPReceiver E (track_kind track) = inr receiver /\
         NewRTPSender E track = inr sender /\
         r = inr (Some sender) /\
         rtpTransceivers pc'
         = rtpTransceivers pc ++ [trackTransceiver track receiver sender])
     \/
     (pc' = pc /\ exists e, r = inl e)))).
Proof.
  intros Hopen. unfold AddTrack. rewrite Hopen.
  pose proof (findReusable_spec track (rtpTransceivers pc) 0) as Hfind.
  destruct (findReusable track (rtpTransceivers pc) 0) as [i|].
  - destruct Hfind as (k & t & -> & Hk & Hr & Hbefore). simpl.
    rewrite Hk.
    destruct (setSendingTrack E t track) as [t' err] eqn:Hset.
    assert (Hcase : (pc', r)
                    = (set_rtpTransceivers (<[k := t']> (rtpTransceivers pc)) pc,
                       match err with Some e => inl e | None => inr (Sender t') end)
                    -> sameButTransceivers pc pc' /\
                       rtpTransceivers pc' = <[k := t']> (rtpTransceivers pc) /\
                       r = match err with Some e => inl e | None => inr (Sender t') end).
    { intros [= -> ->]. by repeat split. }
    intros Hres.
    destruct Hcase as (Hsame & Hts & Hr').
    { rewrite <- Hres. by destruct err. }
    split; [done|]. left. exists k, t. rewrite Hset. by repeat split.
  - destruct (NewRTPReceiver E (track_kind track)) as [e|receiver] eqn:Hreceiver.
    { intros [= <- <-]. split; [by destruct pc|]. right. split; [done|].
      right. by eauto. }
    destruct (NewRTPSender E track) as [e|sender] eqn:Hsender.
    { intros [= <- <-]. split; [by destruct pc|]. right. split; [done|].
      right. by eauto. }
    simpl. intros [= <- <-]. split; [done|]. right. split; [done|].
    left. exists receiver, sender. by repeat split.
Qed.

(** X23.  AddTrack reuses the first reusable transceiver, and appends one
    otherwise.  On an open connection a call changes nothing but the list
    of transceivers, and never removes or reorders one.  When some
    transceiver is reusable for the track (not stopped, with a sender that
    has not sent and a receiver whose track has the kind of the new
    track), the first such transceiver in list order is given the track in
    place and the list keeps its length.  When none is, a successful call
    appends one sendrecv transceiver of the kind of the track, with the new
    sender and receiver, and a failed call changes nothing.  A sender that
    is returned is among the senders of the connection afterwards. *)
Theorem AddTrack_reuses_or_appends :
  forall (E : Env) (pc pc' : PeerConnection) (track : Track)
         (r : error + option RTPSender),
    isClosed pc = false ->
    AddTrack E pc track = (pc', r) ->
    sameButTransceivers pc pc' /\
    (length (rtpTransceivers pc) <= length (rtpTransceivers pc')
     <= S (length (rtpTransceivers pc)))%nat /\
    (forall sender, r = inr (Some sender) -> sender ∈ GetSenders pc') /\
    ((exists i t,
         rtpTransceivers pc !! i = Some t /\ reusable track t = true /\
         (forall j t', (j < i)%nat -> rtpTransceivers pc !! j = Some t' ->
                       reusable track t' = false) /\
         rtpTransceivers pc'
         = <[i := fst (setSendingTrack E t track)]> (rtpTransceivers pc))
     \/
     (Forall (fun t => reusable track t = false) (rtpTransceivers pc) /\
      ((exists receiver sender,
           r = inr (Some sender) /\
           rtpTransceivers pc'
           = rtpTransceivers pc ++ [trackTransceiver track receiver sender])
       \/
       (pc' = pc /\ exists e, r = inl e)))).
Proof.
  intros E pc pc' track r Hopen Hcall.
  destruct (AddTrack_spec E pc track pc' r Hopen Hcall)
    as (Hsame & [(i & t & Hi & Hr & Hbefore & Hts & Hres)
                |(Hnone & [(receiver & sender & _ & _ & Hres & Hts)
                          |(-> & e & Hres)])]).
  - split; [done|]. split; [rewrite Hts, length_insert; lia|]. split.
    + intros sender Hsender. rewrite Hsender in Hres. unfold GetSenders.
      destruct (snd (setSendingTrack E t track)); [discriminate|].
      injection Hres as Hres.
      apply list_elem_of_omap. exists (fst (setSendingTrack E t track)).
      split; [|done]. rewrite Hts.
      apply list_elem_of_lookup. exists i.
      apply list_lookup_insert_eq. by eapply lookup_lt_Some.
    + left. exists i, t. by repeat split.
  - split; [done|]. split; [rewrite Hts, length_app; simpl; lia|]. split.
    + intros sender' Hsender. rewrite Hsender in Hres. injection Hres as ->.
      unfold GetSenders. apply list_elem_of_omap.
      exists (trackTransceiver track receiver sender). split; [|done].
      rewrite Hts. apply elem_of_app. right. by left.
    + right. split; [done|]. left. by exists receiver, sender.
  - split; [done|]. split; [lia|]. split.
    + intros sender Hsender. by rewrite Hsender in Hres.
    + right. split; [done|]. right. split; [done|]. by exists e.
Qed.

(** ** AddTransceiverFromKind and AddTransceiverFromTrack *)

Lemma set_isClosed_set_rtpTransceivers b l pc :
  set_isClosed b (set_rtpTransceivers l pc) = set_rtpTransceivers l (set_isClosed b pc).
Proof. reflexivity. Qed.

Lemma AddTransceiverFromKind_spec NewTrack E pc kind init pc' r :
  AddTransceiverFromKind NewTrack E pc kind init = (pc', r) ->
  match r with
  | inl _ => pc' = pc
  | inr t =>
      exists d,
        requestedDirection "AddTransceiverFromKind" init = inr d /\
        (d = RTPTransceiverDirectionSendrecv \/ d = RTPTransceiverDirectionRecvonly) /\
        freshTransceiver kind d t /\
        pc' = set_rtpTransceivers (rtpTransceivers pc ++ [t]) pc
  end.
Proof.
  unfold AddTransceiverFromKind.
  destruct (requestedDirection "AddTransceiverFromKind" init) as [e|d] eqn:Hd;
    [by intros [= <- <-]|].
  destruct d; try (by intros [= <- <-]).
  - destruct (NewRTPReceiver E kind) as [e|receiver]; [by intros [= <- <-]|].
    destruct (GetCodecsByKind E kind) as [|codec ?]; [by intros [= <- <-]|].
    destruct (NewTrack (codec_PayloadType codec)) as [e|track]; [by intros [= <- <-]|].
    destruct (NewRTPSender E track) as [e|sender]; intros [= <- <-]; [done|].
    exists RTPTransceiverDirectionSendrecv. split; [done|]. split; [by left|].
    split; [|done]. unfold freshTransceiver. simpl. do 3 (split; [done|]).
    split; (split; [by left|by eexists]).
  - destruct (NewRTPReceiver E kind) as [e|receiver]; intros [= <- <-]; [done|].
    exists RTPTransceiverDirectionRecvonly. split; [done|]. split; [by right|].
    split; [|done]. unfold freshTransceiver. simpl. do 3 (split; [done|]). split.
    + split; [by intros [? ?]|by intros [?|?]].
    + split; [by right|by eexists].
Qed.

Lemma AddTransceiverFromTrack_spec E pc track init pc' r :
  AddTransceiverFromTrack E pc track init = (pc', r) ->
  match r with
  | inl _ => pc' = pc
  | inr t =>
      exists d,
        requestedDirection "AddTransceiverFromTrack" init = inr d /\
        (d = RTPTransceiverDirectionSendrecv \/ d = RTPTransceiverDirectionSendonly) /\
        freshTransceiver (track_kind track) d t /\
        pc' = set_rtpTransceivers (rtpTransceivers pc ++ [t]) pc
  end.
Proof.
  unfold AddTransceiverFromTrack.
  destruct (requestedDirection "AddTransceiverFromTrack" init) as [e|d] eqn:Hd;
    [by intros [= <- <-]|].
  destruct d; try (by intros [= <- <-]).
  - destruct (NewRTPReceiver E (track_kind track)) as [e|receiver];
      [by intros [= <- <-]|].
    destruct (NewRTPSender E track) as [e|sender]; intros [= <- <-]; [done|].
    exists RTPTransceiverDirectionSendrecv. split; [done|]. split; [by left|].
    split; [|done]. unfold freshTransceiver. simpl. do 3 (split; [done|]).
    split; (split; [by left|by eexists]).
  - destruct (NewRTPSender E track) as [e|sender]; intros [= <- <-]; [done|].
    exists RTPTransceiverDirectionSendonly. split; [done|]. split; [by right|].
    split; [|done]. unfold freshTransceiver. simpl. do 3 (split; [done|]). split.
    + split; [by right|by eexists].
    + split; [by intros [? ?]|by intros [?|?]].
Qed.

(** X24.  AddTransceiverFromKind (and AddTransceiver, its deprecated
    name).  A call that returns a transceiver has appended exactly this
    transceiver to the list and changed nothing else: it has the requested
    kind and the requested direction (sendrecv when no init is given),
    which is sendrecv or recvonly, it is not stopped, and it has a receiver
    always and a sender exactly when it is sendrecv.  A call that returns
    an error changes nothing.  The method does not look at the closed flag:
    on the closed connection it does the same. *)
Theorem AddTransceiverFromKind_appends :
  forall (NewTrack : Z -> error + Track) (E : Env) (pc pc' : PeerConnection)
         (kind : RTPCodecType) (init : list RtpTransceiverInit)
         (r : error + RTPTransceiver),
    AddTransceiverFromKind NewTrack E pc kind init = (pc', r) ->
    AddTransceiver NewTrack E pc kind init = (pc', r) /\
    (forall b, AddTransceiverFromKind NewTrack E (set_isClosed b pc) kind init
               = (set_isClosed b pc', r)) /\
    match r with
    | inl _ => pc' = pc
    | inr t =>
        GetTransceivers pc' = GetTransceivers pc ++ [t] /\
        sameButTransceivers pc pc' /\
        (exists d,
            requestedDirection "AddTransceiverFromKind" init = inr d /\
            (d = RTPTransceiverDirectionSendrecv \/
             d = RTPTransceiverDirectionRecvonly) /\
            freshTransceiver kind d t) /\
        is_Some (Receiver t)
    end.
Proof.
  intros NewTrack E pc pc' kind init r Hcall.
  split; [done|]. split.
  { intros b. revert Hcall. unfold AddTransceiverFromKind.
    destruct (requestedDirection "AddTransceiverFromKind" init) as [e|d];
      [by intros [= <- <-]|].
    destruct d; try (by intros [= <- <-]).
    - destruct (NewRTPReceiver E kind) as [e|receiver]; [by intros [= <- <-]|].
      destruct (GetCodecsByKind E kind) as [|codec ?]; [by intros [= <- <-]|].
      destruct (NewTrack (codec_PayloadType codec)) as [e|track];
        [by intros [= <- <-]|].
      destruct (NewRTPSender E track) as [e|sender]; by intros [= <- <-].
    - destruct (NewRTPReceiver E kind) as [e|receiver]; by intros [= <- <-]. }
  apply AddTransceiverFromKind_spec in Hcall.
  destruct r as [e|t]; [done|].
  destruct Hcall as (d & Hd & Hdir & Hfresh & ->).
  split; [done|]. split; [done|]. split; [by exists d|].
  destruct Hfresh as (_ & _ & _ & _ & Hreceiver).
  apply Hreceiver. by destruct Hdir; [left|right].
Qed.

(** A recvonly audio transceiver on the offering side of the example
    exchange. *)
Lemma AddTransceiverFromKind_appends_witness :
  let init := [{| init_Direction := RTPTransceiverDirectionRecvonly |}] in
  let r := AddTransceiverFromKind exampleNewTrack scenarioEnv offerer
             RTPCodecTypeAudio init in
  r = (fst r, inr (recvonlyTransceiver RTPCodecTypeAudio)) /\
  GetTransceivers (fst r)
  = GetTransceivers offerer ++ [recvonlyTransceiver RTPCodecTypeAudio] /\
  sameButTransceivers offerer (fst r).
Proof.
  intros init r.
  assert (H0 : snd r = inr (recvonlyTransceiver RTPCodecTypeAudio))
    by (vm_compute; reflexivity).
  pose proof (pair_eta _ _ H0) as H1.
  destruct (AddTransceiverFromKind_appends exampleNewTrack scenarioEnv offerer (fst r)
              RTPCodecTypeAudio init _ H1) as (_ & _ & Hts & Hsame & _).
  exact (conj H1 (conj Hts Hsame)).
Defined.

(** X25.  AddTransceiverFromTrack.  A call that returns a transceiver has
    appended exactly this transceiver to the list and changed nothing
    else: it has the kind of the track and the requested direction
    (sendrecv when no init is given), which is sendrecv or sendonly, it is
    not stopped, and it has a sender always and a receiver exactly when it
    is sendrecv.  A call that returns an error changes nothing.  The method
    does not look at the closed flag: on the closed connection it does the
    same. *)
Theorem AddTransceiverFromTrack_appends :
  forall (E : Env) (pc pc' : PeerConnection) (track : Track)
         (init : list RtpTransceiverInit) (r : error + RTPTransceiver),
    AddTransceiverFromTrack E pc track init = (pc', r) ->
    (forall b, AddTransceiverFromTrack E (set_isClosed b pc) track init
               = (set_isClosed b pc', r)) /\
    match r with
    | inl _ => pc' = pc
    | inr t =>
        GetTransceivers pc' = GetTransceivers pc ++ [t] /\
        sameButTransceivers pc pc' /\
        (exists d,
            requestedDirection "AddTransceiverFromTrack" init = inr d /\
            (d = RTPTransceiverDirectionSendrecv \/
             d = RTPTransceiverDirectionSendonly) /\
            freshTransceiver (track_kind track) d t) /\
        (exists sender, Sender t = Some sender /\ sender ∈ GetSenders pc')
    end.
Proof.
  intros E pc pc' track init r Hcall.
  split.
  { intros b. revert Hcall. unfold AddTransceiverFromTrack.
    destruct (requestedDirection "AddTransceiverFromTrack" init) as [e|d];
      [by intros [= <- <-]|].
    destruct d; try (by intros [= <- <-]).
    - destruct (NewRTPReceiver E (track_kind track)) as [e|receiver];
        [by intros [= <- <-]|].
      destruct (NewRTPSender E track) as [e|sender]; by intros [= <- <-].
    - destruct (NewRTPSender E track) as [e|sender]; by intros [= <- <-]. }
  apply AddTransceiverFromTrack_spec in Hcall.
  destruct r as [e|t]; [done|].
  destruct Hcall as (d & Hd & Hdir & Hfresh & ->).
  split; [done|]. split; [done|]. split; [by exists d|].
  destruct Hfresh as (_ & _ & _ & Hsender & _).
  destruct (proj2 Hsender) as [sender Hs]; [by destruct Hdir; [left|right]|].
  exists sender. split; [done|].
  unfold GetSenders. simpl. apply list_elem_of_omap. exists t.
  split; [|done]. apply elem_of_app. right. by left.
Qed.

(** A sendonly transceiver for a video track on the offering side of the
    example exchange. *)
Lemma AddTransceiverFromTrack_appends_witness :
  let init := [{| init_Direction := RTPTransceiverDirectionSendonly |}] in
  let r := AddTransceiverFromTrack scenarioEnv offerer videoTrack init in
  let t := {| Sender := Some {| sender_track := Some videoTrack;
                                sender_hasSent := false |};
              Receiver := None; Direction := RTPTransceiverDirectionSendonly;
              kind := RTPCodecTypeVideo; stopped := false |} in
  r = (fst r, inr t) /\
  GetTransceivers (fst r) = GetTransceivers offerer ++ [t] /\
  sameButTransceivers offerer (fst r).
Proof.
  intros init r t.
  assert (H0 : snd r = inr t) by (vm_compute; reflexivity).
  pose proof (pair_eta _ _ H0) as H1.
  destruct (AddTransceiverFromTrack_appends scenarioEnv offerer (fst r) videoTrack
              init _ H1) as (_ & Hts & Hsame & _).
  exact (conj H1 (conj Hts Hsame)).
Defined.

(** A second transceiver for a video track on the offering side of the
    example exchange, whose only transceiver has no remote track yet. *)
Lemma AddTrack_reuses_or_appends_witness :
  let r := AddTrack scenarioEnv offerer videoTrack in
  let sender := {| sender_track := Some videoTrack; sender_hasSent := false |} in
  (isClosed offerer = false /\ r = (fst r, inr (Some sender))) /\
  sameButTransceivers offerer (fst r) /\
  (length (rtpTransceivers offerer) <= length (rtpTransceivers (fst r))
   <= S (length (rtpTransceivers offerer)))%nat /\
  sender ∈ GetSenders (fst r).
Proof.
  intros r sender.
  assert (H : isClosed offerer = false) by reflexivity.
  assert (H0 : snd r = inr (Some sender)) by (vm_compute; reflexivity).
  pose proof (pair_eta _ _ H0) as H1.
  destruct (AddTrack_reuses_or_appends scenarioEnv offerer (fst r) videoTrack _ H H1)
    as (Hsame & Hlen & Hin & _).
  exact (conj (conj H H1) (conj Hsame (conj Hlen (Hin sender eq_refl)))).
Defined.

(** ** initConfiguration *)

Lemma appendCertificates_spec expired ours requested :
  match appendCertificates expired ours requested with
  | (certificates, None) =>
      certificates = ours ++ requested /\
      Forall (fun x => expired x = false) requested
  | (certificates, Some e) =>
      e = InvalidAccessError ErrCertificateExpired /\
      Exists (fun x => expired x = true) requested
  end.
Proof.
  revert ours. induction requested as [|x rest IH]; intros ours; simpl.
  - by rewrite app_nil_r.
  - destruct (expired x) eqn:Hx; [split; [done|by left]|].
    specialize (IH (ours ++ [x])).
    destruct (appendCertificates expired (ours ++ [x]) rest) as [certificates [e|]].
    + destruct IH as [-> Hex]. split; [done|by right].
    + destruct IH as [-> Hall]. split; [by rewrite <- app_assoc|by constructor].
Qed.

Lemma SetConfiguration_certificates_length E pc requested :
  length (Certificates (configuration (fst (SetConfiguration E pc requested))))
  = length (Certificates (configuration pc)).
Proof.
  destruct (isClosed pc) eqn:Hclosed.
  { unfold SetConfiguration. by rewrite Hclosed. }
  assert (Hcerts : repeatsImmutable E (configuration pc) requested ->
                   length (Certificates (takenOver (configuration pc) requested))
                   = length (Certificates (configuration pc))).
  { intros (_ & [Hnil|[Hlen _]] & _); simpl; [by rewrite Hnil|].
    by destruct (decide _). }
  destruct (SetConfiguration_spec E pc requested Hclosed)
    as [(Hrep & _ & _ & _ & ->)
       |[(Hrep & _ & e & _ & _ & ->)
        |(_ & _ & [->|(-> & Hlen & _)])]]; try done; by apply Hcerts.
Qed.

(** X26.  A connection always has a certificate.  When initConfiguration
    succeeds, the certificates of the new configuration are the requested
    ones appended to those it had, none of them expired, or, when none was
    requested, the one certificate generated for a fresh key; in either
    case the list is not empty, and it stays non-empty under every later
    SetConfiguration, whatever that call returns.  The requested ICE
    servers have all passed validation. *)
Theorem initConfiguration_certificates :
  forall (expired : Certificate -> bool) (PrivateKey : Type)
         (GenerateKey : base_error + PrivateKey)
         (GenerateCertificate : PrivateKey -> error + Certificate)
         (semanticsValue : SDPSemantics -> Z) (E : Env)
         (ours requested c : Configuration),
    initConfiguration expired PrivateKey GenerateKey GenerateCertificate
      semanticsValue E ours requested = (c, None) ->
    (if decide (0 < length (Certificates requested))%nat
     then Certificates c = Certificates ours ++ Certificates requested /\
          Forall (fun x => expired x = false) (Certificates requested)
     else exists sk certificate,
            GenerateKey = inr sk /\ GenerateCertificate sk = inr certificate /\
            Certificates c = [certificate]) /\
    Certificates c <> [] /\
    firstInvalidServer E (ICEServers requested) = None /\
    (forall (E' : Env) (pc : PeerConnection) (requested' : Configuration),
        configuration pc = c ->
        Certificates (configuration (fst (SetConfiguration E' pc requested'))) <> []).
Proof.
  intros expired PrivateKey GenerateKey GenerateCertificate semanticsValue E
    ours requested c.
  unfold initConfiguration.
  set (c0 := if negb (String.eqb (PeerIdentity requested) "")
             then set_PeerIdentity (PeerIdentity requested) ours else ours).
  assert (Hc0 : Certificates c0 = Certificates ours)
    by (subst c0; by destruct (negb _)).
  match goal with |- context [andThen ?s _] => set (s1 := s) end.
  assert (H1 : match s1 with
               | (c1, None) =>
                   if decide (0 < length (Certificates requested))%nat
                   then Certificates c1 = Certificates ours ++ Certificates requested /\
                        Forall (fun x => expired x = false) (Certificates requested)
                   else exists sk certificate,
                          GenerateKey = inr sk /\
                          GenerateCertificate sk = inr certificate /\
                          Certificates c1 = [certificate]
               | (_, Some _) => True
               end).
  { subst s1. destruct (decide (0 < length (Certificates requested))%nat) as [Hc|Hc].
    - pose proof (appendCertificates_spec expired (Certificates c0)
                    (Certificates requested)) as Happend.
      destruct (appendCertificates expired (Certificates c0) (Certificates requested))
        as [certificates [e|]]; [done|].
      destruct Happend as [-> Hall]. simpl. by rewrite Hc0.
    - destruct GenerateKey as [err|sk]; [done|].
      destruct (GenerateCertificate sk) as [err|certificate] eqn:Hcert; [done|].
      exists sk, certificate. by repeat split. }
  destruct s1 as [c1 [e|]]; [discriminate|]. cbn [andThen].
  match goal with
  | |- (if decide (0 < length (ICEServers requested))%nat then _ else (?c5, None))
       = _ -> _ => set (c' := c5)
  end.
  assert (Hc' : Certificates c' = Certificates c1).
  { subst c'. by repeat destruct (decide _). }
  intros Hservers.
  assert (Hfinal : Certificates c = Certificates c1 /\
                   firstInvalidServer E (ICEServers requested) = None).
  { destruct (decide (0 < length (ICEServers requested))%nat) as [Hs|Hs].
    - destruct (firstInvalidServer E (ICEServers requested)); [discriminate|].
      injection Hservers as <-. by rewrite <- Hc'.
    - injection Hservers as <-. split; [done|].
      destruct (ICEServers requested); [done|simpl in Hs; lia]. }
  destruct Hfinal as [Hcerts Hvalid]. rewrite Hcerts.
  assert (Hne : Certificates c1 <> []).
  { destruct (decide (0 < length (Certificates requested))%nat) as [Hc|Hc].
    - destruct H1 as [-> _]. intros Hnil. apply (f_equal length) in Hnil.
      rewrite length_app in Hnil. simpl in Hnil. lia.
    - destruct H1 as (sk & certificate & _ & _ & ->). done. }
  split; [done|]. split; [done|]. split; [done|].
  intros E' pc requested' Hpc Hnil.
  pose proof (SetConfiguration_certificates_length E' pc requested') as Hlen.
  rewrite Hnil, Hpc, Hcerts in Hlen. by destruct (Certificates c1).
Qed.

(** The constructor's configuration when no certificate is requested and
    the generators succeed. *)
Lemma initConfiguration_certificates_witness :
  let ours := literalConfiguration 1 1 2 SDPSemanticsUnifiedPlan in
  let requested :=
    {| ICEServers := [["stun:stun.example.org"]]; ICETransportPolicy := Unknown;
       BundlePolicy := Unknown; RTCPMuxPolicy := Unknown; PeerIdentity := "";
       Certificates := []; ICECandidatePoolSize := 0;
       SDPSemantics_ := SDPSemanticsPlanB |} in
  let r := initConfiguration (fun _ => false) unit (inr tt) (fun _ => inr "AB:CD")
             exampleSemanticsValue scenarioEnv ours requested in
  snd r = None /\
  Certificates (fst r) = ["AB:CD"] /\
  SDPSemantics_ (fst r) = SDPSemanticsPlanB /\
  Certificates (fst r) <> [].
Proof.
  intros ours requested r.
  assert (H0 : snd r = None) by (vm_compute; reflexivity).
  pose proof (pair_eta _ _ H0) as H1.
  destruct (initConfiguration_certificates (fun _ => false) unit (inr tt)
              (fun _ => inr "AB:CD") exampleSemanticsValue scenarioEnv ours requested
              (fst r) H1) as (_ & Hne & _).
  split; [exact H0|]. split; [vm_compute; reflexivity|].
  split; [vm_compute; reflexivity|exact Hne].
Defined.

(** ** The mids of a Unified Plan offer *)

Lemma unifiedMids_lookup n i :
  (i < n)%nat -> unifiedMids n !! i = Some (Itoa (Z.of_nat i)).
Proof.
  intros Hi. unfold unifiedMids.
  change (map ?f ?l) with (f <$> l).
  rewrite list_lookup_fmap, lookup_seq_lt by done. reflexivity.
Qed.

Lemma unifiedMids_NoDup n : NoDup (unifiedMids n).
Proof.
  unfold unifiedMids. change (map ?f ?l) with (f <$> l).
  apply NoDup_fmap_2; [|apply NoDup_seq].
  intros i j Hij. unfold Itoa in Hij. apply (inj pretty) in Hij. lia.
Qed.

(** X27.  In a Unified Plan offer the group lists the mids of the
    sections.  For every successful CreateOffer under semantics other than
    PlanB, when the media engine has a codec for the kind of every
    transceiver, the mids of the media sections are 0, 1, ..., n in section
    order (n the number of transceivers, the last section being the data
    section), they are pairwise distinct, and the group attribute is BUNDLE
    followed by exactly the mids of the sections in order. *)
Theorem CreateOffer_group_lists_section_mids :
  forall (E : Env) (pc pc' : PeerConnection) (options : option OfferOptions)
         (desc : SessionDescription),
    CreateOffer E pc options = (pc', inr desc) ->
    SDPSemantics_ (configuration pc) <> SDPSemanticsPlanB ->
    Forall (fun t => GetCodecsByKind E (kind t) <> []) (rtpTransceivers pc) ->
    exists d,
      desc_parsed desc = Some d /\
      map getMidValue (sdp.MediaDescriptions d)
      = unifiedMids (S (length (rtpTransceivers pc))) /\
      NoDup (map getMidValue (sdp.MediaDescriptions d)) /\
      sdp.lookupAttribute "group" (sdp.Attributes d)
      = Some (bundleOf (map getMidValue (sdp.MediaDescriptions d))).
Proof.
  intros E pc pc' options desc Hcall Hunified Hcodecs.
  assert (Hbuild : buildOffer E pc = inr desc).
  { revert Hcall. unfold CreateOffer.
    destruct (bool_decide (options <> None)); [discriminate|].
    destruct (bool_decide (idpLoginURL pc <> None)); [discriminate|].
    destruct (isClosed pc); [discriminate|].
    destruct (buildOffer E pc) as [e|desc0]; [discriminate|]. by intros [= _ <-]. }
  destruct (buildOffer_mids E pc desc Hbuild) as (d & Hd & Hlayout & _).
  destruct (Hlayout Hunified) as (Hlen & Hsections & (data & Hdata & Hmid) & Hgroup).
  exists d. split; [done|].
  assert (Hmids : map getMidValue (sdp.MediaDescriptions d)
                  = unifiedMids (S (length (rtpTransceivers pc)))).
  { apply list_eq. intros i. change (map ?f ?l) with (f <$> l).
    rewrite list_lookup_fmap.
    destruct (decide (i < length (rtpTransceivers pc))%nat) as [Hi|Hi].
    - rewrite unifiedMids_lookup by lia.
      destruct (lookup_lt_is_Some_2 (rtpTransceivers pc) i Hi) as [t Ht].
      destruct (Hsections i t Ht) as (m & -> & _ & Hmid' & _). simpl. f_equal.
      apply Hmid'. rewrite Forall_forall in Hcodecs. apply Hcodecs.
      by eapply list_elem_of_lookup_2.
    - destruct (decide (i = length (rtpTransceivers pc))) as [->|Hne].
      + rewrite unifiedMids_lookup by lia. rewrite Hdata. simpl. f_equal.
        by destruct Hmid.
      + rewrite !lookup_ge_None_2; [done| |].
        * unfold unifiedMids. rewrite length_map, length_seq. lia.
        * rewrite Hlen. lia. }
  split; [done|]. split; [rewrite Hmids; apply unifiedMids_NoDup|].
  by rewrite Hmids.
Qed.

(** The offer of the example exchange. *)
Lemma CreateOffer_group_lists_section_mids_witness :
  let r := CreateOffer scenarioEnv offerer None in
  (r = (fst r, inr offererOffer) /\
   SDPSemantics_ (configuration offerer) <> SDPSemanticsPlanB /\
   Forall (fun t => GetCodecsByKind scenarioEnv (kind t) <> [])
     (rtpTransceivers offerer)) /\
  exists d,
    desc_parsed offererOffer = Some d /\
    map getMidValue (sdp.MediaDescriptions d)
    = unifiedMids (S (length (rtpTransceivers offerer))) /\
    NoDup (map getMidValue (sdp.MediaDescriptions d)) /\
    sdp.lookupAttribute "group" (sdp.Attributes d)
    = Some (bundleOf (map getMidValue (sdp.MediaDescriptions d))).
Proof.
  intros r.
  assert (H0 : snd r = inr offererOffer) by (vm_compute; reflexivity).
  pose proof (pair_eta _ _ H0) as H1.
  assert (H2 : SDPSemantics_ (configuration offerer) <> SDPSemanticsPlanB)
    by discriminate.
  assert (H3 : Forall (fun t => GetCodecsByKind scenarioEnv (kind t) <> [])
                 (rtpTransceivers offerer)).
  { repeat constructor. discriminate. }
  exact (conj (conj H1 (conj H2 H3))
           (CreateOffer_group_lists_section_mids scenarioEnv offerer (fst r) None
              offererOffer H1 H2 H3)).
Defined.

(** ** A closed connection, call by call *)

(** C8, as the code has it.  On the connection [Close] leaves behind,
    SetLocalDescription, SetConfiguration, AddTrack and CreateDataChannel
    fail with InvalidStateError{ConnectionClosed} whatever their arguments;
    CreateOffer does when called without options and without an identity
    provider; CreateAnswer does under the same conditions when a remote
    description is present, and reports the missing remote description
    when there is none; SetRemoteDescription does when no remote
    description has become current, and reports "already defined" when
    one has; a further Close returns nil.  The connection is handed back
    unchanged each time.  AddICECandidate and WriteRTCP have no closed
    check: AddICECandidate reports the missing remote description when
    there is none, and otherwise returns the error of the candidate parser
    or hands the candidate to the ICE transport and returns its answer;
    WriteRTCP returns the error of the packet serializer, nil when no SRTCP
    session is to be had, the wrapped error of the write stream that does
    not open, and otherwise writes and returns the result of the write. *)
Theorem closed_connection_rejects_calls :
  forall (E : Env) (pc0 : PeerConnection),
    let pc := fst (Close E pc0) in
    let closedError := InvalidStateError ErrConnectionClosed in
    (forall desc, SetLocalDescription E pc desc = (pc, Some closedError)) /\
    (forall requested, SetConfiguration E pc requested = (pc, Some closedError)) /\
    (forall track, AddTrack E pc track = (pc, inl closedError)) /\
    (forall label options,
        CreateDataChannel E pc label options = Some (pc, inl closedError)) /\
    (idpLoginURL pc0 = None -> CreateOffer E pc None = (pc, inl closedError)) /\
    (idpLoginURL pc0 = None -> RemoteDescription pc0 <> None ->
     CreateAnswer E pc None = (pc, inl closedError)) /\
    (currentRemoteDescription pc0 = None ->
     forall desc, SetRemoteDescription E pc desc = (pc, Some closedError)) /\
    (RemoteDescription pc0 = None ->
     CreateAnswer E pc None = (pc, inl (InvalidStateError ErrNoRemoteDescription))) /\
    (currentRemoteDescription pc0 <> None ->
     forall desc, SetRemoteDescription E pc desc = (pc, Some alreadyDefined)) /\
    Close E pc = (pc, None) /\
    (RemoteDescription pc0 = None ->
     forall candidate,
       AddICECandidate E pc candidate
       = (pc, Some (InvalidStateError ErrNoRemoteDescription))) /\
    (RemoteDescription pc0 <> None -> iceTransport pc0 = true ->
     forall candidate,
       AddICECandidate E pc candidate
       = match parseCandidate E
                 {| sdp.Key := "candidate";
                    sdp.Value := TrimPrefix E candidate "candidate:" |} with
         | inl e => (pc, Some e)
         | inr iceCandidate =>
             (set_calls (calls pc ++ [CallAddRemoteCandidate iceCandidate]) pc,
              AddRemoteCandidate E iceCandidate)
         end) /\
    (forall pkts,
        WriteRTCP E pc pkts
        = match rtcpMarshal E pkts with
          | inl e => (pc, Some e)
          | inr raw =>
              match getSRTCPSession E with
              | Some _ => (pc, None)
              | None =>
                  match OpenWriteStream E with
                  | Some e =>
                      (pc, Some (WrappedError "WriteRTCP failed to open WriteStream" e))
                  | None =>
                      (set_calls (calls pc ++ [CallWriteRTCP raw]) pc,
                       writeStreamWrite E raw)
                  end
              end
          end).
Proof.
  intros E pc0 pc closedError. subst pc closedError.
  pose proof (Close_closes E pc0) as Hc.
  destruct (Close_fields E pc0) as (_ & Hidp & Hcur & Hpend).
  assert (Hremote : RemoteDescription (fst (Close E pc0)) = RemoteDescription pc0)
    by (unfold RemoteDescription; by rewrite Hpend, Hcur).
  split; [intros; by apply SetLocalDescription_closed|].
  split; [intros; by apply SetConfiguration_closed|].
  split; [intros; by apply AddTrack_closed|].
  split; [intros; by apply CreateDataChannel_closed|].
  split; [intros H; apply CreateOffer_closed; [done|by rewrite Hidp]|].
  split.
  { intros H Hr. apply CreateAnswer_closed; [done|by rewrite Hidp|by rewrite Hremote]. }
  split.
  { intros H desc. apply SetRemoteDescription_closed; [done|by rewrite Hcur]. }
  split.
  { intros Hnone. unfold CreateAnswer. by rewrite Hremote, Hnone. }
  split.
  { intros Hsome desc. apply SetRemoteDescription_guard. by rewrite Hcur. }
  split; [by apply Close_closed|].
  split.
  { intros Hnone candidate. unfold AddICECandidate. by rewrite Hremote, Hnone. }
  split.
  { intros Hsome _ candidate. unfold AddICECandidate. rewrite Hremote.
    by rewrite bool_decide_eq_false_2. }
  intros pkts. reflexivity.
Qed.

(** A connection closed in have-remote-offer: every call of the list is
    turned away with the closed error, and a candidate still goes to the
    ICE transport. *)
Lemma closed_connection_rejects_calls_witness :
  let E := exampleEnv defaultCodecs [remoteVideoDocument "0"] in
  let pc0 := set_signalingState SignalingStateHaveRemoteOffer
               (set_pendingRemoteDescription
                  (Some (withParsed (Some (remoteVideoDocument "0"))
                           (describe SDPTypeOffer (remoteVideoDocument "0"))))
                  (newPeerConnection (exampleConfiguration SDPSemanticsUnifiedPlan))) in
  let pc := fst (Close E pc0) in
  let closedError := InvalidStateError ErrConnectionClosed in
  (idpLoginURL pc0 = None /\ RemoteDescription pc0 <> None /\
   currentRemoteDescription pc0 = None /\ iceTransport pc0 = true) /\
  CreateOffer E pc None = (pc, inl closedError) /\
  CreateAnswer E pc None = (pc, inl closedError) /\
  SetRemoteDescription E pc (describe SDPTypeAnswer (remoteVideoDocument "0"))
    = (pc, Some closedError) /\
  AddICECandidate E pc "candidate:1 1 udp 1 192.0.2.1 9 typ host"
    = (set_calls (calls pc ++ [CallAddRemoteCandidate "1 1 udp 1 192.0.2.1 9 typ host"]) pc,
       None).
Proof.
  intros E pc0 pc closedError.
  assert (H1 : idpLoginURL pc0 = None) by reflexivity.
  assert (H2 : RemoteDescription pc0 <> None) by (vm_compute; discriminate).
  assert (H3 : currentRemoteDescription pc0 = None) by reflexivity.
  assert (H4 : iceTransport pc0 = true) by reflexivity.
  destruct (closed_connection_rejects_calls E pc0)
    as (_ & _ & _ & _ & Ho & Ha & Hr & _ & _ & _ & _ & Hc & _).
  split; [exact (conj H1 (conj H2 (conj H3 H4)))|].
  split; [exact (Ho H1)|]. split; [exact (Ha H1 H2)|]. split; [exact (Hr H3 _)|].
  exact (Hc H2 H4 "candidate:1 1 udp 1 192.0.2.1 9 typ host").
Defined.

(** C8 as stated fails: on a closed connection without a remote
    description CreateAnswer and AddICECandidate report the missing remote
    description; on a closed connection with a remote description
    AddICECandidate succeeds; WriteRTCP succeeds, the packet being
    discarded for want of an SRTCP session; and a further Close returns
    nil. *)
Lemma closed_connection_other_errors :
  let E := exampleEnv defaultCodecs [remoteVideoDocument "0"] in
  let new := newPeerConnection (exampleConfiguration SDPSemanticsUnifiedPlan) in
  let pc := fst (Close E new) in
  let answering :=
    fst (SetRemoteDescription E new (describe SDPTypeOffer (remoteVideoDocument "0"))) in
  let closedAnswering := fst (Close E answering) in
  (isClosed pc = true /\ isClosed closedAnswering = true /\
   RemoteDescription closedAnswering <> None) /\
  CreateAnswer E pc None = (pc, inl (InvalidStateError ErrNoRemoteDescription)) /\
  AddICECandidate E pc "candidate:1 1 udp 1 192.0.2.1 9 typ host"
    = (pc, Some (InvalidStateError ErrNoRemoteDescription)) /\
  snd (AddICECandidate E closedAnswering "candidate:1 1 udp 1 192.0.2.1 9 typ host")
    = None /\
  WriteRTCP E pc ["receiver report"] = (pc, None) /\
  WriteRTCP E closedAnswering ["receiver report"] = (closedAnswering, None) /\
  Close E pc = (pc, None) /\
  InvalidStateError ErrNoRemoteDescription <> InvalidStateError ErrConnectionClosed.
Proof. vm_compute. repeat split; discriminate. Qed.

(** ** SetRemoteDescription and its guard *)

(** A successful call that installs an offer or a pranswer leaves the
    description pending and no remote description current. *)
Lemma SetRemoteDescription_pending E pc pc' desc :
  desc_Type desc = SDPTypeOffer \/ desc_Type desc = SDPTypePranswer ->
  SetRemoteDescription E pc desc = (pc', None) ->
  isClosed pc' = false /\
  currentRemoteDescription pc' = None /\
  exists parsed,
    Unmarshal E (desc_SDP desc) = inr parsed /\
    pendingRemoteDescription pc' = Some (withParsed (Some parsed) desc).
Proof.
  intros Hty. unfold SetRemoteDescription.
  destruct (decide (currentRemoteDescription pc <> None)) as [Hcur|Hcur];
    [discriminate|].
  apply dec_stable in Hcur.
  destruct (isClosed pc); [discriminate|].
  destruct (Unmarshal E (desc_SDP desc)) as [e|parsed]; [discriminate|].
  destruct (setDescription pc (withParsed (Some parsed) desc) stateChangeOpSetRemote)
    as [pc1 [e|]] eqn:Hset; [discriminate|].
  apply setDescription_success_summary in Hset
    as ((_ & _ & Hopen & _) & _ & Hother & _).
  destruct Hother as (_ & Hcur1 & _ & Hpend1).
  { simpl. destruct Hty as [-> | ->]; discriminate. }
  rewrite decide_False in Hpend1 by (simpl; destruct Hty as [-> | ->]; discriminate).
  rewrite Hcur in Hcur1.
  destruct (RemoteDescription pc1) as [remote|]; [|discriminate].
  destruct (desc_parsed remote) as [remoteParsed|]; [|discriminate].
  destruct (deliverMedia_log E (sdp.MediaDescriptions remoteParsed) pc1
              (sdp.lookupAttribute "fingerprint" (sdp.Attributes parsed)))
    as (Hsame & _).
  destruct (deliverMedia E pc1 _ _) as [pc2 [e|[fp|]]]; try discriminate.
  simpl in Hsame. unfold sameButCalls in Hsame.
  case_decide; [discriminate|].
  assert (Hfields : isClosed pc2 = false /\ currentRemoteDescription pc2 = None /\
                    pendingRemoteDescription pc2
                    = Some (withParsed (Some parsed) desc)).
  { rewrite Hsame. simpl. done. }
  destruct Hfields as (Hc2 & Hcur2 & Hpend2).
  destruct (_ && _); intros [= <-]; simpl; (split; [done|]); (split; [done|]);
    by exists parsed.
Qed.

(** A call that [setDescription] refuses hands back the connection it
    was given. *)
Lemma setDescription_refused pc pc' sd op e :
  setDescription pc sd op = (pc', Some e) -> pc' = pc.
Proof.
  intros H. unfold setDescription in H.
  destruct (isClosed pc); [inversion H; reflexivity|].
  destruct op; [inversion H; reflexivity| |];
    destruct (desc_Type sd); try (inversion H; reflexivity);
    repeat match type of H with
    | (if negb ?b then _ else _) = _ =>
        destruct b; cbn [negb] in H; [|inversion H; reflexivity]
    end;
    match type of H with
    | context [checkNextSignalingState ?a ?b ?c ?d] =>
        destruct (checkNextSignalingState a b c d) as [nextState [err|]]
    end;
    first [ apply commitSignalingState_error in H as [-> _]; reflexivity
          | unfold commitSignalingState in H; discriminate ].
Qed.

(** Past the guard, the parser and then the state machine decide. *)
Lemma SetRemoteDescription_past_guard E pc again :
  currentRemoteDescription pc = None -> isClosed pc = false ->
  match Unmarshal E (desc_SDP again) with
  | inl e => SetRemoteDescription E pc again = (pc, Some e)
  | inr parsed =>
      forall e,
        snd (setDescription pc (withParsed (Some parsed) again) stateChangeOpSetRemote)
        = Some e ->
        SetRemoteDescription E pc again = (pc, Some e)
  end.
Proof.
  intros Hcur Hopen. unfold SetRemoteDescription.
  rewrite decide_False by (rewrite Hcur; intros H; by apply H).
  rewrite Hopen.
  destruct (Unmarshal E (desc_SDP again)) as [e|parsed]; [done|].
  intros e Hset.
  destruct (setDescription pc (withParsed (Some parsed) again) stateChangeOpSetRemote)
    as [pc1 r] eqn:Hcall.
  simpl in Hset. subst r.
  by rewrite (setDescription_refused _ _ _ _ _ Hcall).
Qed.

(** C6, as the code has it.  The guard of SetRemoteDescription looks at
    the current remote description: a connection that has one turns every
    call away with "remoteDescription is already defined,
    SetRemoteDescription can only be called once" and stays as it is; and
    a successful call that installs an answer leaves the connection in
    that situation.  A successful call that installs an offer or a
    pranswer leaves the description pending and no remote description
    current, so the guard does not fire on the next call: the connection
    is open, a text the parser rejects is answered with the parser's
    error, and a description the state machine refuses with the state
    machine's error, the connection staying as it is. *)
Theorem SetRemoteDescription_once_current :
  forall (E : Env) (pc : PeerConnection) (desc : SessionDescription),
    (currentRemoteDescription pc <> None ->
     SetRemoteDescription E pc desc = (pc, Some alreadyDefined)) /\
    (forall pc', desc_Type desc = SDPTypeAnswer ->
                 SetRemoteDescription E pc desc = (pc', None) ->
                 forall again, SetRemoteDescription E pc' again = (pc', Some alreadyDefined)) /\
    (forall pc', desc_Type desc = SDPTypeOffer \/ desc_Type desc = SDPTypePranswer ->
                 SetRemoteDescription E pc desc = (pc', None) ->
                 currentRemoteDescription pc' = None /\
                 (exists parsed,
                     Unmarshal E (desc_SDP desc) = inr parsed /\
                     pendingRemoteDescription pc'
                     = Some (withParsed (Some parsed) desc)) /\
                 forall again,
                   match Unmarshal E (desc_SDP again) with
                   | inl e => SetRemoteDescription E pc' again = (pc', Some e)
                   | inr parsed =>
                       forall e,
                         snd (setDescription pc' (withParsed (Some parsed) again)
                                stateChangeOpSetRemote) = Some e ->
                         SetRemoteDescription E pc' again = (pc', Some e)
                   end).
Proof.
  intros E pc desc. split; [|split].
  - apply SetRemoteDescription_guard.
  - intros pc' Hty H again. apply SetRemoteDescription_guard.
    by eapply SetRemoteDescription_answer_current.
  - intros pc' Hty H.
    destruct (SetRemoteDescription_pending E pc pc' desc Hty H)
      as (Hopen & Hcur & Hpending).
    split; [done|]. split; [done|].
    intros again. by apply SetRemoteDescription_past_guard.
Qed.

(** The offering side receives the answer; a second answer is refused.
    When it receives a provisional answer first, that one stays pending
    and a text that does not parse is then answered by the parser. *)
Lemma SetRemoteDescription_once_current_witness :
  let answer := describe SDPTypeAnswer (remoteVideoDocument "0") in
  let pranswer := describe SDPTypePranswer (remoteVideoDocument "0") in
  let pc' := fst (SetRemoteDescription scenarioEnv offererWithLocalOffer answer) in
  let pending := fst (SetRemoteDescription scenarioEnv offererWithLocalOffer pranswer) in
  (desc_Type answer = SDPTypeAnswer /\
   SetRemoteDescription scenarioEnv offererWithLocalOffer answer = (pc', None) /\
   currentRemoteDescription pc' <> None) /\
  SetRemoteDescription scenarioEnv pc' answer = (pc', Some alreadyDefined) /\
  SetRemoteDescription scenarioEnv pc' answer = (pc', Some alreadyDefined) /\
  (desc_Type pranswer = SDPTypePranswer /\
   SetRemoteDescription scenarioEnv offererWithLocalOffer pranswer = (pending, None)) /\
  currentRemoteDescription pending = None /\
  SetRemoteDescription scenarioEnv pending garbledOffer
  = (pending, Some (PlainError (ErrCollaborator "sdp: invalid syntax"))).
Proof.
  intros answer pranswer pc' pending.
  assert (Hty : desc_Type answer = SDPTypeAnswer) by reflexivity.
  assert (H0 : snd (SetRemoteDescription scenarioEnv offererWithLocalOffer answer) = None)
    by (vm_compute; reflexivity).
  pose proof (pair_eta _ _ H0) as H.
  assert (Hcur : currentRemoteDescription pc' <> None) by (vm_compute; discriminate).
  assert (Gty : desc_Type pranswer = SDPTypePranswer) by reflexivity.
  assert (G0 : snd (SetRemoteDescription scenarioEnv offererWithLocalOffer pranswer)
               = None) by (vm_compute; reflexivity).
  pose proof (pair_eta _ _ G0) as G.
  assert (Gparse : Unmarshal scenarioEnv (desc_SDP garbledOffer)
                   = inl (PlainError (ErrCollaborator "sdp: invalid syntax")))
    by (vm_compute; reflexivity).
  destruct (SetRemoteDescription_once_current scenarioEnv pc' answer) as (Hguard & _).
  destruct (SetRemoteDescription_once_current scenarioEnv offererWithLocalOffer answer)
    as (_ & Hafter & _).
  destruct (SetRemoteDescription_once_current scenarioEnv offererWithLocalOffer pranswer)
    as (_ & _ & Hpending).
  destruct (Hpending pending (or_intror Gty) G) as (Gcur & _ & Gnext).
  specialize (Gnext garbledOffer). rewrite Gparse in Gnext.
  exact (conj (conj Hty (conj H Hcur))
           (conj (Hguard Hcur)
              (conj (Hafter pc' Hty H answer)
                 (conj (conj Gty G) (conj Gcur Gnext))))).
Defined.

(** C6 as stated fails: the offering side receives a provisional answer,
    which succeeds and stays pending, and then the final answer, which
    succeeds too.  On the answering side a second offer passes the guard
    as well and is refused by the state machine, not as "already
    defined". *)
Lemma SetRemoteDescription_twice_succeeds :
  let pranswer := describe SDPTypePranswer (remoteVideoDocument "0") in
  let answer := describe SDPTypeAnswer (remoteVideoDocument "0") in
  let first := SetRemoteDescription scenarioEnv offererWithLocalOffer pranswer in
  let second := SetRemoteDescription scenarioEnv (fst first) answer in
  snd first = None /\
  signalingState (fst first) = SignalingStateHaveRemotePranswer /\
  snd second = None /\
  signalingState (fst second) = SignalingStateStable /\
  snd second <> Some alreadyDefined.
Proof. vm_compute. repeat split; discriminate. Qed.

Example SetRemoteDescription_second_offer :
  let offer := describe SDPTypeOffer (remoteVideoDocument "0") in
  let pc := newPeerConnection (exampleConfiguration SDPSemanticsUnifiedPlan) in
  let first := SetRemoteDescription scenarioEnv pc offer in
  let second := SetRemoteDescription scenarioEnv (fst first) offer in
  snd first = None /\
  snd second = Some (InvalidModificationError
                       (ErrInvalidTransition SignalingStateHaveRemoteOffer
                          stateChangeOpSetRemote SDPTypeOffer
                          SignalingStateHaveRemoteOffer)).
Proof. vm_compute. by split. Qed.

(** ** The walk of CreateAnswer over the remote sections *)

Lemma answerMedias_passed E pc iceParams candidates detectedPlanB medias st :
  Forall (fun m => getMidValue m <> "" /\ ~ rtpSection E m) medias ->
  exists st',
    answerMedias E pc iceParams candidates detectedPlanB medias st = inr st'.
Proof.
  intros Hall. revert st.
  induction Hall as [|m medias [Hm Hn] _ IH]; intros st; simpl; [by eexists|].
  destruct (answerMedia_passed E pc iceParams candidates detectedPlanB m st Hm Hn)
    as [st' ->].
  simpl. apply IH.
Qed.

Lemma answerMedias_missing_mid E pc iceParams candidates detectedPlanB
    before media after st :
  Forall (fun m => getMidValue m <> "" /\ ~ rtpSection E m) before ->
  getMidValue media = "" ->
  answerMedias E pc iceParams candidates detectedPlanB (before ++ media :: after) st
  = inl (PlainError
           (Errorf "RemoteDescription contained media section without mid value")).
Proof.
  intros Hbefore Hmid. revert st.
  induction Hbefore as [|m before [Hm Hn] _ IH]; intros st; simpl.
  - unfold answerMedia. by rewrite Hmid.
  - destruct (answerMedia_passed E pc iceParams candidates detectedPlanB m st Hm Hn)
      as [st' ->].
    simpl. apply IH.
Qed.

Lemma CreateAnswer_walk E pc remote parsed :
  readyToAnswer E pc ->
  RemoteDescription pc = Some remote ->
  desc_parsed remote = Some parsed ->
  exists d0 iceParams candidates,
    addFingerprint E pc sdp.NewJSEPSessionDescription = inr d0 /\
    CreateAnswer E pc None
    = match answerMedias E pc iceParams candidates
              (descriptionIsPlanB (RemoteDescription pc))
              (sdp.MediaDescriptions parsed)
              {| answer_d := d0; answer_bundleValue := "BUNDLE";
                 answer_localTransceivers := rtpTransceivers pc |} with
      | inl e => (pc, inl e)
      | inr st =>
          let d := sdp.WithValueAttribute sdp.AttrKeyGroup (answer_bundleValue st)
                     (answer_d st) in
          match Marshal E d with
          | inl e => (pc, inl e)
          | inr text =>
              (set_lastAnswer text pc,
               inr {| desc_Type := SDPTypeAnswer; desc_SDP := text;
                      desc_parsed := Some d |})
          end
      end.
Proof.
  intros (Hopen & Hidp & [d0 Hfp] & [iceParams Hice] & [candidates Hcand])
         Hremote Hparsed.
  exists d0, iceParams, candidates. split; [done|].
  unfold CreateAnswer, buildAnswer, addAnswerMediaTransceivers.
  set (detected := descriptionIsPlanB (RemoteDescription pc)).
  rewrite Hidp, Hopen, Hremote, Hfp, Hice, Hcand, Hparsed. simpl.
  destruct (answerMedias _ _ _ _ _ _ _) as [e|st]; [done|]. simpl.
  by destruct (Marshal E _).
Qed.

(** C4, as the code has it.  A description is detected as Plan-B exactly
    when one of its media sections has a mid (the value of its first mid
    attribute) equal to audio, video or data in any letter case.
    CreateAnswer, called without options on an open connection without
    identity provider whose certificate and gatherer answer, walks the
    remote sections in order.  When the walk arrives at an RTP section (not
    the application section, of known kind, with a direction attribute),
    this section and every section before it carrying a mid, the call fails
    with TypeError{IncorrectSDPSemantics} if the connection is configured
    UnifiedPlan and the remote description is detected Plan-B, and if it is
    configured PlanB and the remote description is not detected Plan-B.
    When the walk arrives first at a section without mid, the call fails
    with the missing-mid error instead, whatever the semantics.  When every
    section carries a mid and none is an RTP section, the walk meets no
    check, whatever the semantics and the detection: the call returns the
    serialized answer, or the error of the serializer. *)
Theorem planB_detection_and_semantics_check :
  (forall desc : option SessionDescription,
      descriptionIsPlanB desc = true <->
      exists d parsed media,
        desc = Some d /\ desc_parsed d = Some parsed /\
        media ∈ sdp.MediaDescriptions parsed /\
        (lowerString (getMidValue media) = "audio" \/
         lowerString (getMidValue media) = "video" \/
         lowerString (getMidValue media) = "data")) /\
  (forall (E : Env) (pc : PeerConnection) remote parsed,
      readyToAnswer E pc ->
      RemoteDescription pc = Some remote ->
      desc_parsed remote = Some parsed ->
      reachesRTPSection E (sdp.MediaDescriptions parsed) ->
      (SDPSemantics_ (configuration pc) = SDPSemanticsUnifiedPlan ->
       descriptionIsPlanB (RemoteDescription pc) = true ->
       CreateAnswer E pc None = (pc, inl (TypeError ErrIncorrectSDPSemantics))) /\
      (SDPSemantics_ (configuration pc) = SDPSemanticsPlanB ->
       descriptionIsPlanB (RemoteDescription pc) = false ->
       CreateAnswer E pc None = (pc, inl (TypeError ErrIncorrectSDPSemantics)))) /\
  (forall (E : Env) (pc : PeerConnection) remote parsed before media after,
      readyToAnswer E pc ->
      RemoteDescription pc = Some remote ->
      desc_parsed remote = Some parsed ->
      sdp.MediaDescriptions parsed = before ++ media :: after ->
      Forall (fun m => getMidValue m <> "" /\ ~ rtpSection E m) before ->
      getMidValue media = "" ->
      CreateAnswer E pc None
      = (pc, inl (PlainError
                    (Errorf "RemoteDescription contained media section without mid value")))) /\
  (forall (E : Env) (pc : PeerConnection) remote parsed,
      readyToAnswer E pc ->
      RemoteDescription pc = Some remote ->
      desc_parsed remote = Some parsed ->
      Forall (fun m => getMidValue m <> "" /\ ~ rtpSection E m)
        (sdp.MediaDescriptions parsed) ->
      exists d,
        length (sdp.MediaDescriptions d)
        = length (List.filter (answered E) (sdp.MediaDescriptions parsed)) /\
        CreateAnswer E pc None
        = match Marshal E d with
          | inl e => (pc, inl e)
          | inr text =>
              (set_lastAnswer text pc,
               inr {| desc_Type := SDPTypeAnswer; desc_SDP := text;
                      desc_parsed := Some d |})
          end).
Proof.
  split; [apply descriptionIsPlanB_spec|]. split; [|split].
  - intros E pc remote parsed Hready Hremote Hparsed Hreach.
    split; intros Hsem Hdet; eapply CreateAnswer_wrong_semantics; eauto.
  - intros E pc remote parsed before media after Hready Hremote Hparsed Hsplit
           Hbefore Hmid.
    destruct (CreateAnswer_walk E pc remote parsed Hready Hremote Hparsed)
      as (d0 & iceParams & candidates & _ & ->).
    rewrite Hsplit.
    by rewrite (answerMedias_missing_mid E pc iceParams candidates _ before media
                  after _ Hbefore Hmid).
  - intros E pc remote parsed Hready Hremote Hparsed Hall.
    destruct (CreateAnswer_walk E pc remote parsed Hready Hremote Hparsed)
      as (d0 & iceParams & candidates & Hfp & ->).
    destruct (answerMedias_passed E pc iceParams candidates
                (descriptionIsPlanB (RemoteDescription pc))
                (sdp.MediaDescriptions parsed)
                {| answer_d := d0; answer_bundleValue := "BUNDLE";
                   answer_localTransceivers := rtpTransceivers pc |} Hall)
      as [st Hwalk].
    rewrite Hwalk. eexists. split; [|reflexivity].
    apply answerMedias_success in Hwalk as (_ & _ & _ & ms & Hms & Hsections).
    apply addFingerprint_document in Hfp as (Hm0 & _).
    simpl in Hms, Hm0. rewrite Hm0 in Hms. simpl in Hms. simpl.
    rewrite Hms. symmetry. by eapply Forall2_length.
Qed.

(** A UnifiedPlan connection receives an offer whose video section has the
    mid [video]: the offer is installed and CreateAnswer refuses it.  A
    PlanB connection receives an offer whose video section has no mid: it
    is not detected Plan-B, and CreateAnswer reports the missing mid. *)
Lemma planB_detection_and_semantics_check_witness :
  let offer := describe SDPTypeOffer (remoteVideoDocument "video") in
  let pc0 := newPeerConnection (exampleConfiguration SDPSemanticsUnifiedPlan) in
  let pc := fst (SetRemoteDescription scenarioEnv pc0 offer) in
  let remote := withParsed (Some (remoteVideoDocument "video")) offer in
  let midless := describe SDPTypeOffer midlessVideoDocument in
  let planB :=
    fst (SetRemoteDescription midlessEnv
           (newPeerConnection (exampleConfiguration SDPSemanticsPlanB)) midless) in
  ((snd (SetRemoteDescription scenarioEnv pc0 offer) = None /\
    readyToAnswer scenarioEnv pc /\
    RemoteDescription pc = Some remote /\
    reachesRTPSection scenarioEnv (sdp.MediaDescriptions (remoteVideoDocument "video")) /\
    SDPSemantics_ (configuration pc) = SDPSemanticsUnifiedPlan /\
    descriptionIsPlanB (RemoteDescription pc) = true) /\
   CreateAnswer scenarioEnv pc None = (pc, inl (TypeError ErrIncorrectSDPSemantics))) /\
  ((readyToAnswer midlessEnv planB /\
    RemoteDescription planB = Some (withParsed (Some midlessVideoDocument) midless) /\
    SDPSemantics_ (configuration planB) = SDPSemanticsPlanB /\
    descriptionIsPlanB (RemoteDescription planB) = false) /\
   CreateAnswer midlessEnv planB None
   = (planB, inl (PlainError
                    (Errorf "RemoteDescription contained media section without mid value")))).
Proof.
  intros offer pc0 pc remote midless planB.
  assert (H0 : snd (SetRemoteDescription scenarioEnv pc0 offer) = None)
    by (vm_compute; reflexivity).
  assert (H1 : readyToAnswer scenarioEnv pc).
  { split; [vm_compute; reflexivity|]. split; [vm_compute; reflexivity|].
    split; [|split]; eexists; vm_compute; reflexivity. }
  assert (H2 : RemoteDescription pc = Some remote) by (vm_compute; reflexivity).
  assert (H3 : desc_parsed remote = Some (remoteVideoDocument "video")) by reflexivity.
  assert (H4 : reachesRTPSection scenarioEnv
                 (sdp.MediaDescriptions (remoteVideoDocument "video"))).
  { exists [], (remoteVideoMedia "video"), []. split; [reflexivity|].
    split; [constructor|]. split; [vm_compute; discriminate|].
    split; [|split]; vm_compute; discriminate. }
  assert (H5 : SDPSemantics_ (configuration pc) = SDPSemanticsUnifiedPlan)
    by (vm_compute; reflexivity).
  assert (H6 : descriptionIsPlanB (RemoteDescription pc) = true)
    by (vm_compute; reflexivity).
  assert (G1 : readyToAnswer midlessEnv planB).
  { split; [vm_compute; reflexivity|]. split; [vm_compute; reflexivity|].
    split; [|split]; eexists; vm_compute; reflexivity. }
  assert (G2 : RemoteDescription planB
               = Some (withParsed (Some midlessVideoDocument) midless))
    by (vm_compute; reflexivity).
  assert (G3 : SDPSemantics_ (configuration planB) = SDPSemanticsPlanB)
    by (vm_compute; reflexivity).
  assert (G4 : descriptionIsPlanB (RemoteDescription planB) = false)
    by (vm_compute; reflexivity).
  destruct planB_detection_and_semantics_check as (_ & Hcheck & Hmissing & _).
  split.
  - split; [exact (conj H0 (conj H1 (conj H2 (conj H4 (conj H5 H6)))))|].
    exact (proj1 (Hcheck scenarioEnv pc remote _ H1 H2 H3 H4) H5 H6).
  - split; [exact (conj G1 (conj G2 (conj G3 G4)))|].
    exact (Hmissing midlessEnv planB _ midlessVideoDocument [] _ [] G1 G2 eq_refl
             eq_refl (Forall_nil_2 _) eq_refl).
Defined.

(** C4 as stated fails for a remote description without an RTP section.
    A UnifiedPlan connection that receives a data-channel offer with the
    mid [data] detects Plan-B and still answers; a PlanB connection that
    receives a data-channel offer with the mid [0] does not detect Plan-B
    and answers too. *)
Lemma CreateAnswer_data_only_is_answered :
  let planBOffer := describe SDPTypeOffer planBDataOffer in
  let unifiedOffer := describe SDPTypeOffer (remoteDataDocument "0") in
  let unified :=
    fst (SetRemoteDescription scenarioEnv
           (newPeerConnection (exampleConfiguration SDPSemanticsUnifiedPlan)) planBOffer) in
  let planB :=
    fst (SetRemoteDescription scenarioEnv
           (newPeerConnection (exampleConfiguration SDPSemanticsPlanB)) unifiedOffer) in
  (SDPSemantics_ (configuration unified) = SDPSemanticsUnifiedPlan /\
   descriptionIsPlanB (RemoteDescription unified) = true /\
   exists answer, snd (CreateAnswer scenarioEnv unified None) = inr answer) /\
  (SDPSemantics_ (configuration planB) = SDPSemanticsPlanB /\
   descriptionIsPlanB (RemoteDescription planB) = false /\
   exists answer, snd (CreateAnswer scenarioEnv planB None) = inr answer).
Proof.
  vm_compute. repeat split; eexists; reflexivity.
Qed.

(** ** The id of a new data channel *)



